(** * pdm installers and uninstallers: a shallow embedding

    This development embeds the install / uninstall engine of pdm
    ([src/pdm/installers/installers.py] and
    [src/pdm/installers/uninstallers.py]) and proves properties of it.

    Conventions of the embedding.

    - Python [str] and [bytes] are Rocq [string]s.  Files are written and
      read as byte strings; [bytes.decode()] / [str.encode("utf8")] are the
      identity (ASCII content).
    - The platform is POSIX: [os.sep = "/"], [os.path.normcase] is the
      identity, [os.name <> "nt"].
    - The file system is a finite map from canonical paths (lists of
      component names, the root being the empty list) to inodes, regular
      files and directories only (no symbolic links, one device, no
      permissions).  Path strings are resolved against it component by
      component, as the kernel does.
    - Code with effects lives in a state-and-exception monad whose state
      survives a raised exception, as the disk and a Python object do.
    - Python iterates over a [set] in an unspecified order.  Wherever the
      source iterates over a set, the model takes the enumeration as an
      argument, and theorems hold for every enumeration. *)

From stdpp Require Import base option list gmap sets strings sorting.
From Stdlib Require Import Ascii.
From Stdlib Require String.

Local Open Scope stdpp_scope.

(** ** Python string primitives *)

Module Str.

Definition is_sep (a : ascii) : bool := bool_decide (a = "/"%char).

(** [s.startswith(p)] *)
Definition startswith (s p : string) : bool := String.prefix p s.

(** [s.endswith(p)]: some suffix of [s] is [p]. *)
Fixpoint endswith (s p : string) : bool :=
  bool_decide (s = p)
  || match s with
     | EmptyString => false
     | String _ r => endswith r p
     end.

(** [s.split(c)]: never the empty list. *)
Fixpoint split_on (c : ascii) (s : string) : list string :=
  match s with
  | EmptyString => [EmptyString]
  | String a r =>
      if bool_decide (a = c) then EmptyString :: split_on c r
      else match split_on c r with
           | h :: t => String a h :: t
           | [] => [String a EmptyString]
           end
  end.

(** [c.join(l)] *)
Fixpoint join (c : string) (l : list string) : string :=
  match l with
  | [] => EmptyString
  | [x] => x
  | x :: r => x +:+ c +:+ join c r
  end.

(** [s.rstrip("/")] *)
Fixpoint rstrip_sep (s : string) : string :=
  match s with
  | EmptyString => EmptyString
  | String a r =>
      match rstrip_sep r with
      | EmptyString => if is_sep a then EmptyString else String a EmptyString
      | r' => String a r'
      end
  end.

(** [(s[:i], s[i:])] for [i = s.rfind("/") + 1]. *)
Fixpoint rpartition_sep (s : string) : string * string :=
  match s with
  | EmptyString => (EmptyString, EmptyString)
  | String a r =>
      match rpartition_sep r with
      | (EmptyString, t) =>
          if is_sep a then (String a EmptyString, t)
          else (EmptyString, String a t)
      | (h, t) => (String a h, t)
      end
  end.

Definition is_space (a : ascii) : bool :=
  match a with
  | "009" | "010" | "011" | "012" | "013" | "028" | "029" | "030" | "031"
  | " " => true
  | _ => false
  end%char.

Fixpoint lstrip (s : string) : string :=
  match s with
  | String a r => if is_space a then lstrip r else s
  | EmptyString => EmptyString
  end.

(** [s.strip()] *)
Definition strip (s : string) : string :=
  String.rev (lstrip (String.rev (lstrip s))).

(** [sub in s] for a non-empty [sub]. *)
Fixpoint contains (sub s : string) : bool :=
  String.prefix sub s ||
  match s with
  | EmptyString => false
  | String _ r => contains sub r
  end.

(** The line boundaries of [str.splitlines] in the ASCII range. *)
Definition is_linebreak (a : ascii) : bool :=
  match a with
  | "010" | "011" | "012" | "013" | "028" | "029" | "030" => true
  | _ => false
  end%char.

(** [s.splitlines()]: [cur] is the line being read, reversed;
    [after_cr] tells that the previous character was a carriage return,
    whose line feed, if it follows, belongs to the same boundary. *)
Fixpoint splitlines_go (cur : string) (after_cr : bool) (s : string)
  : list string :=
  match s with
  | EmptyString =>
      match cur with EmptyString => [] | _ => [String.rev cur] end
  | String a r =>
      if after_cr && bool_decide (a = "010"%char)
      then splitlines_go cur false r
      else if is_linebreak a
      then String.rev cur
             :: splitlines_go EmptyString (bool_decide (a = "013"%char)) r
      else splitlines_go (String a cur) false r
  end.

Definition splitlines (s : string) : list string :=
  splitlines_go EmptyString false s.

(** The first line of a text file opened with universal newlines,
    without its line terminator; [None] for an empty file. *)
Fixpoint first_line_go (s : string) : string :=
  match s with
  | EmptyString => EmptyString
  | String a r =>
      if bool_decide (a = "010"%char) || bool_decide (a = "013"%char)
      then EmptyString
      else String a (first_line_go r)
  end.

Definition first_line (s : string) : option string :=
  match s with
  | EmptyString => None
  | _ => Some (first_line_go s)
  end.

(** [s[:-n]] *)
Definition drop_last (n : nat) (s : string) : string :=
  String.substring 0 (String.length s - n) s.

(** [s.readline()] of a binary file: up to and with the first line
    feed. *)
Fixpoint readline (s : string) : string :=
  match s with
  | EmptyString => EmptyString
  | String a r =>
      if bool_decide (a = "010"%char) then String a EmptyString
      else String a (readline r)
  end.

(** [(s[:i], s[i:])] for [i = s.rfind(".")], and [(s, "")] when [s] has
    no dot. *)
Fixpoint rsplit_dot (s : string) : string * string :=
  match s with
  | EmptyString => (EmptyString, EmptyString)
  | String a r =>
      match rsplit_dot r with
      | (h, EmptyString) =>
          if bool_decide (a = "."%char) then (EmptyString, s)
          else (String a h, EmptyString)
      | (h, t) => (String a h, t)
      end
  end.

Fixpoint lstrip_dots (s : string) : string :=
  match s with
  | String a r => if bool_decide (a = "."%char) then lstrip_dots r else s
  | EmptyString => EmptyString
  end.

End Str.

(** ** Exceptions and results *)

Inductive exn : Type :=
  | FileNotFoundError
  | FileExistsError
  | NotADirectoryError
  | IsADirectoryError
  | OSError
  | ShutilError
  | ValueError
  | KeyError
  | StopIteration
  | UninstallError (msg : string)
  | InvalidWheelSource (msg : string).

Inductive res (A : Type) : Type :=
  | Ok (a : A)
  | Raise (e : exn).
Arguments Ok {A} a.
Arguments Raise {A} e.

Global Instance exn_eq_dec : EqDecision exn.
Proof. solve_decision. Defined.

Global Instance res_eq_dec `{EqDecision A} : EqDecision (res A).
Proof. solve_decision. Defined.

(** ** [posixpath] *)

Module PosixPath.

Definition sep : string := "/".

(** [os.path.normcase] on POSIX. *)
Definition normcase (s : string) : string := s.

(** [os.path.isabs] *)
Definition isabs (s : string) : bool := Str.startswith s sep.

(** [os.path.split]: the head keeps its slashes only when it consists of
    slashes. *)
Definition split (p : string) : string * string :=
  let '(head, tail) := Str.rpartition_sep p in
  match Str.rstrip_sep head with
  | EmptyString => (head, tail)
  | head' => (head', tail)
  end.

Definition dirname (p : string) : string := fst (split p).
Definition basename (p : string) : string := snd (Str.rpartition_sep p).

(** [os.path.join(a, b)] *)
Definition join (a b : string) : string :=
  if Str.startswith b sep then b
  else match a with
       | EmptyString => b
       | _ => if Str.endswith a sep then a +:+ b else a +:+ sep +:+ b
       end.

(** [os.path.join(a, b, c)] *)
Definition join3 (a b c : string) : string := join (join a b) c.

(** [os.path.splitext(p)]: the extension starts at the last dot of the
    last component, leading dots aside. *)
Definition splitext (p : string) : string * string :=
  let '(_, tail) := Str.rpartition_sep p in
  match Str.rsplit_dot (Str.lstrip_dots tail) with
  | (_, EmptyString) => (p, EmptyString)
  | (_, ext) => (Str.drop_last (String.length ext) p, ext)
  end.

(** [os.path.join] applied to the members of a non-empty list. *)
Definition join_all (l : list string) : string :=
  match l with
  | [] => EmptyString
  | a :: r => foldl join a r
  end.

(** [os.path.normpath] *)
Definition normpath_step (initial_slashes : nat) (new_comps : list string)
    (comp : string) : list string :=
  if bool_decide (comp = EmptyString) || bool_decide (comp = ".") then new_comps
  else if negb (bool_decide (comp = ".."))
          || (bool_decide (initial_slashes = 0)
              && bool_decide (new_comps = []))
          || bool_decide (last new_comps = Some "..")
  then new_comps ++ [comp]
  else removelast new_comps.

Definition normpath (path : string) : string :=
  match path with
  | EmptyString => "."
  | _ =>
      let initial_slashes :=
        if Str.startswith path "/" then
          if Str.startswith path "//" && negb (Str.startswith path "///")
          then 2 else 1
        else 0 in
      let comps := Str.split_on "/" path in
      let new_comps := foldl (normpath_step initial_slashes) [] comps in
      let path := Str.join "/" new_comps in
      let path := Str.join EmptyString (replicate initial_slashes sep) +:+ path in
      match path with EmptyString => "." | _ => path end
  end.

(** [os.path.abspath], given [os.getcwd()]. *)
Definition abspath (getcwd : string) (path : string) : string :=
  normpath (if isabs path then path else join getcwd path).

Fixpoint common_prefix (l1 l2 : list string) : list string :=
  match l1, l2 with
  | a :: r1, b :: r2 =>
      if bool_decide (a = b) then a :: common_prefix r1 r2 else []
  | _, _ => []
  end.

(** [os.path.relpath(path, start)] *)
Definition relpath (getcwd : string) (path start : string)   : res string :=
  match path with
  | EmptyString => Raise ValueError
  | _ =>
      let nonempty := filter (λ x : string, x ≠ EmptyString) in
      let start_list := nonempty (Str.split_on "/" (abspath getcwd start)) in
      let path_list := nonempty (Str.split_on "/" (abspath getcwd path)) in
      let i := length (common_prefix start_list path_list) in
      let rel_list :=
        replicate (length start_list - i) ".." ++ drop i path_list in
      match rel_list with
      | [] => Ok "."
      | _ => Ok (join_all rel_list)
      end
  end.

End PosixPath.

(** ** [pathlib] *)

Module PurePath.

(** [PurePosixPath(s)] as its root (empty, ["/"] or ["//"]) and its
    remaining parts. *)
Definition parse (s : string) : string * list string :=
  let root :=
    if Str.startswith s "/" then
      if Str.startswith s "//" && negb (Str.startswith s "///")
      then "//" else "/"
    else EmptyString in
  (root, filter (λ x : string, x ≠ EmptyString ∧ x ≠ ".") (Str.split_on "/" s)).

(** [PurePosixPath(path).relative_to(base).parts]; [None] stands for the
    [ValueError] raised when [base] is no prefix of [path]. *)
Definition relative_to (path base : string) : option (list string) :=
  let '(root, parts) := parse path in
  let '(broot, bparts) := parse base in
  if bool_decide (root = broot) && bool_decide (bparts `prefix_of` parts)
  then Some (drop (length bparts) parts)
  else None.

(** [str(PurePosixPath(s))] *)
Definition to_str (s : string) : string :=
  let '(root, parts) := parse s in
  match root +:+ Str.join "/" parts with
  | EmptyString => "."
  | r => r
  end.

(** [PurePosixPath(s).stem] *)
Definition stem (s : string) : string :=
  let '(_, parts) := parse s in
  match last parts with
  | None => EmptyString
  | Some name =>
      match Str.rsplit_dot name with
      | (EmptyString, _) | (_, EmptyString) | (_, ".") => name
      | (h, _) => h
      end
  end.

End PurePath.

(** ** The file system *)

Module FS.

Inductive inode : Type :=
  | File (data : string)
  | Dir.

Global Instance inode_eq_dec : EqDecision inode.
Proof. solve_decision. Defined.

Definition is_dir (i : option inode) : bool :=
  match i with Some Dir => true | _ => false end.
Definition is_file (i : option inode) : bool :=
  match i with Some (File _) => true | _ => false end.

(** A canonical path is the list of names from the root. *)
Abbreviation path := (list string).
Abbreviation tree := (gmap (list string) inode).

Record t : Type := mk { nodes : tree; cwd : path }.

Definition with_nodes (fs : t) (tr : tree) : t :=
  {| nodes := tr; cwd := cwd fs |}.

(** Names a directory entry can have. *)
Definition valid_name (n : string) : bool :=
  negb (bool_decide (n = EmptyString)) && negb (bool_decide (n = "."))
  && negb (bool_decide (n = ".."))
  && bool_decide (Str.split_on "/" n = [n]).

(** Well-formed trees: the root is a directory, every other node sits in
    a directory and has a valid name. *)
Definition wf (tr : tree) : Prop :=
  tr !! [] = Some Dir ∧
  ∀ p n i,
    tr !! (p ++ [n]) = Some i → tr !! p = Some Dir ∧ valid_name n = true.

(** [wf], decided on the list of the nodes. *)
Definition wfb (tr : tree) : bool :=
  bool_decide (tr !! [] = Some Dir)
  && forallb (λ '(k, _),
                match last k with
                | None => true
                | Some n => is_dir (tr !! removelast k) && valid_name n
                end) (map_to_list tr).

(** *** Path resolution *)

(** Walks [comps] from the directory [cur]; every step needs the current
    node to be a directory.  The result may name a node that does not
    exist (then its parent does, and is a directory). *)
Fixpoint walk_to (tr : tree) (cur : path) (comps : list string)
  : option path :=
  match comps with
  | [] => Some cur
  | c :: rest =>
      if is_dir (tr !! cur) then
        if bool_decide (c = EmptyString) || bool_decide (c = ".")
        then walk_to tr cur rest
        else if bool_decide (c = "..")
        then walk_to tr (removelast cur) rest
        else walk_to tr (cur ++ [c]) rest
      else None
  end.

(** The error of a failed walk: [ENOTDIR] when it runs into a regular
    file, [ENOENT] otherwise. *)
Fixpoint walk_err (tr : tree) (cur : path) (comps : list string) : exn :=
  match comps with
  | [] => FileNotFoundError
  | c :: rest =>
      match tr !! cur with
      | Some Dir =>
          if bool_decide (c = EmptyString) || bool_decide (c = ".")
          then walk_err tr cur rest
          else if bool_decide (c = "..")
          then walk_err tr (removelast cur) rest
          else walk_err tr (cur ++ [c]) rest
      | Some (File _) => NotADirectoryError
      | None => FileNotFoundError
      end
  end.

Definition start (fs : t) (s : string) : path :=
  if PosixPath.isabs s then [] else cwd fs.

Definition resolve (fs : t) (s : string) : option path :=
  match s with
  | EmptyString => None
  | _ => walk_to (nodes fs) (start fs s) (Str.split_on "/" s)
  end.

Definition resolve_err (fs : t) (s : string) : exn :=
  walk_err (nodes fs) (start fs s) (Str.split_on "/" s).

(** Resolution of the target of [mkdir] or [rename]: trailing slashes
    are allowed on a name that does not exist yet. *)
Definition resolve_new (fs : t) (s : string) : option path :=
  match Str.rstrip_sep s with
  | EmptyString => resolve fs s
  | s' => resolve fs s'
  end.

Definition stat (fs : t) (s : string) : option inode :=
  p ← resolve fs s; nodes fs !! p.

(** [os.path.exists], [os.path.isdir], [os.path.isfile] *)
Definition exists_ (fs : t) (s : string) : bool :=
  bool_decide (is_Some (stat fs s)).
Definition isdir (fs : t) (s : string) : bool := is_dir (stat fs s).
Definition isfile (fs : t) (s : string) : bool := is_file (stat fs s).

(** *** Subtrees *)

(** The entries of the directory [p]: names and inodes. *)
Definition children (tr : tree) (p : path) : list (string * inode) :=
  omap (λ '(k, i),
          match last k with
          | Some n => if bool_decide (k = p ++ [n]) then Some (n, i) else None
          | None => None
          end) (map_to_list tr).

Definition has_children (tr : tree) (p : path) : bool :=
  match children tr p with [] => false | _ => true end.

(** Everything at or below [p], keyed by the path relative to [p]. *)
Definition subtree (tr : tree) (p : path) : list (path * inode) :=
  omap (λ '(k, i),
          if bool_decide (p `prefix_of` k)
          then Some (drop (length p) k, i) else None) (map_to_list tr).

Definition remove_tree (tr : tree) (p : path) : tree :=
  filter (λ ki, ¬ p `prefix_of` ki.1) tr.

Definition graft (tr : tree) (p : path) (sub : list (path * inode)) : tree :=
  list_to_map (prod_map (app p) id <$> sub) ∪ tr.

Definition move_tree (tr : tree) (src dst : path) : tree :=
  graft (remove_tree tr src) dst (subtree tr src).

(** *** System calls *)

(** [open(s, "rb").read()] *)
Definition read (fs : t) (s : string)   : res string :=
  match stat fs s with
  | Some (File d) => Ok d
  | Some Dir => Raise IsADirectoryError
  | None => Raise (resolve_err fs s)
  end.

(** [open(s, "wb").write(d)] *)
Definition write (fs : t) (s d : string) : res t :=
  match resolve fs s with
  | Some p =>
      match nodes fs !! p with
      | Some Dir => Raise IsADirectoryError
      | _ => Ok (with_nodes fs (<[p := File d]> (nodes fs)))
      end
  | None => Raise (resolve_err fs s)
  end.

(** [os.unlink] *)
Definition unlink (fs : t) (s : string) : res t :=
  match resolve fs s with
  | Some p =>
      match nodes fs !! p with
      | Some (File _) => Ok (with_nodes fs (delete p (nodes fs)))
      | Some Dir => Raise IsADirectoryError
      | None => Raise FileNotFoundError
      end
  | None => Raise (resolve_err fs s)
  end.

(** [os.mkdir] *)
Definition mkdir (fs : t) (s : string) : res t :=
  match resolve_new fs s with
  | Some p =>
      match nodes fs !! p with
      | Some _ => Raise FileExistsError
      | None => Ok (with_nodes fs (<[p := Dir]> (nodes fs)))
      end
  | None => Raise (resolve_err fs s)
  end.

(** [os.rmdir] *)
Definition rmdir (fs : t) (s : string) : res t :=
  match resolve fs s with
  | Some p =>
      match nodes fs !! p with
      | Some Dir =>
          if bool_decide (p = []) || has_children (nodes fs) p
             || bool_decide (PosixPath.basename s = ".")
          then Raise OSError
          else Ok (with_nodes fs (delete p (nodes fs)))
      | Some (File _) => Raise NotADirectoryError
      | None => Raise FileNotFoundError
      end
  | None => Raise (resolve_err fs s)
  end.

(** [shutil.rmtree] *)
Definition rmtree (fs : t) (s : string) : res t :=
  match resolve fs s with
  | Some p =>
      match nodes fs !! p with
      | Some Dir =>
          if bool_decide (p = []) then Raise OSError
          else Ok (with_nodes fs (remove_tree (nodes fs) p))
      | Some (File _) => Raise NotADirectoryError
      | None => Raise FileNotFoundError
      end
  | None => Raise (resolve_err fs s)
  end.

(** [os.rename] on one device. *)
Definition rename (fs : t) (src dst : string) : res t :=
  match resolve fs src with
  | None => Raise (resolve_err fs src)
  | Some ps =>
      match nodes fs !! ps with
      | None => Raise FileNotFoundError
      | Some (File d) =>
          match resolve fs dst with
          | None => Raise (resolve_err fs dst)
          | Some pd =>
              match nodes fs !! pd with
              | Some Dir => Raise IsADirectoryError
              | _ =>
                  if bool_decide (ps = pd) then Ok fs
                  else Ok (with_nodes fs
                             (<[pd := File d]> (delete ps (nodes fs))))
              end
          end
      | Some Dir =>
          match resolve_new fs dst with
          | None => Raise (resolve_err fs dst)
          | Some pd =>
              if bool_decide (ps = pd) then Ok fs
              else if bool_decide (ps `prefix_of` pd) then Raise OSError
              else
                match nodes fs !! pd with
                | Some (File _) => Raise NotADirectoryError
                | Some Dir =>
                    if has_children (nodes fs) pd || bool_decide (pd = [])
                    then Raise OSError
                    else Ok (with_nodes fs (move_tree (nodes fs) ps pd))
                | None => Ok (with_nodes fs (move_tree (nodes fs) ps pd))
                end
          end
      end
  end.

End FS.

(** ** State and exceptions *)

(** A computation over a state [S]: it returns or raises, and leaves a
    state behind in both cases. *)
Definition M (S A : Type) : Type := S → res A * S.

Definition ret {S A} (a : A) : M S A := λ s, (Ok a, s).

Definition bind {S A B} (m : M S A) (k : A → M S B) : M S B :=
  λ s, match m s with
       | (Ok a, s') => k a s'
       | (Raise e, s') => (Raise e, s')
       end.

Definition raise {S A} (e : exn) : M S A := λ s, (Raise e, s).

Definition gets {S A} (f : S → A) : M S A := λ s, (Ok (f s), s).

Definition modify {S} (f : S → S) : M S unit := λ s, (Ok tt, f s).

(** [try: m except <classes>: h] *)
Definition try_except {S A} (m : M S A) (handled : exn → bool)
    (h : M S A) : M S A :=
  λ s, match m s with
       | (Raise e, s') => if handled e then h s' else (Raise e, s')
       | r => r
       end.

(** Running a computation on a component of the state. *)
Definition zoom {S T A} (proj : S → T) (inj : S → T → S) (m : M T A)
  : M S A :=
  λ s, let '(r, t') := m (proj s) in (r, inj s t').

Declare Scope pdm_scope.
Delimit Scope pdm_scope with pdm.
Notation "x <- m ;; k" := (bind m (λ x, k))
  (at level 20, m at level 99, k at level 200, only parsing) : pdm_scope.
Notation "' pat <- m ;; k" := (bind m (λ x, match x with pat => k end))
  (at level 20, pat pattern, m at level 99, k at level 200, only parsing)
  : pdm_scope.
Notation "m ;; k" := (bind m (λ _, k))
  (at level 100, k at level 200, only parsing, right associativity)
  : pdm_scope.
Local Open Scope pdm_scope.

(** [for x in l: body(x)] *)
Fixpoint for_each {S A} (l : list A) (body : A → M S unit) : M S unit :=
  match l with
  | [] => ret tt
  | x :: r => body x ;; for_each r body
  end.

Definition when {S} (b : bool) (m : M S unit) : M S unit :=
  if b then m else ret tt.

(** [OSError] and its subclasses. *)
Definition is_OSError (e : exn) : bool :=
  match e with
  | FileNotFoundError | FileExistsError | NotADirectoryError
  | IsADirectoryError | OSError | ShutilError => true
  | _ => false
  end.

Definition is_FileExistsError (e : exn) : bool :=
  bool_decide (e = FileExistsError).
Definition is_FileNotFoundError (e : exn) : bool :=
  bool_decide (e = FileNotFoundError).

(** ** [os], [shutil] and [tempfile] over the file system *)

Module Os.

Import PosixPath.

(** A system call: atomic, the file system is unchanged when it fails. *)
Definition syscall (f : FS.t → res FS.t) : M FS.t unit :=
  λ fs, match f fs with
        | Ok fs' => (Ok tt, fs')
        | Raise e => (Raise e, fs)
        end.

Definition query {A} (f : FS.t → res A) : M FS.t A :=
  λ fs, (f fs, fs).

Definition getcwd (fs : FS.t) : string := sep +:+ Str.join sep (FS.cwd fs).

Definition unlink (s : string) : M FS.t unit := syscall (λ fs, FS.unlink fs s).
Definition mkdir (s : string) : M FS.t unit := syscall (λ fs, FS.mkdir fs s).
Definition rmdir (s : string) : M FS.t unit := syscall (λ fs, FS.rmdir fs s).
Definition rename (src dst : string) : M FS.t unit :=
  syscall (λ fs, FS.rename fs src dst).
Definition rmtree (s : string) : M FS.t unit := syscall (λ fs, FS.rmtree fs s).
Definition read (s : string) : M FS.t string := query (λ fs, FS.read fs s).
Definition write (s d : string) : M FS.t unit :=
  syscall (λ fs, FS.write fs s d).

(** [os.path.split(name)], once more on the head when the tail is
    empty: the first lines of [os.makedirs] and [os.removedirs]. *)
Definition split_skip (name : string) : string * string :=
  let '(head, tail) := split name in
  match tail with
  | EmptyString => split head
  | _ => (head, tail)
  end.

(** [os.makedirs(name)], with [exist_ok=False].  The recursion of the
    library is on the head of the name; [fuel] bounds it by the length
    of the name. *)
Fixpoint makedirs_go (fuel : nat) (name : string) : M FS.t unit :=
  match fuel with
  | 0 => raise OSError
  | S fuel =>
      let '(head, tail) := split_skip name in
      parents_exist <- gets (λ fs, FS.exists_ fs head) ;;
      if negb (bool_decide (head = EmptyString))
         && negb (bool_decide (tail = EmptyString)) && negb parents_exist
      then
        try_except (makedirs_go fuel head) is_FileExistsError (ret tt) ;;
        if bool_decide (tail = ".") then ret tt else mkdir name
      else mkdir name
  end.

Definition makedirs (name : string) : M FS.t unit :=
  makedirs_go (S (String.length name)) name.

(** The loop of [os.removedirs]: prune empty parents until one cannot
    be removed. *)
Fixpoint removedirs_go (fuel : nat) (head tail : string) : M FS.t unit :=
  match fuel with
  | 0 => ret tt
  | S fuel =>
      if negb (bool_decide (head = EmptyString))
         && negb (bool_decide (tail = EmptyString))
      then
        λ fs, match rmdir head fs with
              | (Ok _, fs') =>
                  let '(head', tail') := split head in
                  removedirs_go fuel head' tail' fs'
              | (Raise e, fs') =>
                  if is_OSError e then (Ok tt, fs') else (Raise e, fs')
              end
      else ret tt
  end.

(** [os.removedirs(name)] *)
Definition removedirs (name : string) : M FS.t unit :=
  rmdir name ;;
  let '(head, tail) := split_skip name in
  removedirs_go (S (String.length name)) head tail.

(** [os.path.samefile], [False] when either path is missing. *)
Definition samefile (fs : FS.t) (a b : string) : bool :=
  match FS.resolve fs a, FS.resolve fs b with
  | Some pa, Some pb =>
      bool_decide (pa = pb) && bool_decide (is_Some (FS.nodes fs !! pa))
  | _, _ => false
  end.

(** [shutil._basename] *)
Definition _basename (s : string) : string := basename (Str.rstrip_sep s).

(** [shutil._destinsrc] *)
Definition _destinsrc (fs : FS.t) (src dst : string) : bool :=
  let with_sep s := if Str.endswith s sep then s else s +:+ sep in
  Str.startswith (with_sep (abspath (getcwd fs) dst))
                 (with_sep (abspath (getcwd fs) src)).

(** [shutil.copytree(src, dst)] of a directory: the destination is made
    with its missing parents, then filled. *)
Definition copytree (src dst : string) : M FS.t unit :=
  makedirs dst ;;
  λ fs, match FS.resolve fs src, FS.resolve fs dst with
        | Some ps, Some pd =>
            (Ok tt, FS.with_nodes fs
                      (FS.graft (FS.nodes fs) pd (FS.subtree (FS.nodes fs) ps)))
        | _, _ => (Raise FileNotFoundError, fs)
        end.

(** [shutil.copy2(src, dst)] where [dst] is no directory. *)
Definition copy2 (src dst : string) : M FS.t unit :=
  d <- read src ;; write dst d.

(** [shutil.move(src, dst)].  [os.rename] always works across the one
    device of the model; the fallback by copy runs when it fails for
    another reason. *)
Definition move (src dst : string) : M FS.t unit :=
  dst_is_dir <- gets (λ fs, FS.isdir fs dst) ;;
  same <- gets (λ fs, samefile fs src dst) ;;
  if dst_is_dir && same then rename src dst
  else
    let real_dst := if dst_is_dir then join dst (_basename src) else dst in
    taken <- gets (λ fs, FS.exists_ fs real_dst) ;;
    if dst_is_dir && taken then raise ShutilError
    else
      try_except (rename src real_dst) is_OSError
        (src_is_dir <- gets (λ fs, FS.isdir fs src) ;;
         if src_is_dir : bool then
           inside <- gets (λ fs, _destinsrc fs src dst) ;;
           if inside : bool then raise ShutilError
           else copytree src real_dst ;; rmtree src
         else copy2 src real_dst ;; unlink src).

(** [os.walk(top)], top-down order aside: one triple per directory at
    or below [top], named as the library names it (by joining the
    names of the entries onto [top]), with the names of its
    sub-directories and of its files.  Nothing for a [top] that is no
    directory. *)
Definition walk (fs : FS.t) (top : string)
  : list (string * list string * list string) :=
  match FS.resolve fs top with
  | Some r =>
      if FS.is_dir (FS.nodes fs !! r) then
        omap (λ '(k, i),
                match i with
                | FS.Dir =>
                    if bool_decide (r `prefix_of` k) then
                      let entries := FS.children (FS.nodes fs) k in
                      Some (foldl join top (drop (length r) k),
                            omap (λ '(n, i), match i with
                                             | FS.Dir => Some n
                                             | _ => None
                                             end) entries,
                            omap (λ '(n, i), match i with
                                             | FS.File _ => Some n
                                             | _ => None
                                             end) entries)
                    else None
                | _ => None
                end) (map_to_list (FS.nodes fs))
      else []
  | None => []
  end.

End Os.

(** ** The world outside the Python objects *)

(** [referrers] is the referrer ledger of every shared cache entry, by the
    entry's directory. *)
Record world : Type := mkWorld {
  fs : FS.t;
  tmpdir : string;                      (* tempfile.gettempdir() *)
  rand : list string;                   (* the next random names of tempfile *)
  log : list (string * string);         (* termui.logger: level, message *)
  referrers : gmap string (gset string)
}.

Definition set_fs (w : world) (f : FS.t) : world :=
  {| fs := f; tmpdir := tmpdir w; rand := rand w; log := log w;
     referrers := referrers w |}.
Definition set_rand (r : list string) (w : world) : world :=
  {| fs := fs w; tmpdir := tmpdir w; rand := r; log := log w;
     referrers := referrers w |}.
Definition add_log (level msg : string) (w : world) : world :=
  {| fs := fs w; tmpdir := tmpdir w; rand := rand w;
     log := log w ++ [(level, msg)]; referrers := referrers w |}.
Definition set_referrers (r : gmap string (gset string)) (w : world) : world :=
  {| fs := fs w; tmpdir := tmpdir w; rand := rand w; log := log w;
     referrers := r |}.

(** A file-system computation run in the world. *)
Definition os {A} (m : M FS.t A) : M world A := zoom fs set_fs m.

Definition logger (level msg : string) : M world unit :=
  modify (add_log level msg).

Module Tempfile.

(** The loop of [tempfile.mkdtemp]: candidate names are tried until a
    directory can be made. *)
Fixpoint mkdtemp_go (names : list string) (suffix prefix dir : string)
  : M world string :=
  match names with
  | [] => raise FileExistsError
  | name :: rest =>
      modify (set_rand rest) ;;
      let file := PosixPath.join dir (prefix +:+ name +:+ suffix) in
      try_except (os (Os.mkdir file) ;; ret file) is_FileExistsError
        (mkdtemp_go rest suffix prefix dir)
  end.

(** [TemporaryDirectory(suffix, prefix).name] *)
Definition TemporaryDirectory (suffix prefix : string) : M world string :=
  names <- gets rand ;;
  dir <- gets tmpdir ;;
  mkdtemp_go names suffix prefix dir.

(** [TemporaryDirectory.cleanup] *)
Definition cleanup (name : string) : M world unit := os (Os.rmtree name).

End Tempfile.

(** Modelled from the spec: [pdm.installers.packages.CachedPackage], whose
    source is not part of the files at hand.  The spec gives it a scheme
    rooted at the cache entry's own directory and a referrer ledger that
    [add-referrer] and [remove-referrer] mutate. *)
Module CachedPackage.

Definition scheme (path : string) : gmap string string :=
  list_to_map
    ((λ name, (name, PosixPath.join path name))
       <$> ["prefix"; "purelib"; "platlib"; "scripts"; "data"; "headers"]).

Definition add_referrer (path referrer : string) : M world unit :=
  modify (λ w, set_referrers
                 (<[path := {[referrer]} ∪ referrers w !!! path]>
                    (referrers w)) w).

Definition remove_referrer (path referrer : string) : M world unit :=
  modify (λ w, set_referrers
                 (<[path := referrers w !!! path ∖ {[referrer]}]>
                    (referrers w)) w).

End CachedPackage.

(** ** [pdm.installers.uninstallers] *)

Module Uninstallers.

Import PosixPath.

(** What the code reads of a [pkg_resources.Distribution]:
    [is_dist_editable(dist)], the first column of the rows of [RECORD],
    the listing of the [scripts] metadata directory when there is one,
    and the names of the entry points of both groups. *)
Record Distribution : Type := {
  project_name : string;
  location : string;
  is_dist_editable : bool;
  record_filenames : list string;
  metadata_scripts : option (list string);
  console_scripts : list string;
  gui_scripts : list string
}.

(** The fields of a [StashedRemovePaths] instance; [envrionment] is the
    result of [envrionment.get_paths()]. *)
Record StashedRemovePaths : Type := {
  dist : Distribution;
  envrionment : gmap string string;
  _paths : gset string;
  _pth_entries : gset string;
  refer_to : option string;
  _pth_file : string;
  _saved_pth : option string;
  _stashed : list (string * string);
  _tempdirs : list (string * string)
}.

Definition set_paths (f : gset string → gset string) (o : StashedRemovePaths) :=
  {| dist := dist o; envrionment := envrionment o; _paths := f (_paths o);
     _pth_entries := _pth_entries o; refer_to := refer_to o;
     _pth_file := _pth_file o; _saved_pth := _saved_pth o;
     _stashed := _stashed o; _tempdirs := _tempdirs o |}.
Definition set_pth_entries (f : gset string → gset string)
    (o : StashedRemovePaths) :=
  {| dist := dist o; envrionment := envrionment o; _paths := _paths o;
     _pth_entries := f (_pth_entries o); refer_to := refer_to o;
     _pth_file := _pth_file o; _saved_pth := _saved_pth o;
     _stashed := _stashed o; _tempdirs := _tempdirs o |}.
Definition set_refer_to (r : option string) (o : StashedRemovePaths) :=
  {| dist := dist o; envrionment := envrionment o; _paths := _paths o;
     _pth_entries := _pth_entries o; refer_to := r;
     _pth_file := _pth_file o; _saved_pth := _saved_pth o;
     _stashed := _stashed o; _tempdirs := _tempdirs o |}.
Definition set_saved_pth (d : option string) (o : StashedRemovePaths) :=
  {| dist := dist o; envrionment := envrionment o; _paths := _paths o;
     _pth_entries := _pth_entries o; refer_to := refer_to o;
     _pth_file := _pth_file o; _saved_pth := d;
     _stashed := _stashed o; _tempdirs := _tempdirs o |}.
Definition set_stashed (l : list (string * string)) (o : StashedRemovePaths) :=
  {| dist := dist o; envrionment := envrionment o; _paths := _paths o;
     _pth_entries := _pth_entries o; refer_to := refer_to o;
     _pth_file := _pth_file o; _saved_pth := _saved_pth o;
     _stashed := l; _tempdirs := _tempdirs o |}.
Definition set_tempdirs (l : list (string * string)) (o : StashedRemovePaths) :=
  {| dist := dist o; envrionment := envrionment o; _paths := _paths o;
     _pth_entries := _pth_entries o; refer_to := refer_to o;
     _pth_file := _pth_file o; _saved_pth := _saved_pth o;
     _stashed := _stashed o; _tempdirs := l |}.

(** The state of a method call: the world and the instance. *)
Record state : Type := mkState { w : world; self : StashedRemovePaths }.

(** The state with another file system. *)
Definition on_fs (s : state) (f : FS.t) : state :=
  {| w := set_fs (w s) f; self := self s |}.

Definition in_world {A} (m : M world A) : M state A :=
  zoom w (λ s w', {| w := w'; self := self s |}) m.
Definition sys {A} (m : M FS.t A) : M state A := in_world (os m).
Definition update (f : StashedRemovePaths → StashedRemovePaths) : M state unit :=
  modify (λ s, {| w := w s; self := f (self s) |}).
Definition field {A} (f : StashedRemovePaths → A) : M state A :=
  gets (λ s, f (self s)).
Definition probe {A} (f : FS.t → A) : M state A :=
  gets (λ s, f (fs (w s))).

(** [mapping[key]] on a [dict]. *)
Definition getitem {S} (d : gmap string string) (key : string) : M S string :=
  match d !! key with
  | Some v => ret v
  | None => raise KeyError
  end.

(** [get_egg_link_path] *)
Definition get_egg_link_path (fs : FS.t) (dist : Distribution)
    (site_packages : string) : option string :=
  let egglink := join site_packages (project_name dist) +:+ ".egg-link" in
  if FS.isfile fs egglink then Some egglink else None.

(** [renames] *)
Definition renames (old new : string) : M FS.t unit :=
  let '(head, tail) := split new in
  head_exists <- gets (λ fs, FS.exists_ fs head) ;;
  when (negb (bool_decide (head = EmptyString))
        && negb (bool_decide (tail = EmptyString)) && negb head_exists)
    (Os.makedirs head) ;;
  Os.move old new ;;
  let '(head, tail) := split old in
  when (negb (bool_decide (head = EmptyString))
        && negb (bool_decide (tail = EmptyString)))
    (try_except (Os.removedirs head) is_OSError (ret tt)).

(** [sorted(l, key=len)]: a stable insertion sort. *)
Fixpoint insert_by_len (x : string) (l : list string) : list string :=
  match l with
  | [] => [x]
  | y :: r =>
      if bool_decide (String.length y < String.length x)
      then y :: insert_by_len x r
      else x :: l
  end.

Definition sorted_by_len (l : list string) : list string :=
  foldr insert_by_len [] l.

(** [norm_join], local to [compress_for_rename] *)
Definition norm_join (a b c : string) : string := normcase (join3 a b c).

Section Iteration.

(** The order in which Python iterates over a set. *)
Variable iter : gset string → list string.

(** The first loop over [os.walk(root)]: the sub-directories and the
    files found under [root]. *)
Definition walk_sets (fs : FS.t) (root : string) : gset string * gset string :=
  foldl (λ '(all_files, all_subdirs) '(dirname, subdirs, files),
           (all_files ∪ list_to_set (norm_join root dirname <$> files),
            all_subdirs ∪ list_to_set (norm_join root dirname <$> subdirs)))
        (∅, ∅) (Os.walk fs root).

(** The body of the loop over [unchecked]; the state is [remaining]
    and [wildcards]. *)
Definition compress_step (fs : FS.t) (st : gset string * gset string)
    (root : string) : gset string * gset string :=
  let '(remaining, wildcards) := st in
  if existsb (λ w, Str.startswith (normcase root) w) (elements wildcards)
  then st
  else
    let '(all_files, all_subdirs) := walk_sets fs root in
    if bool_decide (all_files ∖ remaining = ∅)
    then (remaining ∖ all_files, wildcards ∪ {[root +:+ sep]})
    else st.

(** [compress_for_rename] *)
Definition compress_for_rename (fs : FS.t) (paths : gset string)
  : gset string :=
  let case_map : gmap string string :=
    list_to_map ((λ p, (normcase p, p)) <$> reverse (iter paths)) in
  let remaining : gset string := dom case_map in
  let unchecked :=
    sorted_by_len
      (iter (list_to_set ((λ p, fst (split p)) <$> (snd <$> map_to_list case_map)))) in
  let '(remaining, wildcards) :=
    foldl (compress_step fs) (remaining, ∅) unchecked in
  set_map (λ k, case_map !!! k) remaining ∪ wildcards.

(** [_get_file_root] *)
Definition _get_file_root (path base : string) : option string :=
  match PurePath.relative_to path base with
  | None => None
  | Some parts =>
      let root := match parts with
                  | r :: _ :: _ => r
                  | _ => EmptyString
                  end in
      Some (normcase (join base root))
  end.

(** [StashedRemovePaths._remove_pth] *)
Definition list_remove (item : string) (lines : list string)
  : res (list string) :=
  match list_find (λ x, x = item) lines with
  | Some (i, _) => Ok (delete i lines)
  | None => Raise ValueError
  end.

Fixpoint remove_items (items : list string) (lines : list string)
  : M state (list string) :=
  match items with
  | [] => ret lines
  | item :: rest =>
      in_world (logger "debug" ("Removing pth entry: " +:+ item)) ;;
      match list_remove item lines with
      | Ok lines' => remove_items rest lines'
      | Raise e => raise e
      end
  end.

Definition _remove_pth : M state unit :=
  entries <- field _pth_entries ;;
  if bool_decide (entries = ∅) then ret tt
  else
    pth_file <- field _pth_file ;;
    saved <- sys (Os.read pth_file) ;;
    update (set_saved_pth (Some saved)) ;;
    let endline :=
      if Str.contains (String "013" (String "010" EmptyString)) saved
      then String "013" (String "010" EmptyString)
      else String "010" EmptyString in
    lines <- remove_items (iter entries) (Str.splitlines saved) ;;
    sys (Os.write pth_file (Str.join endline lines +:+ endline)).

(** The body of the loop of [_stash_files]. *)
Definition stash_one (old_path : string) : M state unit :=
  present <- probe (λ fs, FS.exists_ fs old_path) ;;
  if negb present then ret tt
  else
    is_dir <- probe (λ fs, FS.isdir fs old_path) ;;
    in_world (logger "debug"
                ("Removing " +:+ (if is_dir : bool then "directory" else "file")
                 +:+ " " +:+ old_path)) ;;
    when (Str.endswith old_path ".pyc") (sys (Os.unlink old_path)) ;;
    env <- field envrionment ;;
    prefix <- getitem env "prefix" ;;
    cwd <- probe Os.getcwd ;;
    match _get_file_root old_path (abspath cwd prefix) with
    | None =>
        in_world (logger "debug"
                    ("File path " +:+ old_path
                     +:+ " is not under packages root, skip"))
    | Some root =>
        tempdirs <- field _tempdirs ;;
        new_root <-
          match list_find (λ kv, kv.1 = root) tempdirs with
          | Some (_, (_, name)) => ret name
          | None =>
              name <- in_world (Tempfile.TemporaryDirectory "-uninstall" "pdm-") ;;
              update (set_tempdirs (tempdirs ++ [(root, name)])) ;;
              ret name
          end ;;
        cwd <- probe Os.getcwd ;;
        match relpath cwd old_path root with
        | Raise e => raise e
        | Ok rel =>
            let new_path := join new_root rel in
            new_is_dir <- probe (λ fs, FS.isdir fs new_path) ;;
            when (is_dir && new_is_dir) (sys (Os.rmdir new_path)) ;;
            sys (renames old_path new_path) ;;
            stashed <- field _stashed ;;
            update (set_stashed (stashed ++ [(old_path, new_path)]))
        end
    end.

(** [StashedRemovePaths._stash_files] *)
Definition _stash_files : M state unit :=
  paths <- field _paths ;;
  paths_to_rename <- probe (λ fs, compress_for_rename fs paths) ;;
  for_each (iter paths_to_rename) stash_one.

(** [StashedRemovePaths.remove] *)
Definition remove : M state unit :=
  _remove_pth ;; _stash_files.

(** [StashedRemovePaths.commit] *)
Definition commit : M state unit :=
  tempdirs <- field _tempdirs ;;
  for_each tempdirs
    (λ kv, try_except (in_world (Tempfile.cleanup kv.2))
             is_FileNotFoundError (ret tt)) ;;
  update (set_tempdirs []) ;;
  update (set_stashed []) ;;
  update (set_saved_pth None) ;;
  r <- field refer_to ;;
  match r with
  | Some (String a s as refer_to) =>
      in_world (logger "debug" ("Unlink from cached package " +:+ refer_to)) ;;
      in_world (CachedPackage.remove_referrer refer_to (dirname refer_to))
  | _ => ret tt
  end.

(** The body of the loop of [rollback]. *)
Definition restore_one (pair : string * string) : M state unit :=
  let '(old_path, new_path) := pair in
  in_world (logger "debug"
              ("Rollback " +:+ old_path +:+ String "010" " from " +:+ new_path)) ;;
  old_is_file <- probe (λ fs, FS.isfile fs old_path) ;;
  old_is_dir <- probe (λ fs, FS.isdir fs old_path) ;;
  (if old_is_file : bool then sys (Os.unlink old_path)
   else if old_is_dir : bool then sys (Os.rmtree old_path)
   else ret tt) ;;
  sys (renames new_path old_path).

(** [StashedRemovePaths.rollback] *)
Definition rollback : M state unit :=
  stashed <- field _stashed ;;
  match stashed with
  | [] => in_world (logger "error" "Can't rollback, not uninstalled yet")
  | _ =>
      saved <- field _saved_pth ;;
      match saved with
      | Some data =>
          pth_file <- field _pth_file ;;
          sys (Os.write pth_file data)
      | None => ret tt
      end ;;
      for_each stashed restore_one ;;
      commit
  end.

End Iteration.

(** [_script_names]: the wrappers with a suffix belong to Windows. *)
Definition _script_names (script_name : string) (is_gui : bool) : list string :=
  [script_name].

(** [glob.glob(os.path.join(cache_dir, stem + ".*.pyc"))], for a [stem]
    and a directory without glob metacharacters: the entries of the
    directory whose name starts with [stem + "."] and goes on with a
    run of characters ending in [".pyc"]; names with a leading dot
    match only when the pattern has one. *)
Definition glob_pyc (fs : FS.t) (cache_dir stem : string) : list string :=
  match FS.resolve fs cache_dir with
  | Some d =>
      omap (λ '(n, _),
              if Str.startswith n (stem +:+ ".") && Str.endswith n ".pyc"
                 && bool_decide (String.length stem + 5 ≤ String.length n)
                 && (negb (Str.startswith n ".")
                     || Str.startswith (stem +:+ ".*.pyc") ".")
              then Some (join cache_dir n) else None)
           (FS.children (FS.nodes fs) d)
  | None => []
  end.

(** [_cache_file_from_source] *)
Definition _cache_file_from_source (fs : FS.t) (py_file : string)
  : list string :=
  let py2_cache := Str.drop_last 3 py_file +:+ ".pyc" in
  let '(parent, base) := split py_file in
  let cache_dir := join parent "__pycache__" in
  (if FS.isfile fs py2_cache then [py2_cache] else [])
  ++ glob_pyc fs cache_dir (Str.drop_last 3 base).

(** [os.path.expanduser] of a path that does not start with a tilde. *)
Definition expanduser (path : string) : string := path.

(** [BaseRemovePaths.add_pth] *)
Definition add_pth (line : string) : M state unit :=
  update (set_pth_entries (λ e, e ∪ {[line]})).

(** [BaseRemovePaths.add_path] *)
Definition add_path (path : string) : M state unit :=
  cwd <- probe Os.getcwd ;;
  let path := normcase (expanduser (abspath cwd path)) in
  update (set_paths (λ ps, ps ∪ {[path]})) ;;
  if Str.endswith path ".py" then
    caches <- probe (λ fs, _cache_file_from_source fs path) ;;
    update (set_paths (λ ps, ps ∪ list_to_set caches))
  else if bool_decide (basename path = "REFER_TO") then
    data <- sys (Os.read path) ;;
    match Str.strip (Str.readline data) with
    | EmptyString => ret tt
    | line => update (set_refer_to (Some line))
    end
  else ret tt.

(** [StashedRemovePaths.__init__] *)
Definition init (dist : Distribution) (environment : gmap string string)
  : M world StashedRemovePaths :=
  purelib <- getitem environment "purelib" ;;
  ret {| dist := dist; envrionment := environment; _paths := ∅;
         _pth_entries := ∅; refer_to := None;
         _pth_file := join purelib "easy-install.pth";
         _saved_pth := None; _stashed := []; _tempdirs := [] |}.

(** The body of [BaseRemovePaths.from_dist] after the instance is made. *)
Definition fill_from_dist (dist : Distribution) (scheme : gmap string string)
  : M state unit :=
  (if is_dist_editable dist then
     purelib <- getitem scheme "purelib" ;;
     egg_link <- probe (λ fs, get_egg_link_path fs dist purelib) ;;
     match egg_link with
     | None =>
         in_world (logger "warn"
                     ("No egg link is found for editable distribution "
                      +:+ project_name dist +:+ ", do nothing."))
     | Some egg_link_path =>
         text <- sys (Os.read egg_link_path) ;;
         match Str.first_line text with
         | None => raise StopIteration
         | Some line =>
             let link_pointer := normcase (Str.strip line) in
             if negb (bool_decide (link_pointer = location dist)) then
               raise (UninstallError
                        ("The link pointer in " +:+ egg_link_path
                         +:+ " doesn't match the location of "
                         +:+ project_name dist +:+ "(at "
                         +:+ location dist))
             else
               add_path egg_link_path ;;
               add_pth link_pointer
         end
     end
   else
     for_each (record_filenames dist)
       (λ filename,
          let location := join (location dist) filename in
          add_path location ;;
          let '(bare_name, ext) := splitext location in
          when (bool_decide (ext = ".py")) (add_path (bare_name +:+ ".pyo")))) ;;
  bin_dir <- getitem scheme "scripts" ;;
  match metadata_scripts dist with
  | Some scripts =>
      for_each scripts (λ script, add_path (join bin_dir script))
  | None => ret tt
  end ;;
  let _scripts_to_remove :=
    (console_scripts dist ≫= λ name, _script_names name false)
    ++ (gui_scripts dist ≫= λ name, _script_names name true) in
  for_each _scripts_to_remove (λ s, add_path (join bin_dir s)).

(** [StashedRemovePaths.from_dist] *)
Definition from_dist (dist : Distribution) (envrionment : gmap string string)
  : M world StashedRemovePaths :=
  instance <- init dist envrionment ;;
  λ w0, let '(r, s) := fill_from_dist dist envrionment
                         {| w := w0; self := instance |} in
        (match r with Ok _ => Ok (self s) | Raise e => Raise e end, w s).

End Uninstallers.

(** ** [pdm.installers.installers] *)

Module Installers.

Import PosixPath.

(** [installer.records.RecordEntry] *)
Record RecordEntry : Type := {
  entry_path : string;
  entry_hash : option string;
  entry_size : option nat
}.

(** What the code reads of an opened wheel: the names of the zip
    archive, the directory names the library derives from the file name
    ([{distribution}-{version}.dist-info] and
    [{distribution}-{version}.data]), the files of the archive with
    their bytes in the order of [get_contents()], and the root scheme
    that [_process_WHEEL_file] finds in the [WHEEL] file. *)
Record WheelFile : Type := {
  namelist : list string;
  canonical_dist_info_dir : string;
  data_dir : string;
  get_contents : list (string * string);
  root_scheme : string
}.

(** [name.split("/")[0]] *)
Definition top_level (name : string) : string :=
  match Str.split_on "/" name with
  | t :: _ => t
  | [] => EmptyString
  end.

(** [WheelFile.dist_info_dir] *)
Definition dist_info_dir (source : WheelFile) : res string :=
  match list_find (λ name, Str.endswith (top_level name) ".dist-info" = true)
                  (namelist source) with
  | Some (_, name) => Ok (top_level name)
  | None =>
      let canonical_name := canonical_dist_info_dir source in
      Raise (InvalidWheelSource
               ("The wheel doesn't contain metadata '" +:+ canonical_name
                +:+ "'"))
  end.

(** [WheelFile.dist_info_filenames] and [WheelFile.read_dist_info] of
    the library, over the overridden [dist_info_dir]. *)
Definition dist_info_filenames (source : WheelFile) (base : string)
  : list string :=
  omap (λ name,
          if negb (Str.endswith name "/") && Str.startswith name base
          then Some (String.substring (S (String.length base))
                       (String.length name) name)
          else None) (namelist source).

Definition read_dist_info (source : WheelFile) (base filename : string)
  : res string :=
  match list_find (λ kv, kv.1 = join base filename) (get_contents source) with
  | Some (_, (_, data)) => Ok data
  | None => Raise KeyError
  end.

Definition of_res {S A} (r : res A) : M S A :=
  match r with Ok a => ret a | Raise e => raise e end.

(** [SchemeDictionaryDestination] with the fields of its constructor. *)
Record InstallDestination : Type := {
  scheme_dict : gmap string string;
  interpreter : string;
  script_kind : string
}.

(** What the code reads of a [Candidate]: its name, the wheel that
    [build()] returns (its file name and, opened, its content), the
    paths and the interpreter of its environment, and the directory
    [project.cache("packages")]. *)
Record Candidate : Type := {
  name : string;
  wheel : string;
  wheel_source : WheelFile;
  environment : gmap string string;
  executable : string;
  packages_cache : string
}.

Section Library.

(** Functions of the [installer] library and of [pdm.utils]. *)
Variable hash_of : string → string.
Variable build_script :
  string → string → string → string → string → string → string * string.
Variable fix_shebang : string → string → string.
Variable parse_entrypoints :
  string → list (string * string * string * string).
(** [_determine_scheme(path, source, root_scheme)] reads [source.data_dir]
    and nothing else of the source; it raises on a path under a data
    directory that names no scheme. *)
Variable _determine_scheme : string → string → string → res (string * string).
Variable construct_record_file : list RecordEntry → string.
Variable normalize_name : string → string.
Variable __version__ : string.

(** [SchemeDictionaryDestination.write_to_fs] of the library. *)
Definition super_write_to_fs (self : InstallDestination)
    (scheme path data : string) : M world RecordEntry :=
  root <- Uninstallers.getitem (scheme_dict self) scheme ;;
  let target_path := join root path in
  taken <- gets (λ w, FS.exists_ (fs w) target_path) ;;
  if taken : bool then raise FileExistsError
  else
    let parent_folder := dirname target_path in
    parent_exists <- gets (λ w, FS.exists_ (fs w) parent_folder) ;;
    when (negb parent_exists) (os (Os.makedirs parent_folder)) ;;
    os (Os.write target_path data) ;;
    ret {| entry_path := path; entry_hash := Some (hash_of data);
           entry_size := Some (String.length data) |}.

(** [InstallDestination.write_to_fs] *)
Definition write_to_fs (self : InstallDestination)
    (scheme path data : string) : M world RecordEntry :=
  root <- Uninstallers.getitem (scheme_dict self) scheme ;;
  let target_path := PurePath.to_str (join root path) in
  present <- gets (λ w, FS.exists_ (fs w) target_path) ;;
  when present (os (Os.unlink target_path)) ;;
  super_write_to_fs self scheme path data.

(** [write_file], [write_script] and [finalize_installation] of the
    library; they reach the disk through [write_to_fs]. *)
Definition write_file (self : InstallDestination)
    (scheme path data : string) : M world RecordEntry :=
  if bool_decide (scheme = "scripts")
  then write_to_fs self scheme path (fix_shebang (interpreter self) data)
  else write_to_fs self scheme path data.

Definition write_script (self : InstallDestination)
    (name module attr section : string) : M world RecordEntry :=
  let '(script_name, data) :=
    build_script name module attr section (interpreter self)
      (script_kind self) in
  write_to_fs self "scripts" script_name data.

Definition finalize_installation (self : InstallDestination)
    (scheme record_file_path : string) (records : list RecordEntry)
  : M world unit :=
  write_to_fs self scheme record_file_path (construct_record_file records) ;;
  ret tt.

(** [for x in l: r = body(x); records.append(r)], where [body] may
    [continue]. *)
Fixpoint collect {A} (l : list A) (body : A → M world (option RecordEntry))
  : M world (list RecordEntry) :=
  match l with
  | [] => ret []
  | x :: rest =>
      r <- body x ;;
      rs <- collect rest body ;;
      ret (match r with Some e => e :: rs | None => rs end)
  end.

(** The scripts of the entry points, written by both installs. *)
Definition write_entry_points (source : WheelFile) (base : string)
    (destination : InstallDestination) : M world (list RecordEntry) :=
  if bool_decide ("entry_points.txt" ∈ dist_info_filenames source base) then
    entrypoints_text <- of_res (read_dist_info source base "entry_points.txt") ;;
    collect (parse_entrypoints entrypoints_text)
      (λ '(name, module, attr, section),
         record <- write_script destination name module attr section ;;
         ret (Some record))
  else ret [].

Definition write_metadata (base root_scheme : string)
    (destination : InstallDestination)
    (additional_metadata : list (string * string))
  : M world (list RecordEntry) :=
  collect additional_metadata
    (λ '(filename, contents),
       record <- write_file destination root_scheme (join base filename)
                   contents ;;
       ret (Some record)).

(** [installer.install] of the library. *)
Definition install (source : WheelFile) (destination : InstallDestination)
    (additional_metadata : list (string * string)) : M world unit :=
  let root_scheme := root_scheme source in
  base <- of_res (dist_info_dir source) ;;
  let record_file_path := join base "RECORD" in
  scripts <- write_entry_points source base destination ;;
  files <- collect (get_contents source)
             (λ '(path, stream),
                if bool_decide (path = record_file_path) then ret None
                else
                  ' (scheme, destination_path) <-
                    of_res (_determine_scheme path (data_dir source)
                              root_scheme) ;;
                  record <- write_file destination scheme destination_path
                              stream ;;
                  ret (Some record)) ;;
  metadata <- write_metadata base root_scheme destination
                additional_metadata ;;
  finalize_installation destination root_scheme record_file_path
    (scripts ++ files ++ metadata
     ++ [{| entry_path := record_file_path; entry_hash := None;
            entry_size := None |}]).

(** [_get_kind] *)
Definition _get_kind (environment : gmap string string) : string := "posix".

(** [install_wheel] *)
Definition install_wheel (candidate : Candidate)
    (scheme : option (gmap string string)) : M world unit :=
  let env := environment candidate in
  let destination :=
    {| scheme_dict := default env scheme;
       interpreter := executable candidate;
       script_kind := _get_kind env |} in
  install (wheel_source candidate) destination
    [("INSTALLER", "installer " +:+ __version__)].

(** [_install_from_cache]; [package_cache] is the directory of the
    cache entry. *)
Definition _install_from_cache (candidate : Candidate)
    (package_cache : string) : M world unit :=
  let env := environment candidate in
  let destination :=
    {| scheme_dict := env; interpreter := executable candidate;
       script_kind := _get_kind env |} in
  let source := wheel_source candidate in
  let root_scheme := root_scheme source in
  base <- of_res (dist_info_dir source) ;;
  let record_file_path := join base "RECORD" in
  write_entry_points source base destination ;;
  files <- collect (get_contents source)
             (λ '(path, stream),
                if bool_decide (path = record_file_path)
                   || negb (Str.endswith path ".pth"
                            || Str.startswith path base)
                then ret None
                else
                  ' (scheme, destination_path) <-
                    of_res (_determine_scheme path (data_dir source)
                              root_scheme) ;;
                  record <- write_file destination scheme destination_path
                              stream ;;
                  ret (Some record)) ;;
  lib_path <- Uninstallers.getitem (CachedPackage.scheme package_cache)
                "purelib" ;;
  pointer <- write_file destination root_scheme
               (normalize_name (name candidate) +:+ ".pth")
               (lib_path +:+ String "010" EmptyString) ;;
  metadata <- write_metadata base root_scheme destination
                [("INSTALLER", "installer " +:+ __version__);
                 ("REFER_TO", package_cache)] ;;
  finalize_installation destination root_scheme record_file_path
    (files ++ [pointer] ++ metadata
     ++ [{| entry_path := record_file_path; entry_hash := None;
            entry_size := None |}]) ;;
  CachedPackage.add_referrer package_cache base.

(** [Path.mkdir(exist_ok=True)] *)
Definition mkdir_exist_ok (path : string) : M world unit :=
  try_except (os (Os.mkdir path)) is_OSError
    (λ w, if FS.isdir (fs w) path then (Ok tt, w)
          else (Raise (match FS.mkdir (fs w) path with
                       | Raise e => e
                       | Ok _ => OSError
                       end), w)).

(** [install_wheel_with_cache] *)
Definition install_wheel_with_cache (candidate : Candidate)
    (scheme : option (gmap string string)) : M world unit :=
  let wheel_stem := PurePath.stem (wheel candidate) in
  let cache_path :=
    PurePath.to_str (join (packages_cache candidate) wheel_stem) in
  let package_cache := cache_path in
  cached <- gets (λ w, FS.isdir (fs w) cache_path) ;;
  when (negb cached)
    (logger "debug" ("Installing wheel into cached location " +:+ cache_path) ;;
     mkdir_exist_ok cache_path ;;
     install_wheel candidate (Some (CachedPackage.scheme package_cache))) ;;
  _install_from_cache candidate package_cache.

(** The directory of the cache entry of a candidate. *)
Definition cache_path (candidate : Candidate) : string :=
  PurePath.to_str
    (join (packages_cache candidate) (PurePath.stem (wheel candidate))).

(** The names of the scripts that [write_entry_points] writes for the
    archive, for a destination with the given interpreter and kind. *)
Definition entry_point_scripts (source : WheelFile)
    (base interpreter kind : string) : list string :=
  if bool_decide ("entry_points.txt" ∈ dist_info_filenames source base) then
    match read_dist_info source base "entry_points.txt" with
    | Ok text =>
        (λ '(name, module, attr, section),
           (build_script name module attr section interpreter kind).1)
          <$> parse_entrypoints text
    | Raise _ => []
    end
  else [].

(** What a link install brings into an environment, as pairs of a scheme
    and a path relative to the directory of the scheme: the scripts of
    the entry points; a copy of every entry of the archive whose path
    ends in [.pth] or starts with the name [base] of the metadata
    directory; the pointer file; and the files [INSTALLER], [REFER_TO]
    and [RECORD] of the metadata directory. *)
Definition footprint (candidate : Candidate) (base : string)
  : list (string * string) :=
  let source := wheel_source candidate in
  ((λ n, ("scripts", n))
     <$> entry_point_scripts source base (executable candidate)
           (_get_kind (environment candidate)))
  ++ ((λ e : string * string, (root_scheme source, e.1))
        <$> filter (λ e : string * string,
                      Str.endswith e.1 ".pth" = true
                      ∨ Str.startswith e.1 base = true)
              (get_contents source))
  ++ [(root_scheme source, normalize_name (name candidate) +:+ ".pth");
      (root_scheme source, join base "INSTALLER");
      (root_scheme source, join base "REFER_TO");
      (root_scheme source, join base "RECORD")].

(** The first consumption of a cache entry: the install into the scheme
    of the entry, as [install_wheel_with_cache] runs it. *)
Definition materialize (candidate : Candidate) : M world unit :=
  logger "debug"
    ("Installing wheel into cached location " +:+ cache_path candidate) ;;
  mkdir_exist_ok (cache_path candidate) ;;
  install_wheel candidate (Some (CachedPackage.scheme (cache_path candidate))).

End Library.

(** Candidates that are built from one archive and share a cache. *)
Definition same_archive (c1 c2 : Candidate) : Prop :=
  wheel c2 = wheel c1 ∧ packages_cache c2 = packages_cache c1.

End Installers.

(** * Vocabulary of the statements *)

(** ** Normalised absolute paths *)

(** The absolute path with the components [p]: [/p1/.../pn], and [/] for
    the root. *)
Definition render (p : list string) : string := "/" +:+ Str.join "/" p.

(** Every component is a name that a directory entry can have. *)
Definition normal (p : list string) : Prop :=
  Forall (λ n, FS.valid_name n = true) p.

(** A string without separator. *)
Definition sep_free (s : string) : Prop := Str.split_on "/" s = [s].

(** The rendering of [p] as a directory prefix. *)
Definition trail (p : list string) : string :=
  match p with
  | [] => "/"
  | _ => render p +:+ "/"
  end.

(** Every proper prefix of [cur ++ p] from [cur] on is a directory. *)
Definition dirs_along (tr : gmap (list string) FS.inode)
    (cur p : list string) : Prop :=
  ∀ i, i < length p → tr !! (cur ++ take i p) = Some FS.Dir.

(** [p] can be reached: the root and every proper prefix of [p] are
    directories. *)
Definition reachable (tr : gmap (list string) FS.inode) (p : list string)
  : Prop :=
  tr !! [] = Some FS.Dir ∧ dirs_along tr [] p.

(** ** Nodes that a computation leaves in place *)

(** [f'] has the working directory of [f] and every node of [f] that [K]
    protects. *)
Definition keeps (K : list string → FS.inode → Prop) (f f' : FS.t) : Prop :=
  FS.cwd f' = FS.cwd f ∧
  ∀ k i, K k i → FS.nodes f !! k = Some i → FS.nodes f' !! k = Some i.

(** The computation [m], over a state that holds a file system, keeps
    the nodes that [K] protects, whether it returns or raises. *)
Definition Keeps {S A} (proj : S → FS.t) (K : list string → FS.inode → Prop)
    (m : M S A) : Prop :=
  ∀ s r s', m s = (r, s') → keeps K (proj s) (proj s').

(** Directories are protected. *)
Definition only_dirs (k : list string) (i : FS.inode) : Prop := i = FS.Dir.

(** Directories and the node at [q] are protected. *)
Definition protect (q k : list string) (i : FS.inode) : Prop :=
  i = FS.Dir ∨ k = q.

(** ** Nodes that a computation may change *)

(** [f'] has the working directory of [f], and every node of [f'] is as
    in [f], unless it is at a path of [Q], or is a directory that [f]
    does not have, on the way to a path of [Q]. *)
Definition touches (Q : list string → Prop) (f f' : FS.t) : Prop :=
  FS.cwd f' = FS.cwd f ∧
  ∀ k, FS.nodes f' !! k = FS.nodes f !! k ∨ Q k ∨
       (FS.nodes f !! k = None ∧ FS.nodes f' !! k = Some FS.Dir ∧
        ∃ t, Q t ∧ k `prefix_of` t).

(** The computation [m] changes nodes at the paths of [Q] only, whether
    it returns or raises. *)
Definition Touches {S A} (proj : S → FS.t) (Q : list string → Prop)
    (m : M S A) : Prop :=
  ∀ s r s', m s = (r, s') → touches Q (proj s) (proj s').

(** [dir] spells a normalised absolute path that is neither at or below
    [/q1/.../qn] nor above it. *)
Definition apart (q : list string) (dir : string) : Prop :=
  ∃ r, dir = render r ∧ normal r ∧ ¬ q `prefix_of` r ∧ ¬ r `prefix_of` q.

(** The node [k] is where a file of the footprint of the candidate goes
    in its environment. *)
Definition in_footprint
    (build_script :
       string → string → string → string → string → string → string * string)
    (parse_entrypoints : string → list (string * string * string * string))
    (normalize_name : string → string)
    (candidate : Installers.Candidate) (base : string) (k : list string)
  : Prop :=
  ∃ scheme rel dir,
    (scheme, rel) ∈ Installers.footprint build_script parse_entrypoints
                      normalize_name candidate base ∧
    Installers.environment candidate !! scheme = Some dir ∧
    normal k ∧ render k = PosixPath.join dir rel.

(** ** Directories made and pruned *)

(** [s] spells the path [/q1/.../qn], with or without a trailing
    separator. *)
Definition spelled (q : list string) (s : string) : Prop :=
  s = render q ∨ (q ≠ [] ∧ s = render q +:+ "/").

(** [tr'] is [tr] with directories added along [q]. *)
Definition grown (q : list string) (tr tr' : gmap (list string) FS.inode)
  : Prop :=
  FS.wf tr' ∧ tr ⊆ tr' ∧
  ∀ k i, tr' !! k = Some i → tr !! k = Some i ∨ (i = FS.Dir ∧ k `prefix_of` q).

(** [tr'] is [tr] without some of the directories along [q]. *)
Definition pruned (q : list string) (tr tr' : gmap (list string) FS.inode)
  : Prop :=
  FS.wf tr' ∧ tr' ⊆ tr ∧
  ∀ k i, tr !! k = Some i → tr' !! k = Some i ∨ (i = FS.Dir ∧ k `prefix_of` q).

(** ** Wildcards of the rename compressor *)

(** [x] is the wildcard of the parent directory of a path of [P]. *)
Definition wildcard_of (P : gset string) (x : string) : Prop :=
  ∃ p, p ∈ P ∧ x = PosixPath.dirname p +:+ PosixPath.sep.

(** [p] is spelled as a path inside the directory of the wildcard [w]:
    it is [os.path.join(d, rest)] for the directory [d] of [w] and a
    relative path [rest]. *)
Definition lies_under (w p : string) : Prop :=
  ∃ d rest,
    w = d +:+ PosixPath.sep ∧ rest ≠ EmptyString ∧
    PosixPath.isabs rest = false ∧ p = PosixPath.join d rest.

(** [p] is the path of a regular file of the tree below the directory
    [/d1/.../dn]. *)
Definition file_under (tr : gmap (list string) FS.inode) (d : list string)
    (p : string) : Prop :=
  ∃ rest data,
    rest ≠ [] ∧ tr !! (d ++ rest) = Some (FS.File data) ∧
    p = render (d ++ rest).

(** ** The stash record, on the components of the paths *)

(** An entry of the stash record: whether it is a directory, where it
    was, and where it is held. *)
Definition entry : Type := bool * list string * list string.

Definition is_dir_entry (x : entry) : bool := x.1.1.
Definition origin (x : entry) : list string := x.1.2.
Definition holding (x : entry) : list string := x.2.

(** The pair of [_stashed] for an entry: a directory is named by its
    wildcard. *)
Definition old_of (x : entry) : string :=
  if is_dir_entry x then render (origin x) +:+ "/" else render (origin x).

Definition stashed_of (x : entry) : string * string :=
  (old_of x, render (holding x)).

(** The key of [_tempdirs] for the directory [kd], which is the prefix
    [e] or a directory of the prefix. *)
Definition key_of (e kd : list string) : string :=
  if decide (kd = e) then render e +:+ "/" else render kd.

Definition tempdir_of (e : list string) (kt : list string * list string)
  : string * string :=
  (key_of e kt.1, render kt.2).

(** The name that [TemporaryDirectory("-uninstall", "pdm-")] makes of a
    random name. *)
Definition tmpname (r : string) : string := "pdm-" +:+ r +:+ "-uninstall".

(** The tree [tr] during the stash step, against the tree [tr0] at its
    start; [e] is the prefix of the environment, [t] the directory of
    the temporary directories, [P] the plan. *)
Record stash_tree (e t : list string) (P : gset string)
    (tr0 tr : gmap (list string) FS.inode) (ents : list entry)
    (temps : list (list string * list string)) : Prop := {
  st_wf : FS.wf tr;
  st_kept : ∀ k i,
    tr0 !! k = Some i → (∀ x, x ∈ ents → ¬ origin x `prefix_of` k) →
    tr !! k = Some i;
  st_only : ∀ k i,
    tr !! k = Some i →
    tr0 !! k = Some i ∨ (i = FS.Dir ∧ k ∈ temps.*2) ∨
    ∃ x, x ∈ ents ∧
         (holding x `prefix_of` k ∨ (i = FS.Dir ∧ k `prefix_of` holding x));
  st_moved : ∀ x rest,
    x ∈ ents →
    tr !! (holding x ++ rest) = tr0 !! (origin x ++ rest) ∧
    tr !! (origin x ++ rest) = None;
  st_kind : ∀ x,
    x ∈ ents →
    is_Some (tr0 !! origin x) ∧ FS.is_dir (tr0 !! origin x) = is_dir_entry x;
  st_temps : ∀ kd T,
    (kd, T) ∈ temps →
    tr !! T = Some FS.Dir ∧ tr0 !! T = None ∧ (∃ name, T = t ++ [name]) ∧
    ¬ T `prefix_of` e ∧ ¬ e `prefix_of` T;
  st_keys : NoDup temps.*1;
  st_dirs : NoDup temps.*2;
  st_shape : ∀ x,
    x ∈ ents →
    ∃ kd T r, (kd, T) ∈ temps ∧ r ≠ [] ∧ origin x = kd ++ r ∧
              holding x = T ++ r ∧ e `prefix_of` kd;
  st_planned : ∀ x,
    x ∈ ents →
    if is_dir_entry x then ∀ p, file_under tr0 (origin x) p → p ∈ P
    else render (origin x) ∈ P;
  st_apart : ∀ x y,
    x ∈ ents → y ∈ ents → origin x `prefix_of` origin y → x = y
}.

(** The tree [tr] during rollback, against the tree [tr0] before the
    stash step; [todo] are the entries still held. *)
Record restore_tree (e t : list string)
    (tr0 tr : gmap (list string) FS.inode) (todo : list entry)
    (temps : list (list string * list string)) : Prop := {
  rt_wf : FS.wf tr;
  rt_kept : ∀ k i,
    tr0 !! k = Some i → (∀ x, x ∈ todo → ¬ origin x `prefix_of` k) →
    ¬ k `prefix_of` t → tr !! k = Some i;
  rt_moved : ∀ x rest,
    x ∈ todo →
    tr !! (holding x ++ rest) = tr0 !! (origin x ++ rest) ∧
    tr !! (origin x ++ rest) = None;
  rt_kind : ∀ x,
    x ∈ todo →
    is_Some (tr0 !! origin x) ∧ FS.is_dir (tr0 !! origin x) = is_dir_entry x;
  rt_temps : ∀ kd T k d,
    (kd, T) ∈ temps → k `prefix_of` T → tr !! k ≠ Some (FS.File d);
  rt_names : ∀ kd T,
    (kd, T) ∈ temps →
    tr0 !! T = None ∧ (∃ name, T = t ++ [name]) ∧
    ¬ T `prefix_of` e ∧ ¬ e `prefix_of` T;
  rt_dirs : NoDup temps.*2;
  rt_shape : ∀ x,
    x ∈ todo →
    ∃ kd T r, (kd, T) ∈ temps ∧ r ≠ [] ∧ origin x = kd ++ r ∧
              holding x = T ++ r ∧ e `prefix_of` kd;
  rt_apart : ∀ x y,
    x ∈ todo → y ∈ todo → origin x `prefix_of` origin y → x = y
}.

(** The state of the remover during the stash step. *)
Record stashing (e t : list string) (P : gset string)
    (tr0 : gmap (list string) FS.inode) (s : Uninstallers.state)
    (ents : list entry) (temps : list (list string * list string)) : Prop := {
  sg_tmpdir : tmpdir (Uninstallers.w s) = render t;
  sg_prefix :
    Uninstallers.envrionment (Uninstallers.self s) !! "prefix"
    = Some (render e);
  sg_tempdirs :
    Uninstallers._tempdirs (Uninstallers.self s) = tempdir_of e <$> temps;
  sg_stashed :
    Uninstallers._stashed (Uninstallers.self s) = stashed_of <$> ents;
  sg_tree :
    stash_tree e t P tr0 (FS.nodes (fs (Uninstallers.w s))) ents temps;
  sg_keys : ∀ kd T, (kd, T) ∈ temps → normal kd ∧ e `prefix_of` kd;
  sg_rand : NoDup (rand (Uninstallers.w s));
  sg_fresh : ∀ r,
    r ∈ rand (Uninstallers.w s) →
    FS.valid_name (tmpname r) = true ∧ tr0 !! (t ++ [tmpname r]) = None ∧
    FS.nodes (fs (Uninstallers.w s)) !! (t ++ [tmpname r]) = None
}.

(** An entry of the compressed plan that the stash step moves: a regular
    file of the tree [tr0], or a directory of it named by its
    wildcard. *)
Definition stashable (tr0 : gmap (list string) FS.inode) (x : string)
    (dir : bool) (ol : list string) : Prop :=
  (dir = false ∧ x = render ol ∧ ∃ d, tr0 !! ol = Some (FS.File d)) ∨
  (dir = true ∧ x = render ol +:+ "/" ∧ tr0 !! ol = Some FS.Dir).

(** An entry of the compressed plan that names nothing on disk. *)
Definition skipped (tr0 : gmap (list string) FS.inode) (e : list string)
    (x : string) : Prop :=
  ∃ q, normal q ∧ q ≠ [] ∧ e `prefix_of` q ∧
       ((x = render q ∧ tr0 !! q = None) ∨
        (x = render q +:+ "/" ∧ tr0 !! q ≠ Some FS.Dir)).

(** What the plan [P] grants of an entry that the stash step moves: it
    lies below a directory of the prefix [e]; a directory holds planned
    files only; a file is planned, is no byte-code cache, and its
    directory holds a file that is not planned. *)
Definition granted (tr0 : gmap (list string) FS.inode) (e : list string)
    (P : gset string) (dir : bool) (ol : list string) : Prop :=
  normal ol ∧
  (∃ c r, ol = e ++ c :: r ∧ (dir = false → r ≠ [])) ∧
  if dir then ∀ p, file_under tr0 ol p → p ∈ P
  else render ol ∈ P ∧ Str.endswith (render ol) ".pyc" = false ∧
       ¬ ∀ p, file_under tr0 (removelast ol) p → p ∈ P.

(** ** Steps of a computation *)

(** Every run of [m], whether it returns or raises, takes a state to a
    state that [R] relates to it. *)
Definition Steps {S A} (R : S → S → Prop) (m : M S A) : Prop :=
  ∀ s r s', m s = (r, s') → R s s'.

(** What planning may change: the log of the world; and of the
    instance, the plan (its paths and its registry lines, which only
    grow) and the cache entry it refers to. *)
Definition plans (s s' : Uninstallers.state) : Prop :=
  fs (Uninstallers.w s') = fs (Uninstallers.w s) ∧
  tmpdir (Uninstallers.w s') = tmpdir (Uninstallers.w s) ∧
  rand (Uninstallers.w s') = rand (Uninstallers.w s) ∧
  referrers (Uninstallers.w s') = referrers (Uninstallers.w s) ∧
  Uninstallers._paths (Uninstallers.self s)
    ⊆ Uninstallers._paths (Uninstallers.self s') ∧
  Uninstallers._pth_entries (Uninstallers.self s)
    ⊆ Uninstallers._pth_entries (Uninstallers.self s') ∧
  Uninstallers.dist (Uninstallers.self s')
    = Uninstallers.dist (Uninstallers.self s) ∧
  Uninstallers.envrionment (Uninstallers.self s')
    = Uninstallers.envrionment (Uninstallers.self s) ∧
  Uninstallers._pth_file (Uninstallers.self s')
    = Uninstallers._pth_file (Uninstallers.self s) ∧
  Uninstallers._saved_pth (Uninstallers.self s')
    = Uninstallers._saved_pth (Uninstallers.self s) ∧
  Uninstallers._stashed (Uninstallers.self s')
    = Uninstallers._stashed (Uninstallers.self s) ∧
  Uninstallers._tempdirs (Uninstallers.self s')
    = Uninstallers._tempdirs (Uninstallers.self s).

(** What the stash step leaves alone in the instance: the saved bytes
    of the registry file and its path. *)
Definition same_registry (s s' : Uninstallers.state) : Prop :=
  Uninstallers._saved_pth (Uninstallers.self s')
    = Uninstallers._saved_pth (Uninstallers.self s) ∧
  Uninstallers._pth_file (Uninstallers.self s')
    = Uninstallers._pth_file (Uninstallers.self s).

(** What the registry edit leaves alone in the world: the directory and
    the pending names of the temporary files, and the working
    directory. *)
Definition same_names (s s' : Uninstallers.state) : Prop :=
  tmpdir (Uninstallers.w s') = tmpdir (Uninstallers.w s) ∧
  rand (Uninstallers.w s') = rand (Uninstallers.w s) ∧
  FS.cwd (fs (Uninstallers.w s')) = FS.cwd (fs (Uninstallers.w s)).

Module Spec.

(** A name of the archive counts for the metadata directory when its
    top-level entry ends in the reserved suffix. *)
Definition is_metadata_entry (name : string) : Prop :=
  Str.endswith (Installers.top_level name) ".dist-info" = true.

(** Two entries of the archive name different metadata directories. *)
Definition ambiguous (source : Installers.WheelFile) : Prop :=
  ∃ n1 n2,
    n1 ∈ Installers.namelist source ∧ n2 ∈ Installers.namelist source ∧
    is_metadata_entry n1 ∧ is_metadata_entry n2 ∧
    Installers.top_level n1 ≠ Installers.top_level n2.

End Spec.

(** * Examples used by the concrete statements *)

Module Examples.

Import Uninstallers.

Definition LF : string := String "010" EmptyString.

(** An environment at [/env] with a package of two modules, a byte-code
    cache, a file of another package and a linkage registry with two
    lines. *)
Definition disk : FS.t :=
  FS.mk (list_to_map
           [([], FS.Dir);
            (["env"], FS.Dir);
            (["env"; "lib"], FS.Dir);
            (["env"; "lib"; "a.py"], FS.File "A");
            (["env"; "lib"; "a.pyc"], FS.File "C");
            (["env"; "lib"; "keep.txt"], FS.File "K");
            (["env"; "lib"; "sub"], FS.Dir);
            (["env"; "lib"; "sub"; "b.py"], FS.File "B");
            (["env"; "lib"; "foo.egg-link"], FS.File ("/src/foo" +:+ LF));
            (["env"; "lib"; "easy-install.pth"],
             FS.File ("/src/foo" +:+ LF +:+ "/src/bar" +:+ LF));
            (["tmp"], FS.Dir);
            (["tmp"; "other"], FS.File "x")])
        [].

Definition earth : world :=
  {| fs := disk; tmpdir := "/tmp"; rand := ["aaa"; "bbb"; "ccc"];
     log := []; referrers := ∅ |}.

Definition paths : gmap string string :=
  {[ "prefix" := "/env"; "purelib" := "/env/lib"; "scripts" := "/env/bin" ]}.

Definition foo (at_ : string) : Distribution :=
  {| project_name := "foo"; location := at_; is_dist_editable := true;
     record_filenames := []; metadata_scripts := None;
     console_scripts := []; gui_scripts := [] |}.

(** A remover with the plan [(files, lines)], nothing stashed yet. *)
Definition planned (files lines : gset string) : state :=
  {| w := earth;
     self := {| dist := foo "/src/foo"; envrionment := paths;
                _paths := files; _pth_entries := lines; refer_to := None;
                _pth_file := "/env/lib/easy-install.pth";
                _saved_pth := None; _stashed := []; _tempdirs := [] |} |}.

(** An archive whose entries name two metadata directories. *)
Definition two_metadata_dirs : Installers.WheelFile :=
  {| Installers.namelist :=
       ["foo/__init__.py"; "foo-1.0.dist-info/RECORD";
        "bar-2.0.dist-info/RECORD"];
     Installers.canonical_dist_info_dir := "foo-1.0.dist-info";
     Installers.data_dir := "foo-1.0.data";
     Installers.get_contents := [];
     Installers.root_scheme := "purelib" |}.

(** Stand-ins for the functions of the [installer] library: scripts of
    one line, shebangs left alone, no entry point, every file in the root
    scheme, and a record file that lists the paths. *)
Definition hash_of (data : string) : string := "sha256=" +:+ data.

Definition build_script (name module attr section interpreter kind : string)
  : string * string :=
  (name, "#!" +:+ interpreter +:+ LF +:+ module +:+ ":" +:+ attr +:+ LF).

Definition fix_shebang (interpreter data : string) : string := data.

Definition parse_entrypoints (text : string)
  : list (string * string * string * string) := [].

Definition _determine_scheme (path data_dir root_scheme : string)
  : res (string * string) := Ok (root_scheme, path).

Definition construct_record_file (records : list Installers.RecordEntry)
  : string :=
  Str.join LF (Installers.entry_path <$> records) +:+ LF.

Definition normalize_name (name : string) : string := name.

Definition __version__ : string := "0.7.0".

(** A wheel with one module, one pointer file of its own and its
    metadata, for the root scheme [root]. *)
Definition foo_wheel (root : string) : Installers.WheelFile :=
  {| Installers.namelist :=
       ["foo/__init__.py"; "foo-nspkg.pth"; "foo-1.0.dist-info/METADATA";
        "foo-1.0.dist-info/RECORD"];
     Installers.canonical_dist_info_dir := "foo-1.0.dist-info";
     Installers.data_dir := "foo-1.0.data";
     Installers.get_contents :=
       [("foo/__init__.py", "print(1)");
        ("foo-nspkg.pth", "import foo");
        ("foo-1.0.dist-info/METADATA", "Name: foo");
        ("foo-1.0.dist-info/RECORD", EmptyString)];
     Installers.root_scheme := root |}.

(** The paths of a second environment, whose platform library is not its
    pure library. *)
Definition paths2 : gmap string string :=
  {[ "prefix" := "/env2"; "purelib" := "/env2/lib";
     "platlib" := "/env2/lib64"; "scripts" := "/env2/bin" ]}.

(** The candidate of [foo_wheel root] for the environment with the paths
    [env]; the cache of the project is [/tmp/packages]. *)
Definition foo_candidate (root : string) (env : gmap string string)
  : Installers.Candidate :=
  {| Installers.name := "foo";
     Installers.wheel := "/tmp/build/foo-1.0-py3-none-any.whl";
     Installers.wheel_source := foo_wheel root;
     Installers.environment := env;
     Installers.executable := "/usr/bin/python3";
     Installers.packages_cache := "/tmp/packages" |}.

(** The cached install and the link install over the stand-ins. *)
Definition install_wheel_with_cache :=
  Installers.install_wheel_with_cache hash_of build_script fix_shebang
    parse_entrypoints _determine_scheme construct_record_file normalize_name
    __version__.

Definition _install_from_cache :=
  Installers._install_from_cache hash_of build_script fix_shebang
    parse_entrypoints _determine_scheme construct_record_file normalize_name
    __version__.

(** A wheel whose payload holds a file with the suffix [.pth], and its
    candidate for the environment with the paths [env]. *)
Definition net_wheel : Installers.WheelFile :=
  {| Installers.namelist :=
       ["net/__init__.py"; "net/weights/model.pth";
        "net-1.0.dist-info/METADATA"; "net-1.0.dist-info/RECORD"];
     Installers.canonical_dist_info_dir := "net-1.0.dist-info";
     Installers.data_dir := "net-1.0.data";
     Installers.get_contents :=
       [("net/__init__.py", "import torch");
        ("net/weights/model.pth", "WEIGHTS");
        ("net-1.0.dist-info/METADATA", "Name: net");
        ("net-1.0.dist-info/RECORD", EmptyString)];
     Installers.root_scheme := "purelib" |}.

Definition net_candidate (env : gmap string string) : Installers.Candidate :=
  {| Installers.name := "net";
     Installers.wheel := "/tmp/build/net-1.0-py3-none-any.whl";
     Installers.wheel_source := net_wheel;
     Installers.environment := env;
     Installers.executable := "/usr/bin/python3";
     Installers.packages_cache := "/tmp/packages" |}.

(** [/tmp/packages] exists on [earth']. *)
Definition earth' : world :=
  set_fs earth
    (FS.with_nodes disk (<[ ["tmp"; "packages"] := FS.Dir ]> (FS.nodes disk))).

(** On [stale] the directory of the cache entry of [net_candidate] is
    there already, and empty. *)
Definition stale : world :=
  set_fs earth'
    (FS.with_nodes (fs earth')
       (<[ ["tmp"; "packages"; "net-1.0-py3-none-any"] := FS.Dir ]>
          (FS.nodes (fs earth')))).

End Examples.

Local Arguments ascii_dec : simpl never.

(** * The archive reader *)

Section ArchiveReader.

Import Installers Spec.

Lemma dist_info_dir_absent source :
  Forall (λ name, ¬ is_metadata_entry name) (namelist source) →
  ∃ msg, dist_info_dir source = Raise (InvalidWheelSource msg).
Proof.
  intros Hall. unfold dist_info_dir.
  destruct (list_find _ _) as [[i name]|] eqn:Hfind; [|eauto].
  apply list_find_Some in Hfind as (Hi & Hname & _).
  rewrite Forall_forall in Hall.
  exfalso. eapply Hall; [|exact Hname].
  by eapply list_elem_of_lookup_2.
Qed.

Lemma dist_info_dir_first source before name after :
  namelist source = before ++ name :: after →
  Forall (λ n, ¬ is_metadata_entry n) before →
  is_metadata_entry name →
  dist_info_dir source = Ok (top_level name).
Proof.
  intros Hl Hbefore Hname. unfold dist_info_dir.
  destruct (list_find _ _) as [[i n]|] eqn:Hfind.
  - apply list_find_Some in Hfind as (Hi & Hn & Hmin).
    rewrite Hl in Hi, Hmin.
    destruct (decide (i < length before)) as [Hlt|Hge].
    + rewrite lookup_app_l in Hi by done.
      rewrite Forall_forall in Hbefore.
      exfalso. eapply Hbefore; [|exact Hn].
      by eapply list_elem_of_lookup_2.
    + destruct (decide (i = length before)) as [->|Hne].
      * rewrite list_lookup_middle in Hi by done. by simplify_eq.
      * exfalso. eapply (Hmin (length before)); [|lia|exact Hname].
        by apply list_lookup_middle.
  - apply list_find_None in Hfind. rewrite Hl in Hfind.
    apply Forall_app in Hfind as [_ Hfind].
    apply Forall_cons in Hfind as [Hfind _]. done.
Qed.

(** C3, as the code has it.  Resolution of the metadata directory fails,
    with [InvalidWheelSource], exactly when no top-level entry ends in
    the reserved suffix; otherwise it returns the top-level entry of the
    first name of the archive that does, whatever the later names are:
    a second metadata directory is not detected. *)
Theorem dist_info_dir_resolution source :
  match dist_info_dir source with
  | Raise e =>
      (∃ msg, e = InvalidWheelSource msg) ∧
      Forall (λ name, ¬ is_metadata_entry name) (namelist source)
  | Ok d =>
      ∃ before name after,
        namelist source = before ++ name :: after ∧
        Forall (λ n, ¬ is_metadata_entry n) before ∧
        is_metadata_entry name ∧ d = top_level name
  end.
Proof.
  destruct (decide (Exists is_metadata_entry (namelist source)))
    as [Hex|Hall]; last first.
  - apply not_Exists_Forall in Hall; [|apply _].
    destruct (dist_info_dir_absent source Hall) as [msg ->]. eauto.
  - assert (∃ before name after,
               namelist source = before ++ name :: after ∧
               Forall (λ n, ¬ is_metadata_entry n) before ∧
               is_metadata_entry name) as (before & name & after & Hl & Hb & Hn).
    { clear -Hex. induction (namelist source) as [|x l IH].
      - by apply Exists_nil in Hex.
      - destruct (decide (is_metadata_entry x)) as [Hx|Hx].
        + exists [], x, l. split_and!; [done|constructor|done].
        + apply Exists_cons in Hex as [Hex|Hex]; [done|].
          destruct (IH Hex) as (before & name & after & -> & Hb & Hn).
          exists (x :: before), name, after.
          split_and!; [done|by constructor|done]. }
    rewrite (dist_info_dir_first source before name after Hl Hb Hn).
    by exists before, name, after.
Qed.

(** C3, as the spec has it, fails: this archive has two metadata
    directories and resolution returns the first. *)
Lemma dist_info_dir_ambiguity_undetected :
  ambiguous Examples.two_metadata_dirs ∧
  dist_info_dir Examples.two_metadata_dirs = Ok "foo-1.0.dist-info".
Proof.
  split; [|done].
  exists "foo-1.0.dist-info/RECORD", "bar-2.0.dist-info/RECORD".
  repeat split; [set_solver..|done].
Qed.

End ArchiveReader.

(** * Strings *)

Section Strings.

Implicit Types s t u : string.


Lemma str_app_cons a s t : String a s +:+ t = String a (s +:+ t).
Proof. reflexivity. Qed.

Lemma str_app_empty_l s : EmptyString +:+ s = s.
Proof. reflexivity. Qed.

Lemma str_app_empty_r s : s +:+ EmptyString = s.
Proof. induction s as [|a s IH]; [done|]. by rewrite str_app_cons, IH. Qed.

Lemma str_app_assoc s t u : (s +:+ t) +:+ u = s +:+ (t +:+ u).
Proof. induction s as [|a s IH]; [done|]. by rewrite !str_app_cons, IH. Qed.

Lemma str_app_length s t :
  String.length (s +:+ t) = String.length s + String.length t.
Proof. induction s as [|a s IH]; [done|]. rewrite str_app_cons. cbn. by rewrite IH. Qed.

Lemma str_app_eq_empty s t : s +:+ t = EmptyString → s = EmptyString ∧ t = EmptyString.
Proof. destruct s; [done|]. by rewrite str_app_cons. Qed.


Lemma sep_free_empty : sep_free EmptyString.
Proof. done. Qed.

Lemma sep_free_cons a s : sep_free (String a s) ↔ a ≠ "/"%char ∧ sep_free s.
Proof.
  unfold sep_free. cbn. case_bool_decide as Ha.
  - split; [done|]. by intros [? _].
  - destruct (Str.split_on "/" s) as [|h t] eqn:Hs.
    + destruct s; cbn in Hs; [done|]. case_bool_decide; [done|].
      by destruct (Str.split_on "/" s).
    + split.
      * intros [= -> ->]. done.
      * intros [_ [= -> ->]]. done.
Qed.

Lemma split_on_nonempty s : Str.split_on "/" s ≠ [].
Proof.
  destruct s as [|a s]; cbn; [done|]. case_bool_decide; [done|].
  by destruct (Str.split_on "/" s).
Qed.

Lemma split_on_app_sep s t :
  sep_free s →
  Str.split_on "/" (s +:+ String "/" t) = s :: Str.split_on "/" t.
Proof.
  induction s as [|a s IH]; intros Hs.
  - rewrite str_app_empty_l. cbn. by rewrite bool_decide_true.
  - apply sep_free_cons in Hs as [Ha Hs].
    rewrite str_app_cons. cbn. rewrite bool_decide_false by done.
    by rewrite IH.
Qed.

Lemma valid_name_sep_free n : FS.valid_name n = true → sep_free n.
Proof.
  unfold FS.valid_name. rewrite !andb_true_iff.
  intros (_ & H). by apply bool_decide_eq_true in H.
Qed.

Lemma valid_name_nonempty n : FS.valid_name n = true → n ≠ EmptyString.
Proof. by intros H ->. Qed.

Lemma valid_name_not_dot n : FS.valid_name n = true → n ≠ ".".
Proof. by intros H ->. Qed.

Lemma valid_name_not_dotdot n : FS.valid_name n = true → n ≠ "..".
Proof. by intros H ->. Qed.

Lemma split_on_join p :
  Forall sep_free p → p ≠ [] → Str.split_on "/" (Str.join "/" p) = p.
Proof.
  induction p as [|n p IH]; [done|]. intros Hp _.
  apply Forall_cons in Hp as [Hn Hp].
  destruct p as [|m p]; [done|].
  change (Str.join "/" (n :: m :: p)) with (n +:+ "/" +:+ Str.join "/" (m :: p)).
  change ("/" +:+ ?x) with (String "/" x).
  rewrite split_on_app_sep by done. by rewrite IH.
Qed.

Lemma normal_sep_free p : normal p → Forall sep_free p.
Proof. intros H. eapply Forall_impl; [exact H|]. apply valid_name_sep_free. Qed.

Lemma render_nil : render [] = "/".
Proof. done. Qed.

Lemma render_cons n p : render (n :: p) = String "/" (Str.join "/" (n :: p)).
Proof. done. Qed.

Lemma split_on_render p :
  normal p → p ≠ [] → Str.split_on "/" (render p) = EmptyString :: p.
Proof.
  intros Hp Hne. unfold render.
  change ("/" +:+ ?x) with (String "/" x).
  cbn [Str.split_on]. rewrite bool_decide_true by done.
  rewrite split_on_join; [done| |done]. by apply normal_sep_free.
Qed.


Lemma split_on_app s t :
  Str.split_on "/" (s +:+ String "/" t)
  = Str.split_on "/" s ++ Str.split_on "/" t.
Proof.
  induction s as [|a s IH].
  - rewrite str_app_empty_l. cbn. by rewrite bool_decide_true.
  - rewrite str_app_cons. cbn. case_bool_decide; [by rewrite IH|].
    rewrite IH. pose proof (split_on_nonempty s).
    by destruct (Str.split_on "/" s).
Qed.

Lemma rpartition_sep_free t : sep_free t → Str.rpartition_sep t = (EmptyString, t).
Proof.
  induction t as [|a t IH]; [done|].
  intros [Ha Ht]%sep_free_cons. cbn. rewrite IH by done.
  unfold Str.is_sep. by rewrite bool_decide_false.
Qed.

Lemma rpartition_app_sep s t :
  sep_free t → Str.rpartition_sep (s +:+ String "/" t) = (s +:+ "/", t).
Proof.
  intros Ht. induction s as [|a s IH].
  - rewrite !str_app_empty_l. cbn. by rewrite rpartition_sep_free.
  - rewrite !str_app_cons. cbn. rewrite IH.
    destruct s; by rewrite ?str_app_cons.
Qed.

Lemma rstrip_sep_app s t :
  Str.rstrip_sep (s +:+ t)
  = match Str.rstrip_sep t with
    | EmptyString => Str.rstrip_sep s
    | t' => s +:+ t'
    end.
Proof.
  induction s as [|a s IH].
  - rewrite !str_app_empty_l. by destruct (Str.rstrip_sep t).
  - rewrite str_app_cons. cbn. rewrite IH.
    destruct (Str.rstrip_sep t); [done|]. by destruct s.
Qed.

Lemma rstrip_sep_free t : sep_free t → Str.rstrip_sep t = t.
Proof.
  induction t as [|a t IH]; [done|].
  intros [Ha Ht]%sep_free_cons. cbn. rewrite IH by done.
  destruct t; [|done]. unfold Str.is_sep. by rewrite bool_decide_false.
Qed.

Lemma startswith_app s t : Str.startswith (s +:+ t) s = true.
Proof.
  unfold Str.startswith. induction s as [|a s IH]; [by destruct t|].
  rewrite str_app_cons. cbn. by destruct (ascii_dec a a).
Qed.

Lemma startswith_inv s p : Str.startswith s p = true → ∃ t, s = p +:+ t.
Proof.
  unfold Str.startswith. revert s. induction p as [|a p IH]; intros s H.
  - by exists s.
  - destruct s as [|b s]; [done|]. cbn in H.
    destruct (ascii_dec a b) as [->|]; [|done].
    destruct (IH _ H) as [t ->]. by exists t.
Qed.

Lemma endswith_app s t : Str.endswith (s +:+ t) t = true.
Proof.
  induction s as [|a s IH].
  - rewrite str_app_empty_l. destruct t; cbn; by rewrite bool_decide_true.
  - rewrite str_app_cons. cbn. rewrite IH. by rewrite orb_true_r.
Qed.

Lemma endswith_inv s p : Str.endswith s p = true → ∃ t, s = t +:+ p.
Proof.
  induction s as [|a s IH]; cbn.
  - rewrite orb_false_r. intros ->%bool_decide_eq_true. by exists EmptyString.
  - intros [->%bool_decide_eq_true|H]%orb_true_iff.
    + by exists EmptyString.
    + destruct (IH H) as [t ->]. by exists (String a t).
Qed.

Lemma split_on_last_app s n :
  sep_free n →
  ∃ l x, Str.split_on "/" s = l ++ [x] ∧
         Str.split_on "/" (s +:+ n) = l ++ [x +:+ n].
Proof.
  intros Hn. induction s as [|a s (l & x & IH1 & IH2)].
  - exists [], EmptyString. by rewrite !str_app_empty_l.
  - rewrite str_app_cons. cbn. rewrite IH1, IH2. case_bool_decide.
    + by exists (EmptyString :: l), x.
    + destruct l as [|h l]; cbn.
      * by exists [], (String a x).
      * by exists (String a h :: l), x.
Qed.

(** A string that ends with a non-empty name does not end with the
    separator. *)
Lemma endswith_sep_app_free s n :
  sep_free n → n ≠ EmptyString → Str.endswith (s +:+ n) "/" = false.
Proof.
  intros Hn Hne. apply not_true_is_false. intros [t Ht]%endswith_inv.
  assert (Str.split_on "/" (t +:+ "/") = Str.split_on "/" t ++ [EmptyString])
    as H1 by apply split_on_app.
  rewrite <-Ht in H1.
  destruct (split_on_last_app s n Hn) as (l & x & _ & Hl).
  rewrite Hl in H1. apply app_inj_tail in H1 as [_ H1].
  apply str_app_eq_empty in H1 as [_ ->]. done.
Qed.

Lemma startswith_sep_free n :
  sep_free n → Str.startswith n "/" = false.
Proof.
  destruct n as [|a n]; [done|]. intros [Ha _]%sep_free_cons.
  unfold Str.startswith. cbn. destruct (ascii_dec "/" a); [by subst|done].
Qed.

End Strings.

(** * Normalised paths *)

Section Paths.

Implicit Types p q r : list string.
Implicit Types n : string.



Lemma join_cons_cons n m p :
  Str.join "/" (n :: m :: p) = n +:+ String "/" (Str.join "/" (m :: p)).
Proof. done. Qed.

Lemma join_app p r :
  p ≠ [] → r ≠ [] →
  Str.join "/" (p ++ r) = Str.join "/" p +:+ String "/" (Str.join "/" r).
Proof.
  intros Hp Hr. induction p as [|n p IH]; [done|].
  destruct p as [|m p].
  - destruct r; [done|]. done.
  - change ((n :: m :: p) ++ r) with (n :: m :: (p ++ r)).
    rewrite !join_cons_cons. change (m :: p ++ r) with ((m :: p) ++ r).
    rewrite IH by done. by rewrite str_app_assoc.
Qed.

Lemma render_app p r : r ≠ [] → render (p ++ r) = trail p +:+ Str.join "/" r.
Proof.
  intros Hr. destruct p as [|n p]; [done|].
  unfold trail, render. rewrite join_app by done.
  by rewrite !str_app_assoc.
Qed.

Lemma render_snoc p n : render (p ++ [n]) = trail p +:+ n.
Proof. by rewrite render_app. Qed.

Lemma trail_nonempty p : trail p ≠ EmptyString.
Proof. by destruct p. Qed.

Lemma normal_app p r : normal (p ++ r) ↔ normal p ∧ normal r.
Proof. apply Forall_app. Qed.

Lemma normal_snoc p n : normal (p ++ [n]) ↔ normal p ∧ FS.valid_name n = true.
Proof. unfold normal. rewrite Forall_app, Forall_singleton. done. Qed.

Lemma join_sep_last p :
  normal p → p ≠ [] →
  ∃ s n, Str.join "/" p = s +:+ n ∧ FS.valid_name n = true.
Proof.
  intros Hp Hne. destruct (exists_last Hne) as (p' & n & ->).
  apply normal_snoc in Hp as [Hp Hn].
  destruct p' as [|m p'].
  - by exists EmptyString, n.
  - rewrite join_app by done. exists (Str.join "/" (m :: p') +:+ "/"), n.
    by rewrite str_app_assoc.
Qed.

Lemma render_not_endswith_sep p :
  normal p → p ≠ [] → Str.endswith (render p) "/" = false.
Proof.
  intros Hp Hne. destruct (join_sep_last p Hp Hne) as (s & n & Hj & Hn).
  unfold render. rewrite Hj, <-str_app_assoc.
  apply endswith_sep_app_free; [by apply valid_name_sep_free|].
  by apply valid_name_nonempty.
Qed.

Lemma render_nonempty p : render p ≠ EmptyString.
Proof. done. Qed.

Lemma isabs_render p : PosixPath.isabs (render p) = true.
Proof. apply (startswith_app "/"). Qed.

Lemma rstrip_render p : normal p → p ≠ [] → Str.rstrip_sep (render p) = render p.
Proof.
  intros Hp Hne. destruct (join_sep_last p Hp Hne) as (s & n & Hj & Hn).
  unfold render. rewrite Hj, <-str_app_assoc, rstrip_sep_app.
  rewrite rstrip_sep_free by by apply valid_name_sep_free.
  destruct n; [|done]. done.
Qed.

Lemma rstrip_trail p : normal p → p ≠ [] → Str.rstrip_sep (trail p) = render p.
Proof.
  intros Hp Hne. destruct p as [|m p]; [done|]. unfold trail.
  rewrite rstrip_sep_app. change (Str.rstrip_sep "/") with EmptyString.
  cbv iota. by apply rstrip_render.
Qed.

Lemma split_render_snoc p n :
  normal p → FS.valid_name n = true →
  PosixPath.split (render (p ++ [n])) = (render p, n).
Proof.
  intros Hp Hn. rewrite render_snoc. unfold PosixPath.split.
  destruct p as [|m p].
  - unfold trail. change ("/" +:+ n) with (EmptyString +:+ String "/" n).
    rewrite rpartition_app_sep by by apply valid_name_sep_free. done.
  - unfold trail. rewrite str_app_assoc.
    change ("/" +:+ n) with (String "/" n).
    rewrite rpartition_app_sep by by apply valid_name_sep_free.
    pose proof (rstrip_trail (m :: p) Hp) as Hs. unfold trail in Hs.
    rewrite Hs by done. done.
Qed.

Lemma split_trail p :
  normal p → p ≠ [] → PosixPath.split (render p +:+ "/") = (render p, EmptyString).
Proof.
  intros Hp Hne. unfold PosixPath.split.
  change (render p +:+ "/") with (render p +:+ String "/" EmptyString).
  rewrite rpartition_app_sep by done.
  pose proof (rstrip_trail p Hp Hne) as Hs.
  destruct p; [done|]. unfold trail in Hs. rewrite Hs. done.
Qed.

Lemma join_render p n :
  normal p → FS.valid_name n = true →
  PosixPath.join (render p) n = render (p ++ [n]).
Proof.
  intros Hp Hn. unfold PosixPath.join.
  rewrite startswith_sep_free by by apply valid_name_sep_free.
  rewrite render_snoc. destruct p as [|m p]; [done|].
  rewrite render_not_endswith_sep by done. unfold trail.
  change (render (m :: p)) with (String "/" (Str.join "/" (m :: p))).
  cbv iota. by rewrite str_app_assoc.
Qed.

Lemma foldl_join_render p r :
  normal p → normal r →
  foldl PosixPath.join (render p) r = render (p ++ r).
Proof.
  intros Hp Hr. revert p Hp. induction Hr as [|n r Hn Hr IH]; intros p Hp.
  - by rewrite app_nil_r.
  - cbn. rewrite join_render by done. rewrite IH.
    + by rewrite <-(assoc_L (++)).
    + by apply normal_snoc.
Qed.

Lemma render_inj p q : normal p → normal q → render p = render q → p = q.
Proof.
  intros Hp Hq Heq.
  destruct (decide (p = [])) as [->|Hpne], (decide (q = [])) as [->|Hqne];
    [done| | |].
  - destruct q as [|n [|m q]]; [done| |].
    + apply Forall_cons in Hq as [Hn _]. by destruct n.
    + apply Forall_cons in Hq as [Hn _]. by destruct n.
  - destruct p as [|n [|m p]]; [done| |].
    + apply Forall_cons in Hp as [Hn _]. by destruct n.
    + apply Forall_cons in Hp as [Hn _]. by destruct n.
  - assert (Str.split_on "/" (render p) = Str.split_on "/" (render q)) as H
        by by rewrite Heq.
    rewrite !split_on_render in H by done. by simplify_eq.
Qed.

Lemma join_length_pos r : normal r → r ≠ [] → 0 < String.length (Str.join "/" r).
Proof.
  intros Hr Hne. destruct r as [|n r]; [done|].
  apply Forall_cons in Hr as [Hn _].
  destruct r; [|rewrite join_cons_cons, str_app_length];
    destruct n; cbn; try done; lia.
Qed.

Lemma render_length_lt p r :
  normal r → r ≠ [] →
  String.length (render p) < String.length (render (p ++ r)).
Proof.
  intros Hr Hne. rewrite render_app by done.
  pose proof (join_length_pos r Hr Hne).
  destruct p as [|m p]; unfold trail, render; rewrite !str_app_length; cbn; lia.
Qed.

Lemma startswith_render_trail p q :
  normal p → normal q → p ≠ [] →
  Str.startswith (render q) (render p +:+ "/") = true ↔
  ∃ r, r ≠ [] ∧ q = p ++ r.
Proof.
  intros Hp Hq Hne. split.
  - intros [t Ht]%startswith_inv.
    assert (q ≠ []) as Hqne.
    { intros ->. destruct p as [|m p]; [done|].
      apply Forall_cons in Hp as [Hm _].
      destruct p; destruct m; done. }
    assert (Str.split_on "/" (render q)
            = Str.split_on "/" (render p) ++ Str.split_on "/" t) as H.
    { rewrite Ht, str_app_assoc. apply split_on_app. }
    rewrite !split_on_render in H by done.
    exists (Str.split_on "/" t). split; [apply split_on_nonempty|].
    cbn in H. by injection H.
  - intros (r & Hr & ->). rewrite render_app by done.
    destruct p; [done|]. apply startswith_app.
Qed.

End Paths.

(** * Resolution of normalised paths *)

Section Resolution.

Implicit Types p q r cur : list string.
Implicit Types tr : gmap (list string) FS.inode.


Lemma dirs_along_nil tr cur : dirs_along tr cur [].
Proof. intros i Hi. cbn in Hi. lia. Qed.

Lemma dirs_along_cons tr cur n p :
  dirs_along tr cur (n :: p) ↔
  tr !! cur = Some FS.Dir ∧ dirs_along tr (cur ++ [n]) p.
Proof.
  split.
  - intros H. split.
    + specialize (H 0). cbn in H. rewrite app_nil_r in H. apply H. lia.
    + intros i Hi. specialize (H (S i)). cbn in H.
      rewrite <-(assoc_L (++)). apply H. lia.
  - intros [H0 H] [|i] Hi; cbn.
    + by rewrite app_nil_r.
    + specialize (H i). rewrite <-(assoc_L (++)) in H. apply H. cbn in Hi. lia.
Qed.

Lemma is_dir_true o : FS.is_dir o = true ↔ o = Some FS.Dir.
Proof. destruct o as [[]|]; naive_solver. Qed.

Lemma is_file_true o : FS.is_file o = true ↔ ∃ d, o = Some (FS.File d).
Proof. destruct o as [[]|]; naive_solver. Qed.

Lemma walk_to_step tr cur n rest :
  FS.valid_name n = true →
  FS.walk_to tr cur (n :: rest)
  = if FS.is_dir (tr !! cur) then FS.walk_to tr (cur ++ [n]) rest else None.
Proof.
  intros Hn. cbn.
  rewrite (bool_decide_false (n = EmptyString)) by by apply valid_name_nonempty.
  rewrite (bool_decide_false (n = ".")) by by apply valid_name_not_dot.
  rewrite (bool_decide_false (n = "..")) by by apply valid_name_not_dotdot.
  done.
Qed.

Lemma walk_to_normal tr cur p :
  normal p → dirs_along tr cur p → FS.walk_to tr cur p = Some (cur ++ p).
Proof.
  intros Hp. revert cur. induction Hp as [|n p Hn Hp IH]; intros cur Hd.
  - by rewrite app_nil_r.
  - apply dirs_along_cons in Hd as [H0 Hd].
    rewrite walk_to_step by done. rewrite H0. cbn.
    rewrite IH by done. by rewrite <-(assoc_L (++)).
Qed.

Lemma walk_to_normal_inv tr cur p q :
  normal p → FS.walk_to tr cur p = Some q →
  q = cur ++ p ∧ dirs_along tr cur p.
Proof.
  intros Hp. revert cur. induction Hp as [|n p Hn Hp IH]; intros cur Hw.
  - cbn in Hw. simplify_eq. rewrite app_nil_r. split; [done|].
    apply dirs_along_nil.
  - rewrite walk_to_step in Hw by done.
    destruct (FS.is_dir (tr !! cur)) eqn:Hd; [|done].
    apply is_dir_true in Hd.
    destruct (IH _ Hw) as [-> Hd']. rewrite <-(assoc_L (++)). split; [done|].
    by apply dirs_along_cons.
Qed.

Lemma walk_to_skip tr cur rest :
  FS.walk_to tr cur (EmptyString :: rest)
  = if FS.is_dir (tr !! cur) then FS.walk_to tr cur rest else None.
Proof. done. Qed.

Lemma start_render fs p : FS.start fs (render p) = [].
Proof. unfold FS.start. by rewrite isabs_render. Qed.

Lemma resolve_eq fs s :
  s ≠ EmptyString →
  FS.resolve fs s
  = FS.walk_to (FS.nodes fs) (FS.start fs s) (Str.split_on "/" s).
Proof. by destruct s. Qed.

Lemma split_on_root : Str.split_on "/" (render []) = [EmptyString; EmptyString].
Proof. done. Qed.

Lemma resolve_render fs p :
  normal p → FS.nodes fs !! [] = Some FS.Dir → dirs_along (FS.nodes fs) [] p →
  FS.resolve fs (render p) = Some p.
Proof.
  intros Hp Hroot Hd. rewrite resolve_eq, start_render by done.
  destruct (decide (p = [])) as [->|Hne].
  - rewrite split_on_root, !walk_to_skip, Hroot. done.
  - rewrite split_on_render by done. rewrite walk_to_skip, Hroot. cbn.
    by apply (walk_to_normal _ []).
Qed.

Lemma resolve_render_inv fs p q :
  normal p → FS.resolve fs (render p) = Some q →
  q = p ∧ FS.nodes fs !! [] = Some FS.Dir ∧ dirs_along (FS.nodes fs) [] p.
Proof.
  intros Hp. rewrite resolve_eq, start_render by done.
  destruct (decide (p = [])) as [->|Hne].
  - rewrite split_on_root, !walk_to_skip.
    destruct (FS.is_dir (FS.nodes fs !! [])) eqn:Hroot; [|done].
    apply is_dir_true in Hroot. cbn.
    intros [= <-]. split_and!; [done..|apply dirs_along_nil].
  - rewrite split_on_render by done. rewrite walk_to_skip.
    destruct (FS.is_dir (FS.nodes fs !! [])) eqn:Hroot; [|done].
    apply is_dir_true in Hroot. intros Hw.
    apply walk_to_normal_inv in Hw as [-> Hd]; done.
Qed.

(** In a well-formed tree the ancestors of a node are directories and
    its names are valid. *)
Lemma wf_dirs_along tr p :
  FS.wf tr → is_Some (tr !! p) → normal p ∧ dirs_along tr [] p.
Proof.
  intros [Hroot Hwf]. induction p as [|n p IH] using rev_ind; intros [i Hi].
  - split; [constructor|apply dirs_along_nil].
  - destruct (Hwf _ _ _ Hi) as [Hp Hn].
    destruct IH as [IHn IHd]; [by eexists|].
    split; [by apply normal_snoc|].
    intros j Hj. rewrite length_app in Hj. cbn in Hj.
    destruct (decide (j = length p)) as [->|Hne].
    + by rewrite take_app_length.
    + rewrite take_app_le by lia. apply IHd. lia.
Qed.

Lemma wf_parent_dirs_along tr p n :
  FS.wf tr → tr !! p = Some FS.Dir → dirs_along tr [] (p ++ [n]).
Proof.
  intros Hwf Hp.
  destruct (wf_dirs_along tr p Hwf) as [_ Hd]; [by eexists|].
  intros j Hj. rewrite length_app in Hj. cbn in Hj.
  destruct (decide (j = length p)) as [->|Hne].
  - by rewrite take_app_length.
  - rewrite take_app_le by lia. apply Hd. lia.
Qed.

Lemma wf_root tr : FS.wf tr → tr !! [] = Some FS.Dir.
Proof. by intros []. Qed.

Lemma resolve_render_wf fs p :
  FS.wf (FS.nodes fs) → is_Some (FS.nodes fs !! p) →
  FS.resolve fs (render p) = Some p.
Proof.
  intros Hwf Hp. destruct (wf_dirs_along _ _ Hwf Hp) as [Hn Hd].
  apply resolve_render; [done|by apply wf_root|done].
Qed.

Lemma stat_render_wf fs p :
  FS.wf (FS.nodes fs) → normal p →
  FS.stat fs (render p) = FS.nodes fs !! p.
Proof.
  intros Hwf Hn. unfold FS.stat.
  destruct (FS.nodes fs !! p) as [i|] eqn:Hp.
  - rewrite resolve_render_wf; [by cbn|done|by eexists].
  - destruct (FS.resolve fs (render p)) as [q|] eqn:Hq; [|done].
    apply resolve_render_inv in Hq as (-> & _); [|done]. cbn. done.
Qed.

End Resolution.

Section WellFormedCheck.

Lemma wfb_wf tr : FS.wfb tr = true → FS.wf tr.
Proof.
  unfold FS.wfb. intros [Hroot Hall]%andb_true_iff.
  apply bool_decide_eq_true in Hroot. split; [done|].
  intros p n i Hl. rewrite forallb_forall in Hall.
  assert (In (p ++ [n], i) (map_to_list tr)) as Hin
    by by apply list_elem_of_In, elem_of_map_to_list.
  apply Hall in Hin. cbv beta iota in Hin.
  rewrite last_snoc, removelast_last in Hin.
  apply andb_true_iff in Hin as [Hd Hn].
  split; [|done]. by destruct (tr !! p) as [[]|].
Qed.

End WellFormedCheck.

(** * Running computations *)

Section Monad.

Context {S : Type}.

Lemma bind_ok {A B} (m : M S A) (k : A → M S B) s b s' :
  bind m k s = (Ok b, s') ↔ ∃ a s1, m s = (Ok a, s1) ∧ k a s1 = (Ok b, s').
Proof.
  unfold bind. destruct (m s) as [[a|e] s1]; split.
  - intros H. by exists a, s1.
  - by intros (? & ? & [= <- <-] & ?).
  - done.
  - by intros (? & ? & ? & ?).
Qed.

Lemma bind_run {A B} (m : M S A) (k : A → M S B) s a s1 :
  m s = (Ok a, s1) → bind m k s = k a s1.
Proof. unfold bind. by intros ->. Qed.

Lemma bind_raise {A B} (m : M S A) (k : A → M S B) s e s1 :
  m s = (Raise e, s1) → bind m k s = (Raise e, s1).
Proof. unfold bind. by intros ->. Qed.

End Monad.

(** One step of a run: the first computation of a [bind] returns. *)
Ltac step tac := erewrite bind_run; [cbv beta|tac; reflexivity].

Section MorePaths.

Implicit Types p q r : list string.

Lemma join_not_startswith_sep r :
  normal r → Str.startswith (Str.join "/" r) "/" = false.
Proof.
  intros Hr. destruct r as [|n r]; [done|].
  apply Forall_cons in Hr as [Hn _].
  pose proof (valid_name_sep_free n Hn) as Hs.
  destruct n as [|a n]; [done|]. apply sep_free_cons in Hs as [Ha _].
  assert (∃ t, Str.join "/" (String a n :: r) = String a t) as [t ->].
  { destruct r; [by eexists|]. rewrite join_cons_cons. by eexists. }
  unfold Str.startswith. cbn. destruct (ascii_dec "/" a); [by subst|done].
Qed.

Lemma join_render_rel p r :
  normal p → normal r → r ≠ [] →
  PosixPath.join (render p) (Str.join "/" r) = render (p ++ r).
Proof.
  intros Hp Hr Hne. unfold PosixPath.join.
  rewrite join_not_startswith_sep by done.
  rewrite render_app by done. destruct p as [|m p]; [done|].
  rewrite render_not_endswith_sep by done. unfold trail.
  change (render (m :: p)) with (String "/" (Str.join "/" (m :: p))).
  cbv iota. by rewrite str_app_assoc.
Qed.

Lemma render_not_startswith_2sep p :
  normal p → Str.startswith (render p) "//" = false.
Proof.
  intros Hp. pose proof (join_not_startswith_sep p Hp) as H.
  unfold render, Str.startswith in *.
  change ("/" +:+ ?x) with (String "/" x). cbn.
  destruct (ascii_dec "/" "/"); [|done]. exact H.
Qed.

Lemma filter_parts_normal p :
  normal p →
  filter (λ x : string, x ≠ EmptyString ∧ x ≠ ".") p = p.
Proof.
  induction 1 as [|n p Hn Hp IH]; [done|].
  rewrite filter_cons_True; [by rewrite IH|].
  split; [by apply valid_name_nonempty|by apply valid_name_not_dot].
Qed.

Lemma parse_render p : normal p → PurePath.parse (render p) = ("/", p).
Proof.
  intros Hp. unfold PurePath.parse.
  rewrite (isabs_render p : Str.startswith (render p) "/" = true).
  rewrite render_not_startswith_2sep by done. cbn.
  f_equal. destruct (decide (p = [])) as [->|Hne]; [done|].
  rewrite split_on_render by done.
  rewrite filter_cons_False by naive_solver.
  by apply filter_parts_normal.
Qed.

Lemma to_str_render p : normal p → PurePath.to_str (render p) = render p.
Proof. intros Hp. unfold PurePath.to_str. by rewrite parse_render. Qed.

Lemma dirname_render_snoc p n :
  normal p → FS.valid_name n = true →
  PosixPath.dirname (render (p ++ [n])) = render p.
Proof. intros. unfold PosixPath.dirname. by rewrite split_render_snoc. Qed.

End MorePaths.

Section MoreResolution.

Implicit Types p q r : list string.
Implicit Types tr : gmap (list string) FS.inode.


Lemma reachable_resolve fs p :
  normal p → reachable (FS.nodes fs) p → FS.resolve fs (render p) = Some p.
Proof. intros Hp [??]. by apply resolve_render. Qed.

Lemma reachable_stat fs p :
  normal p → reachable (FS.nodes fs) p →
  FS.stat fs (render p) = FS.nodes fs !! p.
Proof. intros Hp Hr. unfold FS.stat. by rewrite reachable_resolve. Qed.

Lemma resolve_reachable fs p q :
  normal p → FS.resolve fs (render p) = Some q →
  q = p ∧ reachable (FS.nodes fs) p.
Proof. intros Hp Hq. by apply resolve_render_inv in Hq as (? & ? & ?). Qed.

Lemma take_lt_ne {A} (l : list A) i : i < length l → take i l ≠ l.
Proof.
  intros Hi Heq. apply (f_equal length) in Heq.
  rewrite length_take in Heq. lia.
Qed.

Lemma reachable_insert tr p i :
  p ≠ [] → reachable tr p → reachable (<[p := i]> tr) p.
Proof.
  intros Hne [Hroot Hd]. split.
  - by rewrite lookup_insert_ne.
  - intros j Hj. rewrite lookup_insert_ne; [by apply Hd|].
    cbn. by apply not_eq_sym, take_lt_ne.
Qed.

Lemma reachable_delete tr p :
  p ≠ [] → reachable tr p → reachable (delete p tr) p.
Proof.
  intros Hne [Hroot Hd]. split.
  - by rewrite lookup_delete_ne.
  - intros j Hj. rewrite lookup_delete_ne; [by apply Hd|].
    cbn. by apply not_eq_sym, take_lt_ne.
Qed.

Lemma reachable_parent tr p n :
  reachable tr (p ++ [n]) → reachable tr p ∧ tr !! p = Some FS.Dir.
Proof.
  intros [Hroot Hd]. split; [split; [done|]|].
  - intros j Hj. specialize (Hd j). cbn in Hd.
    rewrite take_app_le in Hd by lia. apply Hd. rewrite length_app. lia.
  - specialize (Hd (length p)). cbn in Hd. rewrite take_app_length in Hd.
    apply Hd. rewrite length_app. cbn. lia.
Qed.

End MoreResolution.

(** * The scheme destination *)

Section SchemeDestination.

Import Installers.

Variable hash_of : string → string.

Implicit Types p q r : list string.

Lemma fs_write_inv fs q d fs' :
  normal q → FS.write fs (render q) d = Ok fs' →
  reachable (FS.nodes fs) q ∧ FS.nodes fs !! q ≠ Some FS.Dir ∧
  fs' = FS.with_nodes fs (<[q := FS.File d]> (FS.nodes fs)).
Proof.
  intros Hq. unfold FS.write.
  destruct (FS.resolve fs (render q)) as [q'|] eqn:Hres; [|done].
  apply resolve_reachable in Hres as [-> Hr]; [|done].
  destruct (FS.nodes fs !! q) as [[]|] eqn:Hn; intros [= <-]; done.
Qed.

Lemma fs_write_run fs q d :
  normal q → reachable (FS.nodes fs) q → FS.nodes fs !! q ≠ Some FS.Dir →
  FS.write fs (render q) d
  = Ok (FS.with_nodes fs (<[q := FS.File d]> (FS.nodes fs))).
Proof.
  intros Hq Hr Hn. unfold FS.write. rewrite reachable_resolve by done.
  by destruct (FS.nodes fs !! q) as [[]|].
Qed.

(** What a successful write leaves behind. *)
Lemma write_to_fs_ok self scheme r comps d w0 e w1 :
  scheme_dict self !! scheme = Some (render r) →
  normal r → normal comps → comps ≠ [] →
  write_to_fs hash_of self scheme (Str.join "/" comps) d w0 = (Ok e, w1) →
  reachable (FS.nodes (fs w1)) (r ++ comps) ∧
  FS.nodes (fs w1) !! (r ++ comps) = Some (FS.File d).
Proof.
  intros Hroot Hr Hc Hne Hrun.
  assert (normal (r ++ comps)) as Hq by by apply normal_app.
  assert (r ++ comps ≠ []) as Hqne by by destruct r, comps.
  unfold write_to_fs, Uninstallers.getitem in Hrun. rewrite Hroot in Hrun.
  apply bind_ok in Hrun as (? & ? & [= <- <-] & Hrun).
  apply bind_ok in Hrun as (present & ? & [= <- <-] & Hrun).
  apply bind_ok in Hrun as ([] & wa & _ & Hrun).
  unfold super_write_to_fs, Uninstallers.getitem in Hrun. rewrite Hroot in Hrun.
  apply bind_ok in Hrun as (? & ? & [= <- <-] & Hrun).
  apply bind_ok in Hrun as (taken & ? & [= <- <-] & Hrun).
  destruct (FS.exists_ _ _) in Hrun; [done|].
  apply bind_ok in Hrun as (pe & ? & [= <- <-] & Hrun).
  apply bind_ok in Hrun as ([] & wb & _ & Hrun).
  apply bind_ok in Hrun as ([] & wc & Hwrite & [= <- <-]).
  rewrite join_render_rel in Hwrite by done.
  unfold os, zoom, Os.write, Os.syscall in Hwrite.
  destruct (FS.write (fs wb) (render (r ++ comps)) d) as [fs'|] eqn:Hw;
    [|done].
  injection Hwrite as <-.
  apply fs_write_inv in Hw as (Hreach & Hnd & ->); [|done]. cbn.
  split; [by apply reachable_insert|by rewrite lookup_insert_eq].
Qed.

Lemma exists_reachable fs q :
  normal q → reachable (FS.nodes fs) q →
  FS.exists_ fs (render q) = bool_decide (is_Some (FS.nodes fs !! q)).
Proof. intros. unfold FS.exists_. by rewrite reachable_stat. Qed.

(** Writing over an existing regular file. *)
Lemma write_to_fs_over self scheme r comps d w0 :
  scheme_dict self !! scheme = Some (render r) →
  normal r → normal comps → comps ≠ [] →
  reachable (FS.nodes (fs w0)) (r ++ comps) →
  FS.is_file (FS.nodes (fs w0) !! (r ++ comps)) = true →
  write_to_fs hash_of self scheme (Str.join "/" comps) d w0
  = (Ok {| entry_path := Str.join "/" comps;
           entry_hash := Some (hash_of d);
           entry_size := Some (String.length d) |},
     set_fs w0 (FS.with_nodes (fs w0)
                  (<[r ++ comps := FS.File d]> (FS.nodes (fs w0))))).
Proof.
  intros Hroot Hr Hc Hne Hreach Hfile.
  assert (normal (r ++ comps)) as Hq by by apply normal_app.
  assert (r ++ comps ≠ []) as Hqne by by destruct r, comps.
  apply is_file_true in Hfile as [d0 Hfile].
  assert (reachable (delete (r ++ comps) (FS.nodes (fs w0))) (r ++ comps))
    as Hreach' by by apply reachable_delete.
  unfold write_to_fs.
  step ltac:(unfold Uninstallers.getitem; rewrite Hroot).
  rewrite join_render_rel, to_str_render by done.
  step ltac:(unfold gets; rewrite exists_reachable, Hfile,
               bool_decide_true by (done || by eexists)).
  step ltac:(unfold when, os, zoom, Os.unlink, Os.syscall, FS.unlink;
             rewrite reachable_resolve, Hfile by done).
  unfold super_write_to_fs.
  step ltac:(unfold Uninstallers.getitem; rewrite Hroot).
  rewrite join_render_rel by done.
  step ltac:(unfold gets; cbn [fs set_fs];
             rewrite exists_reachable by done; cbn [FS.nodes FS.with_nodes];
             rewrite lookup_delete_eq, bool_decide_false by by intros []).
  destruct (exists_last Hne) as (cs & c & ->).
  apply normal_snoc in Hc as [Hcs Hcn].
  rewrite (assoc_L (++)), dirname_render_snoc by (done || by apply normal_app).
  rewrite (assoc_L (++)) in Hreach'.
  pose proof Hreach' as Hreach2.
  apply reachable_parent in Hreach' as [Hpr Hpd].
  step ltac:(unfold gets; cbn [fs set_fs];
             rewrite exists_reachable by (done || by apply normal_app);
             cbn [FS.nodes FS.with_nodes];
             rewrite Hpd, bool_decide_true by by eexists).
  step ltac:(unfold when; cbn [negb]).
  step ltac:(unfold os, zoom, Os.write, Os.syscall; cbn [fs set_fs];
             rewrite fs_write_run;
             [|by rewrite <-(assoc_L (++))|done
              |cbn; by rewrite lookup_delete_eq]).
  cbn. rewrite insert_delete_eq. by rewrite <-!(assoc_L (++)).
Qed.

(** C8.  The scheme root is an absolute directory [/r1/.../rk] and the
    relative path is [c1/.../cn].  When a first write through the
    destination has returned, a second write with the same scheme and
    path returns too; the file of the first write is then replaced by
    the file of the second, and every other node of the file system is
    as the first write left it: one file at the target, with the bytes
    of the second write. *)
Theorem write_to_fs_twice self scheme r comps d1 d2 w0 e1 w1 :
  scheme_dict self !! scheme = Some (render r) →
  normal r → normal comps → comps ≠ [] →
  write_to_fs hash_of self scheme (Str.join "/" comps) d1 w0 = (Ok e1, w1) →
  ∃ e2 w2,
    write_to_fs hash_of self scheme (Str.join "/" comps) d2 w1 = (Ok e2, w2) ∧
    FS.nodes (fs w1) !! (r ++ comps) = Some (FS.File d1) ∧
    FS.nodes (fs w2) = <[r ++ comps := FS.File d2]> (FS.nodes (fs w1)) ∧
    FS.read (fs w2) (PosixPath.join (render r) (Str.join "/" comps)) = Ok d2.
Proof.
  intros Hroot Hr Hc Hne Hrun.
  destruct (write_to_fs_ok _ _ _ _ _ _ _ _ Hroot Hr Hc Hne Hrun)
    as [Hreach Hfile].
  eexists _, _. split; [|split; [exact Hfile|split]].
  - apply write_to_fs_over; try done. by rewrite Hfile.
  - done.
  - cbn. rewrite join_render_rel by done. unfold FS.read.
    assert (normal (r ++ comps)) as Hq by by apply normal_app.
    assert (r ++ comps ≠ []) as Hqne by by destruct r, comps.
    rewrite reachable_stat; [|done|by apply reachable_insert].
    cbn. by rewrite lookup_insert_eq.
Qed.

End SchemeDestination.

(** Two writes of [pkg/m.py] into the pure library of the example. *)
Lemma write_to_fs_twice_witness :
  let self :=
    {| Installers.scheme_dict := Examples.paths;
       Installers.interpreter := "/usr/bin/python3";
       Installers.script_kind := "posix" |} in
  let w1 :=
    (Installers.write_to_fs Examples.hash_of self "purelib" "pkg/m.py" "one"
       Examples.earth).2 in
  ∃ e2 w2,
    Installers.write_to_fs Examples.hash_of self "purelib" "pkg/m.py" "two" w1
    = (Ok e2, w2) ∧
    FS.nodes (fs w1) !! ["env"; "lib"; "pkg"; "m.py"] = Some (FS.File "one") ∧
    FS.nodes (fs w2)
    = <[ ["env"; "lib"; "pkg"; "m.py"] := FS.File "two" ]> (FS.nodes (fs w1)) ∧
    FS.read (fs w2) "/env/lib/pkg/m.py" = Ok "two".
Proof.
  intros self w1.
  apply (write_to_fs_twice Examples.hash_of self "purelib" ["env"; "lib"]
           ["pkg"; "m.py"] "one" "two" Examples.earth
           {| Installers.entry_path := "pkg/m.py";
              Installers.entry_hash := Some "sha256=one";
              Installers.entry_size := Some 3 |} w1);
    [reflexivity | by repeat constructor | by repeat constructor | done
    | vm_compute; reflexivity].
Defined.

(** * Nodes that a computation leaves in place *)

Section Keeps.

Implicit Types K : list string → FS.inode → Prop.
Implicit Types f : FS.t.


Lemma keeps_refl K f : keeps K f f.
Proof. by split. Qed.

Lemma keeps_trans K f1 f2 f3 : keeps K f1 f2 → keeps K f2 f3 → keeps K f1 f3.
Proof. intros [H1 H2] [H3 H4]. split; [congruence|]. eauto. Qed.


Section Closure.

Context {S : Type} (proj : S → FS.t) (K : list string → FS.inode → Prop).

Lemma Keeps_ret {A} (a : A) : Keeps proj K (ret a).
Proof. intros s r s' [= <- <-]. apply keeps_refl. Qed.

Lemma Keeps_raise {A} e : Keeps proj K (raise e : M S A).
Proof. intros s r s' [= <- <-]. apply keeps_refl. Qed.

Lemma Keeps_gets {A} (g : S → A) : Keeps proj K (gets g).
Proof. intros s r s' [= <- <-]. apply keeps_refl. Qed.

Lemma Keeps_modify (g : S → S) :
  (∀ s, proj (g s) = proj s) → Keeps proj K (modify g).
Proof. intros Hg s r s' [= <- <-]. rewrite Hg. apply keeps_refl. Qed.

Lemma Keeps_bind {A B} (m : M S A) (k : A → M S B) :
  Keeps proj K m → (∀ a, Keeps proj K (k a)) → Keeps proj K (bind m k).
Proof.
  intros Hm Hk s r s'. unfold bind.
  destruct (m s) as [[a|e] s1] eqn:Hms.
  - intros Hks. eapply keeps_trans; [by eapply Hm|by eapply Hk].
  - intros [= <- <-]. by eapply Hm.
Qed.

Lemma Keeps_try_except {A} (m h : M S A) handled :
  Keeps proj K m → Keeps proj K h → Keeps proj K (try_except m handled h).
Proof.
  intros Hm Hh s r s'. unfold try_except.
  destruct (m s) as [[a|e] s1] eqn:Hms.
  - intros [= <- <-]. by eapply Hm.
  - destruct (handled e).
    + intros Hhs. eapply keeps_trans; [by eapply Hm|by eapply Hh].
    + intros [= <- <-]. by eapply Hm.
Qed.

Lemma Keeps_when (b : bool) (m : M S unit) :
  Keeps proj K m → Keeps proj K (when b m).
Proof. intros Hm. destruct b; [done|apply Keeps_ret]. Qed.

Lemma Keeps_for_each {A} (l : list A) (body : A → M S unit) :
  (∀ x, Keeps proj K (body x)) → Keeps proj K (for_each l body).
Proof.
  intros Hb. induction l as [|x l IH]; [apply Keeps_ret|].
  apply Keeps_bind; [apply Hb|]. by intros _.
Qed.

End Closure.

Lemma Keeps_zoom {S T A} (projS : S → T) (inj : S → T → S) (projT : T → FS.t)
    K (m : M T A) :
  (∀ s t, projT (projS (inj s t)) = projT t) →
  Keeps projT K m → Keeps (projT ∘ projS) K (zoom projS inj m).
Proof.
  intros Hinj Hm s r s'. unfold zoom.
  destruct (m (projS s)) as [r1 t'] eqn:Hms. intros [= <- <-].
  cbn. rewrite Hinj. by eapply Hm.
Qed.

Lemma Keeps_os {A} K (m : M FS.t A) : Keeps id K m → Keeps fs K (os m).
Proof.
  intros Hm. apply (Keeps_zoom fs set_fs id K m); [done|done].
Qed.

(** A system call that fails changes nothing. *)
Lemma Keeps_syscall K (f : FS.t → res FS.t) :
  (∀ fs fs', f fs = Ok fs' → keeps K fs fs') → Keeps id K (Os.syscall f).
Proof.
  intros Hf s r s'. unfold Os.syscall.
  destruct (f s) as [fs'|e] eqn:Hfs; intros [= <- <-].
  - by apply Hf.
  - apply keeps_refl.
Qed.


Lemma keeps_insert_new K fs p i :
  FS.nodes fs !! p = None → keeps K fs (FS.with_nodes fs (<[p := i]> (FS.nodes fs))).
Proof.
  intros Hp. split; [done|]. intros k j _ Hk. cbn.
  rewrite lookup_insert_ne; [done|congruence].
Qed.

Lemma keeps_mkdir K fs s fs' : FS.mkdir fs s = Ok fs' → keeps K fs fs'.
Proof.
  unfold FS.mkdir. destruct (FS.resolve_new fs s) as [p|]; [|done].
  destruct (FS.nodes fs !! p) eqn:Hp; [done|]. intros [= <-].
  by apply keeps_insert_new.
Qed.

Lemma keeps_unlink K fs s fs' :
  (∀ p d, FS.resolve fs s = Some p → ¬ K p (FS.File d)) →
  FS.unlink fs s = Ok fs' → keeps K fs fs'.
Proof.
  intros HK. unfold FS.unlink. destruct (FS.resolve fs s) as [p|]; [|done].
  destruct (FS.nodes fs !! p) as [[d|]|] eqn:Hp; [|done..]. intros [= <-].
  split; [done|]. intros k j Hkj Hk. cbn.
  rewrite lookup_delete_ne; [done|]. intros <-.
  rewrite Hp in Hk. simplify_eq. by eapply HK.
Qed.

Lemma keeps_write K fs s d fs' :
  (∀ p d', FS.resolve fs s = Some p → ¬ K p (FS.File d')) →
  FS.write fs s d = Ok fs' → keeps K fs fs'.
Proof.
  intros HK. unfold FS.write. destruct (FS.resolve fs s) as [p|]; [|done].
  destruct (FS.nodes fs !! p) as [[d'|]|] eqn:Hp; [|done|]; intros [= <-].
  - split; [done|]. intros k j Hkj Hk. cbn.
    rewrite lookup_insert_ne; [done|]. intros <-.
    rewrite Hp in Hk. simplify_eq. by eapply HK.
  - by apply keeps_insert_new.
Qed.

Lemma Keeps_mkdir K s : Keeps id K (Os.mkdir s).
Proof. apply Keeps_syscall. intros ??. apply keeps_mkdir. Qed.

Lemma Keeps_makedirs_go K fuel s : Keeps id K (Os.makedirs_go fuel s).
Proof.
  revert s. induction fuel as [|fuel IH]; intros s; [apply Keeps_raise|].
  cbn. destruct (Os.split_skip s) as [head tail].
  apply Keeps_bind; [apply Keeps_gets|]. intros pe.
  destruct (_ && _).
  - apply Keeps_bind.
    + apply Keeps_try_except; [apply IH|apply Keeps_ret].
    + intros _. destruct (bool_decide _); [apply Keeps_ret|apply Keeps_mkdir].
  - apply Keeps_mkdir.
Qed.

Lemma Keeps_makedirs K s : Keeps id K (Os.makedirs s).
Proof. apply Keeps_makedirs_go. Qed.

(** Resolution only looks at directories. *)
Lemma walk_to_keeps tr tr' cur comps q :
  (∀ k, tr !! k = Some FS.Dir → tr' !! k = Some FS.Dir) →
  FS.walk_to tr cur comps = Some q → FS.walk_to tr' cur comps = Some q.
Proof.
  intros Hk. revert cur. induction comps as [|c comps IH]; intros cur; [done|].
  cbn. destruct (FS.is_dir (tr !! cur)) eqn:Hd; [|done].
  apply is_dir_true in Hd. rewrite (Hk _ Hd). cbn.
  repeat case_match; apply IH.
Qed.

Lemma resolve_keeps fs fs' s q :
  keeps only_dirs fs fs' →
  FS.resolve fs s = Some q → FS.resolve fs' s = Some q.
Proof.
  intros [Hcwd Hk]. unfold FS.resolve, FS.start. rewrite Hcwd.
  destruct s; [done|]. apply walk_to_keeps. intros k. by apply Hk.
Qed.

Lemma isdir_keeps fs fs' s :
  keeps only_dirs fs fs' → FS.isdir fs s = true → FS.isdir fs' s = true.
Proof.
  intros Hk. unfold FS.isdir, FS.stat.
  destruct (FS.resolve fs s) as [q|] eqn:Hq; [|done].
  rewrite (resolve_keeps _ _ _ _ Hk Hq). cbn.
  intros Hd%is_dir_true. apply is_dir_true. by apply Hk.
Qed.

End Keeps.

Section PathlibStr.

Lemma split_on_sep_free s : Forall sep_free (Str.split_on "/" s).
Proof.
  induction s as [|a s IH]; [by repeat constructor|].
  cbn. case_bool_decide as Ha.
  - constructor; [done|exact IH].
  - pose proof (split_on_nonempty s).
    destruct (Str.split_on "/" s) as [|h t]; [done|].
    apply Forall_cons in IH as [Hh Ht]. constructor; [|done].
    by apply sep_free_cons.
Qed.

Lemma join_last_part (parts : list string) :
  Forall (λ x, sep_free x ∧ x ≠ EmptyString) parts → parts ≠ [] →
  ∃ s n, Str.join "/" parts = s +:+ n ∧ sep_free n ∧ n ≠ EmptyString.
Proof.
  intros Hp Hne. destruct (exists_last Hne) as (p' & n & ->).
  apply Forall_app in Hp as [_ [Hn Hn']%Forall_singleton].
  destruct p' as [|m p'].
  - by exists EmptyString, n.
  - rewrite join_app by done. exists (Str.join "/" (m :: p') +:+ "/"), n.
    by rewrite str_app_assoc.
Qed.

Lemma rstrip_to_str x :
  Str.rstrip_sep (PurePath.to_str x) = EmptyString ∨
  Str.rstrip_sep (PurePath.to_str x) = PurePath.to_str x.
Proof.
  unfold PurePath.to_str, PurePath.parse.
  set (parts := filter _ _).
  assert (Forall (λ x, sep_free x ∧ x ≠ EmptyString) parts) as Hparts.
  { apply Forall_forall. intros y [[Hy1 Hy2] Hy]%list_elem_of_filter.
    split; [|done]. clear Hy1 Hy2. revert y Hy.
    apply Forall_forall, split_on_sep_free. }
  clearbody parts.
  destruct (decide (parts = [])) as [->|Hne].
  - destruct (Str.startswith x "/");
      [destruct (Str.startswith x "//" && negb (Str.startswith x "///"))|];
      vm_compute; auto.
  - destruct (join_last_part parts Hparts Hne) as (s & n & -> & Hn & Hn').
    set (root := if Str.startswith x "/" then _ else _).
    assert (Str.rstrip_sep (root +:+ s +:+ n) = root +:+ s +:+ n) as Hr.
    { rewrite <-str_app_assoc, rstrip_sep_app, rstrip_sep_free by done.
      by destruct n. }
    destruct (root +:+ s +:+ n) eqn:Heq; [|by right].
    apply str_app_eq_empty in Heq as [_ Heq].
    by apply str_app_eq_empty in Heq as [_ ->].
Qed.

Lemma resolve_new_to_str fs x :
  FS.resolve_new fs (PurePath.to_str x) = FS.resolve fs (PurePath.to_str x).
Proof.
  unfold FS.resolve_new. destruct (rstrip_to_str x) as [->| ->]; [done|].
  by destruct (PurePath.to_str x).
Qed.

End PathlibStr.

(** * The cached installer *)

Section CachedInstaller.

Import Installers.

Variable hash_of : string → string.
Variable build_script :
  string → string → string → string → string → string → string * string.
Variable fix_shebang : string → string → string.
Variable parse_entrypoints : string → list (string * string * string * string).
Variable _determine_scheme : string → string → string → res (string * string).
Variable construct_record_file : list RecordEntry → string.
Variable normalize_name : string → string.
Variable __version__ : string.

Abbreviation install_wheel :=
  (install_wheel hash_of build_script fix_shebang parse_entrypoints
     _determine_scheme construct_record_file __version__).
Abbreviation _install_from_cache :=
  (_install_from_cache hash_of build_script fix_shebang parse_entrypoints
     _determine_scheme construct_record_file normalize_name __version__).
Abbreviation install_wheel_with_cache :=
  (install_wheel_with_cache hash_of build_script fix_shebang parse_entrypoints
     _determine_scheme construct_record_file normalize_name __version__).
Abbreviation materialize :=
  (materialize hash_of build_script fix_shebang parse_entrypoints
     _determine_scheme construct_record_file __version__).

Ltac keeps_step :=
  lazymatch goal with
  | |- Keeps _ _ (ret _) => apply Keeps_ret
  | |- Keeps _ _ (raise _) => apply Keeps_raise
  | |- Keeps _ _ (gets _) => apply Keeps_gets
  | |- Keeps _ _ (when _ _) => apply Keeps_when
  | |- Keeps _ _ (os _) => apply Keeps_os
  | |- Keeps _ _ (Os.makedirs _) => apply Keeps_makedirs
  | |- Keeps _ _ (bind _ _) => apply Keeps_bind; [|intros ?]
  | |- Keeps _ _ (modify _) => apply Keeps_modify; by intros []
  | |- Keeps _ _ (logger _ _) => apply Keeps_modify; by intros []
  end.

Lemma Keeps_getitem K (d : gmap string string) key :
  Keeps fs K (Uninstallers.getitem d key).
Proof. unfold Uninstallers.getitem. destruct (d !! key); repeat keeps_step. Qed.

Lemma Keeps_of_res {A} K (r : res A) : Keeps fs K (of_res r).
Proof. destruct r; cbn; keeps_step. Qed.

Lemma Keeps_unlink_dirs s : Keeps id only_dirs (Os.unlink s).
Proof. apply Keeps_syscall. intros ??. by apply keeps_unlink. Qed.

Lemma Keeps_write_dirs s d : Keeps id only_dirs (Os.write s d).
Proof. apply Keeps_syscall. intros ??. by apply keeps_write. Qed.

Lemma Keeps_write_to_fs self scheme path data :
  Keeps fs only_dirs (write_to_fs hash_of self scheme path data).
Proof.
  unfold write_to_fs, super_write_to_fs.
  repeat first [keeps_step | apply Keeps_getitem | apply Keeps_unlink_dirs
               | apply Keeps_write_dirs | case_match].
Qed.

Lemma Keeps_write_file self scheme path data :
  Keeps fs only_dirs (write_file hash_of fix_shebang self scheme path data).
Proof. unfold write_file. case_match; apply Keeps_write_to_fs. Qed.

Lemma Keeps_collect {A} (l : list A) body :
  (∀ x, Keeps fs only_dirs (body x)) →
  Keeps fs only_dirs (collect l body).
Proof.
  intros Hb. induction l as [|x l IH]; cbn; [apply Keeps_ret|].
  repeat keeps_step; [apply Hb|apply IH].
Qed.

Lemma Keeps_write_entry_points source base destination :
  Keeps fs only_dirs
    (write_entry_points hash_of build_script parse_entrypoints source base
       destination).
Proof.
  unfold write_entry_points. case_match; [|apply Keeps_ret].
  apply Keeps_bind; [apply Keeps_of_res|]. intros text.
  apply Keeps_collect. intros [[[n m] a] s]. unfold write_script.
  destruct (build_script _ _ _ _ _ _).
  repeat keeps_step. apply Keeps_write_to_fs.
Qed.

Lemma Keeps_write_metadata base root destination metadata :
  Keeps fs only_dirs
    (write_metadata hash_of fix_shebang base root destination metadata).
Proof.
  unfold write_metadata. apply Keeps_collect. intros [filename contents].
  repeat keeps_step. apply Keeps_write_file.
Qed.

Lemma Keeps_finalize destination scheme path records :
  Keeps fs only_dirs
    (finalize_installation hash_of construct_record_file destination scheme
       path records).
Proof. unfold finalize_installation. repeat keeps_step. apply Keeps_write_to_fs. Qed.

Lemma Keeps_install_wheel candidate scheme :
  Keeps fs only_dirs (install_wheel candidate scheme).
Proof.
  unfold Installers.install_wheel, install.
  apply Keeps_bind; [apply Keeps_of_res|]. intros base.
  apply Keeps_bind; [apply Keeps_write_entry_points|]. intros scripts.
  apply Keeps_bind.
  { apply Keeps_collect. intros [path stream].
    case_match; [apply Keeps_ret|].
    apply Keeps_bind; [apply Keeps_of_res|]. intros [sch dest].
    repeat keeps_step. apply Keeps_write_file. }
  intros files.
  apply Keeps_bind; [apply Keeps_write_metadata|]. intros metadata.
  apply Keeps_finalize.
Qed.

Lemma Keeps_install_from_cache candidate package_cache :
  Keeps fs only_dirs (_install_from_cache candidate package_cache).
Proof.
  unfold Installers._install_from_cache.
  apply Keeps_bind; [apply Keeps_of_res|]. intros base.
  apply Keeps_bind; [apply Keeps_write_entry_points|]. intros scripts.
  apply Keeps_bind.
  { apply Keeps_collect. intros [path stream].
    case_match; [apply Keeps_ret|].
    apply Keeps_bind; [apply Keeps_of_res|]. intros [sch dest].
    repeat keeps_step. apply Keeps_write_file. }
  intros files.
  apply Keeps_bind; [apply Keeps_getitem|]. intros lib_path.
  apply Keeps_bind; [apply Keeps_write_file|]. intros pointer.
  apply Keeps_bind; [apply Keeps_write_metadata|]. intros metadata.
  apply Keeps_bind; [apply Keeps_finalize|]. intros _.
  unfold CachedPackage.add_referrer. apply Keeps_modify. by intros [].
Qed.


Lemma mkdir_exist_ok_isdir x w0 w1 :
  mkdir_exist_ok (PurePath.to_str x) w0 = (Ok tt, w1) →
  FS.isdir (fs w1) (PurePath.to_str x) = true.
Proof.
  unfold mkdir_exist_ok, try_except, os, zoom, Os.mkdir, Os.syscall.
  destruct (FS.mkdir (fs w0) (PurePath.to_str x)) as [fs'|e] eqn:Hmk.
  - intros [= <-]. cbn. unfold FS.mkdir in Hmk.
    rewrite resolve_new_to_str in Hmk.
    destruct (FS.resolve (fs w0) (PurePath.to_str x)) as [p|] eqn:Hres;
      [|done].
    destruct (FS.nodes (fs w0) !! p) eqn:Hp; [done|]. injection Hmk as <-.
    unfold FS.isdir, FS.stat.
    erewrite resolve_keeps; [|by apply keeps_insert_new|exact Hres].
    cbn. by rewrite lookup_insert_eq.
  - destruct (is_OSError e); [|done].
    change (fs (set_fs w0 (fs w0))) with (fs w0).
    destruct (FS.isdir (fs w0) (PurePath.to_str x)) eqn:Hd; [|done].
    by intros [= <-].
Qed.

Lemma materialize_isdir candidate w0 w1 :
  materialize candidate w0 = (Ok tt, w1) →
  FS.isdir (fs w1) (cache_path candidate) = true.
Proof.
  unfold materialize. intros Hrun.
  apply bind_ok in Hrun as ([] & wa & _ & Hrun).
  apply bind_ok in Hrun as ([] & wb & Hmk & Hrun).
  apply mkdir_exist_ok_isdir in Hmk.
  eapply isdir_keeps; [|exact Hmk]. by eapply Keeps_install_wheel.
Qed.

Lemma install_wheel_with_cache_cached candidate scheme w0 :
  FS.isdir (fs w0) (cache_path candidate) = true →
  install_wheel_with_cache candidate scheme w0
  = _install_from_cache candidate (cache_path candidate) w0.
Proof.
  intros Hd. unfold Installers.install_wheel_with_cache.
  fold (cache_path candidate).
  unfold bind at 1, gets at 1. rewrite Hd. done.
Qed.

Lemma install_wheel_with_cache_fresh candidate scheme w0 :
  FS.isdir (fs w0) (cache_path candidate) = false →
  install_wheel_with_cache candidate scheme w0
  = (materialize candidate ;;
     _install_from_cache candidate (cache_path candidate)) w0.
Proof.
  intros Hd. unfold Installers.install_wheel_with_cache.
  fold (cache_path candidate).
  unfold bind at 1, gets at 1. rewrite Hd. done.
Qed.

Lemma bind_to_match {S A B} (m : M S A) (k : A → M S B) s :
  bind m k s
  = match m s with (Ok a, s') => k a s' | (Raise e, s') => (Raise e, s') end.
Proof. done. Qed.


Lemma same_archive_cache_path c1 c2 :
  same_archive c1 c2 → cache_path c2 = cache_path c1.
Proof. intros [H1 H2]. unfold cache_path. by rewrite H1, H2. Qed.

Lemma link_installs_when_cached c cs w0 :
  Forall (same_archive c) cs →
  FS.isdir (fs w0) (cache_path c) = true →
  for_each cs (λ c', install_wheel_with_cache c' None) w0
  = for_each cs (λ c', _install_from_cache c' (cache_path c)) w0.
Proof.
  intros Hcs. revert w0. induction Hcs as [|c' cs Hc' Hcs IH]; intros w0 Hd;
    [done|].
  cbn [for_each]. unfold bind.
  rewrite install_wheel_with_cache_cached
    by by rewrite (same_archive_cache_path c c').
  rewrite (same_archive_cache_path c c') by done.
  destruct (_install_from_cache c' (cache_path c) w0) as [[[]|e] w1] eqn:Hrun;
    [|done].
  apply IH. eapply isdir_keeps; [|exact Hd].
  by eapply Keeps_install_from_cache.
Qed.


Lemma top_level_sep_free x : sep_free (top_level x).
Proof.
  unfold top_level. pose proof (split_on_sep_free x) as H.
  destruct (Str.split_on "/" x); [done|]. by apply Forall_cons in H as [].
Qed.

Lemma dist_info_dir_valid source base :
  dist_info_dir source = Ok base → FS.valid_name base = true.
Proof.
  unfold dist_info_dir.
  destruct (list_find _ _) as [[i x]|] eqn:Hfind; [|done]. intros [= <-].
  apply list_find_Some in Hfind as (_ & Hend & _).
  pose proof (top_level_sep_free x) as Hsf.
  destruct (top_level x) as [|a t] eqn:Ht; [done|].
  unfold FS.valid_name. rewrite !andb_true_iff. split_and!.
  - done.
  - apply negb_true_iff, bool_decide_eq_false. intros Heq.
    rewrite Heq in Hend. done.
  - apply negb_true_iff, bool_decide_eq_false. intros Heq.
    rewrite Heq in Hend. done.
  - by apply bool_decide_eq_true.
Qed.

Lemma join_base_startswith base filename :
  FS.valid_name base = true → FS.valid_name filename = true →
  Str.startswith (PosixPath.join base filename) base = true.
Proof.
  intros Hb Hf. unfold PosixPath.join.
  rewrite startswith_sep_free by by apply valid_name_sep_free.
  destruct base as [|a b] eqn:Hbase; [done|]. rewrite <-Hbase.
  case_match; apply startswith_app.
Qed.

End CachedInstaller.

(** On the disk of the example the payload [foo/__init__.py] is written
    once, in the cache entry, and neither environment holds a copy. *)
Lemma install_wheel_with_cache_twice_on_disk :
  let c := Examples.foo_candidate "purelib" Examples.paths in
  let c2 := Examples.foo_candidate "purelib" Examples.paths2 in
  let '(r, w1) :=
    for_each [c; c2] (λ c', Examples.install_wheel_with_cache c' None)
      Examples.earth' in
  r = Ok tt ∧
  filter (λ kv, last kv.1 = Some "__init__.py") (map_to_list (FS.nodes (fs w1)))
  = [(["tmp"; "packages"; "foo-1.0-py3-none-any"; "purelib"; "foo";
       "__init__.py"], FS.File "print(1)")].
Proof. vm_compute. done. Qed.

(** * The link install *)

Section LinkInstall.

Import Installers.

Variable hash_of : string → string.
Variable build_script :
  string → string → string → string → string → string → string * string.
Variable fix_shebang : string → string → string.
Variable parse_entrypoints : string → list (string * string * string * string).
Variable _determine_scheme : string → string → string → res (string * string).
Variable construct_record_file : list RecordEntry → string.
Variable normalize_name : string → string.
Variable __version__ : string.

Abbreviation _install_from_cache :=
  (_install_from_cache hash_of build_script fix_shebang parse_entrypoints
     _determine_scheme construct_record_file normalize_name __version__).

Implicit Types p q r : list string.


Lemma keeps_protect_dirs q f f' : keeps (protect q) f f' → keeps only_dirs f f'.
Proof. intros [? H]. split; [done|]. intros k i ->. apply H. by left. Qed.

Lemma reachable_keeps q f f' :
  keeps only_dirs f f' → reachable (FS.nodes f) q → reachable (FS.nodes f') q.
Proof.
  intros [_ Hk] [Hroot Hd]. split; [by apply Hk|].
  intros j Hj. by apply Hk, Hd.
Qed.

Lemma Keeps_bind_ret {S A B} (proj : S → FS.t) K (a : A) (k : A → M S B) :
  Keeps proj K (k a) → Keeps proj K (bind (ret a) k).
Proof. intros Hk s r s'. apply Hk. Qed.

Lemma of_res_ok {S A} (r : res A) (s s' : S) a :
  of_res r s = (Ok a, s') → r = Ok a ∧ s' = s.
Proof. destruct r; intros [= <- <-]; done. Qed.

Lemma getitem_ok {S} (d : gmap string string) key (s s' : S) v :
  Uninstallers.getitem d key s = (Ok v, s') → d !! key = Some v ∧ s' = s.
Proof.
  unfold Uninstallers.getitem. destruct (d !! key); intros [= <- <-]; done.
Qed.

Lemma Keeps_write_to_fs_at self scheme r comps d q :
  scheme_dict self !! scheme = Some (render r) →
  normal r → normal comps → comps ≠ [] → q ≠ r ++ comps →
  Keeps fs (protect q) (write_to_fs hash_of self scheme (Str.join "/" comps) d).
Proof.
  intros Hroot Hr Hc Hne Hq.
  assert (normal (r ++ comps)) as Hn by by apply normal_app.
  assert (∀ fs p d', FS.resolve fs (render (r ++ comps)) = Some p →
                     ¬ protect q p (FS.File d')) as Hprot.
  { intros fs p d' Hres [?|?]; [done|].
    apply resolve_reachable in Hres as [-> _]; done. }
  unfold write_to_fs, super_write_to_fs, Uninstallers.getitem.
  rewrite Hroot. apply Keeps_bind_ret.
  rewrite join_render_rel, to_str_render by done.
  apply Keeps_bind; [apply Keeps_gets|]. intros present.
  apply Keeps_bind.
  { apply Keeps_when, Keeps_os, Keeps_syscall. intros ??.
    apply keeps_unlink. apply Hprot. }
  intros _.
  apply Keeps_bind_ret. rewrite join_render_rel by done.
  apply Keeps_bind; [apply Keeps_gets|]. intros taken.
  destruct taken; [apply Keeps_raise|].
  apply Keeps_bind; [apply Keeps_gets|]. intros pe.
  apply Keeps_bind; [apply Keeps_when, Keeps_os, Keeps_makedirs|]. intros _.
  apply Keeps_bind; [|intros _; apply Keeps_ret].
  apply Keeps_os, Keeps_syscall. intros ??. apply keeps_write. apply Hprot.
Qed.

Lemma join_valid_names base filename :
  FS.valid_name base = true → FS.valid_name filename = true →
  PosixPath.join base filename = Str.join "/" [base; filename].
Proof.
  intros Hb Hf. unfold PosixPath.join, PosixPath.sep.
  rewrite startswith_sep_free by by apply valid_name_sep_free.
  assert (Str.endswith base "/" = false) as Hend.
  { rewrite <-(str_app_empty_l base).
    apply endswith_sep_app_free;
      [by apply valid_name_sep_free|by apply valid_name_nonempty]. }
  rewrite Hend. by destruct base.
Qed.

(** C7, as the code has it.  The environment maps the root scheme of the
    archive to the directory [/r1/.../rk].  When the link install
    returns, the file named after the normalised name of the candidate,
    with the suffix [.pth], in that directory holds one line: the
    pure-library directory of the cache entry.  The directory is the
    pure-library root of the environment when the root scheme of the
    archive is [purelib], and the platform-library root otherwise. *)
Theorem link_install_pointer candidate package_cache rd w0 w1 :
  root_scheme (wheel_source candidate) ≠ "scripts" →
  environment candidate !! root_scheme (wheel_source candidate)
  = Some (render rd) →
  normal rd →
  FS.valid_name (normalize_name (name candidate) +:+ ".pth") = true →
  _install_from_cache candidate package_cache w0 = (Ok tt, w1) →
  ∃ lib_path,
    CachedPackage.scheme package_cache !! "purelib" = Some lib_path ∧
    FS.read (fs w1)
      (PosixPath.join (render rd) (normalize_name (name candidate) +:+ ".pth"))
    = Ok (lib_path +:+ String "010" EmptyString).
Proof.
  intros Hscripts Hroot Hrd Hptr Hrun.
  set (ptr := normalize_name (name candidate) +:+ ".pth") in *.
  unfold Installers._install_from_cache in Hrun.
  apply bind_ok in Hrun as (base & ? & Hbase & Hrun).
  apply of_res_ok in Hbase as [Hbase' ->].
  pose proof (dist_info_dir_valid _ _ Hbase') as Hvalid.
  apply bind_ok in Hrun as (scripts & wa & _ & Hrun).
  apply bind_ok in Hrun as (files & wb & _ & Hrun).
  apply bind_ok in Hrun as (lib_path & ? & Hlib & Hrun).
  exists lib_path.
  apply getitem_ok in Hlib as [Hlib' ->].
  split; [done|].
  apply bind_ok in Hrun as (pointer & wp & Hpointer & Hrun).
  apply bind_ok in Hrun as (metadata & wm & Hmeta & Hrun).
  apply bind_ok in Hrun as ([] & wf & Hfinal & Hrun).
  unfold write_file in Hpointer.
  rewrite bool_decide_false in Hpointer by done.
  change (normalize_name _ +:+ ".pth") with (Str.join "/" [ptr]) in Hpointer.
  apply write_to_fs_ok with (r := rd) in Hpointer as [Hreach Hfile];
    [|done|done|by repeat constructor|done].
  set (q := rd ++ [ptr]) in *.
  assert (keeps (protect q) (fs wp) (fs w1)) as Hkeeps.
  { assert (∀ filename, FS.valid_name filename = true →
              q ≠ rd ++ [base; filename]) as Hne.
    { intros filename _ Heq. apply (f_equal length) in Heq.
      unfold q in Heq. rewrite !length_app in Heq. cbn in Heq. lia. }
    assert (∀ filename d,
              FS.valid_name filename = true →
              Keeps fs (protect q)
                (write_file hash_of fix_shebang
                   {| scheme_dict := environment candidate;
                      interpreter := executable candidate;
                      script_kind := _get_kind (environment candidate) |}
                   (root_scheme (wheel_source candidate))
                   (PosixPath.join base filename) d)) as Hwrite.
    { intros filename d Hf. unfold write_file.
      rewrite bool_decide_false by done. rewrite join_valid_names by done.
      apply Keeps_write_to_fs_at with (r := rd); try done;
        [by repeat constructor|].
      by apply Hne. }
    eapply keeps_trans; [|eapply keeps_trans].
    - match type of Hmeta with
      | ?m _ = _ => assert (Keeps fs (protect q) m) as HK
      end; [|exact (HK _ _ _ Hmeta)].
      unfold write_metadata. cbn [collect].
      repeat first [apply Keeps_ret | apply Hwrite; done
                   | apply Keeps_bind; [|intros ?]].
    - match type of Hfinal with
      | ?m _ = _ => assert (Keeps fs (protect q) m) as HK
      end; [|exact (HK _ _ _ Hfinal)].
      unfold finalize_installation.
      apply Keeps_bind; [|intros ?; apply Keeps_ret].
      rewrite join_valid_names by done.
      apply Keeps_write_to_fs_at with (r := rd); try done;
        [by repeat constructor|].
      by apply Hne.
    - unfold CachedPackage.add_referrer, modify in Hrun.
      injection Hrun as <-. apply keeps_refl. }
  assert (normal q) as Hq by by apply normal_snoc.
  change ptr with (Str.join "/" [ptr]).
  rewrite join_render_rel; [|done|by repeat constructor|done].
  fold q. unfold FS.read. rewrite reachable_stat; [|done|].
  - destruct Hkeeps as [_ Hk].
    by rewrite (Hk q _ (or_intror eq_refl) Hfile).
  - eapply reachable_keeps; [|done]. by eapply keeps_protect_dirs.
Qed.

End LinkInstall.

(** The link install of the example with a platform archive, after the
    cache entry has been filled: the pointer is in the platform library
    of the environment. *)
Lemma link_install_pointer_witness :
  let c := Examples.foo_candidate "platlib" Examples.paths2 in
  let w0 :=
    (Installers.materialize Examples.hash_of Examples.build_script
       Examples.fix_shebang Examples.parse_entrypoints
       Examples._determine_scheme Examples.construct_record_file
       Examples.__version__ c Examples.earth').2 in
  let w1 :=
    (Examples._install_from_cache c "/tmp/packages/foo-1.0-py3-none-any"
       w0).2 in
  FS.isdir (fs w0) "/tmp/packages/foo-1.0-py3-none-any" = true ∧
  ∃ lib_path,
    CachedPackage.scheme "/tmp/packages/foo-1.0-py3-none-any" !! "purelib"
    = Some lib_path ∧
    FS.read (fs w1) "/env2/lib64/foo.pth"
    = Ok (lib_path +:+ String "010" EmptyString).
Proof.
  intros c w0 w1. split; [vm_compute; reflexivity|].
  apply (link_install_pointer Examples.hash_of Examples.build_script
           Examples.fix_shebang Examples.parse_entrypoints
           Examples._determine_scheme Examples.construct_record_file
           Examples.normalize_name Examples.__version__ c
           "/tmp/packages/foo-1.0-py3-none-any" ["env2"; "lib64"] w0 w1);
    [vm_compute; discriminate | reflexivity | by repeat constructor
    | reflexivity | vm_compute; reflexivity].
Defined.

(** C7, as the spec has it, fails.  The archive of the example has the
    platform library for root scheme, and the environment keeps its
    platform library apart from its pure library.  The cached install
    into that environment returns, and the cache entry is filled; the
    pure-library root of the environment is not even made, so it holds
    no pointer file; the pointer to the cache entry is in the
    platform-library root; and [foo-nspkg.pth], an entry of the archive,
    is written there as well, so that two files with the suffix [.pth]
    are written, not one. *)
Lemma link_install_pointer_outside_purelib :
  let c := Examples.foo_candidate "platlib" Examples.paths2 in
  let '(r, w1) := Examples.install_wheel_with_cache c None Examples.earth' in
  r = Ok tt ∧
  FS.isdir (fs w1) "/tmp/packages/foo-1.0-py3-none-any" = true ∧
  Installers.root_scheme (Installers.wheel_source c) = "platlib" ∧
  Installers.environment c !! "purelib" = Some "/env2/lib" ∧
  FS.exists_ (fs w1) "/env2/lib" = false ∧
  FS.read (fs w1) "/env2/lib64/foo.pth"
  = Ok ("/tmp/packages/foo-1.0-py3-none-any/purelib" +:+ Examples.LF) ∧
  FS.read (fs w1) "/env2/lib64/foo-nspkg.pth" = Ok "import foo".
Proof. vm_compute. done. Qed.

(** * The rename compressor *)

Section Compressor.

Import Uninstallers PosixPath.

Implicit Types P R W : gset string.

(** ** The sort by length *)

Lemma elem_of_insert_by_len x y l : x ∈ insert_by_len y l ↔ x = y ∨ x ∈ l.
Proof.
  induction l as [|z l IH]; cbn; [set_solver|].
  case_bool_decide; [|set_solver].
  rewrite !elem_of_cons, IH. naive_solver.
Qed.

Lemma elem_of_sorted_by_len x l : x ∈ sorted_by_len l ↔ x ∈ l.
Proof.
  induction l as [|y l IH]; cbn; [done|].
  rewrite elem_of_insert_by_len, elem_of_cons, IH. done.
Qed.

(** ** The files that the walk finds *)

Lemma walk_sets_files fs root p :
  p ∈ (walk_sets fs root).1 ↔
  ∃ d subs files f,
    (d, subs, files) ∈ Os.walk fs root ∧ f ∈ files ∧ p = norm_join root d f.
Proof.
  unfold walk_sets.
  assert (∀ l (A B : gset string),
    p ∈ (foldl (λ '(all_files, all_subdirs) '(dirname, subdirs, files),
                  (all_files ∪ list_to_set (norm_join root dirname <$> files),
                   all_subdirs
                   ∪ list_to_set (norm_join root dirname <$> subdirs)))
           (A, B) l).1 ↔
    p ∈ A ∨ ∃ d subs files f,
      (d, subs, files) ∈ l ∧ f ∈ files ∧ p = norm_join root d f) as H.
  { induction l as [|[[d subs] files] l IH]; intros A B; cbn [foldl].
    - split; [by left|]. intros [?|(?&?&?&?&[]%elem_of_nil&_)]. done.
    - rewrite IH, elem_of_union, elem_of_list_to_set, list_elem_of_fmap.
      split.
      + intros [[?|(f & -> & Hf)]|(d' & subs' & files' & f & Hin & Hf & ->)].
        * by left.
        * right. exists d, subs, files, f. split; [left|done].
        * right. exists d', subs', files', f. split; [by right|done].
      + intros [?|(d' & subs' & files' & f & Hin & Hf & ->)]; [by left; left|].
        apply elem_of_cons in Hin as [[= -> -> ->]|Hin].
        * left; right. by exists f.
        * right. by exists d', subs', files', f. }
  rewrite H. set_solver.
Qed.

(** ** Joins of relative paths *)

Lemma endswith_app_nonempty a b :
  b ≠ EmptyString → Str.endswith (a +:+ b) "/" = Str.endswith b "/".
Proof.
  intros Hb. induction a as [|c a IH]; [done|].
  rewrite str_app_cons. cbn [Str.endswith]. rewrite IH.
  rewrite bool_decide_false; [done|].
  intros Heq. injection Heq as _ Heq.
  by apply str_app_eq_empty in Heq as [_ ?].
Qed.

Lemma startswith_app_nonempty a b :
  a ≠ EmptyString → Str.startswith (a +:+ b) "/" = Str.startswith a "/".
Proof.
  destruct a as [|c a]; [done|]. intros _. rewrite str_app_cons.
  unfold Str.startswith. cbn. destruct (ascii_dec _ _); [|done].
  transitivity true; [by destruct (a +:+ b)|by destruct a].
Qed.

Lemma join_rel a b :
  isabs b = false →
  join a b = match a with
             | EmptyString => b
             | _ => if Str.endswith a sep then a +:+ b else a +:+ sep +:+ b
             end.
Proof. unfold join, isabs. by intros ->. Qed.

Lemma join_abs a b : isabs b = true → join a b = b.
Proof. unfold join, isabs. by intros ->. Qed.

Lemma join_rel_nonempty a b :
  b ≠ EmptyString → isabs b = false → join a b ≠ EmptyString.
Proof.
  intros Hb Hrel. rewrite join_rel by done. destruct a as [|c a]; [done|].
  destruct (Str.endswith _ _); by rewrite str_app_cons.
Qed.

Lemma join_nonempty_l a b :
  a ≠ EmptyString → isabs b = false → join a b ≠ EmptyString.
Proof.
  intros Ha Hrel. rewrite join_rel by done. destruct a as [|c a]; [done|].
  destruct (Str.endswith _ _); by rewrite str_app_cons.
Qed.

Lemma isabs_join a b :
  a ≠ EmptyString → isabs b = false → isabs (join a b) = isabs a.
Proof.
  intros Ha Hrel. rewrite join_rel by done. destruct a as [|c a]; [done|].
  unfold isabs. destruct (Str.endswith _ _);
    by rewrite startswith_app_nonempty.
Qed.

Lemma endswith_join a b :
  b ≠ EmptyString → isabs b = false →
  Str.endswith (join a b) sep = Str.endswith b sep.
Proof.
  intros Hb Hrel. rewrite join_rel by done. destruct a as [|c a]; [done|].
  unfold sep. destruct (Str.endswith (String c a) "/").
  - by rewrite endswith_app_nonempty.
  - rewrite <-str_app_assoc. by rewrite endswith_app_nonempty.
Qed.

Lemma join_assoc a b c :
  b ≠ EmptyString → isabs b = false → isabs c = false →
  join (join a b) c = join a (join b c).
Proof.
  intros Hb Hrb Hrc.
  assert (isabs (join b c) = false) as Hrbc by by rewrite isabs_join.
  rewrite (join_rel (join a b) c) by done.
  pose proof (join_rel_nonempty a b Hb Hrb) as Hne.
  destruct (join a b) as [|x y] eqn:Hab; [done|]. cbv iota.
  rewrite <-Hab. clear x y Hab Hne.
  rewrite endswith_join by done.
  rewrite (join_rel a (join b c)), (join_rel a b) by done.
  rewrite (join_rel b c) by done.
  destruct b as [|x b]; [done|]. set (b' := String x b) in *.
  destruct a as [|y a]; [done|]. set (a' := String y a).
  destruct (Str.endswith a' sep), (Str.endswith b' sep);
    by rewrite ?str_app_assoc.
Qed.

Lemma foldl_join_rel root c cs :
  c ≠ EmptyString → isabs c = false →
  Forall (λ n, isabs n = false) cs →
  ∃ rest, rest ≠ EmptyString ∧ isabs rest = false ∧
          foldl join (join root c) cs = join root rest.
Proof.
  intros Hc Hrc Hcs. revert c Hc Hrc.
  induction Hcs as [|c' cs Hc' _ IH]; intros c Hc Hrc; [by exists c|].
  cbn [foldl]. rewrite join_assoc by done.
  apply IH; [by apply join_nonempty_l|]. by rewrite isabs_join.
Qed.

Lemma valid_name_rel n :
  FS.valid_name n = true → n ≠ EmptyString ∧ isabs n = false.
Proof.
  intros Hn. split; [by apply valid_name_nonempty|].
  by apply startswith_sep_free, valid_name_sep_free.
Qed.

(** ** The entries of a directory and the triples of the walk *)

Lemma elem_of_children tr p n i :
  (n, i) ∈ FS.children tr p ↔ tr !! (p ++ [n]) = Some i.
Proof.
  unfold FS.children. rewrite list_elem_of_omap. split.
  - intros ([k i'] & Hin%elem_of_map_to_list & Hm).
    destruct (last k) as [n'|]; [|done].
    case_bool_decide as Hk; [|done]. by simplify_eq.
  - intros Hl. exists (p ++ [n], i). split; [by apply elem_of_map_to_list|].
    rewrite last_snoc. by rewrite bool_decide_true.
Qed.

Lemma elem_of_walk fs root d subs files :
  (d, subs, files) ∈ Os.walk fs root →
  ∃ r comps,
    FS.resolve fs root = Some r ∧
    FS.nodes fs !! (r ++ comps) = Some FS.Dir ∧
    d = foldl join root comps ∧
    ∀ f, f ∈ files ↔ ∃ data, FS.nodes fs !! (r ++ comps ++ [f]) = Some (FS.File data).
Proof.
  unfold Os.walk. destruct (FS.resolve fs root) as [r|]; [|by intros ?%elem_of_nil].
  destruct (FS.is_dir _); [|by intros ?%elem_of_nil].
  intros ([k i] & Hin%elem_of_map_to_list & Hm)%list_elem_of_omap.
  destruct i; [done|]. case_bool_decide as Hpre; [|done].
  destruct Hpre as [comps ->]. rewrite drop_app_length in Hm.
  injection Hm as <- <- <-. exists r, comps. split_and!; [done..|].
  intros f. rewrite list_elem_of_omap. split.
  - intros ([n [data|]] & Hn%elem_of_children & [= ->]).
    exists data. by rewrite (assoc_L (++)).
  - intros [data Hf]. exists (f, FS.File data). split; [|done].
    apply elem_of_children. by rewrite <-(assoc_L (++)).
Qed.

(** A file that the walk of [root] finds is spelled as a path inside
    [root]. *)
Lemma walk_sets_lies_under fs root p :
  FS.wf (FS.nodes fs) → p ∈ (walk_sets fs root).1 →
  ∃ rest, rest ≠ EmptyString ∧ isabs rest = false ∧ p = join root rest.
Proof.
  intros Hwf (d & subs & files & f & Hw & Hf & ->)%walk_sets_files.
  apply elem_of_walk in Hw as (r & comps & Hres & Hdir & -> & Hfiles).
  apply Hfiles in Hf as [data Hf].
  destruct (wf_dirs_along _ (r ++ comps ++ [f]) Hwf) as [Hn _]; [done|].
  apply normal_app in Hn as [_ [Hcomps [Hvf Hrf]%valid_name_rel]%normal_snoc].
  assert (root ≠ EmptyString) as Hroot by (by intros ->).
  unfold norm_join, normcase, join3.
  assert (Forall (λ n, isabs n = false) comps) as Hrel.
  { eapply Forall_impl; [exact Hcomps|]. by intros n [_ ?]%valid_name_rel. }
  assert (foldl join root comps = root ∨
          ∃ rest, rest ≠ EmptyString ∧ isabs rest = false ∧
                  foldl join root comps = join root rest) as Hd.
  { destruct comps as [|c cs]; [by left|right]. cbn [foldl].
    apply Forall_cons in Hcomps as [[??]%valid_name_rel _].
    apply Forall_cons in Hrel as [_ ?]. by apply foldl_join_rel. }
  destruct (isabs root) eqn:Habs.
  - destruct Hd as [->|(rest & Hne & Hrel' & ->)].
    + rewrite (join_abs root root) by done. by exists f.
    + rewrite (join_abs root (join root rest)) by by rewrite isabs_join.
      rewrite join_assoc by done. exists (join rest f).
      split_and!; [by apply join_rel_nonempty| |done].
      destruct rest; [done|]. by rewrite isabs_join.
  - assert (foldl join root comps ≠ EmptyString ∧
            isabs (foldl join root comps) = false) as [Hdne Hdrel].
    { destruct Hd as [->|(rest & Hne & Hrel' & ->)]; [done|].
      split; [by apply join_rel_nonempty|]. by rewrite isabs_join. }
    rewrite join_assoc by done. exists (join (foldl join root comps) f).
    split_and!; [by apply join_rel_nonempty| |done].
    by rewrite isabs_join.
Qed.

Lemma elem_of_walk_dir fs root r comps :
  FS.resolve fs root = Some r → FS.nodes fs !! r = Some FS.Dir →
  FS.nodes fs !! (r ++ comps) = Some FS.Dir →
  ∃ subs files,
    (foldl join root comps, subs, files) ∈ Os.walk fs root ∧
    ∀ f, (∃ data, FS.nodes fs !! (r ++ comps ++ [f]) = Some (FS.File data)) →
         f ∈ files.
Proof.
  intros Hres Hr Hk. unfold Os.walk. rewrite Hres, Hr. cbn [FS.is_dir].
  eexists _, _. split.
  - apply list_elem_of_omap. exists (r ++ comps, FS.Dir).
    split; [by apply elem_of_map_to_list|]. cbv beta iota.
    rewrite bool_decide_true by by apply prefix_app_r.
    by rewrite drop_app_length.
  - intros f [data Hf]. apply list_elem_of_omap. exists (f, FS.File data).
    split; [|done]. apply elem_of_children. by rewrite <-(assoc_L (++)).
Qed.

(** The files that the walk of the directory [/d1/.../dn] finds are the
    regular files of the tree below it. *)
Lemma walk_sets_render fs d p :
  FS.wf (FS.nodes fs) → normal d →
  p ∈ (walk_sets fs (render d)).1 ↔ file_under (FS.nodes fs) d p.
Proof.
  intros Hwf Hd. split.
  - intros (dn & subs & files & f & Hw & Hf & ->)%walk_sets_files.
    apply elem_of_walk in Hw as (r & comps & Hres & Hdir & -> & Hfiles).
    apply Hfiles in Hf as [data Hf].
    apply resolve_render_inv in Hres as (-> & _); [|done].
    destruct (wf_dirs_along _ (d ++ comps ++ [f]) Hwf) as [Hn _]; [done|].
    apply normal_app in Hn as [_ [Hcomps Hvf]%normal_snoc].
    exists (comps ++ [f]), data. split_and!; [by destruct comps|done|].
    unfold norm_join, normcase, join3.
    rewrite foldl_join_render by done.
    rewrite (join_abs (render d)) by apply isabs_render.
    rewrite join_render; [by rewrite <-(assoc_L (++))| |done].
    by apply normal_app.
  - intros (rest & data & Hne & Hf & ->).
    destruct (exists_last Hne) as (comps & f & ->).
    destruct (wf_dirs_along _ (d ++ comps ++ [f]) Hwf) as [Hn Hdirs]; [done|].
    apply normal_app in Hn as [_ [Hcomps Hvf]%normal_snoc].
    assert (FS.nodes fs !! d = Some FS.Dir) as Hdd.
    { specialize (Hdirs (length d)). rewrite take_app_length in Hdirs.
      apply Hdirs. rewrite !length_app. cbn. lia. }
    assert (FS.nodes fs !! (d ++ comps) = Some FS.Dir) as Hdc.
    { destruct Hwf as [_ Hwf]. apply (Hwf _ f (FS.File data)).
      by rewrite <-(assoc_L (++)). }
    destruct (elem_of_walk_dir fs (render d) d comps)
      as (subs & files & Hin & Hfiles); [|done..|].
    { apply resolve_render_wf; [done|by eexists]. }
    apply walk_sets_files.
    exists (foldl join (render d) comps), subs, files, f.
    split_and!; [done|apply Hfiles; by exists data|].
    unfold norm_join, normcase, join3.
    rewrite foldl_join_render by done.
    rewrite (join_abs (render d)) by apply isabs_render.
    rewrite join_render; [by rewrite <-(assoc_L (++))| |done].
    by apply normal_app.
Qed.

Lemma file_under_prefix tr a d p :
  a `prefix_of` d → file_under tr d p → file_under tr a p.
Proof.
  intros [r ->] (rest & data & Hne & Hf & ->).
  exists (r ++ rest), data. rewrite (assoc_L (++)).
  split_and!; [|done..]. by destruct r, rest.
Qed.

Lemma file_under_normal tr d p :
  FS.wf tr → file_under tr d p →
  ∃ q, q ≠ [] ∧ normal q ∧ d `prefix_of` q ∧ q ≠ d ∧ p = render q.
Proof.
  intros Hwf (rest & data & Hne & Hf & ->).
  destruct (wf_dirs_along _ (d ++ rest) Hwf) as [Hn _]; [done|].
  exists (d ++ rest). split_and!; [by destruct d, rest|done| | |done].
  - by apply prefix_app_r.
  - intros Heq. apply Hne. apply (inj (app d)). by rewrite app_nil_r.
Qed.

Lemma str_app_inj_r s s' t : s +:+ t = s' +:+ t → s = s'.
Proof.
  revert s'. induction s as [|c s IH]; intros [|c' s'] Heq; [done|..].
  - apply (f_equal String.length) in Heq.
    rewrite str_app_cons in Heq. cbn [String.length] in Heq.
    rewrite !str_app_length in Heq. cbn in Heq. lia.
  - apply (f_equal String.length) in Heq.
    rewrite str_app_cons in Heq. cbn [String.length] in Heq.
    rewrite !str_app_length in Heq. cbn in Heq. lia.
  - rewrite !str_app_cons in Heq. injection Heq as -> Heq. f_equal. by apply IH.
Qed.

(** ** The sort by length, again *)

Lemma insert_by_len_sorted x l :
  StronglySorted (λ a b, String.length a ≤ String.length b) l →
  StronglySorted (λ a b, String.length a ≤ String.length b) (insert_by_len x l).
Proof.
  induction 1 as [|y l Hs IH Hall]; cbn; [by repeat constructor|].
  case_bool_decide as Hlt.
  - constructor; [done|]. apply Forall_forall.
    intros z [->|Hz]%elem_of_insert_by_len; [lia|].
    by apply (proj1 (Forall_forall _ _) Hall).
  - constructor; [by constructor|]. constructor; [lia|].
    eapply Forall_impl; [exact Hall|]. cbn. intros. lia.
Qed.

Lemma sorted_by_len_sorted l :
  StronglySorted (λ a b, String.length a ≤ String.length b) (sorted_by_len l).
Proof.
  induction l as [|x l IH]; cbn; [constructor|]. by apply insert_by_len_sorted.
Qed.

(** ** One probe of the compressor *)

Lemma compress_step_cases fs R W root :
  (compress_step fs (R, W) root = (R, W) ∧
   ∃ w, w ∈ W ∧ Str.startswith root w = true) ∨
  (compress_step fs (R, W) root
   = (R ∖ (walk_sets fs root).1, W ∪ {[root +:+ sep]}) ∧
   (walk_sets fs root).1 ⊆ R ∧
   ∀ w, w ∈ W → Str.startswith root w = false) ∨
  (compress_step fs (R, W) root = (R, W) ∧
   (∃ f, f ∈ (walk_sets fs root).1 ∧ f ∉ R) ∧
   ∀ w, w ∈ W → Str.startswith root w = false).
Proof.
  unfold compress_step, normcase.
  destruct (existsb _ _) eqn:Hex.
  { left. split; [done|].
    apply existsb_exists in Hex as (w & Hin%list_elem_of_In%elem_of_elements & ?).
    by exists w. }
  right.
  assert (∀ w, w ∈ W → Str.startswith root w = false) as Hno.
  { intros w Hw. destruct (Str.startswith root w) eqn:Hs; [|done].
    rewrite <-Hex. symmetry. apply existsb_exists. exists w.
    split; [|done]. by apply list_elem_of_In, elem_of_elements. }
  destruct (walk_sets fs root) as [all_files all_subdirs]. cbn [fst].
  case_bool_decide as Hall.
  - left. split_and!; [done| |done]. set_solver.
  - right. split_and!; [done| |done].
    apply set_choose_L in Hall as [f Hf]. exists f. set_solver.
Qed.

(** What a probe keeps: the paths left are input paths; a wildcard is
    that of a probed directory whose files were all input paths, none of
    them left; an input path is left or was found under a wildcard. *)
Lemma compress_step_inv fs P probed R W root :
  R ⊆ P →
  (∀ w, w ∈ W →
     ∃ r, r ∈ probed ∧ w = r +:+ sep ∧
          (walk_sets fs r).1 ⊆ P ∧ (walk_sets fs r).1 ## R) →
  (∀ p, p ∈ P →
     p ∈ R ∨ ∃ r, r +:+ sep ∈ W ∧ p ∈ (walk_sets fs r).1) →
  ∃ R' W',
    compress_step fs (R, W) root = (R', W') ∧
    R' ⊆ P ∧ W ⊆ W' ∧
    (∀ w, w ∈ W' →
       ∃ r, r ∈ probed ++ [root] ∧ w = r +:+ sep ∧
            (walk_sets fs r).1 ⊆ P ∧ (walk_sets fs r).1 ## R') ∧
    (∀ p, p ∈ P →
       p ∈ R' ∨ ∃ r, r +:+ sep ∈ W' ∧ p ∈ (walk_sets fs r).1).
Proof.
  intros H1 H2 H3.
  assert (∀ w, w ∈ W →
     ∃ r, r ∈ probed ++ [root] ∧ w = r +:+ sep ∧
          (walk_sets fs r).1 ⊆ P ∧ (walk_sets fs r).1 ## R) as H2'.
  { intros w (r & ? & ? & ? & ?)%H2. exists r. set_solver. }
  destruct (compress_step_cases fs R W root)
    as [[-> _]|[(-> & Hall & _)|[-> _]]]; [by exists R, W| |by exists R, W].
  eexists _, _. split; [done|]. split_and!.
  - set_solver.
  - set_solver.
  - intros w [Hw| ->%elem_of_singleton]%elem_of_union.
    + destruct (H2' w Hw) as (r & ? & ? & ? & ?). exists r. set_solver.
    + exists root. set_solver.
  - intros p Hp. destruct (decide (p ∈ (walk_sets fs root).1)) as [Hin|Hout].
    + right. exists root. set_solver.
    + destruct (H3 p Hp) as [?|(r & ? & ?)]; [left; set_solver|].
      right. exists r. set_solver.
Qed.

Lemma foldl_compress_step_inv fs P todo : ∀ probed R W,
  R ⊆ P →
  (∀ w, w ∈ W →
     ∃ r, r ∈ probed ∧ w = r +:+ sep ∧
          (walk_sets fs r).1 ⊆ P ∧ (walk_sets fs r).1 ## R) →
  (∀ p, p ∈ P →
     p ∈ R ∨ ∃ r, r +:+ sep ∈ W ∧ p ∈ (walk_sets fs r).1) →
  ∃ R' W',
    foldl (compress_step fs) (R, W) todo = (R', W') ∧
    R' ⊆ P ∧
    (∀ w, w ∈ W' →
       ∃ r, r ∈ probed ++ todo ∧ w = r +:+ sep ∧
            (walk_sets fs r).1 ⊆ P ∧ (walk_sets fs r).1 ## R') ∧
    (∀ p, p ∈ P →
       p ∈ R' ∨ ∃ r, r +:+ sep ∈ W' ∧ p ∈ (walk_sets fs r).1).
Proof.
  induction todo as [|root todo IH]; intros probed R W H1 H2 H3.
  - exists R, W. by rewrite app_nil_r.
  - destruct (compress_step_inv fs P probed R W root H1 H2 H3)
      as (R1 & W1 & Hstep & H1' & _ & H2' & H3').
    cbn [foldl]. rewrite Hstep.
    destruct (IH (probed ++ [root]) R1 W1 H1' H2' H3')
      as (R' & W' & HR & HP & HW & HC).
    rewrite <-(assoc_L (++)) in HW. by exists R', W'.
Qed.

(** A probe of the directory [/d1/.../dn], all of whose files are input
    paths, leaves a wildcard for it or for a directory above it. *)
Lemma compress_step_wild fs P (probed : list string) R W d :
  FS.wf (FS.nodes fs) → normal d →
  (∀ r, r ∈ probed → ∃ a, normal a ∧ r = render a) →
  (∀ r, r ∈ probed → String.length r ≤ String.length (render d)) →
  (∀ w, w ∈ W →
     ∃ r, r ∈ probed ∧ w = r +:+ sep ∧
          (walk_sets fs r).1 ⊆ P ∧ (walk_sets fs r).1 ## R) →
  (∀ p, p ∈ P →
     p ∈ R ∨ ∃ r, r +:+ sep ∈ W ∧ p ∈ (walk_sets fs r).1) →
  (∀ p, file_under (FS.nodes fs) d p → p ∈ P) →
  ∃ a, a `prefix_of` d ∧
       render a +:+ sep ∈ (compress_step fs (R, W) (render d)).2.
Proof.
  intros Hwf Hd Hprobed Hlen H2 H3 Hall.
  destruct (compress_step_cases fs R W (render d))
    as [[-> (w & Hw & Hs)]|[(-> & _)|(-> & (f & Hf & HfR) & _)]].
  - destruct (H2 w Hw) as (r & Hr & -> & _).
    destruct (Hprobed r Hr) as (a & Ha & ->).
    destruct (decide (a = [])) as [->|Hne].
    { by rewrite render_nil, render_not_startswith_2sep in Hs. }
    apply startswith_render_trail in Hs as (r' & _ & ->); [|done..].
    exists a. split; [by apply prefix_app_r|done].
  - exists d. split; [done|]. set_solver.
  - apply walk_sets_render in Hf; [|done..].
    destruct (H3 f (Hall f Hf)) as [?|(r & Hr & Hin)]; [done|].
    destruct (H2 _ Hr) as (r0 & Hr0 & ->%str_app_inj_r & _).
    destruct (Hprobed r0 Hr0) as (a & Ha & ->).
    apply walk_sets_render in Hin; [|done..].
    destruct (file_under_normal _ _ _ Hwf Hf) as (q & _ & Hq & Hdq & _ & ->).
    destruct (file_under_normal _ _ _ Hwf Hin) as (q' & _ & Hq' & Haq & _ & Heq).
    apply render_inj in Heq as <-; [|done..].
    destruct (prefix_weak_total a d q Haq Hdq) as [Hpre|[r' ->]].
    + by exists a.
    + destruct (decide (r' = [])) as [->|Hne].
      { rewrite app_nil_r in *. by exists d. }
      apply normal_app in Ha as [_ Hr'].
      pose proof (render_length_lt d r' Hr' Hne).
      specialize (Hlen _ Hr0). lia.
Qed.

Lemma foldl_compress_step_wild fs P todo : ∀ probed R W,
  FS.wf (FS.nodes fs) →
  (∀ r, r ∈ probed ++ todo → ∃ a, normal a ∧ r = render a) →
  StronglySorted (λ a b, String.length a ≤ String.length b) todo →
  (∀ x y, x ∈ probed → y ∈ todo → String.length x ≤ String.length y) →
  R ⊆ P →
  (∀ w, w ∈ W →
     ∃ r, r ∈ probed ∧ w = r +:+ sep ∧
          (walk_sets fs r).1 ⊆ P ∧ (walk_sets fs r).1 ## R) →
  (∀ p, p ∈ P →
     p ∈ R ∨ ∃ r, r +:+ sep ∈ W ∧ p ∈ (walk_sets fs r).1) →
  (∀ d, normal d → render d ∈ probed →
        (∀ p, file_under (FS.nodes fs) d p → p ∈ P) →
        ∃ a, a `prefix_of` d ∧ render a +:+ sep ∈ W) →
  ∃ R' W',
    foldl (compress_step fs) (R, W) todo = (R', W') ∧
    R' ⊆ P ∧
    (∀ w, w ∈ W' →
       ∃ r, r ∈ probed ++ todo ∧ w = r +:+ sep ∧
            (walk_sets fs r).1 ⊆ P ∧ (walk_sets fs r).1 ## R') ∧
    (∀ p, p ∈ P →
       p ∈ R' ∨ ∃ r, r +:+ sep ∈ W' ∧ p ∈ (walk_sets fs r).1) ∧
    (∀ d, normal d → render d ∈ probed ++ todo →
          (∀ p, file_under (FS.nodes fs) d p → p ∈ P) →
          ∃ a, a `prefix_of` d ∧ render a +:+ sep ∈ W').
Proof.
  induction todo as [|root todo IH];
    intros probed R W Hwf Hren Hsorted Hlen H1 H2 H3 H4.
  - exists R, W. by rewrite app_nil_r.
  - destruct (compress_step_inv fs P probed R W root H1 H2 H3)
      as (R1 & W1 & Hstep & H1' & Hmono & H2' & H3').
    cbn [foldl]. rewrite Hstep.
    apply StronglySorted_inv in Hsorted as [Hsorted Hroot].
    destruct (IH (probed ++ [root]) R1 W1) as (R' & W' & HR & HP & HW & HC & HD);
      [done| |done| |done..| |].
    + intros r Hr. apply Hren. by rewrite <-(assoc_L (++)) in Hr.
    + intros x y [Hx| ->%list_elem_of_singleton]%elem_of_app Hy.
      * apply Hlen; [done|by right].
      * by apply (proj1 (Forall_forall _ _) Hroot).
    + intros d Hd [Hin|Heq%list_elem_of_singleton]%elem_of_app Hall.
      * destruct (H4 d Hd Hin Hall) as (a & ? & ?). exists a. set_solver.
      * subst root.
        destruct (compress_step_wild fs P probed R W d) as (a & ? & Ha);
          [done..| | |done|done|done|].
        { intros r Hr. apply Hren. apply elem_of_app. by left. }
        { intros r Hr. apply Hlen; [done|left]. }
        rewrite Hstep in Ha. by exists a.
    + rewrite <-(assoc_L (++)) in HW, HD. by exists R', W'.
Qed.

(** No wildcard lies under another one. *)
Lemma foldl_compress_step_flat fs todo : ∀ (probed : list string) R W,
  (∀ r, r ∈ probed ++ todo → ∃ a, normal a ∧ r = render a) →
  StronglySorted (λ a b, String.length a ≤ String.length b) todo →
  (∀ x y, x ∈ probed → y ∈ todo → String.length x ≤ String.length y) →
  (∀ w, w ∈ W → ∃ r, r ∈ probed ∧ w = r +:+ sep) →
  (∀ a a', normal a → normal a' → a ≠ [] →
           render a +:+ sep ∈ W → render a' +:+ sep ∈ W →
           a `prefix_of` a' → a = a') →
  ∀ a a', normal a → normal a' → a ≠ [] →
          render a +:+ sep ∈ (foldl (compress_step fs) (R, W) todo).2 →
          render a' +:+ sep ∈ (foldl (compress_step fs) (R, W) todo).2 →
          a `prefix_of` a' → a = a'.
Proof.
  induction todo as [|root todo IH];
    intros probed R W Hren Hsorted Hlen HW Hflat; [done|].
  cbn [foldl]. apply StronglySorted_inv in Hsorted as [Hsorted Hroot].
  assert (∀ r, r ∈ (probed ++ [root]) ++ todo → ∃ a, normal a ∧ r = render a)
    as Hren'.
  { intros r Hr. apply Hren. by rewrite <-(assoc_L (++)) in Hr. }
  assert (∀ x y, x ∈ probed ++ [root] → y ∈ todo →
                 String.length x ≤ String.length y) as Hlen'.
  { intros x y [Hx| ->%list_elem_of_singleton]%elem_of_app Hy.
    - apply Hlen; [done|by right].
    - by apply (proj1 (Forall_forall _ _) Hroot). }
  assert (∀ w, w ∈ W → ∃ r, r ∈ probed ++ [root] ∧ w = r +:+ sep) as HW'.
  { intros w (r & ? & ?)%HW. exists r. set_solver. }
  destruct (compress_step_cases fs R W root)
    as [[-> _]|[(-> & _ & Hno)|[-> _]]];
    [by apply (IH (probed ++ [root]))| |by apply (IH (probed ++ [root]))].
  apply (IH (probed ++ [root])); [done..| |].
  { intros w [Hw| ->%elem_of_singleton]%elem_of_union; [by apply HW'|].
    exists root. set_solver. }
  destruct (Hren root) as (d & Hd & ->); [set_solver|].
  intros a a' Ha Ha' Hne [Hin|Hin%elem_of_singleton]%elem_of_union
    [Hin'|Hin'%elem_of_singleton]%elem_of_union Hpre.
  - by apply Hflat.
  - apply str_app_inj_r, render_inj in Hin' as ->; [|done..].
    destruct Hpre as [r ->]. destruct (decide (r = [])) as [->|Hr].
    { by rewrite app_nil_r. }
    apply normal_app in Hd as [_ Hnr].
    specialize (Hno _ Hin).
    assert (Str.startswith (render (a ++ r)) (render a +:+ "/") = true) as Hs.
    { apply startswith_render_trail; [done|by apply normal_app|done|by exists r]. }
    unfold sep in Hno. congruence.
  - apply str_app_inj_r, render_inj in Hin as ->; [|done..].
    destruct Hpre as [r ->]. destruct (decide (r = [])) as [->|Hr].
    { by rewrite app_nil_r. }
    destruct (HW _ Hin') as (r0 & Hr0 & <-%str_app_inj_r).
    apply normal_app in Ha' as [_ Hnr].
    pose proof (render_length_lt d r Hnr Hr).
    assert (String.length (render (d ++ r)) ≤ String.length (render d)).
    { apply Hlen; [done|left]. }
    lia.
  - apply str_app_inj_r, render_inj in Hin as ->; [|done..].
    by apply str_app_inj_r, render_inj in Hin' as ->.
Qed.

End Compressor.

Section CompressorOutput.

Import Uninstallers PosixPath.

(** The order in which a set is iterated: every member, once. *)
Variable iter : gset string → list string.
Hypothesis iter_perm : ∀ X, iter X ≡ₚ elements X.

Implicit Types P R W : gset string.

Lemma elem_of_iter X x : x ∈ iter X ↔ x ∈ X.
Proof. rewrite (iter_perm X). apply elem_of_elements. Qed.

Lemma case_map_lookup (l : list string) k :
  (list_to_map ((λ p, (normcase p, p)) <$> l) : gmap string string) !! k
  = if decide (k ∈ l) then Some k else None.
Proof.
  induction l as [|a l IH]; [done|]. cbn. unfold normcase at 1.
  destruct (decide (k = a)) as [->|Hne].
  - rewrite lookup_insert_eq. rewrite decide_True; [done|left].
  - rewrite lookup_insert_ne by done. rewrite IH.
    destruct (decide (k ∈ l)).
    + rewrite decide_True; [done|by right].
    + rewrite decide_False; [done|]. by intros [?|?]%elem_of_cons.
Qed.

(** The output of the compressor, as the loop leaves it: the directories
    probed are the parents of the input paths, the shortest first. *)
Lemma compress_for_rename_fold fs P :
  ∃ unchecked,
    (∀ r, r ∈ unchecked ↔ ∃ p, p ∈ P ∧ r = dirname p) ∧
    StronglySorted (λ a b, String.length a ≤ String.length b) unchecked ∧
    ∀ R W,
      foldl (compress_step fs) (P, ∅) unchecked = (R, W) → R ⊆ P →
      compress_for_rename iter fs P = R ∪ W.
Proof.
  unfold compress_for_rename.
  set (case_map := list_to_map _).
  assert (∀ k, case_map !! k = if decide (k ∈ P) then Some k else None) as Hcm.
  { intros k. unfold case_map. rewrite case_map_lookup.
    destruct (decide (k ∈ P)) as [Hk|Hk].
    - rewrite decide_True; [done|]. by apply elem_of_reverse, elem_of_iter.
    - rewrite decide_False; [done|]. by rewrite elem_of_reverse, elem_of_iter. }
  assert (dom case_map = P) as Hdom.
  { apply set_eq. intros k. rewrite elem_of_dom, Hcm.
    destruct (decide (k ∈ P)); [by split; eauto|].
    split; [by intros [? [=]]|done]. }
  rewrite Hdom.
  set (unchecked := sorted_by_len _). exists unchecked. split_and!.
  - intros r. unfold unchecked.
    rewrite elem_of_sorted_by_len, elem_of_iter, elem_of_list_to_set.
    rewrite list_elem_of_fmap. split.
    + intros (p & -> & ([k p'] & -> & Hin%elem_of_map_to_list)%list_elem_of_fmap).
      rewrite Hcm in Hin. destruct (decide (k ∈ P)); [|done].
      injection Hin as <-. by exists k.
    + intros (p & Hp & ->). exists p. split; [done|].
      apply list_elem_of_fmap. exists (p, p). split; [done|].
      apply elem_of_map_to_list. rewrite Hcm. by rewrite decide_True.
  - apply sorted_by_len_sorted.
  - intros R W -> HR. f_equal. apply set_eq. intros x. rewrite elem_of_map.
    split.
    + intros (k & -> & Hk). rewrite (lookup_total_correct _ _ k); [done|].
      rewrite Hcm. by rewrite decide_True by set_solver.
    + intros Hx. exists x. split; [|done].
      rewrite (lookup_total_correct _ _ x); [done|].
      rewrite Hcm. by rewrite decide_True by set_solver.
Qed.

Lemma compress_for_rename_eq fs P :
  ∃ R W,
    compress_for_rename iter fs P = R ∪ W ∧
    R ⊆ P ∧
    (∀ w, w ∈ W →
       ∃ r, (∃ p, p ∈ P ∧ r = dirname p) ∧ w = r +:+ sep ∧
            (walk_sets fs r).1 ⊆ P ∧ (walk_sets fs r).1 ## R) ∧
    (∀ p, p ∈ P →
       p ∈ R ∨ ∃ r, r +:+ sep ∈ W ∧ p ∈ (walk_sets fs r).1).
Proof.
  destruct (compress_for_rename_fold fs P) as (unchecked & Hun & _ & Hout).
  destruct (foldl_compress_step_inv fs P unchecked [] P ∅)
    as (R & W & Hf & H1 & H2 & H3); [done|set_solver|by left; auto|].
  exists R, W. split_and!; [by apply Hout|done| |done].
  intros w (r & Hr & ?)%H2. exists r. split; [|done]. by apply Hun.
Qed.

(** C10.  The order of iteration over a set runs through its members,
    and the file system is well formed.  Every entry of the output of
    the compressor is an input path, in its own spelling, or the wildcard
    of the parent directory of an input path, which ends with the
    separator; and every input path is an entry of the output or lies
    under a wildcard of the output. *)
Theorem compress_for_rename_covers fs P :
  FS.wf (FS.nodes fs) →
  (∀ x, x ∈ compress_for_rename iter fs P →
     x ∈ P ∨ (wildcard_of P x ∧ Str.endswith x sep = true)) ∧
  (∀ p, p ∈ P →
     p ∈ compress_for_rename iter fs P ∨
     ∃ w, w ∈ compress_for_rename iter fs P ∧ wildcard_of P w ∧
          lies_under w p).
Proof.
  intros Hwf.
  destruct (compress_for_rename_eq fs P) as (R & W & -> & H1 & H2 & H3).
  assert (∀ w, w ∈ W → wildcard_of P w) as Hw.
  { intros w (r & (p & ? & ->) & -> & _)%H2. by exists p. }
  split.
  - intros x [Hx|Hx]%elem_of_union; [left; set_solver|right].
    split; [by apply Hw|].
    destruct (H2 x Hx) as (r & _ & -> & _). apply endswith_app.
  - intros p [Hp|(r & Hr & Hin)]%H3; [left; set_solver|right].
    exists (r +:+ sep). split_and!; [set_solver|by apply Hw|].
    destruct (walk_sets_lies_under fs r p Hwf Hin) as (rest & ? & ? & ->).
    by exists r, rest.
Qed.

(** The entries of the output, for normalised absolute input paths: the
    input paths left and the wildcards.  A wildcard stands for a
    directory [/a1/.../an] all of whose files are input paths, none of
    them left; no wildcard lies under another; an input path is left or
    is a file under a wildcard; and the directory of an input path left,
    a file on disk, holds a file that is no input path. *)
Lemma compress_for_rename_entries fs P :
  FS.wf (FS.nodes fs) →
  (∀ p, p ∈ P → ∃ q, q ≠ [] ∧ normal q ∧ p = render q) →
  ∃ R W,
    compress_for_rename iter fs P = R ∪ W ∧
    R ⊆ P ∧
    (∀ w, w ∈ W →
       ∃ a, normal a ∧ w = render a +:+ sep ∧
            (∃ p, p ∈ P ∧ dirname p = render a) ∧
            ∀ p, file_under (FS.nodes fs) a p → p ∈ P ∧ p ∉ R) ∧
    (∀ p, p ∈ P →
       p ∈ R ∨ ∃ a, normal a ∧ render a +:+ sep ∈ W ∧
                    file_under (FS.nodes fs) a p) ∧
    (∀ a a', normal a → normal a' → a ≠ [] →
             render a +:+ sep ∈ W → render a' +:+ sep ∈ W →
             a `prefix_of` a' → a = a') ∧
    (∀ d n data, normal (d ++ [n]) → render (d ++ [n]) ∈ R →
                 FS.nodes fs !! (d ++ [n]) = Some (FS.File data) →
                 ¬ ∀ p, file_under (FS.nodes fs) d p → p ∈ P).
Proof.
  intros Hwf HP.
  destruct (compress_for_rename_fold fs P) as (unchecked & Hun & Hsorted & Hout).
  assert (∀ p, p ∈ P →
            ∃ q n, normal q ∧ FS.valid_name n = true ∧ p = render (q ++ [n]) ∧
                   dirname p = render q) as HP'.
  { intros p (q & Hne & Hq & ->)%HP.
    destruct (exists_last Hne) as (q' & n & ->).
    apply normal_snoc in Hq as [Hq' Hn]. exists q', n.
    by rewrite dirname_render_snoc. }
  assert (∀ r, r ∈ unchecked → ∃ a, normal a ∧ r = render a) as Hren.
  { intros r (p & (q & n & Hq & _ & _ & Hdir)%HP' & ->)%Hun. by exists q. }
  destruct (foldl_compress_step_wild fs P unchecked [] P ∅)
    as (R & W & Hf & H1 & H2 & H3 & H4);
    [done|done|done|by intros x y ?%elem_of_nil|done|set_solver|by left; auto
    |by intros ?? ?%elem_of_nil|].
  pose proof (foldl_compress_step_flat fs unchecked [] P ∅) as H5.
  rewrite Hf in H5. cbn [app snd] in H2, H4, H5.
  exists R, W. split_and!; [by apply Hout|done|..].
  - intros w (r & Hr & -> & Hsub & Hdisj)%H2.
    destruct (Hren r Hr) as (a & Ha & ->). exists a. split_and!; [done..| |].
    + apply Hun in Hr as (p & ? & ?). by exists p.
    + intros p Hp%walk_sets_render; [|done..]. set_solver.
  - intros p [?|(r & Hr & Hin)]%H3; [by left|right].
    destruct (H2 _ Hr) as (r0 & Hr0 & ->%str_app_inj_r & _).
    destruct (Hren _ Hr0) as (a & Ha & ->). exists a. split_and!; [done..|].
    by apply walk_sets_render in Hin.
  - apply H5; [done|done|by intros x y ?%elem_of_nil|set_solver|set_solver].
  - intros d n data [Hd Hn]%normal_snoc HR Hfile Hall.
    assert (render d ∈ unchecked) as Hdun.
    { apply Hun. exists (render (d ++ [n])). split; [set_solver|].
      by rewrite dirname_render_snoc. }
    destruct (H4 d Hd Hdun Hall) as (a & Hpre & Ha).
    destruct (H2 _ Ha) as (r0 & Hr0 & <-%str_app_inj_r & _ & Hdisj).
    apply (Hdisj (render (d ++ [n]))); [|done].
    assert (normal a) as Hna.
    { destruct Hpre as [r ->]. by apply normal_app in Hd as [? _]. }
    apply walk_sets_render; [done..|].
    eapply file_under_prefix; [done|]. by exists [n], data.
Qed.

(** C2, amended.  The input paths are normalised absolute paths, and
    [D = /d1/.../dn] is the parent directory of one of them.  When every
    file on disk under [D] is an input path, the output holds the
    wildcard of [D] or of a directory above [D], and no file under [D] as
    an entry of its own.  When a file on disk under [D] is no input path,
    the output holds no wildcard of [D] nor of a directory above [D], and
    every input path whose parent directory is [D] is an entry of the
    output. *)
Theorem compress_for_rename_wildcard fs P d :
  FS.wf (FS.nodes fs) →
  (∀ p, p ∈ P → ∃ q, q ≠ [] ∧ normal q ∧ p = render q) →
  normal d →
  (∃ p, p ∈ P ∧ dirname p = render d) →
  ((∀ p, file_under (FS.nodes fs) d p → p ∈ P) →
   (∃ a, a `prefix_of` d ∧ render a +:+ sep ∈ compress_for_rename iter fs P) ∧
   (∀ p, file_under (FS.nodes fs) d p → p ∉ compress_for_rename iter fs P)) ∧
  ((∃ p, file_under (FS.nodes fs) d p ∧ p ∉ P) →
   (∀ a, a `prefix_of` d → render a +:+ sep ∉ compress_for_rename iter fs P) ∧
   (∀ p, p ∈ P → dirname p = render d → p ∈ compress_for_rename iter fs P)).
Proof.
  intros Hwf HP Hd (p0 & Hp0 & Hd0).
  destruct (compress_for_rename_fold fs P) as (unchecked & Hun & Hsorted & Hout).
  assert (∀ p, p ∈ P →
            ∃ q n, normal q ∧ FS.valid_name n = true ∧ p = render (q ++ [n]) ∧
                   dirname p = render q) as HP'.
  { intros p (q & Hne & Hq & ->)%HP.
    destruct (exists_last Hne) as (q' & n & ->).
    apply normal_snoc in Hq as [Hq' Hn]. exists q', n.
    by rewrite dirname_render_snoc. }
  assert (∀ r, r ∈ unchecked → ∃ a, normal a ∧ r = render a) as Hren.
  { intros r (p & (q & n & Hq & _ & _ & Hdir)%HP' & ->)%Hun. by exists q. }
  destruct (foldl_compress_step_wild fs P unchecked [] P ∅)
    as (R & W & Hf & H1 & H2 & H3 & H4);
    [done|done|done|by intros x y ?%elem_of_nil|done|set_solver|by left; auto
    |by intros ?? ?%elem_of_nil|].
  cbn [app] in H2, H4. rewrite (Hout R W Hf H1). clear Hout Hf.
  assert (∀ x, x ∈ R → Str.endswith x sep = false) as HRend.
  { intros x (q & n & Hq & Hn & -> & _)%H1%HP'.
    apply render_not_endswith_sep; [by apply normal_snoc|by destruct q]. }
  assert (∀ a, normal a → render a +:+ sep ∈ R ∪ W →
            (walk_sets fs (render a)).1 ⊆ P ∧ (walk_sets fs (render a)).1 ## R)
    as HW.
  { intros a Ha [Hin|Hin]%elem_of_union.
    - apply HRend in Hin. by rewrite endswith_app in Hin.
    - by destruct (H2 _ Hin) as (r & _ & <-%str_app_inj_r & ? & ?). }
  assert (∀ p, file_under (FS.nodes fs) d p → p ∉ W) as HnotW.
  { intros p (q & Hne & Hq & _ & _ & ->)%file_under_normal Hin; [|done].
    destruct (H2 _ Hin) as (r & _ & Heq & _).
    pose proof (render_not_endswith_sep q Hq Hne) as Hend.
    by rewrite Heq, endswith_app in Hend. }
  assert (render d ∈ unchecked) as Hdun by (apply Hun; by exists p0).
  split.
  - intros Hall. destruct (H4 d Hd Hdun Hall) as (a & Hpre & Ha).
    split; [exists a; set_solver|].
    intros p Hp [Hin|Hin]%elem_of_union; [|by eapply HnotW].
    assert (normal a) as Hna.
    { destruct Hpre as [r ->]. by apply normal_app in Hd as [? _]. }
    destruct (HW a Hna) as [_ Hdisj]; [set_solver|].
    apply (Hdisj p); [|done].
    apply walk_sets_render; [done..|]. by eapply file_under_prefix.
  - intros (p & Hp & HpP). split.
    + intros a Hpre Hin.
      assert (normal a) as Hna.
      { destruct Hpre as [r ->]. by apply normal_app in Hd as [? _]. }
      destruct (HW a Hna Hin) as [Hsub _]. apply HpP, Hsub.
      apply walk_sets_render; [done..|]. by eapply file_under_prefix.
    + intros p' Hp' Hdir.
      destruct (H3 p' Hp') as [?|(r & Hr & Hin)]; [set_solver|exfalso].
      destruct (H2 _ Hr) as (r0 & Hr0 & ->%str_app_inj_r & Hsub & _).
      destruct (Hren _ Hr0) as (a & Ha & ->).
      apply walk_sets_render in Hin as (rest & data & Hne & Hnode & Heq);
        [|done..].
      destruct (HP' p' Hp') as (q & n & Hq & Hn & -> & Hdir').
      rewrite Hdir in Hdir'. apply render_inj in Hdir' as <-; [|done..].
      destruct (wf_dirs_along _ (a ++ rest) Hwf) as [Hn' _]; [done|].
      apply render_inj in Heq; [|by apply normal_snoc|done].
      destruct (exists_last Hne) as (rest' & n' & ->).
      rewrite (assoc_L (++)) in Heq. apply app_inj_tail in Heq as [-> _].
      apply HpP, Hsub. apply walk_sets_render; [done..|].
      eapply file_under_prefix; [|done]. by apply prefix_app_r.
Qed.

End CompressorOutput.

(** The compressor on the disk of the example, for a module and the one
    file of a sub-directory. *)
Lemma compress_for_rename_covers_witness :
  let P : gset string := {[ "/env/lib/a.py"; "/env/lib/sub/b.py" ]} in
  (∀ x, x ∈ Uninstallers.compress_for_rename elements Examples.disk P →
     x ∈ P ∨ (wildcard_of P x ∧ Str.endswith x PosixPath.sep = true)) ∧
  (∀ p, p ∈ P →
     p ∈ Uninstallers.compress_for_rename elements Examples.disk P ∨
     ∃ w, w ∈ Uninstallers.compress_for_rename elements Examples.disk P ∧
          wildcard_of P w ∧ lies_under w p).
Proof.
  intros P.
  apply (compress_for_rename_covers elements (λ X, reflexivity (elements X))
           Examples.disk P).
  apply wfb_wf. vm_compute. reflexivity.
Defined.

(** C2, as the spec has it, fails in both halves, on the disk of the
    example.  With the module [a.py] and the one file of [sub] for
    input, the file [keep.txt] under [/env/lib] is no input path; yet the
    input path [/env/lib/sub/b.py], a file under [/env/lib], is not
    listed: the wildcard of [/env/lib/sub] stands for it.  With every
    file under [/env] for input, the output is the wildcard of
    [/env/lib], and there is none for [/env]. *)
Lemma compress_for_rename_sub_wildcard :
  FS.read Examples.disk "/env/lib/keep.txt" = Ok "K" ∧
  elements (Uninstallers.compress_for_rename elements Examples.disk
              {[ "/env/lib/a.py"; "/env/lib/sub/b.py" ]})
  = ["/env/lib/sub/"; "/env/lib/a.py"] ∧
  (filter (λ ki, FS.is_file (Some ki.2) = true)
     (map_to_list (FS.nodes Examples.disk))).*1
  ≡ₚ [ ["env"; "lib"; "a.py"]; ["env"; "lib"; "a.pyc"];
       ["env"; "lib"; "keep.txt"]; ["env"; "lib"; "sub"; "b.py"];
       ["env"; "lib"; "foo.egg-link"]; ["env"; "lib"; "easy-install.pth"];
       ["tmp"; "other"] ] ∧
  elements (Uninstallers.compress_for_rename elements Examples.disk
              {[ "/env/lib/a.py"; "/env/lib/a.pyc"; "/env/lib/keep.txt";
                 "/env/lib/sub/b.py"; "/env/lib/foo.egg-link";
                 "/env/lib/easy-install.pth" ]})
  = ["/env/lib/"].
Proof.
  split_and!; [by vm_compute..| |by vm_compute].
  vm_compute. apply (bool_decide_unpack _). by vm_compute.
Qed.

(** The amended claim for the directory [/env/lib/sub] of the example. *)
Lemma compress_for_rename_wildcard_witness :
  let P : gset string := {[ "/env/lib/a.py"; "/env/lib/sub/b.py" ]} in
  let d := ["env"; "lib"; "sub"] in
  let out := Uninstallers.compress_for_rename elements Examples.disk P in
  ((∀ p, file_under (FS.nodes Examples.disk) d p → p ∈ P) →
   (∃ a, a `prefix_of` d ∧ render a +:+ PosixPath.sep ∈ out) ∧
   (∀ p, file_under (FS.nodes Examples.disk) d p → p ∉ out)) ∧
  ((∃ p, file_under (FS.nodes Examples.disk) d p ∧ p ∉ P) →
   (∀ a, a `prefix_of` d → render a +:+ PosixPath.sep ∉ out) ∧
   (∀ p, p ∈ P → PosixPath.dirname p = render d → p ∈ out)).
Proof.
  intros P d out.
  apply (compress_for_rename_wildcard elements
           (λ X, reflexivity (elements X)) Examples.disk P d).
  - apply wfb_wf. vm_compute. reflexivity.
  - intros p [->%elem_of_singleton| ->%elem_of_singleton]%elem_of_union.
    + exists ["env"; "lib"; "a.py"]. split_and!; [done| |reflexivity].
      repeat constructor.
    + exists ["env"; "lib"; "sub"; "b.py"]. split_and!; [done| |reflexivity].
      repeat constructor.
  - repeat constructor.
  - exists "/env/lib/sub/b.py". split; [|reflexivity].
    apply elem_of_union. right. by apply elem_of_singleton.
Defined.

(** * The removal planner *)

Section RemovalPlanner.

Import Uninstallers.

Lemma isfile_read fs s :
  FS.isfile fs s = true → ∃ data, FS.read fs s = Ok data.
Proof.
  unfold FS.isfile, FS.read. destruct (FS.stat fs s) as [[data|]|]; naive_solver.
Qed.

(** C9.  For an editable distribution whose pointer file exists, when the
    location recorded on the first line of the pointer file is not the
    location of the distribution, planning raises [UninstallError]: no
    plan is returned, and the world (files, registry, log) is as before.
    The instance under construction is left as it was made, with no path
    and no registry line. *)
Theorem from_dist_pointer_mismatch dist environment w0 purelib egg_link text line :
  is_dist_editable dist = true →
  environment !! "purelib" = Some purelib →
  get_egg_link_path (fs w0) dist purelib = Some egg_link →
  FS.read (fs w0) egg_link = Ok text →
  Str.first_line text = Some line →
  PosixPath.normcase (Str.strip line) ≠ location dist →
  ∃ msg,
    from_dist dist environment w0 = (Raise (UninstallError msg), w0) ∧
    ∀ instance,
      fill_from_dist dist environment {| w := w0; self := instance |}
      = (Raise (UninstallError msg), {| w := w0; self := instance |}).
Proof.
  intros Hed Hpure Hegg Hread Hline Hne.
  eexists. split.
  - unfold from_dist, init, bind, getitem. rewrite Hpure. cbn.
    unfold fill_from_dist, bind, getitem, probe, gets, sys, in_world, os, zoom,
      Os.read, Os.query. cbn.
    rewrite Hed, Hpure. cbn. rewrite Hegg. cbn. rewrite Hread. cbn.
    rewrite Hline. rewrite bool_decide_false by done. cbn.
    destruct w0; reflexivity.
  - intros instance.
    unfold fill_from_dist, bind, getitem, probe, gets, sys, in_world, os, zoom,
      Os.read, Os.query. cbn.
    rewrite Hed, Hpure. cbn. rewrite Hegg. cbn. rewrite Hread. cbn.
    rewrite Hline. rewrite bool_decide_false by done. cbn.
    destruct w0; reflexivity.
Qed.

(** The pointer file of the example names [/src/foo]; the distribution
    claims to live at [/src/elsewhere]. *)
Lemma from_dist_pointer_mismatch_witness :
  ∃ msg,
    from_dist (Examples.foo "/src/elsewhere") Examples.paths Examples.earth
    = (Raise (UninstallError msg), Examples.earth) ∧
    ∀ instance,
      fill_from_dist (Examples.foo "/src/elsewhere") Examples.paths
        {| w := Examples.earth; self := instance |}
      = (Raise (UninstallError msg), {| w := Examples.earth; self := instance |}).
Proof.
  apply (from_dist_pointer_mismatch (Examples.foo "/src/elsewhere")
           Examples.paths Examples.earth "/env/lib" "/env/lib/foo.egg-link"
           ("/src/foo" +:+ Examples.LF) "/src/foo");
    [reflexivity | reflexivity | vm_compute; reflexivity
    | vm_compute; reflexivity | reflexivity | vm_compute; discriminate].
Defined.

End RemovalPlanner.

(** * Well-formed trees under the system calls *)

Section Trees.

Implicit Types tr : gmap (list string) FS.inode.
Implicit Types a b k p q : list string.

Lemma wf_prefix tr a b :
  FS.wf tr → is_Some (tr !! (a ++ b)) → b ≠ [] → tr !! a = Some FS.Dir.
Proof.
  intros Hwf Hab Hb. destruct (wf_dirs_along _ _ Hwf Hab) as [_ Hd].
  specialize (Hd (length a)). rewrite take_app_length in Hd. apply Hd.
  rewrite length_app. destruct b; [done|]. cbn. lia.
Qed.

Lemma wf_prefix_some tr a k :
  FS.wf tr → is_Some (tr !! k) → a `prefix_of` k → is_Some (tr !! a).
Proof.
  intros Hwf Hk [b ->]. destruct (decide (b = [])) as [->|Hb].
  - by rewrite app_nil_r in Hk.
  - rewrite (wf_prefix tr a b); [by eexists|done..].
Qed.

Lemma wf_file_leaf tr a b d :
  FS.wf tr → tr !! a = Some (FS.File d) → is_Some (tr !! (a ++ b)) → b = [].
Proof.
  intros Hwf Ha Hab. destruct (decide (b = [])) as [|Hb]; [done|].
  rewrite (wf_prefix tr a b) in Ha; done.
Qed.

Lemma wf_normal tr k : FS.wf tr → is_Some (tr !! k) → normal k.
Proof. intros Hwf Hk. by destruct (wf_dirs_along _ _ Hwf Hk). Qed.

Lemma wf_insert_dir tr p n :
  FS.wf tr → tr !! p = Some FS.Dir → FS.valid_name n = true →
  FS.wf (<[p ++ [n] := FS.Dir]> tr).
Proof.
  intros [Hroot Hwf] Hp Hn. split.
  - rewrite lookup_insert_ne; [done|]. by destruct p.
  - intros p' n' i. destruct (decide (p' ++ [n'] = p ++ [n])) as [Heq|Hne].
    + apply app_inj_tail in Heq as [-> ->]. intros _. split; [|done].
      rewrite lookup_insert_ne; [done|].
      intros Heq%(f_equal length). rewrite length_app in Heq. cbn in Heq. lia.
    + rewrite lookup_insert_ne by done. intros [Hd Hv]%Hwf. split; [|done].
      destruct (decide (p' = p ++ [n])) as [->|]; [by rewrite lookup_insert_eq|].
      by rewrite lookup_insert_ne.
Qed.

Lemma wf_insert_file tr p n d :
  FS.wf tr → tr !! p = Some FS.Dir → FS.valid_name n = true →
  (∀ m, tr !! (p ++ [n] ++ [m]) = None) →
  FS.wf (<[p ++ [n] := FS.File d]> tr).
Proof.
  intros [Hroot Hwf] Hp Hn Hleaf. split.
  - rewrite lookup_insert_ne; [done|]. by destruct p.
  - intros p' n' i. destruct (decide (p' ++ [n'] = p ++ [n])) as [Heq|Hne].
    + apply app_inj_tail in Heq as [-> ->]. intros _. split; [|done].
      rewrite lookup_insert_ne; [done|].
      intros Heq%(f_equal length). rewrite length_app in Heq. cbn in Heq. lia.
    + rewrite lookup_insert_ne by done. intros Hl.
      destruct (Hwf _ _ _ Hl) as [Hd Hv]. split; [|done].
      destruct (decide (p' = p ++ [n])) as [->|]; [|by rewrite lookup_insert_ne].
      rewrite <-(assoc_L (++)) in Hl. by rewrite Hleaf in Hl.
Qed.

Lemma wf_delete_leaf tr k :
  FS.wf tr → k ≠ [] → (∀ n, tr !! (k ++ [n]) = None) → FS.wf (delete k tr).
Proof.
  intros [Hroot Hwf] Hk Hleaf. split.
  - by rewrite lookup_delete_ne.
  - intros p n i [Hne Hl]%lookup_delete_Some. destruct (Hwf _ _ _ Hl) as [Hd Hv].
    split; [|done]. rewrite lookup_delete_ne; [done|].
    intros ->. by rewrite Hleaf in Hl.
Qed.

Lemma has_children_false tr p :
  FS.has_children tr p = false ↔ ∀ n, tr !! (p ++ [n]) = None.
Proof.
  unfold FS.has_children. split.
  - intros Hc n. destruct (tr !! (p ++ [n])) as [i|] eqn:Hl; [|done].
    apply elem_of_children in Hl. destruct (FS.children tr p); [|done].
    by apply elem_of_nil in Hl.
  - intros Hall. destruct (FS.children tr p) as [|[n i] l] eqn:Hc; [done|].
    assert ((n, i) ∈ FS.children tr p) as Hin by (rewrite Hc; left).
    apply elem_of_children in Hin. by rewrite Hall in Hin.
Qed.

Lemma has_children_true tr p n :
  is_Some (tr !! (p ++ [n])) → FS.has_children tr p = true.
Proof.
  intros [i Hi]. destruct (FS.has_children tr p) eqn:Hc; [done|].
  rewrite has_children_false in Hc. by rewrite Hc in Hi.
Qed.

Lemma has_children_below tr p b :
  FS.wf tr → is_Some (tr !! (p ++ b)) → b ≠ [] → FS.has_children tr p = true.
Proof.
  intros Hwf Hb Hne. destruct b as [|n b]; [done|].
  apply (has_children_true _ _ n).
  apply (wf_prefix_some tr _ (p ++ n :: b)); [done..|].
  exists b. by rewrite <-(assoc_L (++)).
Qed.

(** ** Subtrees *)

Lemma lookup_remove_tree tr a k :
  FS.remove_tree tr a !! k = if decide (a `prefix_of` k) then None else tr !! k.
Proof.
  unfold FS.remove_tree. destruct (decide (a `prefix_of` k)) as [Hp|Hp].
  - apply map_lookup_filter_None. right. intros i _. cbn. by intros [].
  - destruct (tr !! k) as [i|] eqn:Hk.
    + by apply map_lookup_filter_Some.
    + apply map_lookup_filter_None. by left.
Qed.

Lemma elem_of_subtree tr a rest i :
  (rest, i) ∈ FS.subtree tr a ↔ tr !! (a ++ rest) = Some i.
Proof.
  unfold FS.subtree. rewrite list_elem_of_omap. split.
  - intros ([k j] & Hin%elem_of_map_to_list & Hm).
    case_bool_decide as Hp; [|done]. destruct Hp as [r ->].
    rewrite drop_app_length in Hm. by simplify_eq.
  - intros Hl. exists (a ++ rest, i). split; [by apply elem_of_map_to_list|].
    rewrite bool_decide_true by by apply prefix_app_r.
    by rewrite drop_app_length.
Qed.

Lemma lookup_graft tr b sub k :
  (∀ r i j, (r, i) ∈ sub → (r, j) ∈ sub → i = j) →
  FS.graft tr b sub !! k
  = match decide (b `prefix_of` k) with
    | left _ =>
        match list_find (λ ri, ri.1 = drop (length b) k) sub with
        | Some (_, (_, i)) => Some i
        | None => tr !! k
        end
    | right _ => tr !! k
    end.
Proof.
  intros Hfun. unfold FS.graft.
  set (L := prod_map (app b) id <$> sub).
  assert (∀ k' i, (k', i) ∈ L ↔ ∃ r, k' = b ++ r ∧ (r, i) ∈ sub) as HL.
  { intros k' i. unfold L. rewrite list_elem_of_fmap. split.
    - intros ([r j] & [= -> ->] & Hin). by exists r.
    - intros (r & -> & Hin). by exists (r, i). }
  assert (∀ k' i, (list_to_map L : gmap _ _) !! k' = Some i ↔ (k', i) ∈ L) as Hl.
  { intros k' i. split; [apply elem_of_list_to_map_2|].
    intros Hin. apply elem_of_list_to_map_1'; [|done].
    intros j Hj. apply HL in Hin as (r & -> & Hin).
    apply HL in Hj as (r' & ->%(inj (app b)) & Hj). by eapply Hfun. }
  destruct (decide (b `prefix_of` k)) as [[r ->]|Hp].
  - rewrite drop_app_length.
    destruct (list_find _ sub) as [[n [r' i]]|] eqn:Hf.
    + apply list_find_Some in Hf as (Hn%list_elem_of_lookup_2 & Heq & _).
      cbn in Heq. subst r'. apply lookup_union_Some_l, Hl, HL. by exists r.
    + apply list_find_None in Hf. rewrite lookup_union_r; [done|].
      destruct (list_to_map L !! (b ++ r)) as [i|] eqn:Hi; [|done].
      apply Hl, HL in Hi as (r' & ->%(inj (app b)) & Hin).
      by apply (proj1 (Forall_forall _ _) Hf) in Hin.
  - rewrite lookup_union_r; [done|].
    destruct (list_to_map L !! k) as [i|] eqn:Hi; [|done].
    apply Hl, HL in Hi as (r & -> & _). destruct Hp. by apply prefix_app_r.
Qed.

(** Moving the subtree at [a] to a place [b] where nothing is. *)
Lemma lookup_move_tree tr a b k :
  ¬ a `prefix_of` b → (∀ r, tr !! (b ++ r) = None) →
  FS.move_tree tr a b !! k
  = if decide (b `prefix_of` k) then tr !! (a ++ drop (length b) k)
    else if decide (a `prefix_of` k) then None else tr !! k.
Proof.
  intros Hab Hb. unfold FS.move_tree. rewrite lookup_graft.
  - destruct (decide (b `prefix_of` k)) as [[r ->]|Hp];
      [|apply lookup_remove_tree].
    rewrite drop_app_length.
    destruct (list_find _ _) as [[n [r' i]]|] eqn:Hf.
    + apply list_find_Some in Hf as (Hn%list_elem_of_lookup_2 & Heq & _).
      cbn in Heq. subst r'. by apply elem_of_subtree in Hn.
    + apply list_find_None in Hf. rewrite lookup_remove_tree.
      rewrite Hb. destruct (tr !! (a ++ r)) as [i|] eqn:Hi.
      * apply elem_of_subtree in Hi.
        by apply (proj1 (Forall_forall _ _) Hf) in Hi.
      * by destruct (decide _).
  - intros r i j Hi%elem_of_subtree Hj%elem_of_subtree. congruence.
Qed.

Lemma wf_move_tree tr a b n :
  FS.wf tr → a ≠ [] →
  ¬ a `prefix_of` b ++ [n] → ¬ b ++ [n] `prefix_of` a →
  is_Some (tr !! a) → tr !! b = Some FS.Dir → FS.valid_name n = true →
  (∀ r, tr !! (b ++ [n] ++ r) = None) →
  FS.wf (FS.move_tree tr a (b ++ [n])).
Proof.
  intros Hwf Ha Hab Hba Hsrc Hb Hn Hfree.
  assert (∀ r, tr !! ((b ++ [n]) ++ r) = None) as Hfree'.
  { intros r. by rewrite <-(assoc_L (++)). }
  assert (¬ a `prefix_of` b) as Hab'.
  { intros Hp. apply Hab. by apply prefix_app_r. }
  split.
  - rewrite lookup_move_tree by done.
    rewrite decide_False by (intros [r Hr]; by destruct b).
    rewrite decide_False; [by destruct Hwf|]. intros [r Hr]. by destruct a.
  - intros p m i. rewrite !lookup_move_tree by done.
    destruct (decide (b ++ [n] `prefix_of` p ++ [m])) as [[r Hr]|Hp1].
    + destruct (decide (r = [])) as [->|Hne].
      * rewrite app_nil_r in Hr. apply app_inj_tail in Hr as [-> ->].
        intros _. split; [|done].
        rewrite decide_False by apply prefix_snoc_not.
        by rewrite decide_False.
      * destruct (exists_last Hne) as (r' & m' & ->).
        rewrite (assoc_L (++)) in Hr. apply app_inj_tail in Hr as [-> ->].
        rewrite decide_True by by apply prefix_app_r.
        rewrite <-(assoc_L (++) (b ++ [n]) r' [m']), !drop_app_length.
        rewrite (assoc_L (++) a). destruct Hwf as [_ Hwf]. apply Hwf.
    + destruct (decide (a `prefix_of` p ++ [m])) as [Hp2|Hp2]; [done|].
      intros Hl. destruct Hwf as [_ Hwf]. destruct (Hwf _ _ _ Hl) as [Hd Hv].
      split; [|done].
      rewrite decide_False.
      2:{ intros Hp. apply Hp1. by apply prefix_app_r. }
      rewrite decide_False; [done|]. intros Hp. apply Hp2. by apply prefix_app_r.
Qed.

End Trees.

(** * System calls on normalised paths *)

Section Calls.

Implicit Types tr : gmap (list string) FS.inode.
Implicit Types a b k p q : list string.

Lemma wf_reachable tr q : FS.wf tr → is_Some (tr !! q) → reachable tr q.
Proof.
  intros Hwf Hq. split; [by destruct Hwf|]. by apply wf_dirs_along.
Qed.

Lemma wf_reachable_child tr p n :
  FS.wf tr → tr !! p = Some FS.Dir → reachable tr (p ++ [n]).
Proof.
  intros Hwf Hp. split; [by destruct Hwf|]. by apply wf_parent_dirs_along.
Qed.

Lemma walk_to_app tr cur l1 l2 :
  FS.walk_to tr cur (l1 ++ l2)
  = match FS.walk_to tr cur l1 with
    | Some c => FS.walk_to tr c l2
    | None => None
    end.
Proof.
  revert cur. induction l1 as [|c l1 IH]; intros cur; [done|].
  cbn [app FS.walk_to]. destruct (FS.is_dir _); [|done].
  destruct (_ || _); [apply IH|]. destruct (bool_decide _); apply IH.
Qed.

Lemma isabs_trail q : PosixPath.isabs (render q +:+ "/") = true.
Proof. unfold render. rewrite str_app_assoc. apply (startswith_app "/"). Qed.

Lemma resolve_trail fs q :
  normal q → q ≠ [] → reachable (FS.nodes fs) q →
  FS.resolve fs (render q +:+ "/")
  = if FS.is_dir (FS.nodes fs !! q) then Some q else None.
Proof.
  intros Hq Hne Hr. rewrite resolve_eq by done.
  unfold FS.start. rewrite isabs_trail.
  change (render q +:+ "/") with (render q +:+ String "/" EmptyString).
  rewrite split_on_app, walk_to_app.
  pose proof (reachable_resolve fs q Hq Hr) as Hres.
  rewrite resolve_eq in Hres by apply render_nonempty.
  rewrite start_render in Hres. rewrite Hres. cbn.
  by destruct (FS.is_dir _).
Qed.

Lemma stat_trail fs q :
  FS.wf (FS.nodes fs) → normal q → q ≠ [] →
  FS.stat fs (render q +:+ "/")
  = if FS.is_dir (FS.nodes fs !! q) then Some FS.Dir else None.
Proof.
  intros Hwf Hq Hne. unfold FS.stat.
  destruct (FS.is_dir (FS.nodes fs !! q)) eqn:Hd.
  - apply is_dir_true in Hd. rewrite resolve_trail; [|done..|].
    + rewrite Hd. cbn. by rewrite Hd.
    + apply wf_reachable; [done|by eexists].
  - destruct (FS.resolve fs (render q +:+ "/")) as [k|] eqn:Hres; [|done].
    exfalso. rewrite resolve_eq in Hres by done.
    unfold FS.start in Hres. rewrite isabs_trail in Hres.
    change (render q +:+ "/") with (render q +:+ String "/" EmptyString) in Hres.
    rewrite split_on_app, walk_to_app in Hres.
    destruct (FS.walk_to _ _ (Str.split_on "/" (render q))) as [c|] eqn:Hw;
      [|done].
    rewrite split_on_render in Hw by done. rewrite walk_to_skip in Hw.
    destruct (FS.is_dir (FS.nodes fs !! [])); [|done].
    apply walk_to_normal_inv in Hw as [-> _]; [|done].
    cbn in Hres. by rewrite Hd in Hres.
Qed.

(** The node that a spelling of [q] names, when [q] is no regular
    file. *)
Lemma stat_spelled fs q s :
  FS.wf (FS.nodes fs) → normal q → spelled q s →
  (∀ d, FS.nodes fs !! q ≠ Some (FS.File d)) →
  FS.stat fs s = FS.nodes fs !! q.
Proof.
  intros Hwf Hq [->|[Hne ->]] Hnf; [by apply stat_render_wf|].
  rewrite stat_trail by done.
  destruct (FS.nodes fs !! q) as [[d|]|] eqn:Hl; [|done..]. by destruct (Hnf d).
Qed.

Lemma rstrip_spelled q s :
  normal q → q ≠ [] → spelled q s → Str.rstrip_sep s = render q.
Proof.
  intros Hq Hne [->|[_ ->]]; [by apply rstrip_render|].
  pose proof (rstrip_trail q Hq Hne) as Ht. by destruct q.
Qed.

Lemma resolve_new_spelled fs q s :
  normal q → q ≠ [] → spelled q s → reachable (FS.nodes fs) q →
  FS.resolve_new fs s = Some q.
Proof.
  intros Hq Hne Hs Hr. unfold FS.resolve_new.
  rewrite (rstrip_spelled q s) by done.
  pose proof (render_nonempty q) as Hn.
  destruct (render q) eqn:Heq; [done|]. rewrite <-Heq.
  by apply reachable_resolve.
Qed.

Lemma resolve_spelled_dir fs q s :
  FS.wf (FS.nodes fs) → normal q → spelled q s →
  FS.nodes fs !! q = Some FS.Dir → FS.resolve fs s = Some q.
Proof.
  intros Hwf Hq [->|[Hne ->]] Hd.
  - apply resolve_render_wf; [done|by eexists].
  - rewrite resolve_trail; [by rewrite Hd|done..|].
    apply wf_reachable; [done|by eexists].
Qed.

Lemma exists_render fs q :
  FS.wf (FS.nodes fs) → normal q →
  FS.exists_ fs (render q) = bool_decide (is_Some (FS.nodes fs !! q)).
Proof. intros. unfold FS.exists_. by rewrite stat_render_wf. Qed.

Lemma isdir_render fs q :
  FS.wf (FS.nodes fs) → normal q →
  FS.isdir fs (render q) = FS.is_dir (FS.nodes fs !! q).
Proof. intros. unfold FS.isdir. by rewrite stat_render_wf. Qed.

Lemma isfile_render fs q :
  FS.wf (FS.nodes fs) → normal q →
  FS.isfile fs (render q) = FS.is_file (FS.nodes fs !! q).
Proof. intros. unfold FS.isfile. by rewrite stat_render_wf. Qed.

(** ** Single calls *)

Lemma is_OSError_walk_err tr cur comps :
  is_OSError (FS.walk_err tr cur comps) = true.
Proof.
  revert cur. induction comps as [|c comps IH]; intros cur; [done|]. cbn.
  destruct (tr !! cur) as [[]|]; [done| |done].
  destruct (_ || _); [apply IH|]. destruct (bool_decide _); apply IH.
Qed.

Lemma is_OSError_resolve_err fs s : is_OSError (FS.resolve_err fs s) = true.
Proof. apply is_OSError_walk_err. Qed.

Lemma basename_render_snoc p n :
  normal p → FS.valid_name n = true →
  PosixPath.basename (render (p ++ [n])) = n.
Proof.
  intros Hp Hn. pose proof (split_render_snoc p n Hp Hn) as Hs.
  unfold PosixPath.split in Hs. unfold PosixPath.basename.
  destruct (Str.rpartition_sep _) as [h t]. cbn.
  destruct (Str.rstrip_sep h); by injection Hs.
Qed.

Lemma mkdir_render fs p n :
  FS.wf (FS.nodes fs) → normal (p ++ [n]) →
  FS.nodes fs !! p = Some FS.Dir → FS.nodes fs !! (p ++ [n]) = None →
  Os.mkdir (render (p ++ [n])) fs
  = (Ok tt, FS.with_nodes fs (<[p ++ [n] := FS.Dir]> (FS.nodes fs))).
Proof.
  intros Hwf Hq Hp Hn. unfold Os.mkdir, Os.syscall, FS.mkdir.
  rewrite (resolve_new_spelled fs (p ++ [n]));
    [|done|by destruct p|by left|by apply wf_reachable_child].
  by rewrite Hn.
Qed.

Lemma unlink_render fs q d :
  FS.wf (FS.nodes fs) → FS.nodes fs !! q = Some (FS.File d) →
  Os.unlink (render q) fs
  = (Ok tt, FS.with_nodes fs (delete q (FS.nodes fs))).
Proof.
  intros Hwf Hq. unfold Os.unlink, Os.syscall, FS.unlink.
  rewrite resolve_render_wf; [|done|by eexists]. by rewrite Hq.
Qed.

Lemma rmdir_render fs q :
  FS.wf (FS.nodes fs) → normal q →
  (Os.rmdir (render q) fs
   = (Ok tt, FS.with_nodes fs (delete q (FS.nodes fs))) ∧
   q ≠ [] ∧ FS.nodes fs !! q = Some FS.Dir ∧
   ∀ n, FS.nodes fs !! (q ++ [n]) = None) ∨
  (∃ e, Os.rmdir (render q) fs = (Raise e, fs) ∧ is_OSError e = true ∧
        (q ≠ [] → FS.nodes fs !! q = Some FS.Dir →
         FS.has_children (FS.nodes fs) q = true)).
Proof.
  intros Hwf Hq. unfold Os.rmdir, Os.syscall, FS.rmdir.
  destruct (FS.resolve fs (render q)) as [k|] eqn:Hres.
  2:{ right. eexists. split_and!; [done|apply is_OSError_resolve_err|].
      intros _ Hd. rewrite resolve_render_wf in Hres; [done..|by eexists]. }
  apply resolve_render_inv in Hres as (-> & _); [|done].
  destruct (FS.nodes fs !! q) as [[d|]|] eqn:Hl.
  - right. by eexists.
  - destruct (decide (q = [])) as [->|Hne].
    { right. eexists. by split_and!. }
    rewrite (bool_decide_false (q = [])) by done.
    destruct (FS.has_children _ q) eqn:Hc.
    { right. eexists. by split_and!. }
    destruct (exists_last Hne) as (p & n & ->).
    apply normal_snoc in Hq as [Hp Hn].
    rewrite basename_render_snoc by done.
    rewrite bool_decide_false by by apply valid_name_not_dot.
    left. split_and!; [done..|]. by apply has_children_false.
  - right. by eexists.
Qed.

(** ** [os.makedirs] *)

Lemma render_length_ge q : length q ≤ String.length (render q).
Proof.
  induction q as [|n q IH] using rev_ind; [cbn; lia|].
  rewrite render_snoc, str_app_length, length_app. cbn.
  assert (length q + 1 ≤ String.length (trail q)).
  { destruct q; [cbn; lia|]. cbn [trail]. rewrite str_app_length. cbn in *. lia. }
  lia.
Qed.

Lemma split_skip_render_snoc p n :
  normal p → FS.valid_name n = true →
  Os.split_skip (render (p ++ [n])) = (render p, n).
Proof.
  intros Hp Hn. unfold Os.split_skip. rewrite split_render_snoc by done.
  apply valid_name_nonempty in Hn. by destruct n.
Qed.

Lemma grown_refl q tr : FS.wf tr → grown q tr tr.
Proof. intros. split_and!; [done..|]. by left. Qed.

Lemma makedirs_go_render fuel fs q :
  FS.wf (FS.nodes fs) → normal q → length q < fuel →
  FS.nodes fs !! q = None →
  (∀ a d, a `prefix_of` q → FS.nodes fs !! a ≠ Some (FS.File d)) →
  ∃ tr',
    Os.makedirs_go fuel (render q) fs = (Ok tt, FS.with_nodes fs tr') ∧
    grown q (FS.nodes fs) tr' ∧ tr' !! q = Some FS.Dir.
Proof.
  revert fuel fs. induction q as [|n p IH] using rev_ind;
    intros fuel fs Hwf Hq Hfuel Hnone Hnf.
  { destruct Hwf as [Hroot _]. by rewrite Hroot in Hnone. }
  apply normal_snoc in Hq as [Hp Hn].
  destruct fuel as [|fuel]; [lia|]. cbn [Os.makedirs_go].
  rewrite split_skip_render_snoc by done.
  unfold bind at 1, gets at 1. rewrite exists_render by done.
  rewrite (bool_decide_false (render p = EmptyString)) by apply render_nonempty.
  rewrite (bool_decide_false (n = EmptyString)) by by apply valid_name_nonempty.
  rewrite (bool_decide_false (n = ".")) by by apply valid_name_not_dot.
  cbn [negb andb].
  assert (normal (p ++ [n])) as Hpn by by apply normal_snoc.
  destruct (FS.nodes fs !! p) as [[d|]|] eqn:Hl.
  - destruct (Hnf p d); [by apply prefix_app_r|done].
  - rewrite bool_decide_true by by eexists. cbn [negb].
    rewrite mkdir_render by done. eexists. split; [done|]. split.
    + split_and!.
      * by apply wf_insert_dir.
      * by apply insert_subseteq.
      * intros k i [[<- <-]|[_ ?]]%lookup_insert_Some; [by right|by left].
    + by rewrite lookup_insert_eq.
  - rewrite bool_decide_false by by intros [??]. cbn [negb].
    destruct (IH fuel fs) as (tr1 & Hrun & (Hwf1 & Hsub & Hnew) & Hdir);
      [done..| rewrite length_app in Hfuel; cbn in Hfuel; lia |done| |].
    { intros a d Ha. apply Hnf. by apply prefix_app_r. }
    unfold bind, try_except. rewrite Hrun.
    assert (tr1 !! (p ++ [n]) = None) as Hfree.
    { destruct (tr1 !! (p ++ [n])) as [i|] eqn:Hi; [|done].
      destruct (Hnew _ _ Hi) as [?|[_ Hpre]]; [congruence|].
      by apply prefix_snoc_not in Hpre. }
    rewrite (mkdir_render (FS.with_nodes fs tr1)) by done.
    eexists. split; [done|]. split.
    + split_and!.
      * by apply (wf_insert_dir tr1).
      * etrans; [exact Hsub|]. by apply insert_subseteq.
      * intros k i [[<- <-]|[_ Hk]]%lookup_insert_Some; [by right|].
        destruct (Hnew _ _ Hk) as [?|[-> ?]]; [by left|right].
        split; [done|]. by apply prefix_app_r.
    + cbn. by rewrite lookup_insert_eq.
Qed.

Lemma makedirs_render fs q :
  FS.wf (FS.nodes fs) → normal q → FS.nodes fs !! q = None →
  (∀ a d, a `prefix_of` q → FS.nodes fs !! a ≠ Some (FS.File d)) →
  ∃ tr',
    Os.makedirs (render q) fs = (Ok tt, FS.with_nodes fs tr') ∧
    grown q (FS.nodes fs) tr' ∧ tr' !! q = Some FS.Dir.
Proof.
  intros. apply makedirs_go_render; [done..| |done|done].
  pose proof (render_length_ge q). lia.
Qed.

(** ** [os.removedirs] *)

Lemma with_nodes_id fs : FS.with_nodes fs (FS.nodes fs) = fs.
Proof. by destruct fs. Qed.

Lemma pruned_refl q tr : FS.wf tr → pruned q tr tr.
Proof. intros. split_and!; [done..|]. by left. Qed.

Lemma pruned_trans q q' tr tr1 tr2 :
  q' `prefix_of` q → pruned q tr tr1 → pruned q' tr1 tr2 → pruned q tr tr2.
Proof.
  intros Hpre (_ & Hsub1 & Hk1) (Hwf & Hsub2 & Hk2). split_and!; [done| |].
  - by etrans.
  - intros k i Hk. destruct (Hk1 _ _ Hk) as [Hk'|?]; [|by right].
    destruct (Hk2 _ _ Hk') as [?|[-> ?]]; [by left|right].
    split; [done|]. by etrans.
Qed.

Lemma pruned_delete q tr :
  FS.wf tr → q ≠ [] → tr !! q = Some FS.Dir →
  (∀ n, tr !! (q ++ [n]) = None) → pruned q tr (delete q tr).
Proof.
  intros Hwf Hne Hq Hleaf. split_and!.
  - by apply wf_delete_leaf.
  - apply delete_subseteq.
  - intros k i Hk. destruct (decide (k = q)) as [->|Hkq].
    + right. split; [congruence|done].
    + left. by rewrite lookup_delete_ne.
Qed.

Lemma removedirs_go_render fuel fs q tail :
  FS.wf (FS.nodes fs) → normal q →
  ∃ tr',
    Os.removedirs_go fuel (render q) tail fs = (Ok tt, FS.with_nodes fs tr') ∧
    pruned q (FS.nodes fs) tr'.
Proof.
  revert fs q tail. induction fuel as [|fuel IH]; intros fs q tail Hwf Hq.
  { exists (FS.nodes fs). rewrite with_nodes_id. split; [done|].
    by apply pruned_refl. }
  cbn [Os.removedirs_go].
  rewrite (bool_decide_false (render q = EmptyString)) by apply render_nonempty.
  destruct (bool_decide (tail = EmptyString)); cbn [negb andb].
  { exists (FS.nodes fs). rewrite with_nodes_id. split; [done|].
    by apply pruned_refl. }
  destruct (rmdir_render fs q Hwf Hq)
    as [(-> & Hne & Hd & Hleaf)|(e & -> & -> & _)].
  - destruct (exists_last Hne) as (p & n & ->).
    pose proof Hq as [Hp Hn]%normal_snoc.
    rewrite split_render_snoc by done.
    destruct (IH (FS.with_nodes fs (delete (p ++ [n]) (FS.nodes fs))) p n)
      as (tr' & -> & Hpr); [by apply wf_delete_leaf|done|].
    exists tr'. split; [done|].
    eapply pruned_trans; [|by apply pruned_delete|exact Hpr].
    by apply prefix_app_r.
  - exists (FS.nodes fs). rewrite with_nodes_id. split; [done|].
    by apply pruned_refl.
Qed.

Lemma removedirs_render fs q :
  FS.wf (FS.nodes fs) → normal q →
  ∃ tr',
    try_except (Os.removedirs (render q)) is_OSError (ret tt) fs
    = (Ok tt, FS.with_nodes fs tr') ∧
    pruned q (FS.nodes fs) tr'.
Proof.
  intros Hwf Hq. unfold try_except, Os.removedirs, bind.
  destruct (rmdir_render fs q Hwf Hq)
    as [(-> & Hne & Hd & Hleaf)|(e & -> & -> & _)].
  - destruct (exists_last Hne) as (p & n & ->).
    pose proof Hq as [Hp Hn]%normal_snoc.
    rewrite split_skip_render_snoc by done.
    destruct (removedirs_go_render (S (String.length (render (p ++ [n])))) 
                (FS.with_nodes fs (delete (p ++ [n]) (FS.nodes fs))) p n)
      as (tr' & -> & Hpr); [by apply wf_delete_leaf|done|].
    exists tr'. split; [done|].
    eapply pruned_trans; [|by apply pruned_delete|exact Hpr].
    by apply prefix_app_r.
  - exists (FS.nodes fs). rewrite with_nodes_id. split; [done|].
    by apply pruned_refl.
Qed.

(** A directory that holds something is left alone. *)
Lemma removedirs_nonempty fs q :
  FS.wf (FS.nodes fs) → normal q → q ≠ [] →
  FS.nodes fs !! q = Some FS.Dir → FS.has_children (FS.nodes fs) q = true →
  try_except (Os.removedirs (render q)) is_OSError (ret tt) fs = (Ok tt, fs).
Proof.
  intros Hwf Hq Hne Hd Hc. unfold try_except, Os.removedirs, bind.
  destruct (rmdir_render fs q Hwf Hq)
    as [(_ & _ & _ & Hleaf)|(e & -> & -> & _)]; [|done].
  apply has_children_false in Hleaf. congruence.
Qed.

(** ** [shutil.move] and [shutil.rmtree] *)

Lemma move_render_file fs a b d :
  FS.wf (FS.nodes fs) → normal b → b ≠ [] →
  FS.nodes fs !! a = Some (FS.File d) → FS.nodes fs !! b = None →
  reachable (FS.nodes fs) b → a ≠ b →
  Os.move (render a) (render b) fs
  = (Ok tt, FS.with_nodes fs (<[b := FS.File d]> (delete a (FS.nodes fs)))).
Proof.
  intros Hwf Hb Hne Ha Hnone Hr Hab.
  unfold Os.move, bind, gets. rewrite isdir_render by done.
  rewrite Hnone. cbn [FS.is_dir andb].
  unfold try_except, Os.rename, Os.syscall, FS.rename.
  rewrite resolve_render_wf; [|done|by eexists]. rewrite Ha.
  rewrite reachable_resolve by done. rewrite Hnone.
  by rewrite bool_decide_false.
Qed.

Lemma move_render_dir fs a b src dst :
  FS.wf (FS.nodes fs) → normal a → normal b → b ≠ [] →
  spelled a src → spelled b dst →
  FS.nodes fs !! a = Some FS.Dir → FS.nodes fs !! b = None →
  reachable (FS.nodes fs) b → ¬ a `prefix_of` b →
  Os.move src dst fs
  = (Ok tt, FS.with_nodes fs (FS.move_tree (FS.nodes fs) a b)).
Proof.
  intros Hwf Ha Hb Hne Hsrc Hdst Hd Hnone Hr Hab.
  assert (FS.isdir fs dst = false) as Hdd.
  { unfold FS.isdir. rewrite (stat_spelled fs b dst) by (done || by rewrite Hnone).
    by rewrite Hnone. }
  unfold Os.move, bind, gets. rewrite !Hdd. cbn [andb]. cbv beta iota.
  unfold try_except, Os.rename, Os.syscall, FS.rename.
  rewrite (resolve_spelled_dir fs a src) by done. rewrite Hd.
  rewrite (resolve_new_spelled fs b dst) by done.
  rewrite bool_decide_false by (intros ->; by apply Hab).
  rewrite bool_decide_false by done. by rewrite Hnone.
Qed.

Lemma rmtree_render fs q :
  FS.wf (FS.nodes fs) → normal q → q ≠ [] →
  FS.nodes fs !! q = Some FS.Dir →
  Os.rmtree (render q) fs
  = (Ok tt, FS.with_nodes fs (FS.remove_tree (FS.nodes fs) q)).
Proof.
  intros Hwf Hq Hne Hd. unfold Os.rmtree, Os.syscall, FS.rmtree.
  rewrite resolve_render_wf; [|done|by eexists]. rewrite Hd.
  by rewrite bool_decide_false.
Qed.

Lemma wf_remove_tree tr q : FS.wf tr → q ≠ [] → FS.wf (FS.remove_tree tr q).
Proof.
  intros [Hroot Hwf] Hne. split.
  - rewrite lookup_remove_tree. rewrite decide_False; [done|].
    intros [r Hr]. by destruct q.
  - intros p n i. rewrite !lookup_remove_tree.
    destruct (decide (q `prefix_of` p ++ [n])) as [|Hp]; [done|].
    intros [Hd Hv]%Hwf. split; [|done]. rewrite decide_False; [done|].
    intros Hpre. apply Hp. by apply prefix_app_r.
Qed.

End Calls.

(** * Path arithmetic on normalised paths *)

Section PathArithmetic.

Import PosixPath.

Implicit Types a b e q r : list string.

Lemma split_on_trail q :
  normal q → q ≠ [] →
  Str.split_on "/" (render q +:+ "/") = EmptyString :: q ++ [EmptyString].
Proof.
  intros Hq Hne.
  change (render q +:+ "/") with (render q +:+ String "/" EmptyString).
  by rewrite split_on_app, split_on_render.
Qed.

Lemma trail_not_startswith_2sep q :
  normal q → q ≠ [] → Str.startswith (render q +:+ "/") "//" = false.
Proof.
  intros Hq Hne. pose proof (join_not_startswith_sep q Hq) as Hj.
  pose proof (join_length_pos q Hq Hne) as Hlen.
  unfold render. rewrite str_app_assoc.
  change ("/" +:+ ?x) with (String "/" x).
  unfold Str.startswith. cbn. destruct (ascii_dec "/" "/"); [|done].
  change (String.prefix "/" ?x) with (Str.startswith x "/").
  rewrite startswith_app_nonempty; [done|]. intros Heq.
  rewrite Heq in Hlen. cbn in Hlen. lia.
Qed.

Lemma filter_nonempty_normal q :
  normal q → filter (λ x : string, x ≠ EmptyString) q = q.
Proof.
  induction 1 as [|n q Hn Hq IH]; [done|].
  rewrite filter_cons_True; [by rewrite IH|]. by apply valid_name_nonempty.
Qed.

Lemma parse_spelled q s :
  normal q → spelled q s → PurePath.parse s = ("/", q).
Proof.
  intros Hq [->|[Hne ->]]; [by apply parse_render|].
  unfold PurePath.parse.
  rewrite (isabs_trail q : Str.startswith (render q +:+ "/") "/" = true).
  rewrite trail_not_startswith_2sep by done. cbn [andb]. f_equal.
  rewrite split_on_trail by done.
  rewrite filter_cons_False by naive_solver.
  rewrite filter_app, filter_parts_normal by done.
  rewrite filter_cons_False by naive_solver. by rewrite app_nil_r.
Qed.

Lemma foldl_normpath_step acc q :
  normal q → foldl (normpath_step 1) acc q = acc ++ q.
Proof.
  intros Hq. revert acc. induction Hq as [|n q Hn Hq IH]; intros acc.
  { by rewrite app_nil_r. }
  cbn [foldl]. unfold normpath_step at 2.
  rewrite (bool_decide_false (n = EmptyString)) by by apply valid_name_nonempty.
  rewrite (bool_decide_false (n = ".")) by by apply valid_name_not_dot.
  rewrite (bool_decide_false (n = "..")) by by apply valid_name_not_dotdot.
  cbn [orb negb]. by rewrite IH, <-(assoc_L (++)).
Qed.

Lemma normpath_spelled q s : normal q → spelled q s → normpath s = render q.
Proof.
  intros Hq Hs. unfold normpath.
  assert (Str.startswith s "/" = true) as Habs.
  { destruct Hs as [->|[_ ->]]; [apply isabs_render|apply isabs_trail]. }
  assert (Str.startswith s "//" = false) as H2.
  { destruct Hs as [->|[? ->]];
      [by apply render_not_startswith_2sep|by apply trail_not_startswith_2sep]. }
  assert (foldl (normpath_step 1) [] (Str.split_on "/" s) = q) as Hf.
  { destruct Hs as [->|[Hne ->]].
    - destruct (decide (q = [])) as [->|Hne]; [done|].
      rewrite split_on_render by done. cbn [foldl].
      by rewrite foldl_normpath_step.
    - rewrite split_on_trail by done. cbn [foldl].
      rewrite foldl_app.
      change (normpath_step 1 [] EmptyString) with (@nil string).
      by rewrite (foldl_normpath_step [] q). }
  destruct s as [|c s]; [done|]. rewrite Habs, H2. cbn [andb].
  rewrite Hf. cbn [replicate Str.join]. by destruct q.
Qed.

Lemma abspath_spelled cwd q s :
  normal q → spelled q s → abspath cwd s = render q.
Proof.
  intros Hq Hs. unfold abspath.
  assert (isabs s = true) as ->.
  { destruct Hs as [->|[_ ->]]; [apply isabs_render|apply isabs_trail]. }
  by apply normpath_spelled.
Qed.

Lemma split_on_render_parts q :
  normal q →
  filter (λ x : string, x ≠ EmptyString) (Str.split_on "/" (render q)) = q.
Proof.
  intros Hq. destruct (decide (q = [])) as [->|Hne]; [done|].
  rewrite split_on_render by done.
  rewrite filter_cons_False by naive_solver. by apply filter_nonempty_normal.
Qed.

Lemma common_prefix_app a r : common_prefix a (a ++ r) = a.
Proof.
  induction a as [|x a IH]; [by destruct r|]. cbn.
  by rewrite bool_decide_true, IH.
Qed.

Lemma foldl_join_names (x : string) l :
  normal l → x ≠ EmptyString → Str.endswith x "/" = false →
  foldl join x l = Str.join "/" (x :: l).
Proof.
  intros Hl. revert x. induction Hl as [|m l Hm Hl IH]; intros x Hx Hex; [done|].
  cbn [foldl].
  assert (join x m = x +:+ "/" +:+ m) as ->.
  { unfold join, sep.
    rewrite (startswith_sep_free m) by by apply valid_name_sep_free.
    rewrite Hex. by destruct x. }
  rewrite IH.
  - destruct l; cbn; by rewrite ?str_app_assoc.
  - by destruct x.
  - rewrite <-str_app_assoc. apply endswith_sep_app_free;
      [by apply valid_name_sep_free|by apply valid_name_nonempty].
Qed.

Lemma join_all_names r :
  normal r → r ≠ [] → join_all r = Str.join "/" r.
Proof.
  intros Hr Hne. destruct r as [|n r]; [done|]. cbn [join_all].
  apply Forall_cons in Hr as [Hn Hr]. apply foldl_join_names; [done| |].
  - by apply valid_name_nonempty.
  - apply (endswith_sep_app_free EmptyString);
      [by apply valid_name_sep_free|by apply valid_name_nonempty].
Qed.

(** [os.path.relpath] of a path below its start. *)
Lemma relpath_spelled cwd a r s s' :
  normal (a ++ r) → r ≠ [] → spelled (a ++ r) s → spelled a s' →
  relpath cwd s s' = Ok (Str.join "/" r).
Proof.
  intros [Ha Hr]%normal_app Hne Hs Hs'. unfold relpath.
  assert (s ≠ EmptyString) as Hsne.
  { destruct Hs as [->|[_ ->]]; [apply render_nonempty|].
    intros [? _]%str_app_eq_empty. by eapply render_nonempty. }
  rewrite (abspath_spelled cwd (a ++ r) s) by (done || by apply normal_app).
  rewrite (abspath_spelled cwd a s') by done.
  destruct s as [|c s]; [done|].
  rewrite !split_on_render_parts by (done || by apply normal_app).
  rewrite common_prefix_app, Nat.sub_diag, drop_app_length. cbn [replicate app].
  destruct r as [|n r]; [done|]. by rewrite join_all_names.
Qed.

(** [_get_file_root] of a path below the prefix. *)
Lemma get_file_root_spelled e c r s :
  normal (e ++ c :: r) → e ≠ [] → spelled (e ++ c :: r) s →
  Uninstallers._get_file_root s (render e)
  = Some (match r with
          | [] => render e +:+ "/"
          | _ => render (e ++ [c])
          end).
Proof.
  intros Hn Hne Hs. pose proof Hn as [He Hcr]%normal_app.
  unfold Uninstallers._get_file_root, PurePath.relative_to.
  rewrite (parse_spelled (e ++ c :: r) s), parse_render by done.
  rewrite bool_decide_true by done.
  rewrite bool_decide_true by by apply prefix_app_r.
  cbn [andb]. rewrite drop_app_length. f_equal. unfold normcase.
  apply Forall_cons in Hcr as [Hc Hr].
  destruct r as [|m r].
  - rewrite join_rel by (by vm_compute). unfold sep.
    rewrite render_not_endswith_sep by done.
    pose proof (render_nonempty e). destruct (render e) eqn:Heq; [done|].
    by rewrite str_app_empty_r.
  - by apply join_render.
Qed.

End PathArithmetic.

(** * The tree during the stash step *)

Section StashTree.

Variables e t : list string.
Variable P : gset string.
Variable tr0 : gmap (list string) FS.inode.

Hypothesis tr0_wf : FS.wf tr0.
Hypothesis t_dir : tr0 !! t = Some FS.Dir.
Hypothesis e_not_in_t : ¬ e `prefix_of` t.

Implicit Types tr : gmap (list string) FS.inode.
Implicit Types k kd T r : list string.
Implicit Types x y : entry.

Lemma stash_tree_init : stash_tree e t P tr0 tr0 [] [].
Proof.
  split; try done.
  - by left.
  - by intros ?? ?%elem_of_nil.
  - by intros ? ?%elem_of_nil.
  - by intros ?? ?%elem_of_nil.
  - constructor.
  - constructor.
  - by intros ? ?%elem_of_nil.
  - by intros ? ?%elem_of_nil.
  - by intros ?? ?%elem_of_nil.
Qed.

Lemma prefix_app_same_length {A} (a b c d : list A) :
  length a = length b → a ++ c `prefix_of` b ++ d → a = b ∧ c `prefix_of` d.
Proof.
  intros Hlen [r Hr]. rewrite <-(assoc_L (++)) in Hr.
  apply app_inj_1 in Hr as [-> ->]; [|done]. split; [done|]. by exists r.
Qed.

Section Facts.

Context {tr : gmap (list string) FS.inode} {ents : list entry}
  {temps : list (list string * list string)}.
Hypothesis inv : stash_tree e t P tr0 tr ents temps.

Lemma st_temp_apart kd T k :
  (kd, T) ∈ temps → e `prefix_of` k → ¬ T `prefix_of` k.
Proof.
  intros Hin He HT. destruct (st_temps _ _ _ _ _ _ _ inv _ _ Hin)
    as (_ & _ & _ & H1 & H2).
  by destruct (prefix_weak_total _ _ _ HT He).
Qed.

Lemma st_origin_under x : x ∈ ents → e `prefix_of` origin x.
Proof.
  intros (kd & T & r & _ & _ & -> & _ & He)%(st_shape _ _ _ _ _ _ _ inv).
  by apply prefix_app_r.
Qed.

Lemma st_holding_temp x :
  x ∈ ents → ∃ kd T r, (kd, T) ∈ temps ∧ r ≠ [] ∧ holding x = T ++ r.
Proof.
  intros (kd & T & r & ? & ? & _ & ? & _)%(st_shape _ _ _ _ _ _ _ inv).
  by exists kd, T, r.
Qed.

Lemma st_temp_length kd T : (kd, T) ∈ temps → length T = S (length t).
Proof.
  intros Hin. destruct (st_temps _ _ _ _ _ _ _ inv _ _ Hin)
    as (_ & _ & [name ->] & _).
  rewrite length_app. cbn. lia.
Qed.

Lemma st_temp_key kd kd' T :
  (kd, T) ∈ temps → (kd', T) ∈ temps → kd = kd'.
Proof.
  intros H1 H2. pose proof (st_dirs _ _ _ _ _ _ _ inv) as Hnd.
  apply list_elem_of_lookup in H1 as [i Hi], H2 as [j Hj].
  assert (i = j) as ->.
  { eapply NoDup_lookup; [exact Hnd| |].
    - by rewrite list_lookup_fmap, Hi.
    - by rewrite list_lookup_fmap, Hj. }
  congruence.
Qed.

Lemma st_under_e k i : e `prefix_of` k → tr !! k = Some i → tr0 !! k = Some i.
Proof.
  intros He Hk.
  destruct (st_only _ _ _ _ _ _ _ inv _ _ Hk)
    as [?|[[_ Hin]|(x & Hx & Hor)]]; [done|..].
  - apply list_elem_of_fmap in Hin as ([kd T] & -> & Hin).
    by destruct (st_temp_apart kd T T Hin).
  - destruct (st_holding_temp x Hx) as (kd & T & r & Hin & _ & Heq).
    rewrite Heq in Hor. destruct Hor as [Hp|[_ Hp]].
    + destruct (st_temp_apart kd T k Hin He). etrans; [|exact Hp].
      by apply prefix_app_r.
    + destruct (st_temps _ _ _ _ _ _ _ inv _ _ Hin) as (_ & _ & _ & H1 & H2).
      assert (T `prefix_of` T ++ r) as HT by by apply prefix_app_r.
      destruct (prefix_weak_total _ _ _ Hp HT) as [Hk'|Hk'].
      * destruct H2. by etrans.
      * by destruct (st_temp_apart kd T k Hin).
Qed.

Lemma st_t_dir : tr !! t = Some FS.Dir.
Proof.
  apply (st_kept _ _ _ _ _ _ _ inv); [done|].
  intros x Hx Hp. apply e_not_in_t. etrans; [|exact Hp].
  by apply st_origin_under.
Qed.

(** The holding places are as far apart as the origins. *)
Lemma st_holding_apart kd T r x :
  (kd, T) ∈ temps → x ∈ ents →
  (T ++ r `prefix_of` holding x → kd ++ r `prefix_of` origin x) ∧
  (holding x `prefix_of` T ++ r → origin x `prefix_of` kd ++ r).
Proof.
  intros Hin Hx.
  destruct (st_shape _ _ _ _ _ _ _ inv x Hx)
    as (kd' & T' & r' & Hin' & _ & -> & -> & _).
  pose proof (st_temp_length _ _ Hin). pose proof (st_temp_length _ _ Hin').
  split.
  - intros [-> Hp]%prefix_app_same_length; [|congruence].
    rewrite (st_temp_key kd kd' T') by done. by apply prefix_app.
  - intros [-> Hp]%prefix_app_same_length; [|congruence].
    rewrite (st_temp_key kd kd' T) by done. by apply prefix_app.
Qed.

End Facts.

(** A new temporary directory. *)
Lemma stash_tree_mkdtemp tr ents temps kd name :
  stash_tree e t P tr0 tr ents temps →
  FS.valid_name name = true →
  tr !! (t ++ [name]) = None → tr0 !! (t ++ [name]) = None →
  kd ∉ temps.*1 → ¬ t ++ [name] `prefix_of` e →
  stash_tree e t P tr0 (<[t ++ [name] := FS.Dir]> tr) ents
    (temps ++ [(kd, t ++ [name])]).
Proof.
  intros inv Hname Hfree Hfree0 Hkey Hapart.
  set (T := t ++ [name]) in *.
  assert (∀ k, is_Some (tr0 !! k) → k ≠ T) as Hne0 by (intros k [??] ->; congruence).
  assert (∀ k, is_Some (tr !! k) → k ≠ T) as Hne by (intros k [??] ->; congruence).
  assert (¬ e `prefix_of` T) as He.
  { intros [r Hr]. destruct r as [|n r] using rev_ind.
    - rewrite app_nil_r in Hr. apply Hapart. by rewrite Hr.
    - rewrite (assoc_L (++)) in Hr. apply app_inj_tail in Hr as [-> _].
      apply e_not_in_t. by apply prefix_app_r. }
  split.
  - apply wf_insert_dir; [by destruct inv| |done]. by eapply st_t_dir.
  - intros k i Hk Hx. rewrite lookup_insert_ne by (apply not_eq_sym, Hne0; eauto).
    by apply (st_kept _ _ _ _ _ _ _ inv).
  - intros k i [[<- <-]|[Hkt Hk]]%lookup_insert_Some.
    + right; left. split; [done|]. rewrite fmap_app. set_solver.
    + destruct (st_only _ _ _ _ _ _ _ inv _ _ Hk) as [?|[[? ?]|?]];
        [by left| |by right; right].
      right; left. split; [done|]. rewrite fmap_app. set_solver.
  - intros x rest Hx.
    destruct (st_moved _ _ _ _ _ _ _ inv x rest Hx) as [H1 H2]. split.
    + rewrite lookup_insert_ne; [done|]. intros Heq.
      destruct (st_holding_temp inv x Hx) as (kd' & T' & r & Hin & Hr & Hh).
      rewrite Hh, <-(assoc_L (++)) in Heq.
      apply (f_equal length) in Heq. rewrite !length_app in Heq.
      pose proof (st_temp_length inv _ _ Hin). unfold T in Heq.
      rewrite length_app in Heq. destruct r; [done|]. cbn in Heq. lia.
    + rewrite lookup_insert_ne; [done|]. intros Heq. apply He.
      rewrite Heq. apply prefix_app_r. by eapply st_origin_under.
  - by destruct inv.
  - intros kd' T' [Hin|[= -> ->]%list_elem_of_singleton]%elem_of_app.
    + destruct (st_temps _ _ _ _ _ _ _ inv _ _ Hin) as (HT & ? & ? & ? & ?).
      split_and!; [|done..]. rewrite lookup_insert_ne; [done|].
      apply not_eq_sym, Hne. by eexists.
    + split_and!; [by rewrite lookup_insert_eq|done|by exists name|done..].
  - rewrite fmap_app. apply NoDup_app. split_and!.
    + by destruct inv.
    + intros k Hk Hk2. cbn in Hk2. by apply list_elem_of_singleton in Hk2 as ->.
    + apply NoDup_singleton.
  - rewrite fmap_app. apply NoDup_app. split_and!.
    + by destruct inv.
    + intros k Hk Hk2. cbn in Hk2. apply list_elem_of_singleton in Hk2 as ->.
      apply list_elem_of_fmap in Hk as ([kd' T'] & Heq & Hin). cbn in Heq.
      subst T'. destruct (st_temps _ _ _ _ _ _ _ inv _ _ Hin) as (HT & _).
      congruence.
    + apply NoDup_singleton.
  - intros x Hx.
    destruct (st_shape _ _ _ _ _ _ _ inv x Hx) as (kd' & T' & r & ? & ?).
    exists kd', T', r. split; [|done]. set_solver.
  - by destruct inv.
  - by destruct inv.
Qed.

(** The tree after a move of [ol] to [nl], by its nodes. *)
Lemma lookup_move_file tr ol nl d k :
  FS.wf tr → tr !! ol = Some (FS.File d) → (∀ r, tr !! (nl ++ r) = None) →
  ¬ ol `prefix_of` nl →
  <[nl := FS.File d]> (delete ol tr) !! k
  = if decide (nl `prefix_of` k) then tr !! (ol ++ drop (length nl) k)
    else if decide (ol `prefix_of` k) then None else tr !! k.
Proof.
  intros Hwf Hol Hfree Hapart.
  destruct (decide (nl `prefix_of` k)) as [[r ->]|Hnl].
  - rewrite drop_app_length. destruct (decide (r = [])) as [->|Hr].
    + by rewrite !app_nil_r, lookup_insert_eq.
    + rewrite lookup_insert_ne.
      2:{ intros Heq. apply Hr. apply (inj (app nl)). by rewrite app_nil_r. }
      rewrite lookup_delete_ne.
      2:{ intros ->. by rewrite Hfree in Hol. }
      rewrite Hfree. destruct (tr !! (ol ++ r)) as [i|] eqn:Hi; [|done].
      destruct Hr. eapply wf_file_leaf; [done..|by eexists].
  - rewrite lookup_insert_ne by (intros ->; by apply Hnl).
    destruct (decide (ol `prefix_of` k)) as [[r ->]|Hol'].
    + destruct (decide (r = [])) as [->|Hr].
      * by rewrite app_nil_r, lookup_delete_eq.
      * rewrite lookup_delete_ne.
        2:{ intros Heq. apply Hr. apply (inj (app ol)). by rewrite app_nil_r. }
        destruct (tr !! (ol ++ r)) as [i|] eqn:Hi; [|done].
        destruct Hr. eapply wf_file_leaf; [done..|by eexists].
    + rewrite lookup_delete_ne; [done|]. intros ->. by apply Hol'.
Qed.

Lemma wf_move_file tr ol p n d :
  FS.wf tr → tr !! ol = Some (FS.File d) → ol ≠ [] →
  tr !! p = Some FS.Dir → FS.valid_name n = true →
  (∀ r, tr !! (p ++ [n] ++ r) = None) → p ≠ ol →
  FS.wf (<[p ++ [n] := FS.File d]> (delete ol tr)).
Proof.
  intros Hwf Hol Hne Hp Hn Hfree Hpol.
  assert (FS.wf (delete ol tr)) as Hwf'.
  { apply wf_delete_leaf; [done..|]. intros m.
    destruct (tr !! (ol ++ [m])) as [i|] eqn:Hi; [|done].
    by pose proof (wf_file_leaf tr ol [m] d Hwf Hol (mk_is_Some _ _ Hi)). }
  apply wf_insert_file; [done| |done|].
  - by rewrite lookup_delete_ne.
  - intros m. apply lookup_delete_None. right. apply Hfree.
Qed.

Section Move.

Context {tr : gmap (list string) FS.inode} {ents : list entry}
  {temps : list (list string * list string)}.
Hypothesis inv : stash_tree e t P tr0 tr ents temps.

Variables kd T r : list string.
Hypothesis temp : (kd, T) ∈ temps.
Hypothesis r_ne : r ≠ [].
Hypothesis kd_under : e `prefix_of` kd.
Hypothesis apart : ∀ x,
  x ∈ ents → ¬ origin x `prefix_of` kd ++ r ∧ ¬ kd ++ r `prefix_of` origin x.

Lemma ol_under : e `prefix_of` kd ++ r.
Proof. by apply prefix_app_r. Qed.

(** What is to be moved is as it was. *)
Lemma stash_origin rest : tr !! ((kd ++ r) ++ rest) = tr0 !! ((kd ++ r) ++ rest).
Proof.
  destruct (tr0 !! ((kd ++ r) ++ rest)) as [i|] eqn:H0.
  - apply (st_kept _ _ _ _ _ _ _ inv); [done|]. intros x Hx Hp.
    destruct (apart x Hx) as [H1 H2].
    assert (kd ++ r `prefix_of` (kd ++ r) ++ rest) as Hq by by apply prefix_app_r.
    by destruct (prefix_weak_total _ _ _ Hp Hq).
  - destruct (tr !! ((kd ++ r) ++ rest)) as [i|] eqn:H1; [|done].
    apply (st_under_e inv) in H1; [congruence|].
    apply prefix_app_r, ol_under.
Qed.

(** The holding place is free. *)
Lemma stash_free rest : tr !! ((T ++ r) ++ rest) = None.
Proof.
  destruct (tr !! ((T ++ r) ++ rest)) as [i|] eqn:Hk; [|done]. exfalso.
  destruct (st_temps _ _ _ _ _ _ _ inv _ _ temp) as (_ & HT0 & _).
  assert (T `prefix_of` (T ++ r) ++ rest) as HT.
  { rewrite <-(assoc_L (++)). by apply prefix_app_r. }
  destruct (st_only _ _ _ _ _ _ _ inv _ _ Hk) as [H0|[[_ Hin]|(x & Hx & Hor)]].
  - destruct (wf_prefix_some tr0 T _ tr0_wf (mk_is_Some _ _ H0) HT). congruence.
  - apply list_elem_of_fmap in Hin as ([kd' T'] & Heq & Hin). cbn in Heq.
    apply (f_equal length) in Heq. rewrite !length_app in Heq.
    pose proof (st_temp_length inv _ _ temp).
    pose proof (st_temp_length inv _ _ Hin).
    destruct r; [done|]. cbn in Heq. lia.
  - destruct (apart x Hx) as [H1 H2].
    destruct (st_holding_apart inv kd T r x temp Hx) as [H3 H4].
    assert (T ++ r `prefix_of` (T ++ r) ++ rest) as Hq by by apply prefix_app_r.
    destruct Hor as [Hp|[_ Hp]].
    + destruct (prefix_weak_total _ _ _ Hp Hq); auto.
    + apply H2, H3. by etrans.
Qed.

(** No regular file is in the way of the holding place. *)
Lemma stash_no_file a d : a `prefix_of` T ++ r → tr !! a ≠ Some (FS.File d).
Proof.
  intros Ha Hk.
  destruct (st_temps _ _ _ _ _ _ _ inv _ _ temp) as (HT & HT0 & [name ->] & _).
  destruct (st_only _ _ _ _ _ _ _ inv _ _ Hk) as [H0|[[? _]|(x & Hx & Hor)]];
    [|done|].
  - assert (t ++ [name] `prefix_of` (t ++ [name]) ++ r) as Hq
      by by apply prefix_app_r.
    destruct (prefix_weak_total _ _ _ Ha Hq) as [Hp|Hp].
    + destruct Hp as [[|n s] Hs].
      * rewrite app_nil_r in Hs. congruence.
      * destruct (exists_last (l := n :: s)) as (s' & n' & Hs'); [done|].
        rewrite Hs', (assoc_L (++)) in Hs. apply app_inj_tail in Hs as [-> _].
        destruct (decide (s' = [])) as [->|Hne].
        { rewrite app_nil_r in t_dir. congruence. }
        rewrite (wf_prefix tr0 a s') in H0; [done..|by eexists|done].
    + destruct (wf_prefix_some tr0 _ _ tr0_wf (mk_is_Some _ _ H0) Hp). congruence.
  - destruct (apart x Hx) as [H1 H2].
    destruct (st_holding_apart inv kd (t ++ [name]) r x temp Hx) as [H3 H4].
    destruct Hor as [Hp|[? _]]; [|done]. apply H1, H4. by etrans.
Qed.

Lemma stash_tree_move tr1 tr' q dir :
  q `prefix_of` T ++ r →
  is_Some (tr0 !! (kd ++ r)) → FS.is_dir (tr0 !! (kd ++ r)) = dir →
  (if dir then ∀ p, file_under tr0 (kd ++ r) p → p ∈ P
   else render (kd ++ r) ∈ P) →
  grown q tr tr1 → FS.wf tr' →
  (∀ k, tr' !! k
        = if decide (T ++ r `prefix_of` k)
          then tr1 !! ((kd ++ r) ++ drop (length (T ++ r)) k)
          else if decide (kd ++ r `prefix_of` k) then None else tr1 !! k) →
  stash_tree e t P tr0 tr' (ents ++ [(dir, kd ++ r, T ++ r)]) temps.
Proof.
  intros Hq Hsome Hdir Hplan (Hwf1 & Hsub & Hnew) Hwf' Hlook.
  destruct (st_temps _ _ _ _ _ _ _ inv _ _ temp) as (HT & HT0 & [name HTn] & HTe & HeT).
  assert (∀ k, e `prefix_of` k → ¬ T `prefix_of` k) as Hapart'.
  { intros k. by apply (st_temp_apart inv kd). }
  assert (∀ k, T `prefix_of` k → ¬ kd ++ r `prefix_of` k) as Hol.
  { intros k HTk Hk. apply (Hapart' k); [|done]. etrans; [apply ol_under|done]. }
  (* nodes of [tr1] away from the directories made *)
  assert (∀ k, ¬ k `prefix_of` T ++ r → tr1 !! k = tr !! k) as Hsame.
  { intros k Hk. destruct (tr1 !! k) as [i|] eqn:H1.
    - destruct (Hnew _ _ H1) as [?|[_ Hp]]; [done|]. destruct Hk. by etrans.
    - destruct (tr !! k) as [i|] eqn:H2; [|done].
      by rewrite (lookup_weaken _ _ _ _ H2 Hsub) in H1. }
  assert (∀ k, e `prefix_of` k → tr1 !! k = tr !! k) as Hsame_e.
  { intros k He. apply Hsame. intros Hp.
    assert (T `prefix_of` T ++ r) as HTq by by apply prefix_app_r.
    destruct (prefix_weak_total _ _ _ Hp HTq) as [Hk|Hk].
    - apply HeT. by etrans.
    - by apply (Hapart' k). }
  assert (∀ x rest, x ∈ ents → ¬ holding x ++ rest `prefix_of` T ++ r) as Hhold.
  { intros x rest Hx Hp. destruct (apart x Hx) as [H1 H2].
    destruct (st_holding_apart inv kd T r x temp Hx) as [H3 H4].
    apply H1, H4. etrans; [|exact Hp]. by apply prefix_app_r. }
  split.
  - done.
  - intros k i Hk Hx. rewrite Hlook.
    rewrite decide_False.
    2:{ intros Hp. assert (T `prefix_of` k) as HTk.
        { etrans; [|exact Hp]. by apply prefix_app_r. }
        destruct (wf_prefix_some tr0 T k tr0_wf (mk_is_Some _ _ Hk) HTk).
        congruence. }
    rewrite decide_False.
    2:{ apply (Hx (dir, kd ++ r, T ++ r)). set_solver. }
    apply (lookup_weaken tr); [|done].
    apply (st_kept _ _ _ _ _ _ _ inv); [done|]. intros x Hin. apply Hx. set_solver.
  - intros k i. rewrite Hlook.
    destruct (decide (T ++ r `prefix_of` k)) as [Hp|Hp].
    { intros _. right; right. exists (dir, kd ++ r, T ++ r).
      split; [set_solver|by left]. }
    destruct (decide (kd ++ r `prefix_of` k)); [done|]. intros Hk.
    destruct (Hnew _ _ Hk) as [Hk'|[-> Hk']].
    + destruct (st_only _ _ _ _ _ _ _ inv _ _ Hk') as [?|[?|(x & ? & ?)]];
        [by left|by right; left|].
      right; right. exists x. split; [set_solver|done].
    + right; right. exists (dir, kd ++ r, T ++ r).
      split; [set_solver|right]. split; [done|]. cbn. by etrans.
  - intros x rest [Hx|Hx%list_elem_of_singleton]%elem_of_app.
    + destruct (st_moved _ _ _ _ _ _ _ inv x rest Hx) as [H1 H2].
      destruct (apart x Hx) as [H3 H4].
      destruct (st_holding_apart inv kd T r x temp Hx) as [H5 H6].
      destruct (st_holding_temp inv x Hx) as (kd' & T' & r' & Hin' & _ & Hh).
      assert (holding x `prefix_of` holding x ++ rest) as Hpx
        by by apply prefix_app_r.
      assert (origin x `prefix_of` origin x ++ rest) as Hpo
        by by apply prefix_app_r.
      split.
      * rewrite Hlook. rewrite decide_False.
        2:{ intros Hp. destruct (prefix_weak_total _ _ _ Hp Hpx); auto. }
        rewrite decide_False.
        2:{ intros Hp.
            apply (st_temp_apart inv kd' T' (holding x ++ rest) Hin').
            - etrans; [apply ol_under|done].
            - rewrite Hh, <-(assoc_L (++)). by apply prefix_app_r. }
        rewrite Hsame; [done|]. apply Hhold. done.
      * rewrite Hlook. rewrite decide_False.
        2:{ intros Hp. apply (Hapart' (origin x ++ rest)).
            - apply prefix_app_r. by eapply st_origin_under.
            - etrans; [|exact Hp]. by apply prefix_app_r. }
        destruct (decide _) as [Hp|Hp]; [done|].
        rewrite Hsame_e; [done|]. apply prefix_app_r. by eapply st_origin_under.
    + subst x. cbn [origin holding fst snd]. split.
      * rewrite Hlook. rewrite decide_True by by apply prefix_app_r.
        rewrite drop_app_length.
        rewrite Hsame_e by apply prefix_app_r, ol_under. apply stash_origin.
      * rewrite Hlook. rewrite decide_False.
        2:{ intros Hp. apply (Hol ((kd ++ r) ++ rest)); [|by apply prefix_app_r].
            etrans; [|exact Hp]. by apply prefix_app_r. }
        by rewrite decide_True by by apply prefix_app_r.
  - intros x [Hx|Hx%list_elem_of_singleton]%elem_of_app.
    + by apply (st_kind _ _ _ _ _ _ _ inv).
    + by subst x.
  - intros kd' T' Hin.
    destruct (st_temps _ _ _ _ _ _ _ inv _ _ Hin) as (HT' & ? & HTn' & ? & ?).
    split_and!; [|done..]. rewrite Hlook.
    pose proof (st_temp_length inv _ _ Hin) as Hl'.
    pose proof (st_temp_length inv _ _ temp) as Hl.
    rewrite decide_False.
    2:{ intros Hp%prefix_length. rewrite length_app in Hp.
        destruct r; [done|]. cbn in Hp. lia. }
    rewrite decide_False.
    2:{ intros Hp. apply (st_temp_apart inv kd' T' T' Hin); [|done].
        etrans; [apply ol_under|done]. }
    by apply (lookup_weaken tr).
  - by destruct inv.
  - by destruct inv.
  - intros x [Hx|Hx%list_elem_of_singleton]%elem_of_app.
    + by apply (st_shape _ _ _ _ _ _ _ inv).
    + subst x. by exists kd, T, r.
  - intros x [Hx|Hx%list_elem_of_singleton]%elem_of_app.
    + by apply (st_planned _ _ _ _ _ _ _ inv).
    + by subst x.
  - intros x y [Hx|Hx%list_elem_of_singleton]%elem_of_app
      [Hy|Hy%list_elem_of_singleton]%elem_of_app Hp.
    + by apply (st_apart _ _ _ _ _ _ _ inv).
    + subst y. by destruct (apart x Hx).
    + subst x. by destruct (apart y Hy).
    + by subst.
Qed.

(** A directory of a planned file holds something that stays. *)
Lemma stash_tree_children d :
  tr0 !! d = Some FS.Dir →
  ¬ (∀ p, file_under tr0 d p → p ∈ P) →
  FS.has_children tr d = true.
Proof.
  intros Hd Hnot. destruct (FS.has_children tr d) eqn:Hc; [done|].
  destruct Hnot. intros p (rest & data & Hne & Hfile & ->).
  destruct (decide (Exists (λ x, origin x `prefix_of` d ++ rest) ents))
    as [Hex|Hex].
  - apply Exists_exists in Hex as (x & Hx & Hp).
    pose proof (st_planned _ _ _ _ _ _ _ inv x Hx) as Hplan.
    destruct (st_kind _ _ _ _ _ _ _ inv x Hx) as [[i Hi] Hkind].
    destruct Hp as [s Hs]. rewrite Hs in Hfile.
    destruct (is_dir_entry x).
    + rewrite Hs. apply Hplan. exists s, data. split_and!; [|done..].
      intros ->. rewrite app_nil_r in Hfile. rewrite Hfile in Hkind. done.
    + destruct i as [data'|]; [|by rewrite Hi in Hkind].
      assert (s = []) as -> by (eapply wf_file_leaf; [done..|by eexists]).
      rewrite app_nil_r in Hs. by rewrite Hs.
  - apply not_Exists_Forall in Hex; [|apply _].
    assert (tr !! (d ++ rest) = Some (FS.File data)) as Hk.
    { apply (st_kept _ _ _ _ _ _ _ inv); [done|]. intros x Hx.
      by apply (proj1 (Forall_forall _ _) Hex). }
    rewrite (has_children_below tr d rest) in Hc;
      [done|by destruct inv|by eexists|done].
Qed.

End Move.

End StashTree.

(** * [renames] on normalised paths *)

Section Renames.

Import Uninstallers.

Implicit Types a b k pa pb : list string.

(** The first half of [renames]: the parent of the target is made when
    it is missing. *)
Lemma renames_parent fs pb (k : M FS.t unit) :
  FS.wf (FS.nodes fs) → normal pb →
  (∀ a d, a `prefix_of` pb → FS.nodes fs !! a ≠ Some (FS.File d)) →
  ∃ tr1,
    grown pb (FS.nodes fs) tr1 ∧ tr1 !! pb = Some FS.Dir ∧
    (FS.nodes fs !! pb = Some FS.Dir → tr1 = FS.nodes fs) ∧
    ∀ tail, tail ≠ EmptyString →
      (head_exists <- gets (λ fs, FS.exists_ fs (render pb)) ;;
       when (negb (bool_decide (render pb = EmptyString))
             && negb (bool_decide (tail = EmptyString)) && negb head_exists)
         (Os.makedirs (render pb)) ;;
       k) fs
      = k (FS.with_nodes fs tr1).
Proof.
  intros Hwf Hpb Hnf.
  destruct (FS.nodes fs !! pb) as [[d|]|] eqn:Hl.
  - by destruct (Hnf pb d).
  - exists (FS.nodes fs). split_and!; [by apply grown_refl|done..|].
    intros tail Htail. unfold bind, gets. rewrite exists_render by done.
    rewrite Hl, (bool_decide_true (is_Some _)) by by eexists.
    rewrite andb_false_r. cbn. by rewrite with_nodes_id.
  - destruct (makedirs_render fs pb Hwf Hpb Hl Hnf) as (tr1 & Hrun & Hg & Hd).
    exists tr1. split_and!; [done..| |].
    { intros ?. congruence. }
    intros tail Htail. unfold bind, gets. rewrite exists_render by done.
    rewrite Hl, (bool_decide_false (is_Some _)) by by intros [??].
    rewrite (bool_decide_false (render pb = EmptyString)) by apply render_nonempty.
    rewrite (bool_decide_false (tail = EmptyString)) by done.
    cbn [negb andb when]. by rewrite Hrun.
Qed.

Lemma grown_lookup q tr tr1 k :
  grown q tr tr1 → ¬ k `prefix_of` q → tr1 !! k = tr !! k.
Proof.
  intros (_ & Hsub & Hnew) Hk. destruct (tr1 !! k) as [i|] eqn:H1.
  - by destruct (Hnew _ _ H1) as [?|[_ ?]].
  - destruct (tr !! k) as [i|] eqn:H2; [|done].
    by rewrite (lookup_weaken _ _ _ _ H2 Hsub) in H1.
Qed.

(** A regular file is moved; the directories above where it was are
    pruned afterwards. *)
Lemma renames_file fs pa m pb n d :
  FS.wf (FS.nodes fs) → normal (pa ++ [m]) → normal (pb ++ [n]) →
  FS.nodes fs !! (pa ++ [m]) = Some (FS.File d) →
  (∀ rest, FS.nodes fs !! ((pb ++ [n]) ++ rest) = None) →
  (∀ a d, a `prefix_of` pb → FS.nodes fs !! a ≠ Some (FS.File d)) →
  ∃ tr1,
    grown pb (FS.nodes fs) tr1 ∧ tr1 !! pb = Some FS.Dir ∧
    (FS.nodes fs !! pb = Some FS.Dir → tr1 = FS.nodes fs) ∧
    renames (render (pa ++ [m])) (render (pb ++ [n])) fs
    = try_except (Os.removedirs (render pa)) is_OSError (ret tt)
        (FS.with_nodes fs (<[pb ++ [n] := FS.File d]> (delete (pa ++ [m]) tr1))).
Proof.
  intros Hwf Ha Hb Hfile Hfree Hnf.
  pose proof Ha as [Hpa Hm]%normal_snoc. pose proof Hb as [Hpb Hn]%normal_snoc.
  destruct (renames_parent fs pb
              (Os.move (render (pa ++ [m])) (render (pb ++ [n])) ;;
               let '(head, tail) := PosixPath.split (render (pa ++ [m])) in
               when (negb (bool_decide (head = EmptyString))
                     && negb (bool_decide (tail = EmptyString)))
                 (try_except (Os.removedirs head) is_OSError (ret tt)))
              Hwf Hpb Hnf) as (tr1 & Hg & Hd & Hsame & Hrun).
  exists tr1. split_and!; [done..|].
  unfold renames. rewrite split_render_snoc by done.
  rewrite (Hrun n) by by apply valid_name_nonempty.
  assert (pa ++ [m] ≠ pb ++ [n]) as Hne.
  { intros Heq. specialize (Hfree []). rewrite app_nil_r, <-Heq in Hfree.
    congruence. }
  assert (¬ pa ++ [m] `prefix_of` pb) as Hnp.
  { intros Hp. destruct (Hnf (pa ++ [m]) d Hp Hfile). }
  assert (¬ pb ++ [n] `prefix_of` pb) as Hnp' by apply prefix_snoc_not.
  unfold bind at 1.
  rewrite (move_render_file (FS.with_nodes fs tr1) (pa ++ [m]) (pb ++ [n]) d);
    [|by destruct Hg|done|by destruct pb|..|done].
  - rewrite split_render_snoc by done.
    rewrite (bool_decide_false (render pa = EmptyString)) by apply render_nonempty.
    rewrite (bool_decide_false (m = EmptyString)) by by apply valid_name_nonempty.
    done.
  - cbn. by rewrite (grown_lookup pb _ _ _ Hg).
  - cbn. rewrite (grown_lookup pb _ _ _ Hg) by done.
    specialize (Hfree []). by rewrite app_nil_r in Hfree.
  - cbn. apply wf_reachable_child; [by destruct Hg|done].
Qed.

(** A directory, named by its wildcard, is moved to a holding place. *)
Lemma renames_stash_dir fs a pb n :
  FS.wf (FS.nodes fs) → normal a → a ≠ [] → normal (pb ++ [n]) →
  FS.nodes fs !! a = Some FS.Dir →
  (∀ rest, FS.nodes fs !! ((pb ++ [n]) ++ rest) = None) →
  (∀ k d, k `prefix_of` pb → FS.nodes fs !! k ≠ Some (FS.File d)) →
  ¬ a `prefix_of` pb ++ [n] →
  ∃ tr1,
    grown pb (FS.nodes fs) tr1 ∧ tr1 !! pb = Some FS.Dir ∧
    renames (render a +:+ "/") (render (pb ++ [n])) fs
    = (Ok tt, FS.with_nodes fs (FS.move_tree tr1 a (pb ++ [n]))).
Proof.
  intros Hwf Ha Hane Hb Hdir Hfree Hnf Hnp.
  pose proof Hb as [Hpb Hn]%normal_snoc.
  destruct (renames_parent fs pb
              (Os.move (render a +:+ "/") (render (pb ++ [n])) ;;
               let '(head, tail) := PosixPath.split (render a +:+ "/") in
               when (negb (bool_decide (head = EmptyString))
                     && negb (bool_decide (tail = EmptyString)))
                 (try_except (Os.removedirs head) is_OSError (ret tt)))
              Hwf Hpb Hnf) as (tr1 & Hg & Hd & Hsame & Hrun).
  exists tr1. split_and!; [done..|].
  unfold renames. rewrite split_render_snoc by done.
  rewrite (Hrun n) by by apply valid_name_nonempty.
  assert (¬ a `prefix_of` pb) as Hnp'.
  { intros Hp. apply Hnp. by apply prefix_app_r. }
  unfold bind at 1.
  rewrite (move_render_dir (FS.with_nodes fs tr1) a (pb ++ [n])
             (render a +:+ "/") (render (pb ++ [n])));
    [|by destruct Hg|done|done|by destruct pb|by right|by left|..|done].
  - rewrite split_trail by done. by rewrite andb_false_r.
  - cbn. by rewrite (grown_lookup pb _ _ _ Hg).
  - cbn. rewrite (grown_lookup pb _ _ _ Hg) by apply prefix_snoc_not.
    specialize (Hfree []). by rewrite app_nil_r in Hfree.
  - cbn. apply wf_reachable_child; [by destruct Hg|done].
Qed.

(** A directory is moved back from its holding place. *)
Lemma renames_restore_dir fs pa m b :
  FS.wf (FS.nodes fs) → normal (pa ++ [m]) → normal b → b ≠ [] →
  FS.nodes fs !! (pa ++ [m]) = Some FS.Dir →
  FS.nodes fs !! b = None → reachable (FS.nodes fs) b →
  ¬ pa ++ [m] `prefix_of` b →
  renames (render (pa ++ [m])) (render b +:+ "/") fs
  = try_except (Os.removedirs (render pa)) is_OSError (ret tt)
      (FS.with_nodes fs (FS.move_tree (FS.nodes fs) (pa ++ [m]) b)).
Proof.
  intros Hwf Ha Hb Hbne Hdir Hnone Hr Hnp.
  pose proof Ha as [Hpa Hm]%normal_snoc.
  unfold renames. rewrite split_trail by done.
  unfold bind at 1, gets at 1. rewrite andb_false_r. cbn [negb andb when].
  unfold bind at 1, ret at 1. unfold bind at 1.
  rewrite (move_render_dir fs (pa ++ [m]) b (render (pa ++ [m]))
             (render b +:+ "/"));
    [|done|done|done|done|by left|by right|done|done|done|done].
  rewrite split_render_snoc by done.
  rewrite (bool_decide_false (render pa = EmptyString)) by apply render_nonempty.
  rewrite (bool_decide_false (m = EmptyString)) by by apply valid_name_nonempty.
  done.
Qed.

End Renames.

(** * The stash step *)

Section Runs.

Import Uninstallers.

Lemma probe_run {A} (f : FS.t → A) s : probe f s = (Ok (f (fs (w s))), s).
Proof. done. Qed.

Lemma field_run {A} (f : StashedRemovePaths → A) s :
  field f s = (Ok (f (self s)), s).
Proof. done. Qed.

Lemma update_run f s : update f s = (Ok tt, {| w := w s; self := f (self s) |}).
Proof. done. Qed.

Lemma sys_run {A} (m : M FS.t A) s r f' :
  m (fs (w s)) = (r, f') → sys m s = (r, on_fs s f').
Proof. unfold sys, in_world, os, zoom. by intros ->. Qed.

Lemma log_run level msg s :
  in_world (logger level msg) s
  = (Ok tt, {| w := add_log level msg (w s); self := self s |}).
Proof. done. Qed.

Lemma getitem_run {S} (d : gmap string string) key v (s : S) :
  d !! key = Some v → getitem d key s = (Ok v, s).
Proof. unfold getitem. by intros ->. Qed.

End Runs.

Section Names.

Lemma str_app_inj_l s t t' : s +:+ t = s +:+ t' → t = t'.
Proof.
  induction s as [|c s IH]; [done|]. rewrite !str_app_cons.
  intros [= ?]. by apply IH.
Qed.

Lemma tmpname_inj r r' : tmpname r = tmpname r' → r = r'.
Proof.
  unfold tmpname. intros H. apply str_app_inj_l in H.
  by apply str_app_inj_r in H.
Qed.

Lemma endswith_trail_pyc s : Str.endswith (s +:+ "/") ".pyc" = false.
Proof.
  induction s as [|c s IH]; [done|].
  rewrite str_app_cons. cbn [Str.endswith]. rewrite IH.
  rewrite bool_decide_false; [done|].
  intros [= _ Heq].
  destruct s as [|? [|? [|? s]]]; rewrite ?str_app_cons in Heq; simplify_eq.
  by destruct s.
Qed.

Lemma key_of_inj e kd kd' :
  normal e → e ≠ [] → normal kd → normal kd' →
  key_of e kd = key_of e kd' → kd = kd'.
Proof.
  intros He Hne Hkd Hkd'. unfold key_of.
  assert (∀ k, normal k → k ≠ e → render e +:+ "/" ≠ render k) as Hdiff.
  { intros k Hk Hke Heq. destruct (decide (k = [])) as [->|Hkne].
    - apply (f_equal String.length) in Heq. rewrite str_app_length in Heq.
      cbn in Heq. pose proof (render_length_lt [] e He Hne) as Hlt.
      cbn in Hlt. lia.
    - pose proof (render_not_endswith_sep k Hk Hkne) as Hend.
      by rewrite <-Heq, endswith_app in Hend. }
  destruct (decide (kd = e)) as [->|H1], (decide (kd' = e)) as [->|H2];
    [done|intros Heq..].
  - by destruct (Hdiff kd').
  - symmetry in Heq. by destruct (Hdiff kd).
  - by apply render_inj.
Qed.

Lemma spelled_key e kd :
  e ≠ [] → spelled kd (key_of e kd).
Proof.
  intros Hne. unfold key_of. destruct (decide (kd = e)) as [->|]; [by right|by left].
Qed.

End Names.

Section StashStep.

Import Uninstallers.

Variables e t : list string.
Variable P : gset string.
Variable tr0 : gmap (list string) FS.inode.

Hypothesis tr0_wf : FS.wf tr0.
Hypothesis t_dir : tr0 !! t = Some FS.Dir.
Hypothesis e_not_in_t : ¬ e `prefix_of` t.
Hypothesis e_normal : normal e.

Implicit Types s : state.
Implicit Types ents : list entry.
Implicit Types temps : list (list string * list string).

Lemma e_nonempty : e ≠ [].
Proof. intros ->. apply e_not_in_t, prefix_nil. Qed.

Lemma t_normal : normal t.
Proof. apply (wf_normal tr0); [done|by eexists]. Qed.

(** The state matters through its file system, its names and the
    record. *)
Lemma stashing_ext s s' ents temps :
  stashing e t P tr0 s ents temps →
  tmpdir (w s') = tmpdir (w s) → rand (w s') = rand (w s) →
  fs (w s') = fs (w s) →
  envrionment (self s') = envrionment (self s) →
  _tempdirs (self s') = _tempdirs (self s) →
  _stashed (self s') = _stashed (self s) →
  stashing e t P tr0 s' ents temps.
Proof.
  intros [] H1 H2 H3 H4 H5 H6. split; rewrite ?H1, ?H2, ?H3, ?H4, ?H5, ?H6; done.
Qed.

Lemma find_tempdir temps kd T :
  (∀ kd T, (kd, T) ∈ temps → normal kd ∧ e `prefix_of` kd) →
  NoDup temps.*1 → (kd, T) ∈ temps →
  ∃ i, list_find (λ kv : string * string, kv.1 = key_of e kd)
         (tempdir_of e <$> temps)
       = Some (i, (key_of e kd, render T)).
Proof.
  intros Hkeys Hnd Hin.
  destruct (list_find (λ kv : string * string, kv.1 = key_of e kd)
              (tempdir_of e <$> temps)) as [[i [key name]]|] eqn:Hf.
  - exists i. apply list_find_Some in Hf as (Hi & Hkey & _). cbn in Hkey.
    subst key. rewrite list_lookup_fmap in Hi.
    destruct (temps !! i) as [[kd' T']|] eqn:Hi'; [|done].
    injection Hi as Hk <-. unfold tempdir_of in Hk. cbn in Hk.
    apply list_elem_of_lookup_2 in Hi' as Hin'.
    apply key_of_inj in Hk as ->;
      [|done|apply e_nonempty|by apply (Hkeys kd' T')|by apply (Hkeys kd T)].
    apply list_elem_of_lookup in Hin as [j Hj].
    assert (i = j) as ->.
    { eapply NoDup_lookup; [exact Hnd| |].
      - by rewrite list_lookup_fmap, Hi'.
      - by rewrite list_lookup_fmap, Hj. }
    congruence.
  - apply list_find_None in Hf. exfalso.
    apply (proj1 (Forall_forall _ _) Hf (tempdir_of e (kd, T))); [|done].
    apply list_elem_of_fmap. by exists (kd, T).
Qed.

Lemma find_no_tempdir temps kd :
  (∀ kd T, (kd, T) ∈ temps → normal kd ∧ e `prefix_of` kd) →
  normal kd → kd ∉ temps.*1 →
  list_find (λ kv : string * string, kv.1 = key_of e kd)
    (tempdir_of e <$> temps) = None.
Proof.
  intros Hkeys Hkd Hnot. apply list_find_None, Forall_forall.
  intros kv ([kd' T'] & -> & Hin)%list_elem_of_fmap Heq. cbn in Heq.
  apply key_of_inj in Heq as ->;
    [|done|apply e_nonempty|by apply (Hkeys kd' T')|done].
  apply Hnot. apply list_elem_of_fmap. by exists (kd, T').
Qed.

(** A temporary directory is made with the first name at hand. *)
Lemma mkdtemp_run s ents temps r0 rest :
  stashing e t P tr0 s ents temps → rand (w s) = r0 :: rest →
  in_world (Tempfile.TemporaryDirectory "-uninstall" "pdm-") s
  = (Ok (render (t ++ [tmpname r0])),
     {| w := set_fs (set_rand rest (w s))
               (FS.with_nodes (fs (w s))
                  (<[t ++ [tmpname r0] := FS.Dir]> (FS.nodes (fs (w s)))));
        self := self s |}).
Proof.
  intros inv Hrand.
  destruct (sg_fresh _ _ _ _ _ _ _ inv r0) as (Hname & _ & Hfree).
  { rewrite Hrand. left. }
  assert (FS.nodes (fs (w s)) !! t = Some FS.Dir) as Htd.
  { eapply st_t_dir; [done..|by destruct inv]. }
  unfold in_world, zoom, Tempfile.TemporaryDirectory, bind, gets.
  rewrite Hrand, (sg_tmpdir _ _ _ _ _ _ _ inv). cbn [Tempfile.mkdtemp_go].
  unfold bind, modify, try_except, os, zoom. cbn [fs set_rand].
  change ("pdm-" +:+ r0 +:+ "-uninstall") with (tmpname r0).
  rewrite join_render by (done || apply t_normal).
  rewrite mkdir_render; [done|by destruct inv as [_ _ _ _ []]| |done..].
  apply normal_snoc. split; [apply t_normal|done].
Qed.

(** The state after an entry has been moved to its place. *)
Lemma stash_moved s ents temps x dir kd r T q tr1 tr' :
  stashing e t P tr0 s ents temps →
  (kd, T) ∈ temps → r ≠ [] →
  stashable tr0 x dir (kd ++ r) →
  (if dir then ∀ p, file_under tr0 (kd ++ r) p → p ∈ P
   else render (kd ++ r) ∈ P) →
  (∀ y, y ∈ ents →
        ¬ origin y `prefix_of` kd ++ r ∧ ¬ kd ++ r `prefix_of` origin y) →
  q `prefix_of` T ++ r →
  grown q (FS.nodes (fs (w s))) tr1 → FS.wf tr' →
  (∀ k, tr' !! k =
        if decide (T ++ r `prefix_of` k) is left _
        then tr1 !! ((kd ++ r) ++ drop (length (T ++ r)) k)
        else if decide (kd ++ r `prefix_of` k) is left _ then None
             else tr1 !! k) →
  stashing e t P tr0
    {| w := set_fs (w s) (FS.with_nodes (fs (w s)) tr');
       self := set_stashed (_stashed (self s) ++ [(x, render (T ++ r))])
                 (self s) |}
    (ents ++ [(dir, kd ++ r, T ++ r)]) temps.
Proof.
  intros inv Htemp Hr Hst Hplan Hapart Hq Hg Hwf' Hlook.
  pose proof (sg_tree _ _ _ _ _ _ _ inv) as Htree.
  destruct (sg_keys _ _ _ _ _ _ _ inv kd T Htemp) as [Hkd Hunder].
  destruct (st_temps _ _ _ _ _ _ _ Htree _ _ Htemp)
    as (HT & HT0 & [name HTn] & HTe & HeT).
  split; cbn.
  - by destruct inv.
  - by destruct inv.
  - by destruct inv.
  - rewrite fmap_app, (sg_stashed _ _ _ _ _ _ _ inv). f_equal. cbn.
    unfold stashed_of, old_of. cbn.
    by destruct Hst as [(-> & -> & _)|(-> & -> & _)].
  - eapply (stash_tree_move e t P tr0 tr0_wf t_dir e_not_in_t Htree kd T r
              Htemp Hr Hunder Hapart tr1 tr' q dir); try done.
    + destruct Hst as [(_ & _ & d & ->)|(_ & _ & ->)]; by eexists.
    + by destruct Hst as [(-> & _ & d & ->)|(-> & _ & ->)].
  - by destruct inv.
  - by destruct inv.
  - intros r0 Hr0.
    destruct (sg_fresh _ _ _ _ _ _ _ inv r0 Hr0) as (Hv & Hf0 & Hf).
    split_and!; [done..|]. rewrite Hlook.
    destruct (decide (T ++ r `prefix_of` t ++ [tmpname r0])) as [Hp|_].
    { apply prefix_length in Hp. rewrite HTn, !length_app in Hp. cbn in Hp.
      destruct r; [done|cbn in Hp; lia]. }
    destruct (decide _) as [|_]; [done|].
    destruct (tr1 !! (t ++ [tmpname r0])) as [i|] eqn:Hi; [|done].
    destruct Hg as (_ & _ & Hg). apply Hg in Hi as [Hi|[_ Hk]]; [congruence|].
    assert (t ++ [tmpname r0] `prefix_of` T ++ r) as Hk' by by etrans.
    destruct (prefix_weak_total _ _ _ Hk' (prefix_app_r T T r (reflexivity _)))
      as [Hp|Hp]; apply prefix_length_eq in Hp;
      rewrite ?HTn, ?length_app; cbn; try lia; congruence.
Qed.

(** The second half of the body of the loop: the entry is moved to its
    place under the temporary directory [T] of its key, and recorded. *)
Lemma stash_move s ents temps x dir kd r T :
  stashing e t P tr0 s ents temps →
  (kd, T) ∈ temps → r ≠ [] →
  stashable tr0 x dir (kd ++ r) →
  granted tr0 e P dir (kd ++ r) →
  (∀ y, y ∈ ents →
        ¬ origin y `prefix_of` kd ++ r ∧ ¬ kd ++ r `prefix_of` origin y) →
  ∃ s',
    (cwd <- probe Os.getcwd ;;
     match PosixPath.relpath cwd x (key_of e kd) with
     | Raise e => raise e
     | Ok rel =>
         let new_path := PosixPath.join (render T) rel in
         new_is_dir <- probe (λ fs, FS.isdir fs new_path) ;;
         when (dir && new_is_dir) (sys (Os.rmdir new_path)) ;;
         sys (renames x new_path) ;;
         stashed <- field _stashed ;;
         update (set_stashed (stashed ++ [(x, new_path)]))
     end) s = (Ok tt, s') ∧
    stashing e t P tr0 s' (ents ++ [(dir, kd ++ r, T ++ r)]) temps ∧
    rand (w s') = rand (w s).
Proof.
  intros inv Htemp Hr Hst (Hn & _ & Hplan) Hapart.
  pose proof (sg_tree _ _ _ _ _ _ _ inv) as Htree.
  pose proof (st_wf _ _ _ _ _ _ _ Htree) as Hwf.
  destruct (sg_keys _ _ _ _ _ _ _ inv kd T Htemp) as [Hkd Hunder].
  destruct (st_temps _ _ _ _ _ _ _ Htree _ _ Htemp)
    as (HT & HT0 & [name HTn] & HTe & HeT).
  pose proof Hn as [_ Hnr]%normal_app.
  assert (normal T) as HnT by (apply (wf_normal _ _ Hwf); by eexists).
  assert (normal (T ++ r)) as Hnl by by apply normal_app.
  assert (spelled (kd ++ r) x) as Hsp.
  { destruct Hst as [(_ & -> & _)|(_ & -> & _)]; [by left|right].
    split; [by destruct kd, r|done]. }
  set (tr := FS.nodes (fs (w s))) in *.
  pose proof (stash_origin e t P tr0 Htree kd r Hunder Hapart []) as Hol.
  rewrite !app_nil_r in Hol.
  pose proof (stash_free e t P tr0 tr0_wf Htree kd T r Htemp Hr Hapart) as Hfree.
  pose proof (stash_no_file e t P tr0 tr0_wf t_dir e_not_in_t Htree kd T r Htemp Hapart)
    as Hnofile.
  pose proof (Hfree []) as Hfree0. rewrite app_nil_r in Hfree0.
  assert (tr0 !! (kd ++ r) = tr !! (kd ++ r)) as Hol0 by done.
  destruct (exists_last Hr) as (r' & n & Er).
  assert (kd ++ r = (kd ++ r') ++ [n]) as Eol by by rewrite Er, (assoc_L (++)).
  assert (T ++ r = (T ++ r') ++ [n]) as Enl by by rewrite Er, (assoc_L (++)).
  assert (∀ a d, a `prefix_of` T ++ r' → tr !! a ≠ Some (FS.File d)) as Hnf.
  { intros a d Ha. apply Hnofile. rewrite Enl. by apply prefix_app_r. }
  assert (¬ kd ++ r `prefix_of` T ++ r) as Hnp.
  { intros Hp. apply (st_temp_apart e t P tr0 Htree kd T (T ++ r) Htemp).
    - etrans; [|exact Hp]. by apply prefix_app_r.
    - by apply prefix_app_r. }
  assert (¬ T ++ r `prefix_of` kd ++ r) as Hnp'.
  { intros Hp. apply (st_temp_apart e t P tr0 Htree kd T (kd ++ r) Htemp).
    - by apply prefix_app_r.
    - etrans; [|exact Hp]. by apply prefix_app_r. }
  assert (kd ++ r ≠ []) as Hne.
  { destruct kd; [|done]. apply prefix_nil_inv in Hunder.
    by destruct e_nonempty. }
  erewrite bind_run; [|apply probe_run].
  rewrite (relpath_spelled _ kd r x (key_of e kd));
    [|done|done|done|apply spelled_key, e_nonempty].
  cbv zeta. rewrite join_render_rel by done.
  erewrite bind_run; [|apply probe_run].
  rewrite isdir_render by done.
  fold tr. rewrite Hfree0. cbn [FS.is_dir]. rewrite andb_false_r.
  cbn [when]. erewrite bind_run; [|reflexivity].
  assert (∀ tr1 k, grown (T ++ r') tr tr1 → tr1 !! ((T ++ r) ++ k) = None)
    as Hfree1.
  { intros tr1 k Hg. rewrite (grown_lookup _ _ _ _ Hg); [done|].
    intros Hp%prefix_length. rewrite Enl, !length_app in Hp. cbn in Hp. lia. }
  destruct Hst as [(-> & -> & d & Hd)|(-> & -> & Hd)].
  - destruct Hplan as (HP & _ & HK).
    destruct (renames_file (fs (w s)) (kd ++ r') n (T ++ r') n d)
      as (tr1 & Hg & Htr1 & _ & Hren);
      [done|by rewrite <-Eol|by rewrite <-Enl|by rewrite <-Eol; etrans; [symmetry; exact Hol0|]
      |by intros rest; rewrite <-Enl|done|].
    rewrite <-Eol, <-Enl in Hren.
    set (tr' := <[T ++ r := FS.File d]> (delete (kd ++ r) tr1)) in *.
    assert (tr1 !! (kd ++ r) = Some (FS.File d)) as Hd1.
    { destruct Hg as (_ & Hsub & _).
      eapply lookup_weaken; [|exact Hsub]. by etrans; [symmetry; exact Hol0|]. }
    assert (FS.wf tr') as Hwf'.
    { unfold tr'. rewrite Enl. apply wf_move_file; try done.
      - by destruct Hg.
      - rewrite Enl in Hnl. by apply normal_snoc in Hnl as [_ ?].
      - intros rest. rewrite (assoc_L (++)), <-Enl. by apply Hfree1.
      - intros Heq. rewrite Heq in Htr1. congruence. }
    assert (∀ k, tr' !! k =
        if decide (T ++ r `prefix_of` k) is left _
        then tr1 !! ((kd ++ r) ++ drop (length (T ++ r)) k)
        else if decide (kd ++ r `prefix_of` k) is left _ then None
             else tr1 !! k) as Hlook.
    { intros k. apply lookup_move_file; try done; [by destruct Hg|].
      intros rest. by apply Hfree1. }
    assert (stashing e t P tr0
              {| w := set_fs (w s) (FS.with_nodes (fs (w s)) tr');
                 self := set_stashed
                           (_stashed (self s)
                            ++ [(render (kd ++ r), render (T ++ r))]) (self s) |}
              (ents ++ [(false, kd ++ r, T ++ r)]) temps) as inv'.
    { eapply (stash_moved s ents temps _ false kd r T (T ++ r') tr1 tr');
        try done.
      - left. eauto.
      - rewrite Enl. by apply prefix_app_r. }
    eexists. split_and!; [|exact inv'|reflexivity].
    assert (tr0 !! (kd ++ r') = Some FS.Dir) as Hpd.
    { apply (wf_prefix tr0 (kd ++ r') [n]); [done| |done].
      rewrite <-Eol, Hd. by eexists. }
    erewrite bind_run.
    2: { apply sys_run. rewrite Hren. apply removedirs_nonempty.
         - done.
         - rewrite Eol in Hn. by apply normal_snoc in Hn as [? _].
         - destruct kd; [|done]. apply prefix_nil_inv in Hunder.
           by destruct e_nonempty.
         - apply (st_kept _ _ _ _ _ _ _ (sg_tree _ _ _ _ _ _ _ inv')); [done|].
           intros y [Hy| ->%list_elem_of_singleton]%elem_of_app Hp.
           + apply (proj1 (Hapart y Hy)). etrans; [exact Hp|].
             rewrite Eol. by apply prefix_app_r.
           + cbn in Hp. apply prefix_length in Hp.
             rewrite Eol, length_app in Hp. cbn in Hp. lia.
         - apply (stash_tree_children e t P tr0 tr0_wf
                    (sg_tree _ _ _ _ _ _ _ inv')); [done|].
           by rewrite Eol, removelast_last in HK. }
    erewrite bind_run; [|apply field_run]. by rewrite update_run.
  - destruct (renames_stash_dir (fs (w s)) (kd ++ r) (T ++ r') n)
      as (tr1 & Hg & Htr1 & Hren);
      [done|done|done|by rewrite <-Enl|by etrans; [symmetry; exact Hol0|]
      |by intros rest; rewrite <-Enl|done|by rewrite <-Enl|].
    rewrite <-Enl in Hren.
    set (tr' := FS.move_tree tr1 (kd ++ r) (T ++ r)) in *.
    assert (tr1 !! (kd ++ r) = Some FS.Dir) as Hd1.
    { destruct Hg as (_ & Hsub & _).
      eapply lookup_weaken; [|exact Hsub]. by etrans; [symmetry; exact Hol0|]. }
    assert (FS.wf tr') as Hwf'.
    { unfold tr'. rewrite Enl. apply wf_move_tree; try done.
      - by destruct Hg.
      - by rewrite <-Enl.
      - by rewrite <-Enl.
      - rewrite Enl in Hnl. by apply normal_snoc in Hnl as [_ ?].
      - intros rest. rewrite (assoc_L (++)), <-Enl. by apply Hfree1. }
    assert (∀ k, tr' !! k =
        if decide (T ++ r `prefix_of` k) is left _
        then tr1 !! ((kd ++ r) ++ drop (length (T ++ r)) k)
        else if decide (kd ++ r `prefix_of` k) is left _ then None
             else tr1 !! k) as Hlook.
    { intros k. apply lookup_move_tree; [done|].
      intros rest. by apply Hfree1. }
    assert (stashing e t P tr0
              {| w := set_fs (w s) (FS.with_nodes (fs (w s)) tr');
                 self := set_stashed
                           (_stashed (self s)
                            ++ [(render (kd ++ r) +:+ "/", render (T ++ r))])
                           (self s) |}
              (ents ++ [(true, kd ++ r, T ++ r)]) temps) as inv'.
    { eapply (stash_moved s ents temps _ true kd r T (T ++ r') tr1 tr');
        try done.
      - right. eauto.
      - rewrite Enl. by apply prefix_app_r. }
    eexists. split_and!; [|exact inv'|reflexivity].
    erewrite bind_run; [|by apply sys_run].
    erewrite bind_run; [|apply field_run]. by rewrite update_run.
Qed.

(** The state after a temporary directory has been made for the key
    [kd]. *)
Lemma stashing_mkdtemp s ents temps kd r0 rest :
  stashing e t P tr0 s ents temps → rand (w s) = r0 :: rest →
  kd ∉ temps.*1 → normal kd → e `prefix_of` kd →
  is_Some (tr0 !! e) →
  stashing e t P tr0
    {| w := set_fs (set_rand rest (w s))
              (FS.with_nodes (fs (w s))
                 (<[t ++ [tmpname r0] := FS.Dir]> (FS.nodes (fs (w s)))));
       self := set_tempdirs
                 (_tempdirs (self s)
                  ++ [(key_of e kd, render (t ++ [tmpname r0]))]) (self s) |}
    ents (temps ++ [(kd, t ++ [tmpname r0])]).
Proof.
  intros inv Hrand Hkd Hn Hunder He.
  destruct (sg_fresh _ _ _ _ _ _ _ inv r0) as (Hname & Hf0 & Hf).
  { rewrite Hrand. left. }
  pose proof (sg_rand _ _ _ _ _ _ _ inv) as Hnd. rewrite Hrand in Hnd.
  apply NoDup_cons in Hnd as [Hr0 Hnd].
  split; cbn.
  - by destruct inv.
  - by destruct inv.
  - by rewrite fmap_app, (sg_tempdirs _ _ _ _ _ _ _ inv).
  - by destruct inv.
  - apply stash_tree_mkdtemp; try done; [by destruct inv|].
    intros Hp. destruct (wf_prefix_some tr0 _ e tr0_wf He Hp). congruence.
  - intros kd' T' [Hin|[= -> ->]%list_elem_of_singleton]%elem_of_app; [|done].
    by apply (sg_keys _ _ _ _ _ _ _ inv kd' T').
  - done.
  - intros r1 Hr1.
    destruct (sg_fresh _ _ _ _ _ _ _ inv r1) as (Hv1 & Hf1 & Hf1').
    { rewrite Hrand. by right. }
    split_and!; [done..|]. rewrite lookup_insert_ne; [done|].
    intros Heq%app_inv_head. apply (f_equal head) in Heq. cbn in Heq.
    apply (inj Some), tmpname_inj in Heq. by subst r1.
Qed.

(** What the stash step reads of an entry that it moves. *)
Lemma stashable_stat s ents temps x dir ol :
  stashing e t P tr0 s ents temps →
  stashable tr0 x dir ol → normal ol → ol ≠ [] → e `prefix_of` ol →
  (∀ y, y ∈ ents → ¬ origin y `prefix_of` ol ∧ ¬ ol `prefix_of` origin y) →
  FS.exists_ (fs (w s)) x = true ∧ FS.isdir (fs (w s)) x = dir.
Proof.
  intros inv Hst Hn Hne Hunder Hapart.
  pose proof (sg_tree _ _ _ _ _ _ _ inv) as Htree.
  pose proof (st_wf _ _ _ _ _ _ _ Htree) as Hwf.
  assert (FS.nodes (fs (w s)) !! ol = tr0 !! ol) as Hol.
  { pose proof (stash_origin e t P tr0 Htree ol [] Hunder) as Ho.
    rewrite !app_nil_r in Ho. specialize (Ho Hapart []).
    by rewrite !app_nil_r in Ho. }
  unfold FS.exists_, FS.isdir.
  destruct Hst as [(-> & -> & d & Hd)|(-> & -> & Hd)].
  - rewrite stat_render_wf by done. rewrite Hol, Hd.
    split; [by apply bool_decide_eq_true; eexists|done].
  - rewrite stat_trail by done. rewrite Hol, Hd. cbn [FS.is_dir].
    split; [by apply bool_decide_eq_true; eexists|done].
Qed.

(** The loop body on an entry that it moves.  It raises when the names
    for temporary directories have run out, and only then. *)
Lemma stash_one_stashable s ents temps x dir ol :
  stashing e t P tr0 s ents temps →
  stashable tr0 x dir ol → granted tr0 e P dir ol →
  (∀ y, y ∈ ents → ¬ origin y `prefix_of` ol ∧ ¬ ol `prefix_of` origin y) →
  ∃ res s',
    stash_one x s = (res, s') ∧
    match res with
    | Ok _ =>
        ∃ kd T r,
          ol = kd ++ r ∧
          (∀ c r', ol = e ++ c :: r' →
                   kd = match r' with [] => e | _ => e ++ [c] end) ∧
          (((kd, T) ∈ temps ∧
            stashing e t P tr0 s' (ents ++ [(dir, ol, T ++ r)]) temps)
           ∨ ∃ r0 rest,
               rand (w s) = r0 :: rest ∧
               T = t ++ [tmpname r0] ∧ kd ∉ temps.*1 ∧
               stashing e t P tr0 s' (ents ++ [(dir, ol, T ++ r)])
                 (temps ++ [(kd, T)])) ∧
          length (rand (w s)) ≤ S (length (rand (w s')))
    | Raise err =>
        err = FileExistsError ∧ rand (w s) = [] ∧ fs (w s') = fs (w s)
    end.
Proof.
  intros inv Hst Hgr Hapart.
  pose proof Hgr as (Hn & (c & r & Eol & Hrne) & Hplan).
  assert (e `prefix_of` ol) as Hunder by (rewrite Eol; by apply prefix_app_r).
  assert (ol ≠ []) as Hne by (rewrite Eol; by destruct e).
  destruct (stashable_stat s ents temps x dir ol inv Hst Hn Hne Hunder Hapart)
    as [Hex Hdir].
  assert (spelled ol x) as Hsp.
  { destruct Hst as [(_ & -> & _)|(_ & -> & _)]; [by left|by right]. }
  assert (Str.endswith x ".pyc" = false) as Hpyc.
  { destruct Hst as [(-> & -> & _)|(-> & -> & _)];
      [by destruct Hplan as (_ & ? & _)|apply endswith_trail_pyc]. }
  set (kd := match r with [] => e | _ => e ++ [c] end).
  set (rr := match r with [] => [c] | _ => r end).
  assert (ol = kd ++ rr) as Ekd.
  { rewrite Eol. unfold kd, rr. destruct r; [done|].
    by rewrite <-(assoc_L (++)). }
  assert (rr ≠ []) as Hrr by (unfold rr; by destruct r).
  assert (∀ c' r', ol = e ++ c' :: r' →
                   kd = match r' with [] => e | _ => e ++ [c'] end) as Hkd'.
  { intros c' r' Heq. rewrite Eol in Heq. apply app_inv_head in Heq.
    by injection Heq as <- <-. }
  assert (normal kd) as Hkd.
  { rewrite Ekd in Hn. by apply normal_app in Hn as [? _]. }
  assert (e `prefix_of` kd) as Hkde.
  { unfold kd. destruct r; [done|by apply prefix_app_r]. }
  assert (match r with
          | [] => render e +:+ "/"
          | _ => render (e ++ [c])
          end = key_of e kd) as Hkey.
  { unfold key_of, kd. destruct r as [|m r].
    - by rewrite decide_True.
    - rewrite decide_False; [done|]. intros Heq.
      apply (f_equal length) in Heq. rewrite length_app in Heq. cbn in Heq.
      lia. }
  assert (is_Some (tr0 !! e)) as He.
  { eapply wf_prefix_some; [done| |exact Hunder].
    destruct Hst as [(_ & _ & d & ->)|(_ & _ & ->)]; by eexists. }
  set (msg := "Removing " +:+ (if dir then "directory" else "file")
              +:+ " " +:+ x).
  set (s1 := {| w := add_log "debug" msg (w s); self := self s |}).
  assert (stashing e t P tr0 s1 ents temps) as inv1
    by by apply (stashing_ext s).
  assert (∀ k : M state unit, stash_one x s
    = (tempdirs <- field _tempdirs ;;
       new_root <-
         match list_find (λ kv : string * string, kv.1 = key_of e kd)
                 tempdirs with
         | Some (_, (_, name)) => ret name
         | None =>
             name <- in_world (Tempfile.TemporaryDirectory "-uninstall" "pdm-") ;;
             update (set_tempdirs (tempdirs ++ [(key_of e kd, name)])) ;;
             ret name
         end ;;
       cwd <- probe Os.getcwd ;;
       match PosixPath.relpath cwd x (key_of e kd) with
       | Raise e => raise e
       | Ok rel =>
           let new_path := PosixPath.join new_root rel in
           new_is_dir <- probe (λ fs, FS.isdir fs new_path) ;;
           when (dir && new_is_dir) (sys (Os.rmdir new_path)) ;;
           sys (renames x new_path) ;;
           stashed <- field _stashed ;;
           update (set_stashed (stashed ++ [(x, new_path)]))
       end) s1) as Hrun.
  { intros _. unfold stash_one.
    erewrite bind_run; [|apply probe_run]. rewrite Hex. cbn [negb].
    erewrite bind_run; [|apply probe_run]. rewrite Hdir.
    erewrite bind_run; [|apply log_run]. fold msg s1. rewrite Hpyc.
    cbn [when]. erewrite bind_run; [|reflexivity].
    erewrite bind_run; [|apply field_run].
    erewrite bind_run;
      [|apply getitem_run; exact (sg_prefix _ _ _ _ _ _ _ inv1)].
    erewrite bind_run; [|apply probe_run].
    rewrite (abspath_spelled _ e (render e)) by (done || by left).
    rewrite Eol in Hsp, Hn.
    rewrite (get_file_root_spelled e c r x Hn e_nonempty Hsp), Hkey.
    done. }
  rewrite (Hrun (ret tt)). clear Hrun.
  erewrite bind_run; [|apply field_run].
  rewrite (sg_tempdirs _ _ _ _ _ _ _ inv1).
  rewrite Ekd in Hst, Hgr, Hapart.
  destruct (decide (kd ∈ temps.*1)) as [Hin|Hnin].
  - apply list_elem_of_fmap in Hin as ([kd' T] & Hk & Hin). cbn in Hk.
    subst kd'.
    destruct (find_tempdir temps kd T (sg_keys _ _ _ _ _ _ _ inv1)
                (st_keys _ _ _ _ _ _ _ (sg_tree _ _ _ _ _ _ _ inv1)) Hin)
      as [i Hfind].
    rewrite Hfind. erewrite bind_run; [|reflexivity].
    destruct (stash_move s1 ents temps x dir kd rr T inv1 Hin Hrr Hst Hgr Hapart)
      as (s' & Hmove & inv' & Hrand').
    exists (Ok tt), s'. split; [exact Hmove|].
    exists kd, T, rr. split_and!; [done|exact Hkd'| |].
    + left. by rewrite Ekd.
    + rewrite Hrand'. cbn. lia.
  - rewrite (find_no_tempdir temps kd (sg_keys _ _ _ _ _ _ _ inv1)) by done.
    destruct (rand (w s)) as [|r0 rest] eqn:Hrand.
    + exists (Raise FileExistsError), s1. split; [|done].
      apply bind_raise, bind_raise.
      unfold in_world, zoom, Tempfile.TemporaryDirectory, bind, gets. cbn.
      rewrite Hrand. reflexivity.
    + assert (rand (w s1) = r0 :: rest) as Hrand1 by done.
      erewrite bind_run.
      2: { erewrite bind_run; [|by apply (mkdtemp_run s1 ents temps r0 rest)].
           erewrite bind_run; [|apply update_run]. reflexivity. }
      pose proof (stashing_mkdtemp s1 ents temps kd r0 rest inv1 Hrand1 Hnin
                    Hkd Hkde He) as inv2.
      match type of inv2 with stashing _ _ _ _ ?s2 _ _ =>
        set (st2 := s2) in * end.
      assert ((kd, t ++ [tmpname r0]) ∈ temps ++ [(kd, t ++ [tmpname r0])])
        as Hin by (apply elem_of_app; right; left).
      destruct (stash_move st2 ents _ x dir kd rr _ inv2 Hin Hrr Hst Hgr Hapart)
        as (s' & Hmove & inv' & Hrand').
      rewrite <-(sg_tempdirs _ _ _ _ _ _ _ inv1).
      exists (Ok tt), s'. split; [exact Hmove|].
      exists kd, (t ++ [tmpname r0]), rr. split_and!; [done|exact Hkd'| |].
      * right. exists r0, rest. by rewrite Ekd.
      * rewrite Hrand'. cbn. lia.
Qed.

End StashStep.

(** * Facts about a tree that are checked on its nodes *)

Section Checks.

Implicit Types tr : gmap (list string) FS.inode.

(** Nothing is below a name that is free. *)
Lemma free_below tr q :
  FS.wf tr → tr !! q = None → ∀ rest, tr !! (q ++ rest) = None.
Proof.
  intros Hwf Hq rest. destruct (tr !! (q ++ rest)) as [i|] eqn:Hi; [|done].
  assert (is_Some (tr !! q)) as [j Hj]; [|congruence].
  eapply wf_prefix_some; [done|by eexists|by apply prefix_app_r].
Qed.

(** No regular file is on the way to [q], [q] included. *)
Lemma no_file_along tr q :
  forallb (λ i, negb (FS.is_file (tr !! take i q))) (seq 0 (S (length q)))
  = true →
  ∀ a d, a `prefix_of` q → tr !! a ≠ Some (FS.File d).
Proof.
  intros Hall a d [k ->] Ha.
  apply Is_true_true, forallb_True in Hall.
  apply (proj1 (Forall_forall _ _)) with (x := length a) in Hall.
  - rewrite take_app_length, Ha in Hall. done.
  - apply elem_of_seq. rewrite length_app. lia.
Qed.

End Checks.

(** * The transactional remover *)

Section TransactionalRemover.

Import Uninstallers.

(** C5.  Rollback with an empty stash record returns without raising; the
    file system (the linkage registry file with it) and the instance are
    as before, and one error is logged. *)
Theorem rollback_before_stash (s : state) :
  _stashed (self s) = [] →
  ∃ s',
    rollback s = (Ok tt, s') ∧
    fs (w s') = fs (w s) ∧
    self s' = self s ∧
    referrers (w s') = referrers (w s) ∧
    log (w s') = log (w s) ++ [("error", "Can't rollback, not uninstalled yet")].
Proof.
  intros Hempty. eexists. split.
  - unfold rollback, bind, field, gets. rewrite Hempty. reflexivity.
  - done.
Qed.

Lemma rollback_before_stash_witness :
  _stashed (self (Examples.planned {["/env/lib/a.py"]} ∅)) = [] ∧
  ∃ s',
    rollback (Examples.planned {["/env/lib/a.py"]} ∅) = (Ok tt, s') ∧
    fs (w s') = fs (w (Examples.planned {["/env/lib/a.py"]} ∅)) ∧
    self s' = self (Examples.planned {["/env/lib/a.py"]} ∅) ∧
    referrers (w s') = referrers (w (Examples.planned {["/env/lib/a.py"]} ∅)) ∧
    log (w s') = log (w (Examples.planned {["/env/lib/a.py"]} ∅))
                 ++ [("error", "Can't rollback, not uninstalled yet")].
Proof.
  split; [reflexivity|].
  apply (rollback_before_stash (Examples.planned {["/env/lib/a.py"]} ∅)).
  reflexivity.
Defined.

(** C4, at a failing input.  The plan holds the byte-code cache
    [/env/lib/a.pyc], which lies under the prefix.  The stash step deletes
    it and then goes on to move it: [_stash_files] raises
    [FileNotFoundError], with nothing in the stash record. *)
Lemma stash_pyc_raises :
  let s := Examples.planned {["/env/lib/a.pyc"]} ∅ in
  let '(r, s') := _stash_files elements s in
  FS.exists_ (fs (w s)) "/env/lib/a.pyc" = true ∧
  r = Raise FileNotFoundError ∧
  FS.exists_ (fs (w s')) "/env/lib/a.pyc" = false ∧
  _stashed (self s') = [].
Proof. vm_compute. done. Qed.

(** With a module next to it in the plan, the module is stashed or not,
    by the order of the iteration, but the step raises all the same. *)
Lemma stash_pyc_raises_with_others :
  let s := Examples.planned {["/env/lib/a.pyc"; "/env/lib/a.py"]} ∅ in
  fst (_stash_files elements s) = Raise FileNotFoundError ∧
  fst (_stash_files (λ X, reverse (elements X)) s) = Raise FileNotFoundError.
Proof. vm_compute. done. Qed.

(** C1, as the spec has it, fails.  The plan holds one registry line and
    no file.  The stash step rewrites the registry file; rollback finds
    the stash record empty, logs the error and returns: the registry
    file keeps the rewritten bytes. *)
Lemma rollback_leaves_registry_rewritten :
  let s := Examples.planned ∅ {["/src/foo"]} in
  let '(r1, s1) := remove elements s in
  let '(r2, s2) := rollback s1 in
  r1 = Ok tt ∧ r2 = Ok tt ∧
  FS.read (fs (w s)) "/env/lib/easy-install.pth"
  = Ok ("/src/foo" +:+ Examples.LF +:+ "/src/bar" +:+ Examples.LF) ∧
  FS.read (fs (w s2)) "/env/lib/easy-install.pth"
  = Ok ("/src/bar" +:+ Examples.LF).
Proof. vm_compute. done. Qed.

End TransactionalRemover.

(** * What planning does to the state *)

Section StepsOf.

Context {S : Type} (R : S → S → Prop).
Hypothesis R_refl : ∀ s, R s s.
Hypothesis R_trans : ∀ s1 s2 s3, R s1 s2 → R s2 s3 → R s1 s3.

Lemma Steps_ret {A} (a : A) : Steps R (ret a).
Proof. intros s r s' [= <- <-]. apply R_refl. Qed.

Lemma Steps_raise {A} e : Steps R (raise e : M S A).
Proof. intros s r s' [= <- <-]. apply R_refl. Qed.

Lemma Steps_gets {A} (g : S → A) : Steps R (gets g).
Proof. intros s r s' [= <- <-]. apply R_refl. Qed.

Lemma Steps_bind {A B} (m : M S A) (k : A → M S B) :
  Steps R m → (∀ a, Steps R (k a)) → Steps R (bind m k).
Proof.
  intros Hm Hk s r s'. unfold bind.
  destruct (m s) as [[a|e] s1] eqn:Hms.
  - intros Hks. eapply R_trans; [by eapply Hm|by eapply Hk].
  - intros [= <- <-]. by eapply Hm.
Qed.

Lemma Steps_when (b : bool) (m : M S unit) : Steps R m → Steps R (when b m).
Proof. destruct b; [done|]. intros _. apply Steps_ret. Qed.

Lemma Steps_for_each {A} (l : list A) (body : A → M S unit) :
  (∀ x, x ∈ l → Steps R (body x)) → Steps R (for_each l body).
Proof.
  induction l as [|x l IH]; intros Hb; [apply Steps_ret|].
  cbn. apply Steps_bind; [apply Hb; left|].
  intros _. apply IH. intros y Hy. apply Hb. by right.
Qed.

End StepsOf.

Section Planning.

Import Uninstallers.

Implicit Types s : state.

Lemma plans_refl s : plans s s.
Proof. by repeat split. Qed.

Lemma plans_trans s1 s2 s3 : plans s1 s2 → plans s2 s3 → plans s1 s3.
Proof.
  unfold plans. intros H1 H2. destruct_and!.
  split_and!; try congruence; set_solver.
Qed.

Lemma plans_probe {A} (f : FS.t → A) : Steps plans (probe f).
Proof. apply Steps_gets, plans_refl. Qed.

Lemma plans_getitem d key : Steps plans (getitem d key : M state string).
Proof.
  unfold getitem. destruct (d !! key);
    [apply Steps_ret|apply Steps_raise]; apply plans_refl.
Qed.

Lemma plans_log level msg : Steps plans (in_world (logger level msg)).
Proof. intros s r s' [= <- <-]. by repeat split. Qed.

Lemma plans_read path : Steps plans (sys (Os.read path)).
Proof.
  intros s r s'. unfold sys, in_world, os, zoom, Os.read, Os.query.
  destruct (FS.read _ _); intros [= <- <-]; by repeat split.
Qed.

Lemma plans_set_paths X : Steps plans (update (set_paths (λ ps, ps ∪ X))).
Proof.
  intros s r s' [= <- <-]. unfold plans. cbn. split_and!; try done. set_solver.
Qed.

Lemma plans_set_refer_to r : Steps plans (update (set_refer_to r)).
Proof. intros s r' s' [= <- <-]. by repeat split. Qed.

Lemma plans_add_pth line : Steps plans (add_pth line).
Proof.
  intros s r s' [= <- <-]. unfold plans. cbn. split_and!; try done. set_solver.
Qed.

Lemma plans_add_path path : Steps plans (add_path path).
Proof.
  unfold add_path.
  apply Steps_bind; [apply plans_trans|apply plans_probe|]. intros cwd.
  apply Steps_bind; [apply plans_trans|apply plans_set_paths|]. intros _.
  destruct (Str.endswith _ ".py").
  - apply Steps_bind; [apply plans_trans|apply plans_probe|]. intros caches.
    apply plans_set_paths.
  - destruct (bool_decide _); [|apply Steps_ret, plans_refl].
    apply Steps_bind; [apply plans_trans|apply plans_read|]. intros data.
    destruct (Str.strip _);
      [apply Steps_ret, plans_refl|apply plans_set_refer_to].
Qed.

Lemma plans_fill_from_dist dist scheme : Steps plans (fill_from_dist dist scheme).
Proof.
  unfold fill_from_dist.
  apply Steps_bind; [apply plans_trans| |intros _].
  { destruct (is_dist_editable dist).
    - apply Steps_bind; [apply plans_trans|apply plans_getitem|].
      intros purelib.
      apply Steps_bind; [apply plans_trans|apply plans_probe|].
      intros [egg_link|]; [|apply plans_log].
      apply Steps_bind; [apply plans_trans|apply plans_read|]. intros text.
      destruct (Str.first_line text); [|apply Steps_raise, plans_refl].
      destruct (negb _); [apply Steps_raise, plans_refl|].
      apply Steps_bind; [apply plans_trans|apply plans_add_path|]. intros _.
      apply plans_add_pth.
    - apply Steps_for_each; [apply plans_refl|apply plans_trans|].
      intros filename _.
      apply Steps_bind; [apply plans_trans|apply plans_add_path|]. intros _.
      destruct (PosixPath.splitext _) as [bare_name ext].
      apply Steps_when; [apply plans_refl|apply plans_add_path]. }
  apply Steps_bind; [apply plans_trans|apply plans_getitem|]. intros bin_dir.
  apply Steps_bind; [apply plans_trans| |intros _].
  { destruct (metadata_scripts dist); [|apply Steps_ret, plans_refl].
    apply Steps_for_each; [apply plans_refl|apply plans_trans|].
    intros script _. apply plans_add_path. }
  apply Steps_for_each; [apply plans_refl|apply plans_trans|].
  intros script _. apply plans_add_path.
Qed.

(** X1.  Planning an uninstall only reads the file system.  Whatever
    [from_dist] does, return a plan or raise, the file system, the
    directory and the names of the temporary files and the referrers of
    the cache are as before: planning writes to the log at most. *)
Theorem from_dist_reads_only dist envrionment w0 :
  fs (from_dist dist envrionment w0).2 = fs w0 ∧
  tmpdir (from_dist dist envrionment w0).2 = tmpdir w0 ∧
  rand (from_dist dist envrionment w0).2 = rand w0 ∧
  referrers (from_dist dist envrionment w0).2 = referrers w0.
Proof.
  unfold from_dist, init, bind, getitem.
  destruct (envrionment !! "purelib") as [purelib|]; [|done]. cbn.
  destruct (fill_from_dist _ _ _) as [r s] eqn:Hrun.
  apply plans_fill_from_dist in Hrun. unfold plans in Hrun. cbn in *.
  by destruct_and!.
Qed.

(** A successful [add_path] has put the normalised path into the plan. *)
Lemma add_path_adds path s s' :
  add_path path s = (Ok tt, s') →
  PosixPath.abspath (Os.getcwd (fs (w s))) path ∈ _paths (self s').
Proof.
  unfold add_path. intros Hrun.
  apply bind_ok in Hrun as (cwd & s1 & [= <- <-] & Hrun).
  apply bind_ok in Hrun as ([] & s2 & [= Hs2] & Hrun).
  assert (plans s2 s') as Hp.
  { revert Hrun. clear Hs2. destruct (Str.endswith _ ".py").
    - apply Steps_bind; [apply plans_trans|apply plans_probe|]. intros caches.
      apply plans_set_paths.
    - destruct (bool_decide _); [|apply Steps_ret, plans_refl].
      apply Steps_bind; [apply plans_trans|apply plans_read|]. intros data.
      destruct (Str.strip _);
        [apply Steps_ret, plans_refl|apply plans_set_refer_to]. }
  destruct Hp as (_ & _ & _ & _ & Hsub & _). apply Hsub. subst s2. cbn.
  unfold PosixPath.normcase, expanduser. set_solver.
Qed.

(** What a loop of [add_path] leaves in the plan. *)
Lemma for_each_add_path {A} (l : list A) (g : A → string)
    (body : A → M state unit) s s' :
  (∀ x, Steps plans (body x)) →
  (∀ x s1 s2, body x s1 = (Ok tt, s2) →
     PosixPath.abspath (Os.getcwd (fs (w s1))) (g x) ∈ _paths (self s2)) →
  for_each l body s = (Ok tt, s') →
  ∀ x, x ∈ l →
    PosixPath.abspath (Os.getcwd (fs (w s))) (g x) ∈ _paths (self s').
Proof.
  intros Hsteps Hadds. revert s.
  induction l as [|y l IH]; intros s Hrun x Hx; [by apply elem_of_nil in Hx|].
  cbn in Hrun. apply bind_ok in Hrun as ([] & s1 & Hy & Hrun).
  pose proof (Hsteps y _ _ _ Hy) as (Hfs & _).
  apply elem_of_cons in Hx as [->|Hx].
  - apply Hadds in Hy.
    assert (plans s1 s') as (_ & _ & _ & _ & Hsub & _).
    { revert Hrun. apply Steps_for_each; [apply plans_refl|apply plans_trans|].
      intros ? _. apply Hsteps. }
    by apply Hsub.
  - rewrite <-Hfs. by apply IH.
Qed.

(** X2.  The plan that [from_dist] returns holds every file of the
    distribution and every script: for a distribution that is not
    editable, the normalised absolute path of every row of [RECORD]
    (joined onto the location of the distribution); and in all cases
    the path, in the directory of the scripts, of every script of the
    [scripts] metadata and of every console and GUI entry point. *)
Theorem from_dist_plans_records dist envrionment w0 instance w1 :
  from_dist dist envrionment w0 = (Ok instance, w1) →
  ∃ bin_dir,
    envrionment !! "scripts" = Some bin_dir ∧
    (is_dist_editable dist = false →
     ∀ filename, filename ∈ record_filenames dist →
       PosixPath.abspath (Os.getcwd (fs w0))
         (PosixPath.join (location dist) filename) ∈ _paths instance) ∧
    (∀ script,
       script ∈ default [] (metadata_scripts dist)
                ++ console_scripts dist ++ gui_scripts dist →
       PosixPath.abspath (Os.getcwd (fs w0)) (PosixPath.join bin_dir script)
       ∈ _paths instance).
Proof.
  unfold from_dist, init. intros Hrun.
  apply bind_ok in Hrun as (purelib & w' & Hpure & Hrun).
  apply bind_ok in Hpure as (? & ? & Hpure & [= <- <-]).
  unfold getitem in Hpure. destruct (envrionment !! "purelib"); [|done].
  injection Hpure as -> <-. cbn in Hrun.
  destruct (fill_from_dist _ _ _) as [[[]|] s] eqn:Hfill; [|done].
  injection Hrun as <- <-.
  match type of Hfill with _ ?s0 = _ => set (st0 := s0) in * end.
  unfold fill_from_dist in Hfill.
  apply bind_ok in Hfill as ([] & s1 & Hfiles & Hfill).
  apply bind_ok in Hfill as (bin_dir & s1' & Hbin & Hfill).
  unfold getitem in Hbin. destruct (envrionment !! "scripts") as [b|]; [|done].
  injection Hbin as -> <-. exists bin_dir. split; [done|].
  apply bind_ok in Hfill as ([] & s2 & Hmeta & Hscripts).
  assert (plans st0 s1) as Hp1.
  { revert Hfiles. destruct (is_dist_editable dist).
    - apply Steps_bind; [apply plans_trans|apply plans_getitem|].
      intros purelib'.
      apply Steps_bind; [apply plans_trans|apply plans_probe|].
      intros [egg_link|]; [|apply plans_log].
      apply Steps_bind; [apply plans_trans|apply plans_read|]. intros text.
      destruct (Str.first_line text); [|apply Steps_raise, plans_refl].
      destruct (negb _); [apply Steps_raise, plans_refl|].
      apply Steps_bind; [apply plans_trans|apply plans_add_path|]. intros _.
      apply plans_add_pth.
    - apply Steps_for_each; [apply plans_refl|apply plans_trans|].
      intros filename _.
      apply Steps_bind; [apply plans_trans|apply plans_add_path|]. intros _.
      destruct (PosixPath.splitext _) as [bare_name ext].
      apply Steps_when; [apply plans_refl|apply plans_add_path]. }
  assert (plans s1 s2) as Hp2.
  { revert Hmeta. destruct (metadata_scripts dist); [|apply Steps_ret, plans_refl].
    apply Steps_for_each; [apply plans_refl|apply plans_trans|].
    intros script _. apply plans_add_path. }
  assert (plans s2 s) as Hp3.
  { revert Hscripts.
    apply Steps_for_each; [apply plans_refl|apply plans_trans|].
    intros script _. apply plans_add_path. }
  pose proof Hp1 as (Hfs1 & _). pose proof Hp2 as (Hfs2 & _ & _ & _ & Hsub2 & _).
  pose proof Hp3 as (Hfs3 & _ & _ & _ & Hsub3 & _). cbn in Hfs1.
  split.
  - intros Hed filename Hin. rewrite Hed in Hfiles.
    apply Hsub3, Hsub2.
    apply (for_each_add_path _ (λ f, PosixPath.join (location dist) f)
             _ _ _) with (x := filename) in Hfiles; [done| | |done].
    + intros f.
      apply Steps_bind; [apply plans_trans|apply plans_add_path|]. intros _.
      destruct (PosixPath.splitext _) as [bare_name ext].
      apply Steps_when; [apply plans_refl|apply plans_add_path].
    + intros f sa sb Hb. apply bind_ok in Hb as ([] & sc & Hadd & Hb).
      apply add_path_adds in Hadd.
      assert (plans sc sb) as (_ & _ & _ & _ & Hsub & _); [|by apply Hsub].
      revert Hb. destruct (PosixPath.splitext _) as [bare_name ext].
      apply Steps_when; [apply plans_refl|apply plans_add_path].
  - intros script [Hin|Hin]%elem_of_app.
    + destruct (metadata_scripts dist) as [scripts|];
        [|by apply elem_of_nil in Hin].
      cbn in Hin. apply Hsub3. rewrite <-Hfs1.
      apply (for_each_add_path _ (λ f, PosixPath.join bin_dir f)
               _ _ _) with (x := script) in Hmeta; [done| | |done].
      * intros f. apply plans_add_path.
      * intros f sa sb. apply add_path_adds.
    + rewrite <-Hfs1, <-Hfs2.
      apply (for_each_add_path _ (λ f, PosixPath.join bin_dir f)
               _ _ _) with (x := script) in Hscripts; [done| | |].
      * intros f. apply plans_add_path.
      * intros f sa sb. apply add_path_adds.
      * unfold _script_names.
        apply elem_of_app in Hin as [Hin|Hin]; apply elem_of_app; [left|right];
          apply list_elem_of_bind; exists script; (split; [left|done]).
Qed.

(** The distribution [bar] of two modules and one console script, which
    is not editable, planned on the example. *)
Lemma from_dist_plans_records_witness :
  let bar :=
    {| project_name := "bar"; location := "/env/lib";
       is_dist_editable := false; record_filenames := ["a.py"; "sub/b.py"];
       metadata_scripts := None; console_scripts := ["bar"];
       gui_scripts := [] |} in
  ∃ instance w1,
    from_dist bar Examples.paths Examples.earth = (Ok instance, w1) ∧
    ∃ bin_dir,
      Examples.paths !! "scripts" = Some bin_dir ∧
      (is_dist_editable bar = false →
       ∀ filename, filename ∈ record_filenames bar →
         PosixPath.abspath (Os.getcwd (fs Examples.earth))
           (PosixPath.join (location bar) filename) ∈ _paths instance) ∧
      (∀ script,
         script ∈ default [] (metadata_scripts bar)
                  ++ console_scripts bar ++ gui_scripts bar →
         PosixPath.abspath (Os.getcwd (fs Examples.earth))
           (PosixPath.join bin_dir script) ∈ _paths instance).
Proof.
  intros bar. eexists _, _. split; [vm_compute; reflexivity|].
  eapply (from_dist_plans_records bar Examples.paths Examples.earth).
  vm_compute. reflexivity.
Defined.

(** [add_path] leaves the registry lines of the plan alone. *)
Lemma add_path_lines path :
  Steps (λ s s', _pth_entries (self s') = _pth_entries (self s))
    (add_path path).
Proof.
  intros s r s'. unfold add_path, bind, probe, gets, update, modify, sys,
    in_world, os, zoom, Os.read, Os.query. cbn.
  destruct (Str.endswith _ ".py"); [by intros [= <- <-]|].
  destruct (bool_decide _); [|by intros [= <- <-]].
  destruct (FS.read _ _); [|by intros [= <- <-]].
  destruct (Str.strip _); by intros [= <- <-].
Qed.

Lemma for_each_add_path_lines {A} (l : list A) (g : A → string) :
  Steps (λ s s', _pth_entries (self s') = _pth_entries (self s))
    (for_each l (λ x, add_path (g x))).
Proof.
  apply Steps_for_each; [done|congruence|]. intros x _. apply add_path_lines.
Qed.

(** X3.  The plan that [from_dist] returns is not stashed yet, its
    registry file is [easy-install.pth] in the pure library, and it
    holds at most one registry line: the location of the distribution,
    when the distribution is editable and its pointer file is found;
    none when the pointer file is missing or the distribution is not
    editable. *)
Theorem from_dist_registry_lines dist envrionment w0 instance w1 :
  from_dist dist envrionment w0 = (Ok instance, w1) →
  ∃ purelib,
    envrionment !! "purelib" = Some purelib ∧
    _pth_file instance = PosixPath.join purelib "easy-install.pth" ∧
    _pth_entries instance
    = (if is_dist_editable dist then
         match get_egg_link_path (fs w0) dist purelib with
         | Some _ => {[location dist]}
         | None => ∅
         end
       else ∅) ∧
    _saved_pth instance = None ∧ _stashed instance = [] ∧
    _tempdirs instance = [].
Proof.
  unfold from_dist, init. intros Hrun.
  apply bind_ok in Hrun as (inst0 & w' & Hpure & Hrun).
  apply bind_ok in Hpure as (purelib & ? & Hpure & [= <- <-]).
  unfold getitem in Hpure.
  destruct (envrionment !! "purelib") as [p|] eqn:Hp; [|done].
  injection Hpure as -> <-. cbn in Hrun.
  destruct (fill_from_dist _ _ _) as [[[]|] s] eqn:Hfill; [|done].
  injection Hrun as <- <-. exists purelib. split; [done|].
  match type of Hfill with _ ?s0 = _ => set (st0 := s0) in * end.
  pose proof (plans_fill_from_dist _ _ _ _ _ Hfill)
    as (_ & _ & _ & _ & _ & _ & _ & _ & Hfile & Hsaved & Hst & Htd).
  split_and!; [done| |done..].
  unfold fill_from_dist in Hfill.
  apply bind_ok in Hfill as ([] & s1 & Hfiles & Hfill).
  apply bind_ok in Hfill as (bin_dir & s1' & Hbin & Hfill).
  unfold getitem in Hbin. destruct (envrionment !! "scripts") as [b|]; [|done].
  injection Hbin as -> <-.
  apply bind_ok in Hfill as ([] & s2 & Hmeta & Hscripts).
  apply (for_each_add_path_lines _ (λ f, PosixPath.join bin_dir f)) in Hscripts.
  rewrite Hscripts.
  assert (_pth_entries (self s2) = _pth_entries (self s1)) as ->.
  { destruct (metadata_scripts dist) as [scripts|]; [|by injection Hmeta as <-].
    by apply (for_each_add_path_lines _ (λ f, PosixPath.join bin_dir f))
      in Hmeta. }
  destruct (is_dist_editable dist).
  - apply bind_ok in Hfiles as (purelib' & ? & Hpure & Hfiles).
    unfold getitem in Hpure. rewrite Hp in Hpure. injection Hpure as <- <-.
    apply bind_ok in Hfiles as (egg_link & ? & [= <- <-] & Hfiles).
    destruct (get_egg_link_path _ _ _) as [egg_link_path|].
    + apply bind_ok in Hfiles as (text & sr & Hread & Hfiles).
      destruct (Str.first_line text) as [line|]; [|done].
      destruct (bool_decide _) eqn:Hdec; [|done]. cbn in Hfiles.
      apply bool_decide_eq_true in Hdec.
      apply bind_ok in Hfiles as ([] & sa & Hadd & Hpth).
      apply add_path_lines in Hadd. injection Hpth as <-. cbn.
      rewrite Hadd, Hdec.
      assert (_pth_entries (self sr) = ∅) as ->; [|set_solver].
      revert Hread. unfold sys, in_world, os, zoom, Os.read, Os.query.
      destruct (FS.read _ _); by intros [= _ <-].
    + by injection Hfiles as <-.
  - revert Hfiles.
    assert (Steps (λ s s', _pth_entries (self s') = _pth_entries (self s))
              (for_each (record_filenames dist)
                 (λ filename,
                    add_path (PosixPath.join (location dist) filename) ;;
                    let '(bare_name, ext) :=
                      PosixPath.splitext
                        (PosixPath.join (location dist) filename) in
                    when (bool_decide (ext = ".py"))
                      (add_path (bare_name +:+ ".pyo"))))) as Hsteps.
    { apply Steps_for_each; [done|congruence|]. intros f _.
      apply Steps_bind; [congruence|apply add_path_lines|]. intros _.
      destruct (PosixPath.splitext _) as [bare_name ext].
      apply Steps_when; [done|apply add_path_lines]. }
    intros Hfiles. by apply Hsteps in Hfiles.
Qed.

(** The editable distribution of the example, whose pointer file names
    its location. *)
Lemma from_dist_registry_lines_witness :
  ∃ instance w1,
    from_dist (Examples.foo "/src/foo") Examples.paths Examples.earth
    = (Ok instance, w1) ∧
    ∃ purelib,
      Examples.paths !! "purelib" = Some purelib ∧
      _pth_file instance = PosixPath.join purelib "easy-install.pth" ∧
      _pth_entries instance
      = (if is_dist_editable (Examples.foo "/src/foo") then
           match get_egg_link_path (fs Examples.earth)
                   (Examples.foo "/src/foo") purelib with
           | Some _ => {[location (Examples.foo "/src/foo")]}
           | None => ∅
           end
         else ∅) ∧
      _saved_pth instance = None ∧ _stashed instance = [] ∧
      _tempdirs instance = [].
Proof.
  eexists _, _. split; [vm_compute; reflexivity|].
  eapply (from_dist_registry_lines (Examples.foo "/src/foo") Examples.paths
            Examples.earth).
  vm_compute. reflexivity.
Defined.

End Planning.

(** * The linkage registry *)

Section WriteBack.

(** Resolution looks at what is a directory, and at nothing else. *)
Lemma walk_to_ext tr tr' cur comps :
  (∀ k, FS.is_dir (tr' !! k) = FS.is_dir (tr !! k)) →
  FS.walk_to tr' cur comps = FS.walk_to tr cur comps.
Proof.
  intros Hk. revert cur. induction comps as [|c comps IH]; intros cur; [done|].
  cbn. rewrite Hk. destruct (FS.is_dir (tr !! cur)); [|done].
  repeat case_match; apply IH.
Qed.

Lemma is_dir_insert_file (tr : gmap (list string) FS.inode) p d k :
  tr !! p ≠ Some FS.Dir →
  FS.is_dir (<[p := FS.File d]> tr !! k) = FS.is_dir (tr !! k).
Proof.
  intros Hp. destruct (decide (k = p)) as [->|Hne].
  - rewrite lookup_insert_eq. cbn. by destruct (tr !! p) as [[]|].
  - by rewrite lookup_insert_ne.
Qed.

Lemma fs_write_some fs s d fs' :
  FS.write fs s d = Ok fs' →
  ∃ p, FS.resolve fs s = Some p ∧ FS.nodes fs !! p ≠ Some FS.Dir ∧
       fs' = FS.with_nodes fs (<[p := FS.File d]> (FS.nodes fs)) ∧
       ∀ x, FS.resolve fs' x = FS.resolve fs x.
Proof.
  unfold FS.write. destruct (FS.resolve fs s) as [p|]; [|done].
  intros Hw. exists p.
  assert (FS.nodes fs !! p ≠ Some FS.Dir ∧
          fs' = FS.with_nodes fs (<[p := FS.File d]> (FS.nodes fs)))
    as [Hnd ->].
  { destruct (FS.nodes fs !! p) as [[]|]; by simplify_eq. }
  split_and!; [done..|]. intros x. unfold FS.resolve, FS.start. cbn.
  destruct x; [done|]. apply walk_to_ext. intros k.
  by apply is_dir_insert_file.
Qed.

(** What has been written is what is read. *)
Lemma fs_write_read fs s d fs' :
  FS.write fs s d = Ok fs' → FS.read fs' s = Ok d.
Proof.
  intros (p & Hres & Hnd & -> & Hsame)%fs_write_some.
  unfold FS.read, FS.stat. rewrite Hsame, Hres. cbn.
  by rewrite lookup_insert_eq.
Qed.

(** Writing the bytes that were read before a write undoes the write. *)
Lemma fs_write_back fs s d0 d fs' :
  FS.read fs s = Ok d0 → FS.write fs s d = Ok fs' → FS.write fs' s d0 = Ok fs.
Proof.
  intros Hread (p & Hres & Hnd & -> & Hsame)%fs_write_some.
  unfold FS.read, FS.stat in Hread. rewrite Hres in Hread. cbn in Hread.
  destruct (FS.nodes fs !! p) as [[d1|]|] eqn:Hp; try done.
  injection Hread as ->.
  unfold FS.write. rewrite Hsame, Hres. cbn. rewrite lookup_insert_eq.
  unfold FS.with_nodes. cbn. rewrite insert_insert_eq, insert_id by done.
  by destruct fs.
Qed.

End WriteBack.

Section Registry.

Import Uninstallers.

Variable iter : gset string → list string.
Hypothesis iter_perm : ∀ X, iter X ≡ₚ elements X.

Implicit Types s : state.

(** The lines are removed in memory: the loop writes to the log, and
    nowhere else. *)
Lemma remove_items_quiet items lines :
  Steps (λ s s', fs (w s') = fs (w s) ∧ self s' = self s)
    (remove_items items lines).
Proof.
  revert lines. induction items as [|item items IH]; intros lines.
  { by intros s r s' [= <- <-]. }
  cbn [remove_items].
  apply Steps_bind; [by intros ??? [-> ->] [-> ->]| |intros _].
  { by intros s r s' [= <- <-]. }
  destruct (list_remove item lines); [apply IH|]. by intros s r s' [= <- <-].
Qed.

(** A line that the file does not have stops the loop. *)
Lemma remove_items_raises items lines item s :
  item ∈ items → item ∉ lines →
  ∃ s', remove_items items lines s = (Raise ValueError, s').
Proof.
  revert lines s. induction items as [|x items IH]; intros lines s Hin Hnot.
  { by apply elem_of_nil in Hin. }
  cbn [remove_items]. erewrite bind_run; [|reflexivity]. unfold list_remove.
  destruct (list_find (λ y, y = x) lines) as [[i y]|] eqn:Hf; [|by eexists].
  apply list_find_Some in Hf as (Hi & -> & _).
  apply elem_of_cons in Hin as [->|Hin].
  { destruct Hnot. by eapply list_elem_of_lookup_2. }
  apply IH; [done|]. intros Hd. apply Hnot.
  eapply elem_of_sublist; [exact Hd|apply sublist_delete].
Qed.

(** One line goes for each item, the first that is equal to it. *)
Lemma remove_items_ok items lines lines' s s' :
  remove_items items lines s = (Ok lines', s') →
  lines' `sublist_of` lines ∧ lines ≡ₚ items ++ lines'.
Proof.
  revert lines s. induction items as [|x items IH]; intros lines s.
  { by intros [= <- <-]. }
  cbn [remove_items]. erewrite bind_run; [|reflexivity]. unfold list_remove.
  destruct (list_find (λ y, y = x) lines) as [[i y]|] eqn:Hf; [|done].
  apply list_find_Some in Hf as (Hi & -> & _).
  intros [Hsub Hperm]%IH. split.
  - etrans; [exact Hsub|apply sublist_delete].
  - cbn. rewrite <-Hperm. by apply delete_Permutation.
Qed.

(** X4.  A registry line of the plan that the registry file does not
    hold makes [remove] raise [ValueError] before anything is written
    or moved: the file system is as before and nothing is stashed; the
    bytes of the registry file have been saved in the instance. *)
Theorem remove_missing_line s item saved :
  item ∈ _pth_entries (self s) →
  FS.read (fs (w s)) (_pth_file (self s)) = Ok saved →
  item ∉ Str.splitlines saved →
  ∃ s',
    remove iter s = (Raise ValueError, s') ∧
    fs (w s') = fs (w s) ∧
    _saved_pth (self s') = Some saved ∧
    _stashed (self s') = _stashed (self s) ∧
    _tempdirs (self s') = _tempdirs (self s).
Proof.
  intros Hin Hread Hnot.
  unfold remove, _remove_pth.
  set (s1 := {| w := set_fs (w s) (fs (w s));
                self := set_saved_pth (Some saved) (self s) |}).
  destruct (remove_items_raises (iter (_pth_entries (self s)))
              (Str.splitlines saved) item s1) as [s' Hrun]; [|done|].
  { rewrite iter_perm. by apply elem_of_elements. }
  exists s'.
  pose proof (remove_items_quiet _ _ _ _ _ Hrun) as [Hfs Hself].
  split; [|by rewrite Hfs, Hself].
  apply bind_raise. erewrite bind_run; [|reflexivity].
  rewrite bool_decide_false by set_solver.
  erewrite bind_run; [|reflexivity].
  erewrite bind_run.
  2: { unfold sys, in_world, os, zoom, Os.read, Os.query. cbn.
       by rewrite Hread. }
  erewrite bind_run; [|reflexivity].
  by apply bind_raise.
Qed.

(** What a successful [_remove_pth] of a plan with registry lines has
    read, saved and written. *)
Lemma remove_pth_ok s s' :
  _pth_entries (self s) ≠ ∅ →
  _remove_pth iter s = (Ok tt, s') →
  ∃ saved lines' fs',
    FS.read (fs (w s)) (_pth_file (self s)) = Ok saved ∧
    self s' = set_saved_pth (Some saved) (self s) ∧
    lines' `sublist_of` Str.splitlines saved ∧
    Str.splitlines saved ≡ₚ elements (_pth_entries (self s)) ++ lines' ∧
    FS.write (fs (w s)) (_pth_file (self s))
      (let endline :=
         if Str.contains (String "013" (String "010" EmptyString)) saved
         then String "013" (String "010" EmptyString)
         else String "010" EmptyString in
       Str.join endline lines' +:+ endline) = Ok fs' ∧
    fs (w s') = fs'.
Proof.
  intros Hne. unfold _remove_pth.
  erewrite bind_run; [|reflexivity]. rewrite bool_decide_false by done.
  erewrite bind_run; [|reflexivity]. intros Hrun.
  apply bind_ok in Hrun as (saved & s1 & Hread & Hrun).
  unfold sys, in_world, os, zoom, Os.read, Os.query in Hread.
  destruct (FS.read _ _) as [saved'|] eqn:Hr; [|done].
  injection Hread as -> <-.
  erewrite bind_run in Hrun; [|reflexivity].
  apply bind_ok in Hrun as (lines' & s2 & Hitems & Hwrite).
  pose proof (remove_items_quiet _ _ _ _ _ Hitems) as [Hfs Hself].
  apply remove_items_ok in Hitems as [Hsub Hperm].
  rewrite iter_perm in Hperm. cbn in Hwrite.
  unfold sys, in_world, os, zoom, Os.write, Os.syscall in Hwrite.
  rewrite Hself, Hfs in Hwrite. cbn in Hwrite.
  destruct (FS.write _ _ _) as [fs'|] eqn:Hw; [|done].
  injection Hwrite as <-. by exists saved, lines', fs'.
Qed.

(** X5.  When [_remove_pth] returns for a plan with registry lines, the
    registry file holds the lines that are left, each followed by the
    line ending of the file (CR LF when the file had one, LF
    otherwise): the lines of the file in their order, with one line
    taken out for each registry line of the plan, so that a line that
    the file repeats loses one occurrence only. *)
Theorem remove_pth_rewrites s s' :
  _pth_entries (self s) ≠ ∅ →
  _remove_pth iter s = (Ok tt, s') →
  ∃ saved lines',
    FS.read (fs (w s)) (_pth_file (self s)) = Ok saved ∧
    lines' `sublist_of` Str.splitlines saved ∧
    Str.splitlines saved ≡ₚ elements (_pth_entries (self s)) ++ lines' ∧
    FS.read (fs (w s')) (_pth_file (self s))
    = Ok (let endline :=
            if Str.contains (String "013" (String "010" EmptyString)) saved
            then String "013" (String "010" EmptyString)
            else String "010" EmptyString in
          Str.join endline lines' +:+ endline).
Proof.
  intros Hne Hrun.
  destruct (remove_pth_ok s s' Hne Hrun)
    as (saved & lines' & fs' & Hread & Hself & Hsub & Hperm & Hw & Hfs).
  exists saved, lines'. split_and!; [done..|].
  rewrite Hfs. by eapply fs_write_read.
Qed.

(** X6.  The registry edit can be undone from the instance.  When
    [_remove_pth] returns for a plan with registry lines, the instance
    holds the bytes that the registry file had, and writing them to the
    registry file, as [rollback] does for a stash record that is not
    empty, gives back the file system as it was before the edit. *)
Theorem remove_pth_restore s s' :
  _pth_entries (self s) ≠ ∅ →
  _remove_pth iter s = (Ok tt, s') →
  ∃ saved,
    FS.read (fs (w s)) (_pth_file (self s)) = Ok saved ∧
    _saved_pth (self s') = Some saved ∧
    _pth_file (self s') = _pth_file (self s) ∧
    sys (Os.write (_pth_file (self s')) saved) s'
    = (Ok tt, {| w := set_fs (w s') (fs (w s)); self := self s' |}).
Proof.
  intros Hne Hrun.
  destruct (remove_pth_ok s s' Hne Hrun)
    as (saved & lines' & fs' & Hread & Hself & Hsub & Hperm & Hw & Hfs).
  exists saved. rewrite Hself. split_and!; [done..|].
  unfold sys, in_world, os, zoom, Os.write, Os.syscall. cbn.
  rewrite Hfs, (fs_write_back _ _ _ _ _ Hread Hw). by rewrite Hself.
Qed.

End Registry.

(** The plan asks for the line [/src/baz], which the registry of the
    example does not hold. *)
Lemma remove_missing_line_witness :
  let s := Examples.planned ∅ {["/src/baz"]} in
  ∃ s',
    Uninstallers.remove elements s = (Raise ValueError, s') ∧
    fs (Uninstallers.w s') = fs (Uninstallers.w s) ∧
    Uninstallers._saved_pth (Uninstallers.self s')
    = Some ("/src/foo" +:+ Examples.LF +:+ "/src/bar" +:+ Examples.LF) ∧
    Uninstallers._stashed (Uninstallers.self s')
    = Uninstallers._stashed (Uninstallers.self s) ∧
    Uninstallers._tempdirs (Uninstallers.self s')
    = Uninstallers._tempdirs (Uninstallers.self s).
Proof.
  intros s.
  apply (remove_missing_line elements (λ X, reflexivity _) s "/src/baz"
           ("/src/foo" +:+ Examples.LF +:+ "/src/bar" +:+ Examples.LF)).
  - apply (bool_decide_unpack _). vm_compute. reflexivity.
  - vm_compute. reflexivity.
  - apply (bool_decide_unpack _). vm_compute. reflexivity.
Defined.

(** The plan asks for the line [/src/foo] of the registry of the
    example. *)
Lemma remove_pth_rewrites_witness :
  let s := Examples.planned ∅ {["/src/foo"]} in
  ∃ s',
    Uninstallers._remove_pth elements s = (Ok tt, s') ∧
    ∃ saved lines',
      FS.read (fs (Uninstallers.w s))
        (Uninstallers._pth_file (Uninstallers.self s)) = Ok saved ∧
      lines' `sublist_of` Str.splitlines saved ∧
      Str.splitlines saved
      ≡ₚ elements (Uninstallers._pth_entries (Uninstallers.self s))
         ++ lines' ∧
      FS.read (fs (Uninstallers.w s'))
        (Uninstallers._pth_file (Uninstallers.self s))
      = Ok (let endline :=
              if Str.contains (String "013" (String "010" EmptyString)) saved
              then String "013" (String "010" EmptyString)
              else String "010" EmptyString in
            Str.join endline lines' +:+ endline).
Proof.
  intros s. eexists. split; [vm_compute; reflexivity|].
  eapply (remove_pth_rewrites elements (λ X, reflexivity _) s).
  - apply (bool_decide_unpack _). vm_compute. reflexivity.
  - vm_compute. reflexivity.
Defined.

Lemma remove_pth_restore_witness :
  let s := Examples.planned ∅ {["/src/foo"]} in
  ∃ s',
    Uninstallers._remove_pth elements s = (Ok tt, s') ∧
    ∃ saved,
      FS.read (fs (Uninstallers.w s))
        (Uninstallers._pth_file (Uninstallers.self s)) = Ok saved ∧
      Uninstallers._saved_pth (Uninstallers.self s') = Some saved ∧
      Uninstallers._pth_file (Uninstallers.self s')
      = Uninstallers._pth_file (Uninstallers.self s) ∧
      Uninstallers.sys
        (Os.write (Uninstallers._pth_file (Uninstallers.self s')) saved) s'
      = (Ok tt,
         {| Uninstallers.w :=
              set_fs (Uninstallers.w s') (fs (Uninstallers.w s));
            Uninstallers.self := Uninstallers.self s' |}).
Proof.
  intros s. eexists. split; [vm_compute; reflexivity|].
  eapply (remove_pth_restore elements (λ X, reflexivity _) s).
  - apply (bool_decide_unpack _). vm_compute. reflexivity.
  - vm_compute. reflexivity.
Defined.

(** * The root of a file under the prefix *)

Section FileRoot.

Import Uninstallers.

(** X7.  [_get_file_root] on normalised absolute paths.  For the base
    [/e1/.../ek] (not the root directory) and a path [/q1/.../qn],
    spelled with or without a trailing separator: a path that is not
    at or below the base has no root; a path two levels or more below
    the base has as its root the directory of the base that it lies
    in, [/e1/.../ek/q(k+1)]; the base itself and the paths directly in
    the base have the base with a trailing separator as their root. *)
Theorem get_file_root_cases e q s :
  normal e → e ≠ [] → normal q → spelled q s →
  _get_file_root s (render e)
  = if decide (e `prefix_of` q) then
      Some (match drop (length e) q with
            | c :: _ :: _ => render (e ++ [c])
            | _ => render e +:+ "/"
            end)
    else None.
Proof.
  intros He Hne Hq Hs.
  destruct (decide (e `prefix_of` q)) as [[k ->]|Hnp].
  - rewrite drop_app_length. destruct k as [|c r].
    + unfold _get_file_root, PurePath.relative_to.
      rewrite (parse_spelled (e ++ []) s), parse_render by done.
      rewrite bool_decide_true by done.
      rewrite bool_decide_true by by apply prefix_app_r.
      cbn [andb]. rewrite drop_app_length. f_equal.
      unfold PosixPath.normcase.
      rewrite join_rel by (by vm_compute). unfold PosixPath.sep.
      rewrite render_not_endswith_sep by done.
      pose proof (render_nonempty e). destruct (render e) eqn:Heq; [done|].
      by rewrite str_app_empty_r.
    + rewrite (get_file_root_spelled e c r s) by done. by destruct r.
  - unfold _get_file_root, PurePath.relative_to.
    rewrite (parse_spelled q s), parse_render by done.
    rewrite bool_decide_true by done. by rewrite bool_decide_false.
Qed.

End FileRoot.

(** A module of a package in the pure library of the example. *)
Lemma get_file_root_cases_witness :
  Uninstallers._get_file_root "/env/lib/sub/b.py" (render ["env"])
  = if decide (["env"] `prefix_of` ["env"; "lib"; "sub"; "b.py"]) then
      Some (match drop (length ["env"]) ["env"; "lib"; "sub"; "b.py"] with
            | c :: _ :: _ => render (["env"] ++ [c])
            | _ => render ["env"] +:+ "/"
            end)
    else None.
Proof.
  apply (get_file_root_cases ["env"] ["env"; "lib"; "sub"; "b.py"]
           "/env/lib/sub/b.py");
    [by repeat constructor|done|by repeat constructor|by left].
Defined.

(** * What [renames] does *)

Section Moves.

Import Uninstallers.

Implicit Types fs : FS.t.

(** X8.  [renames] of a regular file.  The file [/pa/m] holds the
    bytes [d]; nothing is at [/pb/n], and no regular file is in the
    way of the directory [/pb].  Then [renames] returns; the bytes are
    at [/pb/n] and no longer at [/pa/m]; the directory [/pb] exists;
    apart from the file, the only nodes that are gone are directories
    on the way to [/pa] (the ones that the move left empty), and the
    only nodes that are new are directories on the way to [/pb]. *)
Theorem renames_moves_file fs pa m pb n d :
  FS.wf (FS.nodes fs) → normal (pa ++ [m]) → normal (pb ++ [n]) →
  FS.nodes fs !! (pa ++ [m]) = Some (FS.File d) →
  (∀ rest, FS.nodes fs !! ((pb ++ [n]) ++ rest) = None) →
  (∀ a d0, a `prefix_of` pb → FS.nodes fs !! a ≠ Some (FS.File d0)) →
  ∃ tr',
    renames (render (pa ++ [m])) (render (pb ++ [n])) fs
    = (Ok tt, FS.with_nodes fs tr') ∧
    FS.wf tr' ∧
    tr' !! (pb ++ [n]) = Some (FS.File d) ∧
    tr' !! (pa ++ [m]) = None ∧
    tr' !! pb = Some FS.Dir ∧
    (∀ k i, FS.nodes fs !! k = Some i → k ≠ pa ++ [m] →
            tr' !! k = Some i ∨ (i = FS.Dir ∧ k `prefix_of` pa)) ∧
    (∀ k i, tr' !! k = Some i → k ≠ pb ++ [n] →
            FS.nodes fs !! k = Some i ∨ (i = FS.Dir ∧ k `prefix_of` pb)).
Proof.
  intros Hwf Ha Hb Hfile Hfree Hnf.
  pose proof Ha as [Hpa Hm]%normal_snoc. pose proof Hb as [Hpb Hn]%normal_snoc.
  destruct (renames_file fs pa m pb n d Hwf Ha Hb Hfile Hfree Hnf)
    as (tr1 & Hg & Hd & _ & Hrun).
  pose proof Hg as (Hwf1 & Hsub & Hnew).
  assert (pa ++ [m] ≠ pb ++ [n]) as Hne.
  { intros Heq. specialize (Hfree []). rewrite app_nil_r, <-Heq in Hfree.
    congruence. }
  assert (tr1 !! (pa ++ [m]) = Some (FS.File d)) as Hfile1
    by by eapply lookup_weaken.
  assert (∀ rest, tr1 !! (pb ++ [n] ++ rest) = None) as Hfree1.
  { intros rest. rewrite (assoc_L (++)), (grown_lookup _ _ _ _ Hg); [done|].
    intros Hp%prefix_length. rewrite !length_app in Hp. cbn in Hp. lia. }
  set (tr2 := <[pb ++ [n] := FS.File d]> (delete (pa ++ [m]) tr1)) in *.
  assert (FS.wf tr2) as Hwf2.
  { apply wf_move_file; try done; [by destruct pa|]. intros ->. congruence. }
  destruct (removedirs_render (FS.with_nodes fs tr2) pa Hwf2 Hpa)
    as (tr' & Hprune & Hwf' & Hsub' & Hgone).
  exists tr'. rewrite Hrun, Hprune. cbn in *.
  assert (tr' !! (pb ++ [n]) = Some (FS.File d)) as Hthere.
  { destruct (Hgone (pb ++ [n]) (FS.File d)) as [?|[? _]]; [|done..].
    unfold tr2. by rewrite lookup_insert_eq. }
  split_and!; [done..| | | |].
  - destruct (tr' !! (pa ++ [m])) as [i|] eqn:Hi; [|done].
    eapply lookup_weaken in Hi; [|exact Hsub']. unfold tr2 in Hi.
    by rewrite lookup_insert_ne, lookup_delete_eq in Hi.
  - apply (wf_prefix tr' pb [n]); [done|by eexists|done].
  - intros k i Hk Hkne.
    assert (pb ++ [n] ≠ k) as Hkb.
    { intros <-. specialize (Hfree []). rewrite app_nil_r in Hfree.
      congruence. }
    apply (Hgone k i). unfold tr2.
    rewrite lookup_insert_ne, lookup_delete_ne by done.
    by eapply lookup_weaken.
  - intros k i Hk Hkne. eapply lookup_weaken in Hk; [|exact Hsub'].
    unfold tr2 in Hk. rewrite lookup_insert_ne in Hk by done.
    apply lookup_delete_Some in Hk as [_ Hk]. by apply Hnew.
Qed.

(** X9.  [renames] of a directory that is named with a trailing
    separator, the way the compressed plan names it.  Nothing is at
    [/pb/n], no regular file is in the way of [/pb], and [/pb/n] is not
    inside the directory.  Then [renames] returns and the directory is
    at [/pb/n] with all it holds; every node that is not at or below
    the old place is kept, so that the directory above it stays, also
    when the move has left it empty: the tail of the old name is
    empty, and the directories above are not pruned. *)
Theorem renames_moves_dir fs a pb n :
  FS.wf (FS.nodes fs) → normal a → a ≠ [] → normal (pb ++ [n]) →
  FS.nodes fs !! a = Some FS.Dir →
  (∀ rest, FS.nodes fs !! ((pb ++ [n]) ++ rest) = None) →
  (∀ k d, k `prefix_of` pb → FS.nodes fs !! k ≠ Some (FS.File d)) →
  ¬ a `prefix_of` pb ++ [n] →
  ∃ tr',
    renames (render a +:+ "/") (render (pb ++ [n])) fs
    = (Ok tt, FS.with_nodes fs tr') ∧
    (∀ rest, tr' !! ((pb ++ [n]) ++ rest) = FS.nodes fs !! (a ++ rest)) ∧
    (∀ rest, tr' !! (a ++ rest) = None) ∧
    (∀ k i, FS.nodes fs !! k = Some i → ¬ a `prefix_of` k →
            tr' !! k = Some i) ∧
    (∀ k i, tr' !! k = Some i → ¬ pb ++ [n] `prefix_of` k →
            FS.nodes fs !! k = Some i ∨ (i = FS.Dir ∧ k `prefix_of` pb)).
Proof.
  intros Hwf Ha Hane Hb Hdir Hfree Hnf Hnp.
  destruct (renames_stash_dir fs a pb n Hwf Ha Hane Hb Hdir Hfree Hnf Hnp)
    as (tr1 & Hg & Hd & Hrun).
  pose proof Hg as (Hwf1 & Hsub & Hnew).
  assert (∀ rest, tr1 !! ((pb ++ [n]) ++ rest) = None) as Hfree1.
  { intros rest. rewrite (grown_lookup _ _ _ _ Hg); [done|].
    intros Hp%prefix_length. rewrite !length_app in Hp. cbn in Hp. lia. }
  assert (∀ k, a `prefix_of` k → tr1 !! k = FS.nodes fs !! k) as Hin.
  { intros k Hk. apply (grown_lookup _ _ _ _ Hg). intros Hp.
    apply Hnp. etrans; [exact Hk|]. by apply prefix_app_r. }
  eexists. split; [exact Hrun|].
  split_and!.
  - intros rest. rewrite lookup_move_tree by done.
    rewrite decide_True by by apply prefix_app_r.
    rewrite drop_app_length. apply Hin. by apply prefix_app_r.
  - intros rest. rewrite lookup_move_tree by done.
    destruct (decide _) as [Hp|_].
    + exfalso.
      destruct (prefix_weak_total _ _ _ (prefix_app_r a a rest (reflexivity _))
                  Hp) as [Hab|[k ->]]; [done|].
      rewrite Hfree in Hdir. done.
    + rewrite decide_True; [done|by apply prefix_app_r].
  - intros k i Hk Hka. rewrite lookup_move_tree by done.
    destruct (decide _) as [[rest ->]|_]; [by rewrite Hfree in Hk|].
    rewrite decide_False by done. by eapply lookup_weaken.
  - intros k i Hk Hkb. rewrite lookup_move_tree in Hk by done.
    rewrite decide_False in Hk by done.
    destruct (decide _); [done|]. by apply Hnew.
Qed.

(** The error of a path whose last name is missing. *)
Lemma walk_err_normal tr cur p :
  normal p → dirs_along tr cur p →
  FS.walk_err tr cur p = FileNotFoundError.
Proof.
  intros Hp. revert cur. induction Hp as [|c p Hc Hp IH]; intros cur Hd; [done|].
  apply dirs_along_cons in Hd as [H0 Hd]. cbn. rewrite H0.
  rewrite (bool_decide_false (c = EmptyString)) by by apply valid_name_nonempty.
  rewrite (bool_decide_false (c = ".")) by by apply valid_name_not_dot.
  rewrite (bool_decide_false (c = "..")) by by apply valid_name_not_dotdot.
  by apply IH.
Qed.

Lemma resolve_err_render fs q :
  normal q → q ≠ [] → reachable (FS.nodes fs) q →
  FS.resolve_err fs (render q) = FileNotFoundError.
Proof.
  intros Hq Hne [Hroot Hd]. unfold FS.resolve_err.
  rewrite start_render, split_on_render by done. cbn. rewrite Hroot. cbn.
  by apply walk_err_normal.
Qed.

(** Moving what is not there. *)
Lemma move_render_missing fs a b :
  FS.wf (FS.nodes fs) → normal a → a ≠ [] → normal b → b ≠ [] →
  FS.nodes fs !! a = None → reachable (FS.nodes fs) a →
  FS.nodes fs !! b = None →
  Os.move (render a) (render b) fs = (Raise FileNotFoundError, fs).
Proof.
  intros Hwf Ha Hane Hb Hbne Hnone Hreach Hfree.
  unfold Os.move, bind, gets. rewrite isdir_render by done.
  rewrite Hfree. cbn [FS.is_dir andb].
  unfold try_except, Os.rename, Os.syscall, FS.rename.
  rewrite reachable_resolve by done. rewrite Hnone. cbn.
  rewrite isdir_render by done. rewrite Hnone. cbn.
  unfold Os.copy2, bind, Os.read, Os.query, FS.read.
  rewrite stat_render_wf by done. rewrite Hnone.
  by rewrite resolve_err_render.
Qed.

(** X10.  [renames] of a file that is not there: the name [/pa/m] is
    free in the existing directory [/pa], nothing is at [/pb/n], and no
    regular file is in the way of [/pb], which is not at or below
    [/pa/m].  Then [renames] raises
    [FileNotFoundError], but not before it has made the directory
    [/pb]: the directories on the way to [/pb] that were missing stay
    behind, and nothing else has changed. *)
Theorem renames_missing_source fs pa m pb n :
  FS.wf (FS.nodes fs) → normal (pa ++ [m]) → normal (pb ++ [n]) →
  FS.nodes fs !! pa = Some FS.Dir →
  FS.nodes fs !! (pa ++ [m]) = None →
  (∀ rest, FS.nodes fs !! ((pb ++ [n]) ++ rest) = None) →
  (∀ a d, a `prefix_of` pb → FS.nodes fs !! a ≠ Some (FS.File d)) →
  ¬ pa ++ [m] `prefix_of` pb →
  ∃ tr',
    renames (render (pa ++ [m])) (render (pb ++ [n])) fs
    = (Raise FileNotFoundError, FS.with_nodes fs tr') ∧
    tr' !! pb = Some FS.Dir ∧
    FS.nodes fs ⊆ tr' ∧
    (∀ k i, tr' !! k = Some i →
            FS.nodes fs !! k = Some i ∨ (i = FS.Dir ∧ k `prefix_of` pb)).
Proof.
  intros Hwf Ha Hb Hdir Hnone Hfree Hnf Hnp.
  pose proof Ha as [Hpa Hm]%normal_snoc. pose proof Hb as [Hpb Hn]%normal_snoc.
  destruct (renames_parent fs pb
              (Os.move (render (pa ++ [m])) (render (pb ++ [n])) ;;
               let '(head, tail) := PosixPath.split (render (pa ++ [m])) in
               when (negb (bool_decide (head = EmptyString))
                     && negb (bool_decide (tail = EmptyString)))
                 (try_except (Os.removedirs head) is_OSError (ret tt)))
              Hwf Hpb Hnf) as (tr1 & Hg & Hd & Hsame & Hrun).
  pose proof Hg as (Hwf1 & Hsub & Hnew).
  exists tr1. split_and!; [|done..].
  unfold renames. rewrite split_render_snoc by done.
  rewrite (Hrun n) by by apply valid_name_nonempty.
  apply bind_raise.
  assert (tr1 !! pa = Some FS.Dir) as Hdir1 by by eapply lookup_weaken.
  apply move_render_missing; cbn; try done.
  - by destruct pa.
  - by destruct pb.
  - by rewrite (grown_lookup _ _ _ _ Hg).
  - by apply wf_reachable_child.
  - rewrite (grown_lookup _ _ _ _ Hg) by apply prefix_snoc_not.
    specialize (Hfree []). by rewrite app_nil_r in Hfree.
Qed.

End Moves.

(** The module [/env/lib/a.py] of the example goes to
    [/tmp/hold/lib/a.py]; the directories [/tmp/hold] and [/tmp/hold/lib]
    are made on the way. *)
Lemma renames_moves_file_witness :
  let pa := ["env"; "lib"] in
  let pb := ["tmp"; "hold"; "lib"] in
  ∃ tr',
    Uninstallers.renames (render (pa ++ ["a.py"])) (render (pb ++ ["a.py"]))
      Examples.disk
    = (Ok tt, FS.with_nodes Examples.disk tr') ∧
    FS.wf tr' ∧
    tr' !! (pb ++ ["a.py"]) = Some (FS.File "A") ∧
    tr' !! (pa ++ ["a.py"]) = None ∧
    tr' !! pb = Some FS.Dir ∧
    (∀ k i, FS.nodes Examples.disk !! k = Some i → k ≠ pa ++ ["a.py"] →
            tr' !! k = Some i ∨ (i = FS.Dir ∧ k `prefix_of` pa)) ∧
    (∀ k i, tr' !! k = Some i → k ≠ pb ++ ["a.py"] →
            FS.nodes Examples.disk !! k = Some i
            ∨ (i = FS.Dir ∧ k `prefix_of` pb)).
Proof.
  intros pa pb.
  assert (FS.wf (FS.nodes Examples.disk)) as Hwf
    by (apply wfb_wf; vm_compute; reflexivity).
  apply (renames_moves_file Examples.disk pa "a.py" pb "a.py" "A").
  - exact Hwf.
  - by repeat constructor.
  - by repeat constructor.
  - vm_compute. reflexivity.
  - apply free_below; [exact Hwf|vm_compute; reflexivity].
  - apply no_file_along. vm_compute. reflexivity.
Defined.

(** The directory [/env/lib/sub] of the example, named [/env/lib/sub/],
    goes to [/tmp/hold/sub]. *)
Lemma renames_moves_dir_witness :
  let a := ["env"; "lib"; "sub"] in
  let pb := ["tmp"; "hold"] in
  ∃ tr',
    Uninstallers.renames (render a +:+ "/") (render (pb ++ ["sub"]))
      Examples.disk
    = (Ok tt, FS.with_nodes Examples.disk tr') ∧
    (∀ rest, tr' !! ((pb ++ ["sub"]) ++ rest)
             = FS.nodes Examples.disk !! (a ++ rest)) ∧
    (∀ rest, tr' !! (a ++ rest) = None) ∧
    (∀ k i, FS.nodes Examples.disk !! k = Some i → ¬ a `prefix_of` k →
            tr' !! k = Some i) ∧
    (∀ k i, tr' !! k = Some i → ¬ pb ++ ["sub"] `prefix_of` k →
            FS.nodes Examples.disk !! k = Some i
            ∨ (i = FS.Dir ∧ k `prefix_of` pb)).
Proof.
  intros a pb.
  assert (FS.wf (FS.nodes Examples.disk)) as Hwf
    by (apply wfb_wf; vm_compute; reflexivity).
  apply (renames_moves_dir Examples.disk a pb "sub").
  - exact Hwf.
  - by repeat constructor.
  - done.
  - by repeat constructor.
  - vm_compute. reflexivity.
  - apply free_below; [exact Hwf|vm_compute; reflexivity].
  - apply no_file_along. vm_compute. reflexivity.
  - apply (bool_decide_unpack _). vm_compute. reflexivity.
Defined.

(** Nothing is at [/env/lib/gone.py]. *)
Lemma renames_missing_source_witness :
  let pa := ["env"; "lib"] in
  let pb := ["tmp"; "hold"; "lib"] in
  ∃ tr',
    Uninstallers.renames (render (pa ++ ["gone.py"]))
      (render (pb ++ ["gone.py"])) Examples.disk
    = (Raise FileNotFoundError, FS.with_nodes Examples.disk tr') ∧
    tr' !! pb = Some FS.Dir ∧
    FS.nodes Examples.disk ⊆ tr' ∧
    (∀ k i, tr' !! k = Some i →
            FS.nodes Examples.disk !! k = Some i
            ∨ (i = FS.Dir ∧ k `prefix_of` pb)).
Proof.
  intros pa pb.
  assert (FS.wf (FS.nodes Examples.disk)) as Hwf
    by (apply wfb_wf; vm_compute; reflexivity).
  apply (renames_missing_source Examples.disk pa "gone.py" pb "gone.py").
  - exact Hwf.
  - by repeat constructor.
  - by repeat constructor.
  - vm_compute. reflexivity.
  - vm_compute. reflexivity.
  - apply free_below; [exact Hwf|vm_compute; reflexivity].
  - apply no_file_along. vm_compute. reflexivity.
  - apply (bool_decide_unpack _). vm_compute. reflexivity.
Defined.

(** * More on the rename compressor *)

Section Wildcards.

Import Uninstallers.

Variable iter : gset string → list string.
Hypothesis iter_perm : ∀ X, iter X ≡ₚ elements X.

(** X11.  The wildcards of the compressed plan do not nest.  For a plan
    of normalised absolute paths: when the output holds the wildcards
    of the directories [/a1/.../an] (not the root directory) and [a'],
    and [a'] is at or below [/a1/.../an], the two are the same
    directory.  The stash step never moves a directory and then
    something inside it. *)
Theorem compress_for_rename_apart fs P a a' :
  FS.wf (FS.nodes fs) →
  (∀ p, p ∈ P → ∃ q, q ≠ [] ∧ normal q ∧ p = render q) →
  normal a → normal a' → a ≠ [] →
  render a +:+ PosixPath.sep ∈ compress_for_rename iter fs P →
  render a' +:+ PosixPath.sep ∈ compress_for_rename iter fs P →
  a `prefix_of` a' → a = a'.
Proof.
  intros Hwf HP Ha Ha' Hne Hin Hin' Hpre.
  destruct (compress_for_rename_entries iter iter_perm fs P Hwf HP)
    as (R & W & Heq & HR & _ & _ & Hnest & _).
  rewrite Heq in Hin, Hin'.
  assert (∀ b, normal b → render b +:+ PosixPath.sep ∈ R ∪ W →
               render b +:+ PosixPath.sep ∈ W) as Hw.
  { intros b Hb [HinR|HinW]%elem_of_union; [|done]. exfalso.
    apply HR, HP in HinR as (q & Hq & Hnq & Heq').
    pose proof (render_not_endswith_sep q Hnq Hq) as Hend.
    by rewrite <-Heq', endswith_app in Hend. }
  apply (Hnest a a'); auto.
Qed.

(** X12.  The compressor gives nothing for an empty plan. *)
Theorem compress_for_rename_empty fs : compress_for_rename iter fs ∅ = ∅.
Proof.
  unfold compress_for_rename.
  assert (iter ∅ = []) as ->.
  { apply Permutation_nil_r. by rewrite iter_perm, elements_empty. }
  cbn. rewrite map_to_list_empty. cbn.
  assert (iter (∅ : gset string) = []) as ->.
  { apply Permutation_nil_r. by rewrite iter_perm, elements_empty. }
  cbn. set_solver.
Qed.

End Wildcards.

(** The two modules of the example: the wildcard of [/env/lib/sub] is in
    the output, and no other wildcard at or below it. *)
Lemma compress_for_rename_apart_witness :
  let P : gset string := {[ "/env/lib/a.py"; "/env/lib/sub/b.py" ]} in
  let a := ["env"; "lib"; "sub"] in
  render a +:+ PosixPath.sep
  ∈ Uninstallers.compress_for_rename elements Examples.disk P ∧
  a = a.
Proof.
  intros P a. split; [apply (bool_decide_unpack _); vm_compute; reflexivity|].
  apply (compress_for_rename_apart elements (λ X, reflexivity (elements X))
           Examples.disk P a a).
  - apply wfb_wf. vm_compute. reflexivity.
  - intros p Hp. apply elem_of_union in Hp as [Hp|Hp];
      apply elem_of_singleton in Hp; subst p.
    + exists ["env"; "lib"; "a.py"]. split; [done|]. by split; [repeat constructor|].
    + exists ["env"; "lib"; "sub"; "b.py"]. split; [done|].
      by split; [repeat constructor|].
  - by repeat constructor.
  - by repeat constructor.
  - done.
  - apply (bool_decide_unpack _). vm_compute. reflexivity.
  - apply (bool_decide_unpack _). vm_compute. reflexivity.
  - done.
Defined.

Lemma compress_for_rename_empty_witness :
  Uninstallers.compress_for_rename elements Examples.disk ∅ = ∅.
Proof.
  apply (compress_for_rename_empty elements (λ X, reflexivity (elements X))
           Examples.disk).
Defined.

(** * More on the stash step *)

Section StashMore.

Import Uninstallers.

Implicit Types s : state.

(** [_get_file_root] of a path that is not below the prefix. *)
Lemma get_file_root_outside e q :
  normal e → normal q → ¬ e `prefix_of` q →
  _get_file_root (render q) (render e) = None.
Proof.
  intros He Hq Hnp. unfold _get_file_root, PurePath.relative_to.
  rewrite !parse_render by done.
  rewrite bool_decide_true by done. by rewrite bool_decide_false.
Qed.

(** X13.  The stash step leaves alone what is not below the prefix.  For
    a regular file [/q1/.../qn] of the plan that is not at or below the
    prefix [/e1/.../ek], the body of the loop of [_stash_files] returns
    with nothing stashed and no temporary directory made; it logs that
    the path is skipped; and the file stays where it is, unless its
    name ends in [.pyc]: a byte-code cache is deleted all the same. *)
Theorem stash_one_outside_prefix s e q d :
  FS.wf (FS.nodes (fs (w s))) →
  envrionment (self s) !! "prefix" = Some (render e) →
  normal e → normal q →
  FS.nodes (fs (w s)) !! q = Some (FS.File d) →
  ¬ e `prefix_of` q →
  ∃ s',
    stash_one (render q) s = (Ok tt, s') ∧ self s' = self s ∧
    FS.nodes (fs (w s'))
    = (if Str.endswith (render q) ".pyc"
       then delete q (FS.nodes (fs (w s)))
       else FS.nodes (fs (w s))) ∧
    log (w s')
    = log (w s)
      ++ [("debug", "Removing file " +:+ render q);
          ("debug",
           "File path " +:+ render q +:+ " is not under packages root, skip")].
Proof.
  intros Hwf Hprefix He Hq Hfile Hnp. unfold stash_one.
  erewrite bind_run; [|apply probe_run].
  rewrite exists_render, Hfile, bool_decide_true by (done || by eexists).
  cbn [negb]. erewrite bind_run; [|apply probe_run].
  rewrite isdir_render, Hfile by done. cbn [FS.is_dir].
  erewrite bind_run; [|apply log_run].
  destruct (Str.endswith (render q) ".pyc") eqn:Hpyc; cbn [when].
  - erewrite bind_run.
    2: { apply sys_run. cbn. by apply (unlink_render _ _ d). }
    erewrite bind_run; [|apply field_run].
    erewrite bind_run; [|by apply getitem_run].
    erewrite bind_run; [|apply probe_run].
    rewrite (abspath_spelled _ e (render e)) by (done || by left).
    rewrite get_file_root_outside by done.
    eexists. split; [apply log_run|]. cbn. by rewrite <-(assoc_L (++)).
  - erewrite bind_run; [|reflexivity].
    erewrite bind_run; [|apply field_run].
    erewrite bind_run; [|by apply getitem_run].
    erewrite bind_run; [|apply probe_run].
    rewrite (abspath_spelled _ e (render e)) by (done || by left).
    rewrite get_file_root_outside by done.
    eexists. split; [apply log_run|]. cbn. by rewrite <-(assoc_L (++)).
Qed.

(** A remover that has stashed nothing yet is in the state that the
    stash step keeps. *)
Lemma stashing_init s e t P :
  FS.wf (FS.nodes (fs (w s))) →
  envrionment (self s) !! "prefix" = Some (render e) →
  tmpdir (w s) = render t →
  _tempdirs (self s) = [] → _stashed (self s) = [] →
  NoDup (rand (w s)) →
  (∀ r1, r1 ∈ rand (w s) →
         FS.valid_name (tmpname r1) = true ∧
         FS.nodes (fs (w s)) !! (t ++ [tmpname r1]) = None) →
  stashing e t P (FS.nodes (fs (w s))) s [] [].
Proof.
  intros Hwf Hprefix Htmp Htd Hst Hnd Hfresh. split; try done.
  - by apply stash_tree_init.
  - intros kd T Hin. by apply elem_of_nil in Hin.
  - intros r1 Hr1. destruct (Hfresh r1 Hr1). by split_and!.
Qed.

(** X14.  The first file that a remover stashes.  The prefix is
    [/e1/.../ek], the directory of the temporary files [/t1/.../tj] is
    not at or below it, nothing is stashed yet, and the random names of
    the temporary directories are distinct and free.  The regular file
    [/e1/.../ek/c/r1/.../rn] with the bytes [d], two levels or more
    below the prefix and no byte-code cache, shares its directory with
    another regular file [sib].  Then the body of the loop of
    [_stash_files] returns; it has made one temporary directory,
    [/t1/.../tj/pdm-NAME-uninstall] for the first random name, recorded
    under the key [/e1/.../ek/c]; the bytes are now at the same
    relative path [r1/.../rn] in it, and this move is the one entry of
    the stash record; nothing is at the old place, and every other node
    that there was is as before. *)
Theorem stash_one_moves_file s e t c r r0 rest d sib d' :
  let tr0 := FS.nodes (fs (w s)) in
  let ol := e ++ c :: r in
  let T := t ++ [tmpname r0] in
  FS.wf tr0 → normal e →
  envrionment (self s) !! "prefix" = Some (render e) →
  tmpdir (w s) = render t → tr0 !! t = Some FS.Dir → ¬ e `prefix_of` t →
  _tempdirs (self s) = [] → _stashed (self s) = [] →
  rand (w s) = r0 :: rest → NoDup (rand (w s)) →
  (∀ r1, r1 ∈ rand (w s) →
         FS.valid_name (tmpname r1) = true ∧
         tr0 !! (t ++ [tmpname r1]) = None) →
  r ≠ [] → tr0 !! ol = Some (FS.File d) →
  Str.endswith (render ol) ".pyc" = false →
  tr0 !! (removelast ol ++ [sib]) = Some (FS.File d') →
  removelast ol ++ [sib] ≠ ol →
  ∃ s',
    stash_one (render ol) s = (Ok tt, s') ∧
    _stashed (self s') = [(render ol, render (T ++ r))] ∧
    _tempdirs (self s') = [(render (e ++ [c]), render T)] ∧
    FS.nodes (fs (w s')) !! (T ++ r) = Some (FS.File d) ∧
    FS.nodes (fs (w s')) !! ol = None ∧
    (∀ k i, tr0 !! k = Some i → k ≠ ol → FS.nodes (fs (w s')) !! k = Some i).
Proof.
  intros tr0 ol T Hwf He Hprefix Htmp Htdir Het Htd Hst Hrand Hnd Hfresh Hr
    Hfile Hpyc Hsib Hne.
  set (P := ({[render ol]} : gset string)).
  pose proof (stashing_init s e t P Hwf Hprefix Htmp Htd Hst Hnd Hfresh) as inv.
  fold tr0 in inv.
  assert (normal ol) as Hn by (apply (wf_normal tr0); [done|by eexists]).
  assert (normal (removelast ol ++ [sib])) as Hns
    by (apply (wf_normal tr0); [done|by eexists]).
  assert (granted tr0 e P false ol) as Hgr.
  { split_and!; [done|by exists c, r|set_solver|done|].
    intros Hall.
    assert (render (removelast ol ++ [sib]) ∈ P) as Hin.
    { apply Hall. by exists [sib], d'. }
    apply elem_of_singleton, render_inj in Hin; done. }
  destruct (stash_one_stashable e t P tr0 Hwf Htdir Het He s [] [] (render ol)
              false ol inv) as (res & s' & Hrun & Hres).
  - left. split_and!; [done..|by exists d].
  - done.
  - intros y Hy. by apply elem_of_nil in Hy.
  - destruct res as [[]|err]; [|destruct Hres as (_ & Hres & _); congruence].
    destruct Hres as (kd & T' & rr & Eol & Hkd & [[Hin _]|Hnew] & _).
    { by apply elem_of_nil in Hin. }
    destruct Hnew as (r0' & rest' & Hrand' & -> & _ & inv').
    rewrite Hrand in Hrand'. injection Hrand' as <- <-.
    specialize (Hkd c r eq_refl).
    assert (kd = e ++ [c]) as -> by by destruct r.
    assert (rr = r) as ->.
    { unfold ol in Eol. rewrite <-(assoc_L (++)) in Eol.
      by apply app_inv_head in Eol as [= <-]. }
    fold T in inv'. cbn [app] in inv'.
    exists s'. split; [done|].
    pose proof (sg_tree _ _ _ _ _ _ _ inv') as Htree.
    split_and!.
    + by rewrite (sg_stashed _ _ _ _ _ _ _ inv').
    + rewrite (sg_tempdirs _ _ _ _ _ _ _ inv'). cbn. unfold tempdir_of, key_of.
      cbn. rewrite decide_False; [done|].
      intros Heq. apply (f_equal length) in Heq. rewrite length_app in Heq.
      cbn in Heq. lia.
    + destruct (st_moved _ _ _ _ _ _ _ Htree (false, ol, T ++ r) []) as [Hm _];
        [by left|]. cbn in Hm. rewrite !app_nil_r in Hm. by rewrite Hm.
    + destruct (st_moved _ _ _ _ _ _ _ Htree (false, ol, T ++ r) []) as [_ Hm];
        [by left|]. cbn in Hm. by rewrite !app_nil_r in Hm.
    + intros k i Hk Hkne.
      apply (st_kept _ _ _ _ _ _ _ Htree); [done|].
      intros y ->%list_elem_of_singleton [rest1 ->]. cbn in *.
      destruct rest1; [by rewrite app_nil_r in Hkne|].
      assert (ol ++ s0 :: rest1 = ol ++ s0 :: rest1) as _ by done.
      pose proof (wf_file_leaf tr0 ol (s0 :: rest1) d Hwf Hfile
                    (mk_is_Some _ _ Hk)). done.
Qed.

(** X15.  A byte-code cache that the compressed plan lists is deleted
    and then moved: the body of the loop has no [continue] after
    [os.unlink].  In the setting of a remover that has stashed nothing
    yet, for a regular file [/e1/.../ek/c/r1/.../rn] two levels or more
    below the prefix whose name ends in [.pyc]: the body of the loop of
    [_stash_files] raises [FileNotFoundError]; the file is gone and
    nothing is recorded in the stash record. *)
Theorem stash_one_pyc_raises s e t c r r0 rest d :
  let tr0 := FS.nodes (fs (w s)) in
  let ol := e ++ c :: r in
  FS.wf tr0 → normal e →
  envrionment (self s) !! "prefix" = Some (render e) →
  tmpdir (w s) = render t → tr0 !! t = Some FS.Dir → ¬ e `prefix_of` t →
  _tempdirs (self s) = [] → _stashed (self s) = [] →
  rand (w s) = r0 :: rest → NoDup (rand (w s)) →
  (∀ r1, r1 ∈ rand (w s) →
         FS.valid_name (tmpname r1) = true ∧
         tr0 !! (t ++ [tmpname r1]) = None) →
  r ≠ [] → tr0 !! ol = Some (FS.File d) →
  Str.endswith (render ol) ".pyc" = true →
  ∃ s',
    stash_one (render ol) s = (Raise FileNotFoundError, s') ∧
    FS.nodes (fs (w s')) !! ol = None ∧
    _stashed (self s') = [].
Proof.
  intros tr0 ol Hwf He Hprefix Htmp Htdir Het Htd Hst Hrand Hnd Hfresh Hr
    Hfile Hpyc.
  assert (normal ol) as Hn by (apply (wf_normal tr0); [done|by eexists]).
  assert (e ≠ []) as Hene by (intros ->; apply Het, prefix_nil).
  assert (ol ≠ []) as Hone by (unfold ol; by destruct e).
  set (T := t ++ [tmpname r0]).
  destruct (Hfresh r0) as [Hvalid HT0]; [rewrite Hrand; left|]. fold T in HT0.
  set (tr1 := delete ol tr0).
  assert (FS.wf tr1) as Hwf1.
  { apply wf_delete_leaf; [done..|]. intros n.
    destruct (tr0 !! (ol ++ [n])) as [i|] eqn:Hi; [|done].
    by pose proof (wf_file_leaf tr0 ol [n] d Hwf Hfile (mk_is_Some _ _ Hi)). }
  assert (t ≠ ol) as Htol by (intros ->; unfold tr0 in *; congruence).
  assert (tr1 !! t = Some FS.Dir) as Htdir1
    by by (unfold tr1; rewrite lookup_delete_ne).
  set (s2 := on_fs {| w := add_log "debug" ("Removing file " +:+ render ol) (w s);
                      self := self s |}
               (FS.with_nodes (fs (w s)) tr1)).
  assert (stashing e t ∅ tr1 s2 [] []) as inv2.
  { change (stashing e t ∅ (FS.nodes (fs (w s2))) s2 [] []).
    apply stashing_init; try done. intros r1 Hr1.
    destruct (Hfresh r1 Hr1) as [Hv Hf]. split; [done|]. cbn. unfold tr1.
    apply lookup_delete_None. by right. }
  set (tr2 := <[T := FS.Dir]> tr1).
  assert (FS.wf tr2) as Hwf2 by by apply wf_insert_dir.
  assert (∀ rest', tr0 !! (T ++ rest') = None) as Hfree0
    by by apply free_below.
  assert (is_Some (tr0 !! e)) as Hee.
  { eapply wf_prefix_some; [done|by eexists|].
    unfold ol. by apply prefix_app_r. }
  assert (¬ e `prefix_of` T) as HeT.
  { intros [k Hk]. destruct (decide (k = [])) as [->|Hkne].
    - rewrite app_nil_r in Hk. rewrite <-Hk in Hee. destruct Hee.
      unfold tr0 in *. congruence.
    - destruct (exists_last Hkne) as (k' & z & ->). unfold T in Hk.
      rewrite (assoc_L (++)) in Hk. apply app_inj_tail in Hk as [-> _].
      apply Het. by apply prefix_app_r. }
  assert (¬ T `prefix_of` e) as HTe.
  { intros Hp. assert (is_Some (tr0 !! T)) as [i Hi]; [|congruence].
    eapply wf_prefix_some; [done|by eexists|]. etrans; [exact Hp|].
    unfold ol. by apply prefix_app_r. }
  assert (∀ k, e `prefix_of` k → ¬ T `prefix_of` k) as Hapart.
  { intros k Hek HTk.
    destruct (prefix_weak_total _ _ _ Hek HTk); done. }
  unfold stash_one.
  erewrite bind_run; [|apply probe_run].
  rewrite exists_render by done. fold tr0.
  rewrite Hfile, bool_decide_true by by eexists.
  cbn [negb]. erewrite bind_run; [|apply probe_run].
  rewrite isdir_render by done. fold tr0. rewrite Hfile. cbn [FS.is_dir].
  erewrite bind_run; [|apply log_run]. fold ol. rewrite Hpyc. cbn [when].
  erewrite bind_run.
  2: { apply sys_run. cbn. by apply (unlink_render _ _ d). }
  fold tr0 tr1. change (on_fs _ (FS.with_nodes (fs (w s)) tr1)) with s2.
  erewrite bind_run; [|apply field_run].
  erewrite bind_run; [|by apply getitem_run].
  erewrite bind_run; [|apply probe_run].
  rewrite (abspath_spelled _ e (render e)) by (done || by left).
  rewrite (get_file_root_spelled e c r (render ol)) by (done || by left).
  destruct (exists_last Hr) as (r' & n & Er).
  assert (match r with [] => render e +:+ "/" | _ => render (e ++ [c]) end
          = render (e ++ [c])) as -> by by destruct r.
  erewrite bind_run; [|apply field_run].
  change (_tempdirs (self s2)) with (_tempdirs (self s)). rewrite Htd.
  cbn [list_find].
  erewrite bind_run.
  2: { erewrite bind_run;
         [|by apply (mkdtemp_run e t ∅ tr1 Hwf1 Htdir1 Het s2 [] [] r0 rest)].
       erewrite bind_run; [|apply update_run]. reflexivity. }
  cbn [app]. fold T.
  match goal with |- context [bind (probe Os.getcwd) _ ?st] =>
    set (s3 := st) end.
  assert (FS.nodes (fs (w s3)) = tr2) as Hnodes3 by done.
  erewrite bind_run; [|apply probe_run].
  assert (ol = (e ++ [c]) ++ r) as Eol
    by (unfold ol; by rewrite <-(assoc_L (++))).
  rewrite (relpath_spelled _ (e ++ [c]) r (render ol) (render (e ++ [c])));
    [|by rewrite <-Eol|done|left; by rewrite Eol|by left].
  assert (normal T) as HnT.
  { apply normal_snoc. split; [|done].
    apply (wf_normal tr0); [done|by eexists]. }
  assert (normal r) as Hnr.
  { rewrite Eol in Hn. by apply normal_app in Hn as [_ ?]. }
  cbv zeta. rewrite join_render_rel by done.
  assert (∀ rest', tr2 !! ((T ++ r) ++ rest') = None) as Hfree2.
  { intros rest'. unfold tr2, tr1. rewrite <-(assoc_L (++)).
    rewrite lookup_insert_ne.
    - apply lookup_delete_None. right. apply Hfree0.
    - intros Heq. apply (f_equal length) in Heq. rewrite !length_app in Heq.
      destruct r; [done|]. cbn in Heq. lia. }
  erewrite bind_run; [|apply probe_run].
  rewrite isdir_render; [|by rewrite Hnodes3|by apply normal_app].
  rewrite Hnodes3. pose proof (Hfree2 []) as Hf. rewrite app_nil_r in Hf.
  rewrite Hf. cbn [FS.is_dir andb when].
  erewrite bind_run; [|reflexivity].
  assert (ol = (e ++ c :: r') ++ [n]) as Eol'
    by (unfold ol; rewrite Er; by rewrite <-(assoc_L (++))).
  assert (T ++ r = (T ++ r') ++ [n]) as Enl
    by (rewrite Er; by rewrite (assoc_L (++))).
  destruct (renames_missing_source (fs (w s3)) (e ++ c :: r') n (T ++ r') n)
    as (tr' & Hren & _ & _ & Hnew).
  - by rewrite Hnodes3.
  - by rewrite <-Eol'.
  - rewrite <-Enl. by apply normal_app.
  - rewrite Hnodes3. unfold tr2, tr1.
    assert (tr0 !! (e ++ c :: r') = Some FS.Dir) as Hpd.
    { apply (wf_prefix tr0 _ [n]); [done| |done]. rewrite <-Eol'. by eexists. }
    rewrite lookup_insert_ne, lookup_delete_ne; [done| |].
    + rewrite Eol'. intros Heq. apply (f_equal length) in Heq.
      rewrite length_app in Heq. cbn in Heq. lia.
    + intros Heq. rewrite <-Heq in Hpd. congruence.
  - rewrite Hnodes3, <-Eol'. unfold tr2, tr1.
    rewrite lookup_insert_ne, lookup_delete_eq; [done|].
    intros Heq. unfold tr0 in *. congruence.
  - rewrite Hnodes3, <-Enl. done.
  - rewrite Hnodes3. intros a d0 Ha. unfold tr2, tr1.
    destruct (decide (a = T)) as [->|HaT]; [by rewrite lookup_insert_eq|].
    rewrite lookup_insert_ne by done. intros Hl.
    apply lookup_delete_Some in Hl as [_ Hl].
    destruct (prefix_weak_total _ _ _ Ha (prefix_app_r T T r' (reflexivity _)))
      as [HaT'|[k ->]].
    + destruct HaT' as [k Hk]. unfold T in Hk.
      destruct (decide (k = [])) as [->|Hkne];
        [by rewrite app_nil_r in Hk|].
      destruct (exists_last Hkne) as (k' & z & ->).
      rewrite (assoc_L (++)) in Hk. apply app_inj_tail in Hk as [-> _].
      pose proof (wf_prefix_some tr0 a (a ++ k') Hwf (mk_is_Some _ _ Htdir)
                    (prefix_app_r a a k' (reflexivity _))) as [j Hj].
      destruct (decide (k' = [])) as [->|Hk'].
      * rewrite app_nil_r in Htdir. unfold tr0 in *. congruence.
      * rewrite (wf_prefix tr0 a k' Hwf (mk_is_Some _ _ Htdir) Hk') in Hl.
        done.
    + rewrite Hfree0 in Hl. done.
  - rewrite <-Eol'. intros Hp. apply (Hapart (T ++ r')).
    + etrans; [|exact Hp]. unfold ol. by apply prefix_app_r.
    + by apply prefix_app_r.
  - rewrite <-Eol', <-Enl in Hren.
    eexists. split.
    + apply bind_raise. apply sys_run. exact Hren.
    + cbn. split; [|done].
      destruct (tr' !! ol) as [i|] eqn:Hi; [|done].
      apply Hnew in Hi as [Hi|[_ Hp]].
      * rewrite Hnodes3 in Hi. unfold tr2, tr1 in Hi.
        rewrite lookup_insert_ne, lookup_delete_eq in Hi; [done|].
        intros Heq. unfold tr0 in *. congruence.
      * exfalso. apply (Hapart (T ++ r')).
        -- etrans; [|exact Hp]. unfold ol. by apply prefix_app_r.
        -- by apply prefix_app_r.
Qed.

End StashMore.

(** The file [/tmp/other] of the example, for the prefix [/env]. *)
Lemma stash_one_outside_prefix_witness :
  let s := Examples.planned {["/tmp/other"]} ∅ in
  ∃ s',
    Uninstallers.stash_one (render ["tmp"; "other"]) s = (Ok tt, s') ∧
    Uninstallers.self s' = Uninstallers.self s ∧
    FS.nodes (fs (Uninstallers.w s'))
    = (if Str.endswith (render ["tmp"; "other"]) ".pyc"
       then delete ["tmp"; "other"] (FS.nodes (fs (Uninstallers.w s)))
       else FS.nodes (fs (Uninstallers.w s))) ∧
    log (Uninstallers.w s')
    = log (Uninstallers.w s)
      ++ [("debug", "Removing file " +:+ render ["tmp"; "other"]);
          ("debug",
           "File path " +:+ render ["tmp"; "other"]
           +:+ " is not under packages root, skip")].
Proof.
  intros s.
  apply (stash_one_outside_prefix s ["env"] ["tmp"; "other"] "x").
  - apply wfb_wf. vm_compute. reflexivity.
  - reflexivity.
  - by repeat constructor.
  - by repeat constructor.
  - vm_compute. reflexivity.
  - apply (bool_decide_unpack _). vm_compute. reflexivity.
Defined.

(** The module [/env/lib/a.py] of the example, next to [keep.txt]. *)
Lemma stash_one_moves_file_witness :
  let s := Examples.planned {["/env/lib/a.py"]} ∅ in
  let e := ["env"] in
  let ol := e ++ "lib" :: ["a.py"] in
  let T := ["tmp"] ++ [tmpname "aaa"] in
  ∃ s',
    Uninstallers.stash_one (render ol) s = (Ok tt, s') ∧
    Uninstallers._stashed (Uninstallers.self s')
    = [(render ol, render (T ++ ["a.py"]))] ∧
    Uninstallers._tempdirs (Uninstallers.self s')
    = [(render (e ++ ["lib"]), render T)] ∧
    FS.nodes (fs (Uninstallers.w s')) !! (T ++ ["a.py"]) = Some (FS.File "A") ∧
    FS.nodes (fs (Uninstallers.w s')) !! ol = None ∧
    (∀ k i, FS.nodes (fs (Uninstallers.w s)) !! k = Some i → k ≠ ol →
            FS.nodes (fs (Uninstallers.w s')) !! k = Some i).
Proof.
  intros s e ol T.
  apply (stash_one_moves_file s e ["tmp"] "lib" ["a.py"] "aaa" ["bbb"; "ccc"]
           "A" "keep.txt" "K").
  - apply wfb_wf. vm_compute. reflexivity.
  - by repeat constructor.
  - reflexivity.
  - reflexivity.
  - vm_compute. reflexivity.
  - apply (bool_decide_unpack _). vm_compute. reflexivity.
  - reflexivity.
  - reflexivity.
  - reflexivity.
  - apply (bool_decide_unpack _). vm_compute. reflexivity.
  - intros r1 Hr1.
    repeat (apply elem_of_cons in Hr1 as [->|Hr1]);
      [split; vm_compute; reflexivity..|by apply elem_of_nil in Hr1].
  - done.
  - vm_compute. reflexivity.
  - vm_compute. reflexivity.
  - vm_compute. reflexivity.
  - apply (bool_decide_unpack _). vm_compute. reflexivity.
Defined.

(** The byte-code cache [/env/lib/a.pyc] of the example. *)
Lemma stash_one_pyc_raises_witness :
  let s := Examples.planned {["/env/lib/a.pyc"]} ∅ in
  let ol := ["env"] ++ "lib" :: ["a.pyc"] in
  ∃ s',
    Uninstallers.stash_one (render ol) s = (Raise FileNotFoundError, s') ∧
    FS.nodes (fs (Uninstallers.w s')) !! ol = None ∧
    Uninstallers._stashed (Uninstallers.self s') = [].
Proof.
  intros s ol.
  apply (stash_one_pyc_raises s ["env"] ["tmp"] "lib" ["a.pyc"] "aaa"
           ["bbb"; "ccc"] "C").
  - apply wfb_wf. vm_compute. reflexivity.
  - by repeat constructor.
  - reflexivity.
  - reflexivity.
  - vm_compute. reflexivity.
  - apply (bool_decide_unpack _). vm_compute. reflexivity.
  - reflexivity.
  - reflexivity.
  - reflexivity.
  - apply (bool_decide_unpack _). vm_compute. reflexivity.
  - intros r1 Hr1.
    repeat (apply elem_of_cons in Hr1 as [->|Hr1]);
      [split; vm_compute; reflexivity..|by apply elem_of_nil in Hr1].
  - done.
  - vm_compute. reflexivity.
  - vm_compute. reflexivity.
Defined.

(** * Commit *)

Section Commit.

Import Uninstallers.

Implicit Types s : state.

(** A computation in the world leaves the instance alone. *)
Lemma in_world_self {A} (m : M world A) :
  Steps (λ s s', self s' = self s) (in_world m).
Proof.
  intros s r s'. unfold in_world, zoom. destruct (m (w s)). by intros [= <- <-].
Qed.

Lemma cleanup_self name :
  Steps (λ s s', self s' = self s)
    (try_except (in_world (Tempfile.cleanup name)) is_FileNotFoundError
       (ret tt)).
Proof.
  intros s r s'. unfold try_except.
  destruct (in_world _ s) as [[[]|err] s1] eqn:Hrun;
    apply in_world_self in Hrun.
  - by intros [= <- <-].
  - destruct (is_FileNotFoundError err); by intros [= <- <-].
Qed.

(** X16.  Commit closes the transaction.  When [commit] returns, the
    instance holds no temporary directory, no stash record and no saved
    registry; the plan is as it was.  A rollback after it restores
    nothing: it logs that nothing is uninstalled yet and returns, with
    the file system and the instance as commit left them. *)
Theorem commit_then_rollback s s1 :
  commit s = (Ok tt, s1) →
  _tempdirs (self s1) = [] ∧ _stashed (self s1) = [] ∧
  _saved_pth (self s1) = None ∧
  _paths (self s1) = _paths (self s) ∧
  _pth_entries (self s1) = _pth_entries (self s) ∧
  ∃ s2,
    rollback s1 = (Ok tt, s2) ∧ fs (w s2) = fs (w s1) ∧ self s2 = self s1.
Proof.
  unfold commit. intros Hrun.
  apply bind_ok in Hrun as (tempdirs & ? & [= <- <-] & Hrun).
  apply bind_ok in Hrun as ([] & sa & Hloop & Hrun).
  assert (self sa = self s) as Hsa.
  { eapply (Steps_for_each (λ s s' : state, self s' = self s));
      [done|congruence| |exact Hloop].
    intros kv _. apply cleanup_self. }
  apply bind_ok in Hrun as ([] & ? & [= <-] & Hrun).
  apply bind_ok in Hrun as ([] & ? & [= <-] & Hrun).
  apply bind_ok in Hrun as ([] & ? & [= <-] & Hrun).
  apply bind_ok in Hrun as (refer & ? & [= <- <-] & Hrun). cbn in Hrun.
  assert (self s1
          = set_saved_pth None (set_stashed [] (set_tempdirs [] (self sa))))
    as Hself.
  { destruct (refer_to (self sa)) as [[|a refer]|]; by injection Hrun as <-. }
  rewrite Hself, Hsa. split_and!; [done..|].
  eexists. split.
  - unfold rollback. erewrite bind_run; [|reflexivity]. cbn.
    rewrite Hself. cbn. reflexivity.
  - cbn. by rewrite Hself, Hsa.
Qed.

(** The error of a path on whose way there is no regular file. *)
Lemma walk_err_no_file tr cur p :
  normal p →
  (∀ a d, a `prefix_of` cur ++ p → tr !! a ≠ Some (FS.File d)) →
  FS.walk_err tr cur p = FileNotFoundError.
Proof.
  intros Hp. revert cur. induction Hp as [|c p Hc Hp IH]; intros cur Hnf; [done|].
  cbn. destruct (tr !! cur) as [[d|]|] eqn:Hcur; [|..|done].
  - destruct (Hnf cur d); [by apply prefix_app_r|done].
  - rewrite (bool_decide_false (c = EmptyString))
      by by apply valid_name_nonempty.
    rewrite (bool_decide_false (c = ".")) by by apply valid_name_not_dot.
    rewrite (bool_decide_false (c = "..")) by by apply valid_name_not_dotdot.
    cbn. apply IH. intros a d Ha. apply Hnf.
    by rewrite <-(assoc_L (++)) in Ha.
Qed.

(** The cleanup of a temporary directory that may be gone. *)
Lemma cleanup_render s T :
  FS.wf (FS.nodes (fs (w s))) → normal T → T ≠ [] →
  (∀ a d, a `prefix_of` T → FS.nodes (fs (w s)) !! a ≠ Some (FS.File d)) →
  try_except (in_world (Tempfile.cleanup (render T))) is_FileNotFoundError
    (ret tt) s
  = (Ok tt, on_fs s (FS.with_nodes (fs (w s))
                       (FS.remove_tree (FS.nodes (fs (w s))) T))).
Proof.
  intros Hwf HT Hne Hnf.
  unfold try_except, in_world, Tempfile.cleanup, os, zoom.
  destruct (FS.nodes (fs (w s)) !! T) as [[d|]|] eqn:Hl.
  - by destruct (Hnf T d).
  - by rewrite rmtree_render.
  - assert (FS.remove_tree (FS.nodes (fs (w s))) T = FS.nodes (fs (w s)))
      as ->.
    { apply map_eq. intros k. rewrite lookup_remove_tree.
      destruct (decide _) as [[rest ->]|]; [|done].
      symmetry. by apply free_below. }
    rewrite with_nodes_id.
    unfold Os.rmtree, Os.syscall, FS.rmtree.
    destruct (FS.resolve (fs (w s)) (render T)) as [p|] eqn:Hres.
    + apply resolve_render_inv in Hres as (-> & _); [|done].
      rewrite Hl. cbn. unfold ret, on_fs. by destruct s as [[] ?].
    + assert (FS.resolve_err (fs (w s)) (render T) = FileNotFoundError) as ->.
      { unfold FS.resolve_err. rewrite start_render, split_on_render by done.
        cbn. destruct Hwf as [-> _]. cbn. by apply walk_err_no_file. }
      cbn. unfold ret, on_fs. by destruct s as [[] ?].
Qed.

(** The loop of [commit] over temporary directories. *)
Lemma commit_loop Ts :
  ∀ s names,
    names.*2 = render <$> Ts →
    FS.wf (FS.nodes (fs (w s))) →
    (∀ T, T ∈ Ts →
       normal T ∧ T ≠ [] ∧
       ∀ a d, a `prefix_of` T → FS.nodes (fs (w s)) !! a ≠ Some (FS.File d)) →
    ∃ s',
      for_each names
        (λ kv : string * string,
           try_except (in_world (Tempfile.cleanup kv.2)) is_FileNotFoundError
             (ret tt)) s
      = (Ok tt, s') ∧
      self s' = self s ∧ log (w s') = log (w s) ∧
      FS.wf (FS.nodes (fs (w s'))) ∧
      ∀ k, FS.nodes (fs (w s')) !! k
           = if decide (Exists (λ T, T `prefix_of` k) Ts) then None
             else FS.nodes (fs (w s)) !! k.
Proof.
  induction Ts as [|T Ts IH]; intros s names Hnames Hwf HTs.
  - apply fmap_nil_inv in Hnames as ->. by exists s.
  - destruct names as [|[key name] names]; [done|].
    injection Hnames as -> Hnames.
    destruct (HTs T) as (HnT & HTne & Hnf); [left|].
    cbn [for_each]. erewrite bind_run; [|by apply cleanup_render].
    set (s1 := on_fs s _).
    destruct (IH s1 names Hnames) as (s' & Hrun & Hself & Hlog & Hwf' & Hlook).
    + cbn. by apply wf_remove_tree.
    + intros T' HT'. destruct (HTs T') as (? & ? & Hnf'); [by right|].
      split_and!; [done..|]. intros a d Ha. cbn.
      rewrite lookup_remove_tree. destruct (decide _); [done|by apply Hnf'].
    + exists s'. split_and!; [done..|].
      intros k. rewrite Hlook. cbn. rewrite lookup_remove_tree.
      destruct (decide (Exists _ Ts)) as [Hex|Hex].
      * rewrite decide_True; [done|by right].
      * destruct (decide (T `prefix_of` k)) as [Hp|Hp].
        -- rewrite decide_True; [done|by left].
        -- rewrite decide_False; [done|].
           by intros [?|?]%Exists_cons.
Qed.

(** X17.  Commit deletes the temporary directories, and nothing else.
    The temporary directories of the instance are [/T1], ..., [/Tn],
    none of them the root directory, with no regular file at them or in
    their way (some may be gone already), and the plan refers to no
    cached package.  Then [commit] returns; nothing is left at or below
    any of the directories, and every other node of the file system is
    as before. *)
Theorem commit_cleans s Ts :
  FS.wf (FS.nodes (fs (w s))) →
  (_tempdirs (self s)).*2 = render <$> Ts →
  (∀ T, T ∈ Ts →
     normal T ∧ T ≠ [] ∧
     ∀ a d, a `prefix_of` T → FS.nodes (fs (w s)) !! a ≠ Some (FS.File d)) →
  refer_to (self s) = None →
  ∃ s1,
    commit s = (Ok tt, s1) ∧
    ∀ k, FS.nodes (fs (w s1)) !! k
         = if decide (Exists (λ T, T `prefix_of` k) Ts) then None
           else FS.nodes (fs (w s)) !! k.
Proof.
  intros Hwf Hnames HTs Hrefer.
  destruct (commit_loop Ts s (_tempdirs (self s)) Hnames Hwf HTs)
    as (s' & Hrun & Hself & Hlog & Hwf' & Hlook).
  unfold commit. erewrite bind_run; [|reflexivity].
  erewrite bind_run; [|exact Hrun].
  erewrite bind_run; [|reflexivity].
  erewrite bind_run; [|reflexivity].
  erewrite bind_run; [|reflexivity].
  erewrite bind_run; [|reflexivity]. cbn. rewrite Hself, Hrefer.
  eexists. split; [reflexivity|]. done.
Qed.

End Commit.

(** The remover of the example after it has stashed the module
    [/env/lib/a.py]. *)
Lemma commit_then_rollback_witness :
  let s :=
    (Uninstallers.stash_one "/env/lib/a.py"
       (Examples.planned {["/env/lib/a.py"]} ∅)).2 in
  ∃ s1,
    Uninstallers.commit s = (Ok tt, s1) ∧
    Uninstallers._tempdirs (Uninstallers.self s1) = [] ∧
    Uninstallers._stashed (Uninstallers.self s1) = [] ∧
    Uninstallers._saved_pth (Uninstallers.self s1) = None ∧
    Uninstallers._paths (Uninstallers.self s1)
    = Uninstallers._paths (Uninstallers.self s) ∧
    Uninstallers._pth_entries (Uninstallers.self s1)
    = Uninstallers._pth_entries (Uninstallers.self s) ∧
    ∃ s2,
      Uninstallers.rollback s1 = (Ok tt, s2) ∧
      fs (Uninstallers.w s2) = fs (Uninstallers.w s1) ∧
      Uninstallers.self s2 = Uninstallers.self s1.
Proof.
  intros s. eexists. split; [vm_compute; reflexivity|].
  eapply (commit_then_rollback s). vm_compute. reflexivity.
Defined.

Lemma commit_cleans_witness :
  let s :=
    (Uninstallers.stash_one "/env/lib/a.py"
       (Examples.planned {["/env/lib/a.py"]} ∅)).2 in
  let Ts := [["tmp"; tmpname "aaa"]] in
  ∃ s1,
    Uninstallers.commit s = (Ok tt, s1) ∧
    ∀ k, FS.nodes (fs (Uninstallers.w s1)) !! k
         = if decide (Exists (λ T, T `prefix_of` k) Ts) then None
           else FS.nodes (fs (Uninstallers.w s)) !! k.
Proof.
  intros s Ts. apply (commit_cleans s Ts).
  - apply wfb_wf. vm_compute. reflexivity.
  - vm_compute. reflexivity.
  - intros T ->%list_elem_of_singleton. split_and!.
    + by repeat constructor.
    + done.
    + apply no_file_along. vm_compute. reflexivity.
  - vm_compute. reflexivity.
Defined.

(** * The loop of the stash step *)

Section StashLoop.

Import Uninstallers.

Variables e t : list string.
Variable P : gset string.
Variable tr0 : gmap (list string) FS.inode.

Hypothesis tr0_wf : FS.wf tr0.
Hypothesis t_dir : tr0 !! t = Some FS.Dir.
Hypothesis e_not_in_t : ¬ e `prefix_of` t.
Hypothesis e_normal : normal e.

Implicit Types s : state.
Implicit Types ents : list entry.
Implicit Types temps : list (list string * list string).

(** The body of the loop passes over an entry that names nothing. *)
Lemma stash_one_skipped s ents temps x :
  stashing e t P tr0 s ents temps → skipped tr0 e x →
  stash_one x s = (Ok tt, s).
Proof.
  intros inv (q & Hq & Hne & Hunder & Hx).
  pose proof (sg_tree _ _ _ _ _ _ _ inv) as Htree.
  pose proof (st_wf _ _ _ _ _ _ _ Htree) as Hwf.
  assert (FS.exists_ (fs (w s)) x = false) as Hex.
  { unfold FS.exists_. apply bool_decide_eq_false. intros [i Hi].
    destruct Hx as [[-> Hnone]|[-> Hnd]].
    - rewrite stat_render_wf in Hi by done.
      apply (st_under_e e t P tr0 Htree) in Hi; [congruence|done].
    - rewrite stat_trail in Hi by done.
      destruct (FS.is_dir _) eqn:Hd; [|done]. apply is_dir_true in Hd.
      apply (st_under_e e t P tr0 Htree) in Hd; done. }
  unfold stash_one. erewrite bind_run; [|apply probe_run]. by rewrite Hex.
Qed.

(** An entry of the compressed plan names one place, in one way. *)
Lemma stashable_inj x dir ol dir' ol' :
  stashable tr0 x dir ol → stashable tr0 x dir' ol' → dir = dir' ∧ ol = ol'.
Proof.
  assert (∀ q i, tr0 !! q = Some i → normal q) as Hnorm.
  { intros q i Hq. apply (wf_normal tr0); [done|by eexists]. }
  assert (∀ q q' d, tr0 !! q = Some (FS.File d) →
                    render q ≠ render q' +:+ "/") as Hends.
  { intros q q' d Hq Heq.
    assert (q ≠ []) as Hne.
    { intros ->. destruct tr0_wf as [Hroot _]. congruence. }
    pose proof (render_not_endswith_sep q (Hnorm _ _ Hq) Hne) as Hend.
    by rewrite Heq, endswith_app in Hend. }
  intros [(-> & -> & d & Hd)|(-> & -> & Hd)]
         [(-> & Heq & d' & Hd')|(-> & Heq & Hd')].
  - apply render_inj in Heq; [done|by eapply Hnorm..].
  - by destruct (Hends ol ol' d).
  - symmetry in Heq. by destruct (Hends ol' ol d').
  - apply str_app_inj_r, render_inj in Heq; [done|by eapply Hnorm..].
Qed.

Lemma skipped_not_stashable x dir ol :
  skipped tr0 e x → ¬ stashable tr0 x dir ol.
Proof.
  intros (q & Hq & Hne & _ & Hx) Hst.
  assert (normal ol) as Hol.
  { apply (wf_normal tr0); [done|].
    destruct Hst as [(_ & _ & d & ->)|(_ & _ & ->)]; by eexists. }
  assert (ol ≠ []) as Holne.
  { intros ->. destruct tr0_wf as [Hroot _].
    destruct Hst as [(_ & _ & d & Hd)|(_ & Heq & _)]; [congruence|].
    destruct Hx as [[-> _]|[-> _]].
    - pose proof (render_not_endswith_sep q Hq Hne) as Hend.
      by rewrite Heq, endswith_app in Hend.
    - apply str_app_inj_r, render_inj in Heq; done. }
  destruct Hst as [(_ & -> & d & Hd)|(_ & -> & Hd)], Hx as [[Heq Hn]|[Heq Hn]].
  - apply render_inj in Heq; [|done..]. congruence.
  - pose proof (render_not_endswith_sep ol Hol Holne) as Hend.
    by rewrite Heq, endswith_app in Hend.
  - pose proof (render_not_endswith_sep q Hq Hne) as Hend.
    by rewrite <-Heq, endswith_app in Hend.
  - apply str_app_inj_r, render_inj in Heq; [|done..]. congruence.
Qed.

(** The loop over entries that are moved or passed over, the moved ones
    pairwise apart.  It raises when the names for temporary directories
    run out, and only then; when it returns, every entry that names a
    node has been moved. *)
Lemma stash_loop l :
  ∀ s ents temps,
    stashing e t P tr0 s ents temps → NoDup ents →
    (∀ x, x ∈ l →
       skipped tr0 e x ∨
       ∃ dir ol, stashable tr0 x dir ol ∧ granted tr0 e P dir ol) →
    (∀ i j x y dx dy ox oy,
       i ≠ j → l !! i = Some x → l !! j = Some y →
       stashable tr0 x dx ox → stashable tr0 y dy oy → ¬ ox `prefix_of` oy) →
    (∀ y x dir ol,
       y ∈ ents → x ∈ l → stashable tr0 x dir ol →
       ¬ origin y `prefix_of` ol ∧ ¬ ol `prefix_of` origin y) →
    ∃ res s',
      for_each l stash_one s = (res, s') ∧
      match res with
      | Ok _ =>
          ∃ ents' temps',
            stashing e t P tr0 s' ents' temps' ∧ NoDup ents' ∧
            (∀ y, y ∈ ents → y ∈ ents') ∧
            (∀ x dir ol, x ∈ l → stashable tr0 x dir ol →
                         ∃ h, (dir, ol, h) ∈ ents') ∧
            (∀ y, y ∈ ents' →
                  y ∈ ents ∨
                  ∃ x, x ∈ l ∧ stashable tr0 x (is_dir_entry y) (origin y)) ∧
            length (rand (w s)) ≤ length l + length (rand (w s'))
      | Raise err =>
          err = FileExistsError ∧ length (rand (w s)) < length l ∧
          ∃ sm ents' temps',
            stashing e t P tr0 sm ents' temps' ∧ fs (w s') = fs (w sm)
      end.
Proof.
  induction l as [|x l IH]; intros s ents temps inv Hnd Hclass Hpair Hold.
  { exists (Ok tt), s. split; [done|]. exists ents, temps.
    split_and!; [done..| | |done].
    - by intros x dir ol ?%elem_of_nil.
    - intros y Hy. by left. }
  cbn [for_each].
  assert (∀ i j x y dx dy ox oy,
       i ≠ j → l !! i = Some x → l !! j = Some y →
       stashable tr0 x dx ox → stashable tr0 y dy oy → ¬ ox `prefix_of` oy)
    as Hpair'.
  { intros i j x' y' dx dy ox oy Hij Hi Hj.
    apply (Hpair (S i) (S j)); [congruence|done..]. }
  destruct (Hclass x) as [Hskip|(dir & ol & Hst & Hgr)]; [left|..].
  - erewrite bind_run; [|by apply (stash_one_skipped s ents temps)].
    destruct (IH s ents temps inv Hnd) as (res & s' & Hrun & Hres); [|done| |].
    { intros x' Hx'. apply Hclass. by right. }
    { intros y x' dir ol Hy Hx'. apply Hold; [done|by right]. }
    exists res, s'. split; [done|]. destruct res as [[]|err].
    + destruct Hres as (ents' & temps' & inv' & Hnd' & Hsub & Hcov & Hfrom & Hlen).
      exists ents', temps'. split_and!; [done..| | |cbn; lia].
      * intros x' dir ol [->|Hx']%elem_of_cons Hst; [|by eapply Hcov].
        by destruct (skipped_not_stashable x dir ol).
      * intros y Hy. destruct (Hfrom y Hy) as [?|(x' & Hx' & ?)]; [by left|].
        right. exists x'. split; [by right|done].
    + destruct Hres as (-> & Hlen & Hmid). split_and!; [done|cbn; lia|done].
  - assert (∀ y, y ∈ ents →
              ¬ origin y `prefix_of` ol ∧ ¬ ol `prefix_of` origin y) as Hap.
    { intros y Hy. apply (Hold y x dir ol); [done|left|done]. }
    destruct (stash_one_stashable e t P tr0 tr0_wf t_dir e_not_in_t e_normal
                s ents temps x dir ol inv Hst Hgr Hap)
      as (res1 & s1 & Hrun1 & Hres1).
    destruct res1 as [[]|err]; cycle 1.
    { destruct Hres1 as (-> & Hrand & Hfs). exists (Raise FileExistsError), s1.
      split; [by apply bind_raise|].
      split_and!; [done|rewrite Hrand; cbn; lia|]. by exists s, ents, temps. }
    destruct Hres1 as (kd & T & r & Eol & _ & Hinv & Hlen1).
    assert (∃ temps', stashing e t P tr0 s1 (ents ++ [(dir, ol, T ++ r)]) temps')
      as [temps' inv1].
    { destruct Hinv as [[_ ?]|(? & ? & _ & _ & _ & ?)]; by eexists. }
    erewrite bind_run; [|exact Hrun1].
    destruct (IH s1 _ temps' inv1) as (res & s' & Hrun & Hres); [| |done| |].
    { apply NoDup_app. split_and!; [done| |apply NoDup_singleton].
      intros y Hy ->%list_elem_of_singleton.
      by destruct (Hap _ Hy) as [[] _]. }
    { intros x' Hx'. apply Hclass. by right. }
    { intros y x' dir' ol' [Hy| ->%list_elem_of_singleton]%elem_of_app Hx' Hst'.
      * apply (Hold y x' dir' ol'); [done|by right|done].
      * apply list_elem_of_lookup in Hx' as [j Hj]. cbn. split.
        -- by apply (Hpair 0 (S j) x x' dir dir' ol ol').
        -- by apply (Hpair (S j) 0 x' x dir' dir ol' ol). }
    exists res, s'. split; [done|]. destruct res as [[]|err].
    + destruct Hres as (ents' & temps'' & inv' & Hnd' & Hsub & Hcov & Hfrom & Hlen).
      exists ents', temps''. split_and!; [done..| | | |cbn; lia].
      * intros y Hy. apply Hsub, elem_of_app. by left.
      * intros x' dir' ol' [->|Hx']%elem_of_cons Hst'; [|by eapply Hcov].
        destruct (stashable_inj _ _ _ _ _ Hst Hst') as [<- <-].
        exists (T ++ r). apply Hsub, elem_of_app. right. left.
      * intros y Hy.
        destruct (Hfrom y Hy)
          as [[?| ->%list_elem_of_singleton]%elem_of_app|(x' & Hx' & ?)].
        -- by left.
        -- right. exists x. split; [left|done].
        -- right. exists x'. split; [by right|done].
    + destruct Hres as (-> & Hlen & Hmid). split_and!; [done|cbn; lia|done].
Qed.

End StashLoop.

Section Classification.

Import Uninstallers.

Variable iter : gset string → list string.
Hypothesis iter_perm : ∀ X, iter X ≡ₚ elements X.

(** What the compressed plan holds, for a plan of paths two levels or
    more below the prefix whose nodes are regular files, none of them a
    byte-code cache. *)
Lemma plan_entries fs e P :
  FS.wf (FS.nodes fs) → e ≠ [] →
  (∀ p, p ∈ P →
     ∃ c r, r ≠ [] ∧ normal (e ++ c :: r) ∧ p = render (e ++ c :: r) ∧
            ∀ i, FS.nodes fs !! (e ++ c :: r) = Some i →
                 (∃ d, i = FS.File d) ∧ Str.endswith p ".pyc" = false) →
  let l := iter (compress_for_rename iter fs P) in
  (∀ x, x ∈ l →
     skipped (FS.nodes fs) e x ∨
     ∃ dir ol, stashable (FS.nodes fs) x dir ol
               ∧ granted (FS.nodes fs) e P dir ol) ∧
  (∀ i j x y dx dy ox oy,
     i ≠ j → l !! i = Some x → l !! j = Some y →
     stashable (FS.nodes fs) x dx ox → stashable (FS.nodes fs) y dy oy →
     ¬ ox `prefix_of` oy) ∧
  (∀ q d, render q ∈ P → FS.nodes fs !! q = Some (FS.File d) →
          ∃ x dir ol, x ∈ l ∧ stashable (FS.nodes fs) x dir ol
                      ∧ ol `prefix_of` q).
Proof.
  intros Hwf Hene HP l.
  assert (∀ p, p ∈ P → ∃ q, q ≠ [] ∧ normal q ∧ p = render q) as HP'.
  { intros p (c & r & _ & Hn & -> & _)%HP. exists (e ++ c :: r).
    split_and!; [by destruct e|done..]. }
  destruct (compress_for_rename_entries iter iter_perm fs P Hwf HP')
    as (R & W & Heq & HR & HW & Hcov & Hnest & HK).
  assert (∀ x, x ∈ l ↔ x ∈ R ∨ x ∈ W) as Hl.
  { intros x. unfold l. rewrite iter_perm, elem_of_elements, Heq.
    apply elem_of_union. }
  assert (NoDup l) as Hnd.
  { unfold l. rewrite iter_perm. apply NoDup_elements. }
  assert (∀ x, x ∈ R → ∃ q, q ≠ [] ∧ normal q ∧ x = render q) as HRq
    by (intros x Hx; by apply HP', HR).
  assert (∀ x a, x ∈ R → x ≠ render a +:+ "/") as HRW.
  { intros x a (q & Hq & Hnq & ->)%HRq Heq'.
    pose proof (render_not_endswith_sep q Hnq Hq) as Hend.
    by rewrite Heq', endswith_app in Hend. }
  assert (∀ x, x ∈ W →
            ∃ c r, normal (e ++ c :: r) ∧ x = render (e ++ c :: r) +:+ "/" ∧
                   ∀ p, file_under (FS.nodes fs) (e ++ c :: r) p →
                        p ∈ P ∧ p ∉ R) as HWq.
  { intros x (a & Ha & -> & (p & Hp & Hdir) & Hall)%HW.
    destruct (HP p Hp) as (c & r & Hr & Hn & -> & _).
    destruct (exists_last Hr) as (r' & n & ->).
    change (e ++ c :: r' ++ [n]) with (e ++ (c :: r') ++ [n]) in *.
    rewrite (assoc_L (++)) in Hdir, Hn.
    apply normal_snoc in Hn as [Hn' Hv].
    rewrite dirname_render_snoc in Hdir by done.
    apply render_inj in Hdir; [|done..]. subst a. by exists c, r'. }
  split_and!.
  - intros x [HxR|HxW]%Hl.
    + destruct (HP x (HR x HxR)) as (c & r & Hr & Hn & -> & Hnode).
      destruct (FS.nodes fs !! (e ++ c :: r)) as [i|] eqn:Hi.
      * destruct (Hnode i eq_refl) as [[d ->] Hpyc]. right.
        exists false, (e ++ c :: r). split.
        -- left. split_and!; [done..|by exists d].
        -- split_and!; [done|by exists c, r|by apply HR|done|].
           destruct (exists_last Hr) as (r' & n & ->).
           change (e ++ c :: r' ++ [n]) with (e ++ (c :: r') ++ [n]) in *.
           rewrite (assoc_L (++)) in *. rewrite removelast_last.
           by apply (HK _ n d).
      * left. exists (e ++ c :: r). split_and!; [done|by destruct e| |by left].
        by apply prefix_app_r.
    + destruct (HWq x HxW) as (c & r & Hn & -> & Hall).
      destruct (decide (FS.nodes fs !! (e ++ c :: r) = Some FS.Dir))
        as [Hd|Hd].
      * right. exists true, (e ++ c :: r). split; [by right|].
        split_and!; [done|by exists c, r|]. intros p Hp. by apply Hall.
      * left. exists (e ++ c :: r).
        split_and!; [done|by destruct e| |by right].
        by apply prefix_app_r.
  - intros i j x y dx dy ox oy Hij Hi Hj Hx Hy Hpre.
    assert (x ≠ y) as Hxy.
    { intros ->. apply Hij. by eapply NoDup_lookup. }
    apply list_elem_of_lookup_2 in Hi, Hj.
    assert (∀ z dz oz, z ∈ l → stashable (FS.nodes fs) z dz oz →
              normal oz ∧
              if dz then z ∈ W ∧ z = render oz +:+ "/"
                        ∧ FS.nodes fs !! oz = Some FS.Dir
              else z ∈ R ∧ z = render oz
                   ∧ ∃ d, FS.nodes fs !! oz = Some (FS.File d)) as Hkind.
    { intros z dz oz Hz [(-> & -> & d & Hd)|(-> & -> & Hd)].
      - split; [apply (wf_normal (FS.nodes fs)); [done|by eexists]|].
        split_and!; [|done|by exists d].
        apply Hl in Hz as [?|HzW]; [done|].
        destruct (HWq _ HzW) as (c & r & Hn & Heq' & _).
        assert (normal oz) as Hnz
          by (apply (wf_normal (FS.nodes fs)); [done|by eexists]).
        assert (oz ≠ []) as Hzne.
        { intros ->. destruct Hwf as [Hroot _]. congruence. }
        pose proof (render_not_endswith_sep oz Hnz Hzne) as Hend.
        by rewrite Heq', endswith_app in Hend.
      - split; [apply (wf_normal (FS.nodes fs)); [done|by eexists]|].
        split_and!; [|done..].
        apply Hl in Hz as [HzR|?]; [|done]. by destruct (HRW _ oz HzR). }
    destruct (Hkind x dx ox Hi Hx) as [Hnx Hkx].
    destruct (Hkind y dy oy Hj Hy) as [Hny Hky].
    destruct Hpre as [b ->].
    destruct dx, dy.
    + destruct Hkx as (HxW & -> & Hdx), Hky as (HyW & -> & Hdy).
      apply Hxy. f_equal. f_equal.
      apply (Hnest ox (ox ++ b)); [done..| |done|done|by apply prefix_app_r].
      destruct (HWq _ HxW) as (c & r & Hn & Heq' & _).
      apply str_app_inj_r, render_inj in Heq'; [|done..]. subst ox.
      by destruct e.
    + destruct Hkx as (HxW & -> & Hdx), Hky as (HyR & -> & d & Hdy).
      destruct (HWq _ HxW) as (c & r & Hn & Heq' & Hall).
      apply str_app_inj_r, render_inj in Heq'; [|done..]. subst ox.
      destruct (Hall (render ((e ++ c :: r) ++ b))) as [_ HnR]; [|done].
      exists b, d. split_and!; [|done..]. intros ->.
      rewrite app_nil_r in Hdy. congruence.
    + destruct Hkx as (HxR & -> & d & Hdx), Hky as (HyW & -> & Hdy).
      pose proof (wf_file_leaf _ ox b d Hwf Hdx (mk_is_Some _ _ Hdy)) as ->.
      rewrite app_nil_r in Hdy. congruence.
    + destruct Hkx as (HxR & -> & d & Hdx), Hky as (HyR & -> & d' & Hdy).
      pose proof (wf_file_leaf _ ox b d Hwf Hdx (mk_is_Some _ _ Hdy)) as ->.
      rewrite app_nil_r in Hxy. done.
  - intros q d Hq Hd.
    destruct (Hcov _ Hq) as [HqR|(a & Ha & HaW & rest & d' & Hrest & Hd' & Heq')].
    + exists (render q), false, q. split_and!; [apply Hl; by left| |done].
      left. split_and!; [done..|by exists d].
    + apply render_inj in Heq';
        [|by apply (wf_normal (FS.nodes fs)); [|eexists]..].
      subst q. exists (render a +:+ "/"), true, a.
      split_and!; [apply Hl; by right| |by apply prefix_app_r].
      right. split_and!; [done..|].
      apply (wf_prefix (FS.nodes fs) a rest); [done|by eexists|done].
Qed.

End Classification.

(** * The tree during rollback *)

Section RestoreTree.

Variables e t : list string.
Hypothesis e_not_in_t : ¬ e `prefix_of` t.

Implicit Types tr M : gmap (list string) FS.inode.
Implicit Types k kd T r : list string.
Implicit Types x y : entry.
Implicit Types todo : list entry.
Implicit Types temps : list (list string * list string).

(** The tree at the end of the stash step is one that rollback starts
    from. *)
Lemma restore_tree_of_stash (P : gset string)
    (tr0 tr : gmap (list string) FS.inode) (ents : list entry) temps :
  stash_tree e t P tr0 tr ents temps → restore_tree e t tr0 tr ents temps.
Proof.
  intros inv. split; try by destruct inv.
  - intros k i Hk Hx _. by apply (st_kept _ _ _ _ _ _ _ inv).
  - intros kd T k d Hin [r ->] Hk.
    destruct (st_temps _ _ _ _ _ _ _ inv _ _ Hin) as (HT & _).
    pose proof (wf_file_leaf tr k r d (st_wf _ _ _ _ _ _ _ inv) Hk
                  (mk_is_Some _ _ HT)) as ->.
    rewrite app_nil_r in HT. congruence.
  - intros kd T Hin.
    by destruct (st_temps _ _ _ _ _ _ _ inv _ _ Hin) as (_ & ? & ? & ? & ?).
Qed.

(** At the end of the stash step the tree holds, outside the temporary
    directories, nodes of the tree at its start only. *)
Lemma stash_tree_only (P : gset string)
    (tr0 tr : gmap (list string) FS.inode) (ents : list entry) temps :
  FS.wf tr0 → tr0 !! t = Some FS.Dir →
  stash_tree e t P tr0 tr ents temps →
  ∀ k i, tr !! k = Some i →
         tr0 !! k = Some i ∨ ∃ kd T, (kd, T) ∈ temps ∧ T `prefix_of` k.
Proof.
  intros Hwf0 Ht inv k i Hk.
  destruct (st_only _ _ _ _ _ _ _ inv _ _ Hk)
    as [?|[[_ Hin]|(x & Hx & Hor)]]; [by left|..].
  - apply list_elem_of_fmap in Hin as ([kd T] & -> & Hin). right. by exists kd, T.
  - destruct (st_shape _ _ _ _ _ _ _ inv x Hx)
      as (kd & T & r & Hin & _ & _ & Hh & _).
    rewrite Hh in Hor.
    assert (T `prefix_of` T ++ r) as HT by by apply prefix_app_r.
    destruct Hor as [Hp|[-> Hp]].
    + right. exists kd, T. split; [done|]. by etrans.
    + destruct (prefix_weak_total _ _ _ Hp HT) as [Hk'|Hk'];
        [|right; by exists kd, T].
      destruct (st_temps _ _ _ _ _ _ _ inv _ _ Hin) as (_ & _ & [name ->] & _).
      destruct Hk' as [[|m rest] Hrest].
      * right. exists kd, (t ++ [name]). split; [done|].
        rewrite app_nil_r in Hrest. by rewrite Hrest.
      * left. destruct rest as [|m' rest _] using rev_ind.
        -- apply app_inj_tail in Hrest as [-> _]. done.
        -- rewrite app_comm_cons, (assoc_L (++)) in Hrest.
           apply app_inj_tail in Hrest as [-> _].
           by apply (wf_prefix tr0 k (m :: rest)).
Qed.

Section Facts.

Context {tr0 tr : gmap (list string) FS.inode} {todo : list entry}
  {temps : list (list string * list string)}.
Hypothesis inv : restore_tree e t tr0 tr todo temps.

Lemma rt_origin_under x : x ∈ todo → e `prefix_of` origin x.
Proof.
  intros (kd & T & r & _ & _ & -> & _ & He)%(rt_shape _ _ _ _ _ _ inv).
  by apply prefix_app_r.
Qed.

Lemma rt_temp_apart kd T k :
  (kd, T) ∈ temps → e `prefix_of` k → ¬ T `prefix_of` k ∧ ¬ k `prefix_of` T.
Proof.
  intros Hin He. destruct (rt_names _ _ _ _ _ _ inv _ _ Hin)
    as (_ & _ & H1 & H2).
  split; intros HT.
  - by destruct (prefix_weak_total _ _ _ HT He).
  - apply H2. by etrans.
Qed.

Lemma rt_temp_length kd T : (kd, T) ∈ temps → length T = S (length t).
Proof.
  intros Hin. destruct (rt_names _ _ _ _ _ _ inv _ _ Hin)
    as (_ & [name ->] & _).
  rewrite length_app. cbn. lia.
Qed.

Lemma rt_temp_key kd kd' T :
  (kd, T) ∈ temps → (kd', T) ∈ temps → kd = kd'.
Proof.
  intros H1 H2. pose proof (rt_dirs _ _ _ _ _ _ inv) as Hnd.
  apply list_elem_of_lookup in H1 as [i Hi], H2 as [j Hj].
  assert (i = j) as ->.
  { eapply NoDup_lookup; [exact Hnd| |].
    - by rewrite list_lookup_fmap, Hi.
    - by rewrite list_lookup_fmap, Hj. }
  congruence.
Qed.

(** The holding places are as far apart as the origins. *)
Lemma rt_holding_apart x y :
  x ∈ todo → y ∈ todo → holding x `prefix_of` holding y → x = y.
Proof.
  intros Hx Hy Hp. apply (rt_apart _ _ _ _ _ _ inv); [done..|].
  destruct (rt_shape _ _ _ _ _ _ inv x Hx)
    as (kd & T & r & Hin & _ & -> & Hh & _).
  destruct (rt_shape _ _ _ _ _ _ inv y Hy)
    as (kd' & T' & r' & Hin' & _ & -> & Hh' & _).
  rewrite Hh, Hh' in Hp.
  pose proof (rt_temp_length _ _ Hin). pose proof (rt_temp_length _ _ Hin').
  apply prefix_app_same_length in Hp as [-> Hp]; [|congruence].
  rewrite (rt_temp_key kd kd' T') by done. by apply prefix_app.
Qed.

(** A node of the first tree at or below the prefix, outside what is
    still held, is in place. *)
Lemma rt_under_e k i :
  tr0 !! k = Some i → e `prefix_of` k →
  (∀ x, x ∈ todo → ¬ origin x `prefix_of` k) → tr !! k = Some i.
Proof.
  intros Hk He Hx. apply (rt_kept _ _ _ _ _ _ inv); [done..|].
  intros Hp. apply e_not_in_t. by etrans.
Qed.

(** Nothing of the first tree is below a temporary directory. *)
Lemma rt_temp_free kd T rest :
  FS.wf tr0 → (kd, T) ∈ temps → tr0 !! (T ++ rest) = None.
Proof.
  intros Hwf Hin. apply free_below; [done|].
  by destruct (rt_names _ _ _ _ _ _ inv _ _ Hin).
Qed.

End Facts.

(** The registry file, which is not held, is written. *)
Lemma restore_tree_write (tr1 tr : gmap (list string) FS.inode) todo temps g d1 d :
  FS.wf tr1 → tr1 !! t = Some FS.Dir →
  restore_tree e t tr1 tr todo temps →
  tr1 !! g = Some (FS.File d1) →
  (∀ x, x ∈ todo → ¬ origin x `prefix_of` g) →
  tr !! g = Some (FS.File d1) ∧
  restore_tree e t (<[g := FS.File d]> tr1) (<[g := FS.File d]> tr) todo temps.
Proof.
  intros Hwf1 Ht inv Hg Hfree.
  assert (¬ g `prefix_of` t) as Hgt.
  { intros [r ->].
    pose proof (wf_file_leaf tr1 g r d1 Hwf1 Hg (mk_is_Some _ _ Ht)) as ->.
    rewrite app_nil_r in Ht. congruence. }
  assert (tr !! g = Some (FS.File d1)) as Hg'
    by by apply (rt_kept _ _ _ _ _ _ inv).
  assert (∀ x rest, x ∈ todo → holding x ++ rest ≠ g) as Hhold.
  { intros x rest Hx Heq.
    destruct (rt_shape _ _ _ _ _ _ inv x Hx)
      as (kd & T & r & Hin & _ & _ & Hh & _).
    rewrite Hh, <-(assoc_L (++)) in Heq.
    pose proof (rt_temp_free inv kd T (r ++ rest) Hwf1 Hin). congruence. }
  assert (∀ x rest, x ∈ todo → origin x ++ rest ≠ g) as Horig.
  { intros x rest Hx Heq. apply (Hfree x Hx). rewrite <-Heq.
    by apply prefix_app_r. }
  split; [done|]. split.
  - destruct (rt_wf _ _ _ _ _ _ inv) as [Hroot Hwf]. split.
    + rewrite lookup_insert_ne; [done|]. intros ->. congruence.
    + intros p n i Hi.
      assert (is_Some (tr !! (p ++ [n]))) as [j Hj].
      { destruct (decide (g = p ++ [n])) as [<-|Hne]; [by eexists|].
        rewrite lookup_insert_ne in Hi by done. by eexists. }
      destruct (Hwf _ _ _ Hj) as [Hp Hn]. split; [|done].
      rewrite lookup_insert_ne; [done|]. intros ->. congruence.
  - intros k i Hk Hx Hkt. destruct (decide (g = k)) as [<-|Hne].
    + by rewrite lookup_insert_eq in *.
    + rewrite lookup_insert_ne in * by done.
      by apply (rt_kept _ _ _ _ _ _ inv).
  - intros x rest Hx.
    rewrite !lookup_insert_ne
      by (apply not_eq_sym; first [by apply Hhold|by apply Horig]).
    by apply (rt_moved _ _ _ _ _ _ inv).
  - intros x Hx. rewrite lookup_insert_ne.
    + by apply (rt_kind _ _ _ _ _ _ inv).
    + apply not_eq_sym. rewrite <-(app_nil_r (origin x)). by apply Horig.
  - intros kd T k d' Hin Hp. destruct (decide (g = k)) as [<-|Hne].
    + destruct Hp as [r Hr].
      pose proof (rt_temp_free inv kd T [] Hwf1 Hin) as Hnone.
      rewrite app_nil_r in Hnone.
      destruct (rt_names _ _ _ _ _ _ inv _ _ Hin) as (_ & [name ->] & _).
      destruct r as [|m r _] using rev_ind.
      * rewrite app_nil_r in Hr. congruence.
      * rewrite (assoc_L (++)) in Hr. apply app_inj_tail in Hr as [-> _].
        destruct Hgt. by apply prefix_app_r.
    + rewrite lookup_insert_ne by done. by apply (rt_temps _ _ _ _ _ _ inv kd T).
  - intros kd T Hin.
    destruct (rt_names _ _ _ _ _ _ inv _ _ Hin) as (HT & ? & ? & ?).
    split_and!; [|done..]. rewrite lookup_insert_ne; [done|]. congruence.
  - by destruct inv.
  - by destruct inv.
  - by destruct inv.
Qed.

(** An entry is moved back: the tree [M] has what was held at its
    origin, and [tr'] is [M] pruned above the holding place. *)
Lemma restore_tree_step (tr0 tr : gmap (list string) FS.inode) x todo temps M
    (tr' : gmap (list string) FS.inode) :
  FS.wf tr0 →
  restore_tree e t tr0 tr (x :: todo) temps → x ∉ todo →
  (∀ k, M !! k
        = if decide (origin x `prefix_of` k)
          then tr !! (holding x ++ drop (length (origin x)) k)
          else if decide (holding x `prefix_of` k) then None else tr !! k) →
  pruned (removelast (holding x)) M tr' →
  restore_tree e t tr0 tr' todo temps.
Proof.
  intros Hwf0 inv Hnew HM (Hwf' & Hsub & Hpr).
  destruct (rt_shape _ _ _ _ _ _ inv x) as (kd & T & r & Hin & Hr & Ho & Hh & He);
    [by left|].
  assert (e `prefix_of` origin x) as Hex by (apply (rt_origin_under inv); by left).
  destruct (exists_last Hr) as (r' & m & ->).
  assert (removelast (holding x) = T ++ r') as Hpa.
  { by rewrite Hh, (assoc_L (++)), removelast_last. }
  rewrite Hpa in Hpr.
  (* nodes that pruning leaves in place *)
  assert (∀ k i, M !! k = Some i → ¬ k `prefix_of` T ++ r' → tr' !! k = Some i)
    as Hstay.
  { intros k i Hk Hnp. by destruct (Hpr k i Hk) as [?|[_ ?]]. }
  assert (∀ k, e `prefix_of` k → ¬ k `prefix_of` T ++ r') as Hside.
  { intros k Hek Hp.
    assert (T `prefix_of` T ++ r') as HT by by apply prefix_app_r.
    destruct (prefix_weak_total _ _ _ Hp HT) as [Hk|Hk].
    - by destruct (rt_temp_apart inv kd T k Hin Hek).
    - by destruct (rt_temp_apart inv kd T k Hin Hek). }
  assert (∀ y, y ∈ todo → ¬ origin x `prefix_of` origin y
                          ∧ ¬ origin y `prefix_of` origin x) as Hap.
  { intros y Hy. split; intros Hp.
    - apply Hnew. by rewrite (rt_apart _ _ _ _ _ _ inv x y);
        [|left|right|].
    - apply Hnew. by rewrite <-(rt_apart _ _ _ _ _ _ inv y x);
        [|right|left|]. }
  assert (∀ y, y ∈ todo → ¬ holding x `prefix_of` holding y
                          ∧ ¬ holding y `prefix_of` holding x) as Hhap.
  { intros y Hy. split; intros Hp.
    - apply Hnew. by rewrite (rt_holding_apart inv x y); [|left|right|].
    - apply Hnew. by rewrite <-(rt_holding_apart inv y x); [|right|left|]. }
  split.
  - done.
  - intros k i Hk Hx Hkt. destruct (decide (origin x `prefix_of` k)) as [Hp|Hp].
    + apply Hstay; [|apply Hside; by etrans].
      rewrite HM, decide_True by done. destruct Hp as [rest ->].
      rewrite drop_app_length.
      destruct (rt_moved _ _ _ _ _ _ inv x rest) as [-> _]; [by left|done].
    + assert (tr !! k = Some i) as Hk'.
      { apply (rt_kept _ _ _ _ _ _ inv); [done| |done].
        intros y [->|Hy]%elem_of_cons; [done|by apply Hx]. }
      assert (¬ T `prefix_of` k) as HTk.
      { intros [rest ->]. by rewrite (rt_temp_free inv kd T rest) in Hk. }
      assert (¬ k `prefix_of` T ++ r') as Hnp.
      { intros Hp'.
        assert (T `prefix_of` T ++ r') as HT by by apply prefix_app_r.
        destruct (prefix_weak_total _ _ _ Hp' HT) as [Hk2|Hk2]; [|done].
        destruct (rt_names _ _ _ _ _ _ inv _ _ Hin) as (_ & [name ->] & _).
        destruct Hk2 as [[|m' rest] Hrest].
        - apply HTk. rewrite app_nil_r in Hrest. by rewrite Hrest.
        - destruct rest as [|m'' rest _] using rev_ind.
          + apply app_inj_tail in Hrest as [-> _]. by apply Hkt.
          + rewrite app_comm_cons, (assoc_L (++)) in Hrest.
            apply app_inj_tail in Hrest as [-> _]. apply Hkt.
            by apply prefix_app_r. }
      apply Hstay; [|done]. rewrite HM, decide_False by done.
      rewrite decide_False; [done|]. intros Hp'. apply HTk.
      rewrite Hh in Hp'. etrans; [|exact Hp']. by apply prefix_app_r.
  - intros y rest Hy.
    destruct (rt_moved _ _ _ _ _ _ inv y rest) as [H1 H2]; [by right|].
    destruct (Hap y Hy) as [Ha1 Ha2]. destruct (Hhap y Hy) as [Hh1 Hh2].
    assert (e `prefix_of` origin y) as Hey
      by (apply (rt_origin_under inv); by right).
    destruct (rt_shape _ _ _ _ _ _ inv y) as (kd' & T' & ry & Hin' & Hry & Hoy & Hhy & _);
      [by right|].
    assert (¬ origin x `prefix_of` holding y ++ rest) as Hn1.
    { intros Hp. rewrite Hhy, <-(assoc_L (++)) in Hp.
      destruct (rt_temp_apart inv kd' T' (origin x) Hin' Hex) as [H3 H4].
      assert (T' `prefix_of` T' ++ ry ++ rest) as HT' by by apply prefix_app_r.
      by destruct (prefix_weak_total _ _ _ Hp HT'). }
    assert (¬ holding x `prefix_of` holding y ++ rest) as Hn2.
    { intros Hp.
      assert (holding y `prefix_of` holding y ++ rest) as Hy'
        by by apply prefix_app_r.
      by destruct (prefix_weak_total _ _ _ Hp Hy'). }
    assert (¬ origin x `prefix_of` origin y ++ rest) as Hn3.
    { intros Hp.
      assert (origin y `prefix_of` origin y ++ rest) as Hy'
        by by apply prefix_app_r.
      by destruct (prefix_weak_total _ _ _ Hp Hy'). }
    assert (M !! (holding y ++ rest) = tr !! (holding y ++ rest)) as HM1
      by (by rewrite HM, !decide_False).
    assert (M !! (origin y ++ rest) = None) as HM2.
    { rewrite HM, decide_False by done. by destruct (decide _). }
    split.
    + rewrite <-H1, <-HM1.
      destruct (M !! (holding y ++ rest)) as [i|] eqn:Hi.
      * apply Hstay; [done|]. intros Hp. rewrite <-Hpa in Hp.
        apply Hh2. etrans; [by apply prefix_app_r|]. etrans; [exact Hp|].
        rewrite Hpa, Hh, (assoc_L (++)). by apply prefix_app_r.
      * destruct (tr' !! (holding y ++ rest)) as [i|] eqn:Hi'; [|done].
        eapply lookup_weaken in Hi'; [|exact Hsub]. congruence.
    + destruct (tr' !! (origin y ++ rest)) as [i|] eqn:Hi'; [|done].
      eapply lookup_weaken in Hi'; [|exact Hsub]. congruence.
  - intros y Hy. apply (rt_kind _ _ _ _ _ _ inv). by right.
  - intros kd' T' k d Hin' Hp Hk.
    eapply lookup_weaken in Hk; [|exact Hsub].
    rewrite HM in Hk. destruct (decide (origin x `prefix_of` k)) as [Hp'|Hp'].
    + destruct (rt_temp_apart inv kd' T' (origin x) Hin' Hex) as [H3 H4].
      apply H4. by etrans.
    + destruct (decide _); [done|]. by apply (rt_temps _ _ _ _ _ _ inv kd' T' k d).
  - by destruct inv.
  - by destruct inv.
  - intros y Hy. apply (rt_shape _ _ _ _ _ _ inv). by right.
  - intros y z Hy Hz. apply (rt_apart _ _ _ _ _ _ inv); by right.
Qed.

(** The same step keeps the tree, outside the temporary directories,
    within the first tree. *)
Lemma restore_only_step (tr0 tr : gmap (list string) FS.inode) x todo temps M
    (tr' : gmap (list string) FS.inode) :
  FS.wf tr0 →
  restore_tree e t tr0 tr (x :: todo) temps →
  (∀ k i, tr !! k = Some i →
          tr0 !! k = Some i ∨ ∃ kd T, (kd, T) ∈ temps ∧ T `prefix_of` k) →
  (∀ k, M !! k
        = if decide (origin x `prefix_of` k)
          then tr !! (holding x ++ drop (length (origin x)) k)
          else if decide (holding x `prefix_of` k) then None else tr !! k) →
  tr' ⊆ M →
  ∀ k i, tr' !! k = Some i →
         tr0 !! k = Some i ∨ ∃ kd T, (kd, T) ∈ temps ∧ T `prefix_of` k.
Proof.
  intros Hwf0 inv Honly HM Hsub k i Hk.
  eapply lookup_weaken in Hk; [|exact Hsub]. rewrite HM in Hk.
  destruct (decide (origin x `prefix_of` k)) as [[rest ->]|Hp].
  - rewrite drop_app_length in Hk. left.
    by destruct (rt_moved _ _ _ _ _ _ inv x rest) as [<- _]; [left|].
  - destruct (decide _); [done|]. by apply Honly.
Qed.

End RestoreTree.

(** * The loop of rollback *)

Section RestoreLoop.

Import Uninstallers.

Variables e t : list string.
Hypothesis e_not_in_t : ¬ e `prefix_of` t.

Implicit Types s : state.
Implicit Types todo : list entry.
Implicit Types temps : list (list string * list string).

(** The body of the loop on the first entry still held. *)
Lemma restore_one_run (tr0 : gmap (list string) FS.inode) s x todo temps :
  FS.wf tr0 →
  restore_tree e t tr0 (FS.nodes (fs (w s))) (x :: todo) temps → x ∉ todo →
  (∀ k i, FS.nodes (fs (w s)) !! k = Some i →
          tr0 !! k = Some i ∨ ∃ kd T, (kd, T) ∈ temps ∧ T `prefix_of` k) →
  ∃ s',
    restore_one (stashed_of x) s = (Ok tt, s') ∧ self s' = self s ∧
    FS.cwd (fs (w s')) = FS.cwd (fs (w s)) ∧
    restore_tree e t tr0 (FS.nodes (fs (w s'))) todo temps ∧
    (∀ k i, FS.nodes (fs (w s')) !! k = Some i →
            tr0 !! k = Some i ∨ ∃ kd T, (kd, T) ∈ temps ∧ T `prefix_of` k).
Proof.
  intros Hwf0 inv Hnew Honly.
  set (tr := FS.nodes (fs (w s))) in *.
  pose proof (rt_wf _ _ _ _ _ _ inv) as Hwf.
  destruct (rt_shape _ _ _ _ _ _ inv x)
    as (kd & T & r & Hin & Hr & Ho & Hh & He); [by left|].
  destruct (rt_kind _ _ _ _ _ _ inv x) as [[i0 Hi0] Hkind]; [by left|].
  assert (∀ rest, tr !! (holding x ++ rest) = tr0 !! (origin x ++ rest)) as Hheld.
  { intros rest. by destruct (rt_moved _ _ _ _ _ _ inv x rest) as [? _]; [left|]. }
  assert (∀ rest, tr !! (origin x ++ rest) = None) as Hfree.
  { intros rest. by destruct (rt_moved _ _ _ _ _ _ inv x rest) as [_ ?]; [left|]. }
  assert (tr !! holding x = Some i0) as Hhx.
  { specialize (Hheld []). rewrite !app_nil_r in Hheld. congruence. }
  assert (tr !! origin x = None) as Hox.
  { specialize (Hfree []). by rewrite app_nil_r in Hfree. }
  assert (normal (origin x)) as Hno
    by (apply (wf_normal tr0); [done|by eexists]).
  assert (normal (holding x)) as Hnh
    by (apply (wf_normal tr); [done|by eexists]).
  assert (e `prefix_of` origin x) as Hex
    by (apply (rt_origin_under e t inv); by left).
  destruct (exists_last Hr) as (r' & m & ->).
  set (pa := T ++ r'). set (pb := kd ++ r').
  assert (holding x = pa ++ [m]) as Eh
    by (by rewrite Hh; unfold pa; rewrite (assoc_L (++))).
  assert (origin x = pb ++ [m]) as Eo
    by (by rewrite Ho; unfold pb; rewrite (assoc_L (++))).
  assert (origin x ≠ []) as Hone by (rewrite Eo; by destruct pb).
  assert (e `prefix_of` pb) as Hepb by (by apply prefix_app_r).
  assert (tr !! pb = Some FS.Dir) as Hpb.
  { apply (rt_under_e e t e_not_in_t inv); [|done|].
    - apply (wf_prefix tr0 pb [m]); [done| |done]. rewrite <-Eo. by eexists.
    - intros y Hy Hp.
      assert (origin y `prefix_of` origin x) as Hp'
        by (rewrite Eo; by apply prefix_app_r).
      rewrite (rt_apart _ _ _ _ _ _ inv y x Hy) in Hp; [|by left|done].
      rewrite Eo in Hp. by apply prefix_snoc_not in Hp. }
  assert (¬ holding x `prefix_of` origin x ∧ ¬ origin x `prefix_of` holding x)
    as [Hnp1 Hnp2].
  { destruct (rt_temp_apart e t inv kd T (origin x) Hin Hex) as [H1 H2].
    split; intros Hp.
    - apply H1. etrans; [|exact Hp]. rewrite Hh. by apply prefix_app_r.
    - assert (T `prefix_of` holding x) as HT by (rewrite Hh; by apply prefix_app_r).
      by destruct (prefix_weak_total _ _ _ Hp HT). }
  (* what the body reads *)
  assert (FS.isfile (fs (w s)) (old_of x) = false
          ∧ FS.isdir (fs (w s)) (old_of x) = false) as [Hisf Hisd].
  { unfold FS.isfile, FS.isdir, old_of.
    destruct (is_dir_entry x).
    - rewrite stat_trail by done. fold tr. by rewrite Hox.
    - rewrite stat_render_wf by done. fold tr. by rewrite Hox. }
  (* the move *)
  assert (∃ M tr',
            renames (render (holding x)) (old_of x) (fs (w s))
            = (Ok tt, FS.with_nodes (fs (w s)) tr') ∧
            (∀ k, M !! k
                  = if decide (origin x `prefix_of` k)
                    then tr !! (holding x ++ drop (length (origin x)) k)
                    else if decide (holding x `prefix_of` k) then None
                         else tr !! k) ∧
            pruned (removelast (holding x)) M tr') as (M & tr' & Hrun & HM & Hpr).
  { assert (removelast (holding x) = pa) as ->
      by (by rewrite Eh, removelast_last).
    assert (normal pa) as Hnpa.
    { rewrite Eh in Hnh. by apply normal_snoc in Hnh as [? _]. }
    assert (FS.valid_name m = true) as Hvm.
    { rewrite Eh in Hnh. by apply normal_snoc in Hnh as [_ ?]. }
    unfold old_of. destruct (is_dir_entry x) eqn:Hdir.
    - (* a directory *)
      rewrite Hi0 in Hkind. apply is_dir_true in Hkind.
      injection Hkind as ->.
      set (M := FS.move_tree tr (holding x) (origin x)).
      assert (FS.wf M) as HwfM.
      { unfold M. rewrite Eo. apply wf_move_tree; try done.
        - rewrite Eh. by destruct pa.
        - by rewrite <-Eo.
        - by rewrite <-Eo.
        - intros rest. rewrite (assoc_L (++)), <-Eo. apply Hfree. }
      destruct (removedirs_render (FS.with_nodes (fs (w s)) M) pa HwfM Hnpa)
        as (tr' & Hrm & Hpr).
      exists M, tr'.
      split_and!; [|intros k; by apply lookup_move_tree|done].
      rewrite Eh.
      rewrite (renames_restore_dir (fs (w s)) pa m (origin x));
        [|done|by rewrite <-Eh|done|done|by rewrite <-Eh|done| |by rewrite <-Eh].
      + rewrite <-Eh. exact Hrm.
      + rewrite Eo. by apply wf_reachable_child.
    - (* a regular file *)
      rewrite Hi0 in Hkind. destruct i0 as [d|]; [|done].
      set (M := <[origin x := FS.File d]> (delete (holding x) tr)).
      assert (FS.wf M) as HwfM.
      { unfold M. rewrite Eo. apply wf_move_file; try done.
        - rewrite Eh. by destruct pa.
        - intros rest. rewrite (assoc_L (++)), <-Eo. apply Hfree.
        - intros Heq. rewrite Heq in Hpb. congruence. }
      destruct (removedirs_render (FS.with_nodes (fs (w s)) M) pa HwfM Hnpa)
        as (tr' & Hrm & Hpr).
      exists M, tr'.
      split_and!; [|intros k; by apply lookup_move_file|done].
      destruct (renames_file (fs (w s)) pa m pb m d)
        as (tr1 & _ & _ & Hsame & Hren);
        [done|by rewrite <-Eh|by rewrite <-Eo|by rewrite <-Eh| | |].
      + intros rest. rewrite <-Eo. apply Hfree.
      + intros a d' [rest ->] Ha.
        pose proof (wf_file_leaf tr a rest d' Hwf Ha (mk_is_Some _ _ Hpb)) as ->.
        rewrite app_nil_r in Hpb. fold tr in Ha. congruence.
      + rewrite (Hsame Hpb) in Hren. rewrite Eh, Eo, Hren.
        fold tr. rewrite <-Eh, <-Eo. exact Hrm. }
  eexists. split_and!.
  - unfold restore_one, stashed_of.
    erewrite bind_run; [|apply log_run].
    erewrite bind_run; [|apply probe_run].
    erewrite bind_run; [|apply probe_run].
    cbn [w fs add_log]. rewrite Hisf, Hisd.
    erewrite bind_run; [|reflexivity].
    apply sys_run. exact Hrun.
  - done.
  - done.
  - cbn. by eapply (restore_tree_step e t e_not_in_t tr0 tr x todo temps M).
  - cbn. destruct Hpr as (_ & Hsub & _).
    by eapply (restore_only_step _ _ tr0 tr x todo temps M).
Qed.

End RestoreLoop.

(** * Stash and rollback *)

Section Fields.

Import Uninstallers.

Implicit Types s : state.

Lemma same_registry_trans s1 s2 s3 :
  same_registry s1 s2 → same_registry s2 s3 → same_registry s1 s3.
Proof. intros [??] [??]. split; congruence. Qed.

Lemma same_registry_in_world {A} (m : M world A) :
  Steps same_registry (in_world m).
Proof.
  intros s r s' Hrun. apply in_world_self in Hrun. unfold same_registry.
  by rewrite Hrun.
Qed.

Lemma stash_one_fields x : Steps same_registry (stash_one x).
Proof.
  assert (∀ s, same_registry s s) as Hrefl by done.
  pose proof same_registry_trans as Htrans.
  unfold stash_one.
  apply Steps_bind; [done|by apply Steps_gets|]. intros present.
  destruct (negb present); [by apply Steps_ret|].
  apply Steps_bind; [done|by apply Steps_gets|]. intros is_dir.
  apply Steps_bind; [done|apply same_registry_in_world|]. intros _.
  apply Steps_bind; [done|apply Steps_when; [done|apply same_registry_in_world]|].
  intros _.
  apply Steps_bind; [done|by apply Steps_gets|]. intros env.
  apply Steps_bind; [done| |intros prefix].
  { unfold getitem. destruct (env !! "prefix");
      [by apply Steps_ret|by apply Steps_raise]. }
  apply Steps_bind; [done|by apply Steps_gets|]. intros cwd.
  destruct (_get_file_root _ _) as [root|]; [|apply same_registry_in_world].
  apply Steps_bind; [done|by apply Steps_gets|]. intros tempdirs.
  apply Steps_bind; [done| |intros new_root].
  { destruct (list_find _ _) as [[? [? name]]|]; [by apply Steps_ret|].
    apply Steps_bind; [done|apply same_registry_in_world|]. intros name.
    apply Steps_bind; [done| |intros _; by apply Steps_ret].
    by intros s r s' [= <- <-]. }
  apply Steps_bind; [done|by apply Steps_gets|]. intros cwd'.
  destruct (PosixPath.relpath _ _ _) as [rel|err]; [|by apply Steps_raise].
  apply Steps_bind; [done|by apply Steps_gets|]. intros new_is_dir.
  apply Steps_bind; [done|apply Steps_when; [done|apply same_registry_in_world]|].
  intros _.
  apply Steps_bind; [done|apply same_registry_in_world|]. intros _.
  apply Steps_bind; [done|by apply Steps_gets|]. intros stashed.
  by intros s r s' [= <- <-].
Qed.

Lemma remove_items_names items lines :
  Steps same_names (remove_items items lines).
Proof.
  revert lines. induction items as [|item items IH]; intros lines.
  { by intros s r s' [= <- <-]. }
  cbn [remove_items].
  apply Steps_bind;
    [intros ??? (? & ? & ?) (? & ? & ?); split_and!; congruence| |intros _].
  { by intros s r s' [= <- <-]. }
  destruct (list_remove item lines); [apply IH|]. by intros s r s' [= <- <-].
Qed.

Lemma remove_pth_names iter : Steps same_names (_remove_pth iter).
Proof.
  assert (∀ s, same_names s s) as Hrefl by done.
  assert (∀ s1 s2 s3, same_names s1 s2 → same_names s2 s3 → same_names s1 s3)
    as Htrans by (intros ??? (? & ? & ?) (? & ? & ?); split_and!; congruence).
  unfold _remove_pth.
  apply Steps_bind; [done|by apply Steps_gets|]. intros entries.
  destruct (bool_decide _); [by apply Steps_ret|].
  apply Steps_bind; [done|by apply Steps_gets|]. intros pth_file.
  apply Steps_bind; [done| |intros saved].
  { intros s r s'. unfold sys, in_world, os, zoom, Os.read, Os.query.
    by destruct (FS.read _ _); intros [= <- <-]. }
  apply Steps_bind; [done|by intros s r s' [= <- <-]|]. intros _.
  apply Steps_bind; [done| |intros lines].
  { apply remove_items_names. }
  intros s r s'. unfold sys, in_world, os, zoom, Os.write, Os.syscall.
  destruct (FS.write _ _ _) as [f'|err] eqn:Hw; intros [= <- <-]; cbn; [|done].
  split_and!; [done..|].
  apply fs_write_some in Hw as (p & _ & _ & -> & _). done.
Qed.

End Fields.

Section Rollback.

Import Uninstallers.

Variables e t : list string.
Hypothesis e_not_in_t : ¬ e `prefix_of` t.

Implicit Types s : state.
Implicit Types todo : list entry.
Implicit Types temps : list (list string * list string).

(** The loop of [rollback] moves back all that is held. *)
Lemma restore_loop (tr0 : gmap (list string) FS.inode) temps todo :
  ∀ s,
    FS.wf tr0 →
    restore_tree e t tr0 (FS.nodes (fs (w s))) todo temps → NoDup todo →
    (∀ k i, FS.nodes (fs (w s)) !! k = Some i →
            tr0 !! k = Some i ∨ ∃ kd T, (kd, T) ∈ temps ∧ T `prefix_of` k) →
    ∃ s',
      for_each (stashed_of <$> todo) restore_one s = (Ok tt, s') ∧
      self s' = self s ∧
      restore_tree e t tr0 (FS.nodes (fs (w s'))) [] temps ∧
      (∀ k i, FS.nodes (fs (w s')) !! k = Some i →
              tr0 !! k = Some i ∨ ∃ kd T, (kd, T) ∈ temps ∧ T `prefix_of` k).
Proof.
  induction todo as [|x todo IH]; intros s Hwf0 inv Hnd Honly.
  { by exists s. }
  apply NoDup_cons in Hnd as [Hnew Hnd].
  destruct (restore_one_run e t e_not_in_t tr0 s x todo temps Hwf0 inv Hnew
              Honly) as (s1 & Hrun1 & Hself1 & _ & inv1 & Honly1).
  destruct (IH s1 Hwf0 inv1 Hnd Honly1) as (s' & Hrun & Hself & inv' & Honly').
  exists s'. split_and!; [|congruence|done..].
  cbn [fmap list_fmap for_each]. erewrite bind_run; [|exact Hrun1]. exact Hrun.
Qed.

(** The end of [commit], for any cache entry referred to. *)
Lemma commit_tail (r : option string) s :
  ∃ s1,
    match r with
    | Some (String a s0 as refer_to) =>
        in_world (logger "debug" ("Unlink from cached package " +:+ refer_to)) ;;
        in_world (CachedPackage.remove_referrer refer_to
                    (PosixPath.dirname refer_to))
    | _ => ret tt
    end s = (Ok tt, s1) ∧
    fs (w s1) = fs (w s) ∧ self s1 = self s.
Proof. destruct r as [[|a r]|]; by eexists. Qed.

(** [commit] on temporary directories that may be gone. *)
Lemma commit_run s Ts :
  FS.wf (FS.nodes (fs (w s))) →
  (_tempdirs (self s)).*2 = render <$> Ts →
  (∀ T, T ∈ Ts →
     normal T ∧ T ≠ [] ∧
     ∀ a d, a `prefix_of` T → FS.nodes (fs (w s)) !! a ≠ Some (FS.File d)) →
  ∃ s1,
    commit s = (Ok tt, s1) ∧
    (∀ k, FS.nodes (fs (w s1)) !! k
          = if decide (Exists (λ T, T `prefix_of` k) Ts) then None
            else FS.nodes (fs (w s)) !! k) ∧
    _stashed (self s1) = [] ∧ _tempdirs (self s1) = [] ∧
    _saved_pth (self s1) = None.
Proof.
  intros Hwf Hnames HTs.
  destruct (commit_loop Ts s (_tempdirs (self s)) Hnames Hwf HTs)
    as (s' & Hrun & Hself & Hlog & Hwf' & Hlook).
  set (sb := {| w := w s';
                self := set_saved_pth None
                          (set_stashed [] (set_tempdirs [] (self s'))) |}).
  destruct (commit_tail (refer_to (self sb)) sb) as (s1 & Hrun1 & Hfs1 & Hself1).
  exists s1. split_and!.
  - unfold commit. erewrite bind_run; [|reflexivity].
    erewrite bind_run; [|exact Hrun].
    erewrite bind_run; [|reflexivity].
    erewrite bind_run; [|reflexivity].
    erewrite bind_run; [|reflexivity].
    erewrite bind_run; [|reflexivity]. exact Hrun1.
  - intros k. by rewrite Hfs1, <-Hlook.
  - by rewrite Hself1.
  - by rewrite Hself1.
  - by rewrite Hself1.
Qed.

(** The moves back and the commit that end [rollback]: the tree is the
    first tree again, except for the directory of the temporary
    directories and the directories above it, which are pruned when they
    are left empty. *)
Lemma restore_commit (tr0 : gmap (list string) FS.inode) s todo temps :
  FS.wf tr0 →
  restore_tree e t tr0 (FS.nodes (fs (w s))) todo temps → NoDup todo →
  (∀ k i, FS.nodes (fs (w s)) !! k = Some i →
          tr0 !! k = Some i ∨ ∃ kd T, (kd, T) ∈ temps ∧ T `prefix_of` k) →
  _stashed (self s) = stashed_of <$> todo →
  _tempdirs (self s) = tempdir_of e <$> temps →
  (∀ kd T, (kd, T) ∈ temps → normal T) →
  ∃ s2,
    (for_each (_stashed (self s)) restore_one ;; commit) s = (Ok tt, s2) ∧
    (∀ k, ¬ k `prefix_of` t → FS.nodes (fs (w s2)) !! k = tr0 !! k) ∧
    (∀ k i, FS.nodes (fs (w s2)) !! k = Some i → tr0 !! k = Some i) ∧
    _stashed (self s2) = [] ∧ _tempdirs (self s2) = [] ∧
    _saved_pth (self s2) = None.
Proof.
  intros Hwf0 inv Hnd Honly Hst Htd Hnorm.
  destruct (restore_loop tr0 temps todo s Hwf0 inv Hnd Honly)
    as (s' & Hrun & Hself & inv' & Honly').
  destruct (commit_run s' temps.*2) as (s2 & Hrun2 & Hlook & Hf1 & Hf2 & Hf3).
  { by destruct inv'. }
  { rewrite Hself, Htd. rewrite <-!list_fmap_compose. done. }
  { intros T ([kd T'] & -> & Hin)%list_elem_of_fmap. cbn.
    split_and!; [by apply (Hnorm kd)| |].
    - destruct (rt_names _ _ _ _ _ _ inv' _ _ Hin) as (_ & [name ->] & _).
      by destruct t.
    - intros a d Ha. by apply (rt_temps _ _ _ _ _ _ inv' kd T'). }
  assert (∀ k, is_Some (tr0 !! k) → ¬ Exists (λ T, T `prefix_of` k) temps.*2)
    as Hout.
  { intros k [i Hk] (T & ([kd T'] & -> & Hin)%list_elem_of_fmap & [rest ->])
                      %Exists_exists.
    cbn in Hk. by rewrite (rt_temp_free e t inv' kd T' rest) in Hk. }
  exists s2. split_and!; [|..|done|done|done].
  - rewrite Hst. erewrite bind_run; [|exact Hrun]. exact Hrun2.
  - intros k Hkt. rewrite Hlook.
    destruct (tr0 !! k) as [i|] eqn:Hk.
    + rewrite decide_False by (apply Hout; by eexists).
      apply (rt_kept _ _ _ _ _ _ inv'); [done| |done].
      by intros x ?%elem_of_nil.
    + destruct (decide _) as [|Hex]; [done|].
      destruct (FS.nodes (fs (w s')) !! k) as [i|] eqn:Hi; [|done].
      destruct (Honly' k i Hi) as [?|(kd & T & Hin & Hp)]; [congruence|].
      destruct Hex. apply Exists_exists. exists T. split; [|done].
      apply list_elem_of_fmap. by exists (kd, T).
  - intros k i. rewrite Hlook. destruct (decide _) as [|Hex]; [done|].
    intros Hi. destruct (Honly' k i Hi) as [?|(kd & T & Hin & Hp)]; [done|].
    destruct Hex. apply Exists_exists. exists T. split; [|done].
    apply list_elem_of_fmap. by exists (kd, T).
Qed.

End Rollback.

Section RoundTrip.

Import Uninstallers.

Variable iter : gset string → list string.
Hypothesis iter_perm : ∀ X, iter X ≡ₚ elements X.

Implicit Types s : state.

(** A regular file is overwritten. *)
Lemma wf_overwrite (tr : gmap (list string) FS.inode) g d1 d :
  FS.wf tr → tr !! g = Some (FS.File d1) → FS.wf (<[g := FS.File d]> tr).
Proof.
  intros [Hroot Hwf] Hg. split.
  - rewrite lookup_insert_ne; [done|]. intros ->. congruence.
  - intros p n i Hi.
    assert (is_Some (tr !! (p ++ [n]))) as [j Hj].
    { destruct (decide (g = p ++ [n])) as [<-|Hne]; [by eexists|].
      rewrite lookup_insert_ne in Hi by done. by eexists. }
    destruct (Hwf _ _ _ Hj) as [Hp Hn]. split; [|done].
    rewrite lookup_insert_ne; [done|]. intros ->. congruence.
Qed.

(** A file that is not planned is not at or below anything held. *)
Lemma unplanned_not_held (e t : list string) (P : gset string)
    (tr1 tr : gmap (list string) FS.inode) (ents : list entry)
    (temps : list (list string * list string)) k d :
  FS.wf tr1 → stash_tree e t P tr1 tr ents temps →
  tr1 !! k = Some (FS.File d) → render k ∉ P →
  ∀ y, y ∈ ents → ¬ origin y `prefix_of` k.
Proof.
  intros Hwf1 Htree Hk HkP y Hy [rest ->].
  destruct (st_kind _ _ _ _ _ _ _ Htree y Hy) as [_ Hkind].
  pose proof (st_planned _ _ _ _ _ _ _ Htree y Hy) as Hplan.
  destruct rest as [|n rest].
  - rewrite app_nil_r in Hk, HkP. rewrite Hk in Hkind. cbn in Hkind.
    by rewrite <-Hkind in Hplan.
  - assert (tr1 !! origin y = Some FS.Dir) as Hd
      by (by apply (wf_prefix tr1 _ (n :: rest)); [|eexists|]).
    rewrite Hd in Hkind. cbn in Hkind. rewrite <-Hkind in Hplan.
    apply HkP, Hplan. by exists (n :: rest), d.
Qed.

(** The stash step on a plan of files two levels or more below the
    prefix: it raises when the names for temporary directories run out,
    and only then. *)
Lemma stash_files_run s e t :
  FS.wf (FS.nodes (fs (w s))) →
  normal e → ¬ e `prefix_of` t →
  envrionment (self s) !! "prefix" = Some (render e) →
  tmpdir (w s) = render t →
  FS.nodes (fs (w s)) !! t = Some FS.Dir →
  _tempdirs (self s) = [] → _stashed (self s) = [] →
  NoDup (rand (w s)) →
  (∀ r, r ∈ rand (w s) →
        FS.valid_name (tmpname r) = true ∧
        FS.nodes (fs (w s)) !! (t ++ [tmpname r]) = None) →
  (∀ p, p ∈ _paths (self s) →
     ∃ c r, r ≠ [] ∧ normal (e ++ c :: r) ∧ p = render (e ++ c :: r) ∧
            ∀ i, FS.nodes (fs (w s)) !! (e ++ c :: r) = Some i →
                 (∃ d, i = FS.File d) ∧ Str.endswith p ".pyc" = false) →
  ∃ res s1,
    _stash_files iter s = (res, s1) ∧ same_registry s s1 ∧
    match res with
    | Ok _ =>
        ∃ ents temps,
          stashing e t (_paths (self s)) (FS.nodes (fs (w s))) s1 ents temps ∧
          NoDup ents ∧
          ∀ q d, render q ∈ _paths (self s) →
                 FS.nodes (fs (w s)) !! q = Some (FS.File d) →
                 ∃ y, y ∈ ents ∧ origin y `prefix_of` q
    | Raise err =>
        err = FileExistsError ∧
        length (rand (w s))
        < size (compress_for_rename iter (fs (w s)) (_paths (self s))) ∧
        ∃ sm ents temps,
          stashing e t (_paths (self s)) (FS.nodes (fs (w s))) sm ents temps ∧
          fs (w s1) = fs (w sm)
    end.
Proof.
  intros Hwf He Het Hprefix Htmp Ht Htd Hst Hnd Hfresh HP.
  assert (e ≠ []) as Hene by (intros ->; apply Het, prefix_nil).
  destruct (plan_entries iter iter_perm (fs (w s)) e (_paths (self s))
              Hwf Hene HP) as (Hclass & Hpair & Hcov).
  destruct (stash_loop e t (_paths (self s)) (FS.nodes (fs (w s))) Hwf Ht Het He
              _ s [] [] (stashing_init s e t _ Hwf Hprefix Htmp Htd Hst Hnd
                           Hfresh)
              (NoDup_nil_2 (A:=entry)) Hclass Hpair)
    as (res & s1 & Hrun & Hres).
  { by intros y x dir ol ?%elem_of_nil. }
  assert (_stash_files iter s = (res, s1)) as Hrun'.
  { unfold _stash_files.
    erewrite bind_run; [|apply field_run].
    erewrite bind_run; [|apply probe_run]. exact Hrun. }
  exists res, s1. split_and!; [done| |].
  - eapply (Steps_for_each same_registry); [done|apply same_registry_trans| |
                                             exact Hrun].
    intros x _. apply stash_one_fields.
  - destruct res as [[]|err].
    + destruct Hres as (ents & temps & inv & Hnd' & _ & Hall & _ & _).
      exists ents, temps. split_and!; [done..|].
      intros q d Hq Hd. destruct (Hcov q d Hq Hd) as (x & dir & ol & Hx & Hst' & Hp).
      destruct (Hall x dir ol Hx Hst') as [h Hin].
      by exists (dir, ol, h).
    + destruct Hres as (-> & Hlen & Hmid). split_and!; [done| |done].
      by rewrite iter_perm in Hlen.
Qed.

(** The rollback of what the stash step has done, from the tree [tr1]
    at the start of the stash step. *)
Lemma rollback_stashed s1 (e t : list string) (P : gset string)
    (tr1 : gmap (list string) FS.inode) (ents : list entry)
    (temps : list (list string * list string)) :
  FS.wf tr1 → tr1 !! t = Some FS.Dir → ¬ e `prefix_of` t →
  stashing e t P tr1 s1 ents temps → NoDup ents → ents ≠ [] →
  (* no registry edit to undo *)
  (_saved_pth (self s1) = None →
   ∃ s2,
     rollback s1 = (Ok tt, s2) ∧
     (∀ k, ¬ k `prefix_of` t → FS.nodes (fs (w s2)) !! k = tr1 !! k) ∧
     (∀ k i, FS.nodes (fs (w s2)) !! k = Some i → tr1 !! k = Some i) ∧
     _stashed (self s2) = [] ∧ _tempdirs (self s2) = [] ∧
     _saved_pth (self s2) = None) ∧
  (* the registry file is written back *)
  (∀ g saved new,
     _saved_pth (self s1) = Some saved → _pth_file (self s1) = render g →
     tr1 !! g = Some (FS.File new) → render g ∉ P →
     ∃ s2,
       rollback s1 = (Ok tt, s2) ∧
       (∀ k, ¬ k `prefix_of` t →
             FS.nodes (fs (w s2)) !! k = <[g := FS.File saved]> tr1 !! k) ∧
       (∀ k i, FS.nodes (fs (w s2)) !! k = Some i →
               <[g := FS.File saved]> tr1 !! k = Some i) ∧
       _stashed (self s2) = [] ∧ _tempdirs (self s2) = [] ∧
       _saved_pth (self s2) = None).
Proof.
  intros Hwf1 Ht Het inv Hnd Hne.
  pose proof (sg_tree _ _ _ _ _ _ _ inv) as Htree.
  pose proof (sg_stashed _ _ _ _ _ _ _ inv) as Hst.
  pose proof (sg_tempdirs _ _ _ _ _ _ _ inv) as Htd.
  pose proof (restore_tree_of_stash e t P tr1 _ ents temps Htree) as Hrt.
  pose proof (stash_tree_only e t Het P tr1 _ ents temps Hwf1 Ht Htree) as Honly.
  assert (∀ kd T, (kd, T) ∈ temps → normal T) as Hnorm.
  { intros kd T Hin.
    destruct (st_temps _ _ _ _ _ _ _ Htree _ _ Hin) as (HT & _).
    apply (wf_normal (FS.nodes (fs (w s1)))); [by destruct Htree|by eexists]. }
  assert (∃ p ps, _stashed (self s1) = p :: ps) as (p & ps & Hcons).
  { rewrite Hst. destruct ents as [|x ents]; [done|]. by eexists _, _. }
  split.
  - intros Hsaved.
    destruct (restore_commit e t Het tr1 s1 ents temps Hwf1 Hrt Hnd Honly Hst Htd
                Hnorm) as (s2 & Hrun & Hrest).
    exists s2. split; [|done].
    unfold rollback. erewrite bind_run; [|apply field_run]. rewrite Hcons.
    erewrite bind_run; [|apply field_run]. rewrite Hsaved.
    erewrite bind_run; [|reflexivity]. by rewrite <-Hcons.
  - intros g saved new Hsaved Hpth Hg HgP.
    assert (∀ x, x ∈ ents → ¬ origin x `prefix_of` g) as Hfree.
    { intros x Hx [rest ->].
      destruct (st_kind _ _ _ _ _ _ _ Htree x Hx) as [_ Hkind].
      pose proof (st_planned _ _ _ _ _ _ _ Htree x Hx) as Hplan.
      destruct rest as [|n rest].
      - rewrite app_nil_r in Hg, HgP. rewrite Hg in Hkind. cbn in Hkind.
        by rewrite <-Hkind in Hplan.
      - assert (tr1 !! origin x = Some FS.Dir) as Hd
          by (by apply (wf_prefix tr1 _ (n :: rest)); [|eexists|]).
        rewrite Hd in Hkind. cbn in Hkind. rewrite <-Hkind in Hplan.
        apply HgP, Hplan. by exists (n :: rest), new. }
    destruct (restore_tree_write e t Het tr1 _ ents temps g new saved Hwf1 Ht Hrt Hg
                Hfree) as [Hg' Hrt'].
    set (tr := FS.nodes (fs (w s1))) in *.
    set (sw := on_fs s1 (FS.with_nodes (fs (w s1)) (<[g := FS.File saved]> tr))).
    destruct (restore_commit e t Het (<[g := FS.File saved]> tr1) sw ents temps)
      as (s2 & Hrun & Hrest); [by eapply wf_overwrite|exact Hrt'|done| |done..|].
    { intros k i. cbn. destruct (decide (g = k)) as [<-|Hgk].
      - rewrite !lookup_insert_eq. by left.
      - rewrite !lookup_insert_ne by done. apply Honly. }
    exists s2. split; [|done].
    unfold rollback. erewrite bind_run; [|apply field_run]. rewrite Hcons.
    erewrite bind_run; [|apply field_run]. rewrite Hsaved.
    erewrite bind_run.
    2:{ erewrite bind_run; [|apply field_run]. rewrite Hpth.
        apply sys_run. unfold Os.write, Os.syscall, FS.write.
        rewrite resolve_render_wf; [|by destruct Htree|by eexists].
        fold tr. rewrite Hg'. reflexivity. }
    fold sw. by rewrite <-Hcons.
Qed.

(** X18.  The stash step and then rollback give the file system back.
    The prefix of the environment is [/e1/.../ek]; the directory of the
    temporary files, [/t1/.../tj], exists and is not at or below the
    prefix; the random names for the temporary directories are distinct,
    valid and free.  The instance has stashed nothing, and its plan
    holds normalised paths two levels or more below the prefix, each of
    them missing on disk or a regular file that is no byte-code cache;
    the registry file [/g1/.../gn] is not in the plan.  When [remove]
    returns with something stashed, [rollback] returns and every node of
    the file system is as it was before [remove], files with their
    bytes, the registry file included: the tree holds nothing new, and
    it lacks nothing but, possibly, the directory of the temporary files
    and directories above it, which the moves back prune when they are
    left empty.  The stash record, the temporary directories and the
    saved registry of the instance are cleared. *)
Theorem remove_then_rollback s0 s1 e t g :
  FS.wf (FS.nodes (fs (w s0))) →
  normal e → ¬ e `prefix_of` t →
  envrionment (self s0) !! "prefix" = Some (render e) →
  tmpdir (w s0) = render t →
  FS.nodes (fs (w s0)) !! t = Some FS.Dir →
  _tempdirs (self s0) = [] → _stashed (self s0) = [] →
  _saved_pth (self s0) = None →
  NoDup (rand (w s0)) →
  (∀ r, r ∈ rand (w s0) →
        FS.valid_name (tmpname r) = true ∧
        FS.nodes (fs (w s0)) !! (t ++ [tmpname r]) = None) →
  (∀ p, p ∈ _paths (self s0) →
     ∃ c r, r ≠ [] ∧ normal (e ++ c :: r) ∧ p = render (e ++ c :: r) ∧
            ∀ i, FS.nodes (fs (w s0)) !! (e ++ c :: r) = Some i →
                 (∃ d, i = FS.File d) ∧ Str.endswith p ".pyc" = false) →
  _pth_file (self s0) = render g → normal g →
  render g ∉ _paths (self s0) →
  remove iter s0 = (Ok tt, s1) →
  _stashed (self s1) ≠ [] →
  ∃ s2,
    rollback s1 = (Ok tt, s2) ∧
    (∀ k, ¬ k `prefix_of` t →
          FS.nodes (fs (w s2)) !! k = FS.nodes (fs (w s0)) !! k) ∧
    (∀ k i, FS.nodes (fs (w s2)) !! k = Some i →
            FS.nodes (fs (w s0)) !! k = Some i) ∧
    _stashed (self s2) = [] ∧ _tempdirs (self s2) = [] ∧
    _saved_pth (self s2) = None.
Proof.
  intros Hwf He Het Hprefix Htmp Ht Htd Hst Hsv Hnd Hfresh HP Hpth Hg HgP Hrun
    Hstashed.
  unfold remove in Hrun. apply bind_ok in Hrun as ([] & sa & Hpthrun & Hrun).
  destruct (remove_pth_names iter _ _ _ Hpthrun) as (Htmp' & Hrand' & _).
  set (tr0 := FS.nodes (fs (w s0))) in *.
  destruct (decide (_pth_entries (self s0) = ∅)) as [Hempty|Hnonempty].
  - (* the plan has no registry line *)
    unfold _remove_pth in Hpthrun.
    erewrite bind_run in Hpthrun; [|apply field_run].
    rewrite bool_decide_true in Hpthrun by done.
    injection Hpthrun as <-.
    destruct (stash_files_run s0 e t Hwf He Het Hprefix Htmp Ht Htd Hst Hnd
                Hfresh HP) as (res & s1' & Hrun' & [Hsv' _] & Hres).
    rewrite Hrun in Hrun'. injection Hrun' as <- <-.
    destruct Hres as (ents & temps & inv & Hnd' & _).
    assert (ents ≠ []) as Hne.
    { intros ->. by rewrite (sg_stashed _ _ _ _ _ _ _ inv) in Hstashed. }
    destruct (rollback_stashed s1 e t _ tr0 ents temps Hwf Ht Het inv Hnd' Hne)
      as [Hroll _].
    apply Hroll. by rewrite Hsv'.
  - (* the registry file is edited first *)
    destruct (remove_pth_ok iter iter_perm s0 sa Hnonempty Hpthrun)
      as (saved & lines' & fs' & Hread & Hself & _ & _ & Hwrite & Hfs).
    apply fs_write_some in Hwrite as (p & Hres & _ & -> & _).
    rewrite Hpth in Hres, Hread.
    apply resolve_render_inv in Hres as (-> & _); [|done].
    assert (tr0 !! g = Some (FS.File saved)) as Hg0.
    { unfold FS.read in Hread. rewrite stat_render_wf in Hread by done.
      fold tr0 in Hread. by destruct (tr0 !! g) as [[]|]; simplify_eq. }
    set (new := FS.File _) in Hfs.
    assert (FS.nodes (fs (w sa)) = <[g := new]> tr0) as Htr1
      by (by rewrite Hfs).
    assert (∃ d, new = FS.File d) as [dnew Hnew] by (by eexists).
    clearbody new. subst new.
    assert (t ≠ g) as Htg by (intros ->; congruence).
    destruct (stash_files_run sa e t)
      as (res & s1' & Hrun' & [Hsv' Hpf'] & Hres);
      [rewrite Htr1; by eapply wf_overwrite|done|done
      |by rewrite Hself|congruence| |by rewrite Hself|by rewrite Hself
      |congruence| | |].
    { rewrite Htr1, lookup_insert_ne; done. }
    { intros r Hr. rewrite Hrand' in Hr. destruct (Hfresh r Hr) as [? Hnone].
      split; [done|]. rewrite Htr1, lookup_insert_ne; [done|].
      intros Heq. rewrite Heq in Hg0. congruence. }
    { intros q Hq. rewrite Hself in Hq. cbn in Hq.
      destruct (HP q Hq) as (c & r & Hr & Hn & -> & Hnode).
      exists c, r. split_and!; [done..|]. intros i.
      rewrite Htr1, lookup_insert_ne; [apply Hnode|].
      intros Heq. by rewrite Heq in HgP. }
    rewrite Hrun in Hrun'. injection Hrun' as <- <-.
    destruct Hres as (ents & temps & inv & Hnd' & _).
    assert (ents ≠ []) as Hne.
    { intros ->. by rewrite (sg_stashed _ _ _ _ _ _ _ inv) in Hstashed. }
    rewrite Htr1 in inv.
    destruct (rollback_stashed s1 e t (_paths (self sa))
                (<[g := FS.File dnew]> tr0) ents temps)
      as [_ Hroll];
      [by eapply wf_overwrite|by rewrite lookup_insert_ne|done|exact inv
      |done|done|].
    destruct (Hroll g saved dnew) as (s2 & Hrun2 & Hrest).
    + by rewrite Hsv', Hself.
    + by rewrite Hpf', Hself.
    + by rewrite lookup_insert_eq.
    + by rewrite Hself.
    + exists s2. split; [done|].
      by rewrite insert_insert_eq, insert_id in Hrest.
Qed.

(** X19.  The stash step moves away every planned file.  For a remover
    that has stashed nothing, with the plan, the prefix, the directory
    of the temporary files and the random names as above, and at least
    as many random names as the compressed plan has entries:
    [_stash_files] returns; every planned path that was a regular file
    names nothing any more, and the bytes of the file are held below the
    directory of the temporary files. *)
Theorem stash_files_moves_planned s e t :
  FS.wf (FS.nodes (fs (w s))) →
  normal e → ¬ e `prefix_of` t →
  envrionment (self s) !! "prefix" = Some (render e) →
  tmpdir (w s) = render t →
  FS.nodes (fs (w s)) !! t = Some FS.Dir →
  _tempdirs (self s) = [] → _stashed (self s) = [] →
  NoDup (rand (w s)) →
  (∀ r, r ∈ rand (w s) →
        FS.valid_name (tmpname r) = true ∧
        FS.nodes (fs (w s)) !! (t ++ [tmpname r]) = None) →
  (∀ p, p ∈ _paths (self s) →
     ∃ c r, r ≠ [] ∧ normal (e ++ c :: r) ∧ p = render (e ++ c :: r) ∧
            ∀ i, FS.nodes (fs (w s)) !! (e ++ c :: r) = Some i →
                 (∃ d, i = FS.File d) ∧ Str.endswith p ".pyc" = false) →
  size (compress_for_rename iter (fs (w s)) (_paths (self s)))
  ≤ length (rand (w s)) →
  ∃ s1,
    _stash_files iter s = (Ok tt, s1) ∧
    ∀ q d,
      render q ∈ _paths (self s) →
      FS.nodes (fs (w s)) !! q = Some (FS.File d) →
      FS.nodes (fs (w s1)) !! q = None ∧
      ∃ name h, FS.nodes (fs (w s1)) !! (t ++ name :: h) = Some (FS.File d).
Proof.
  intros Hwf He Het Hprefix Htmp Ht Htd Hst Hnd Hfresh HP Hnames.
  destruct (stash_files_run s e t Hwf He Het Hprefix Htmp Ht Htd Hst Hnd Hfresh
              HP) as (res & s1 & Hrun & _ & Hres).
  destruct res as [[]|err]; [|destruct Hres as (_ & ? & _); lia].
  destruct Hres as (ents & temps & inv & _ & Hcov).
  exists s1. split; [done|]. intros q d Hq Hd.
  destruct (Hcov q d Hq Hd) as (y & Hy & [rest ->]).
  pose proof (sg_tree _ _ _ _ _ _ _ inv) as Htree.
  destruct (st_moved _ _ _ _ _ _ _ Htree y rest Hy) as [Hheld Hgone].
  split; [done|].
  destruct (st_shape _ _ _ _ _ _ _ Htree y Hy)
    as (kd & T & r & Hin & _ & _ & Hh & _).
  destruct (st_temps _ _ _ _ _ _ _ Htree _ _ Hin) as (_ & _ & [name ->] & _).
  exists name, (r ++ rest).
  rewrite Hh, <-!(assoc_L (++)) in Hheld. cbn in Hheld. by rewrite Hheld.
Qed.

(** X20.  The stash step touches no file outside the plan.  For a
    remover that has stashed nothing, with the plan, the prefix, the
    directory of the temporary files and the random names as above:
    whatever [_stash_files] does, return or raise, every regular file
    whose path is not in the plan is in place with its bytes, and so are
    the directories above it. *)
Theorem stash_files_keeps_unplanned s e t res s1 :
  FS.wf (FS.nodes (fs (w s))) →
  normal e → ¬ e `prefix_of` t →
  envrionment (self s) !! "prefix" = Some (render e) →
  tmpdir (w s) = render t →
  FS.nodes (fs (w s)) !! t = Some FS.Dir →
  _tempdirs (self s) = [] → _stashed (self s) = [] →
  NoDup (rand (w s)) →
  (∀ r, r ∈ rand (w s) →
        FS.valid_name (tmpname r) = true ∧
        FS.nodes (fs (w s)) !! (t ++ [tmpname r]) = None) →
  (∀ p, p ∈ _paths (self s) →
     ∃ c r, r ≠ [] ∧ normal (e ++ c :: r) ∧ p = render (e ++ c :: r) ∧
            ∀ i, FS.nodes (fs (w s)) !! (e ++ c :: r) = Some i →
                 (∃ d, i = FS.File d) ∧ Str.endswith p ".pyc" = false) →
  _stash_files iter s = (res, s1) →
  ∀ k d,
    FS.nodes (fs (w s)) !! k = Some (FS.File d) →
    render k ∉ _paths (self s) →
    ∀ a, a `prefix_of` k →
         FS.nodes (fs (w s1)) !! a = FS.nodes (fs (w s)) !! a.
Proof.
  intros Hwf He Het Hprefix Htmp Ht Htd Hst Hnd Hfresh HP Hrun k d Hk HkP.
  destruct (stash_files_run s e t Hwf He Het Hprefix Htmp Ht Htd Hst Hnd Hfresh
              HP) as (res' & s1' & Hrun' & _ & Hres).
  rewrite Hrun in Hrun'. injection Hrun' as <- <-.
  assert (∃ sm ents temps,
            stashing e t (_paths (self s)) (FS.nodes (fs (w s))) sm ents temps ∧
            fs (w s1) = fs (w sm)) as (sm & ents & temps & inv & ->).
  { destruct res as [[]|err].
    - destruct Hres as (ents & temps & inv & _). by exists s1, ents, temps.
    - by destruct Hres as (_ & _ & Hmid). }
  pose proof (sg_tree _ _ _ _ _ _ _ inv) as Htree.
  assert (FS.nodes (fs (w sm)) !! k = Some (FS.File d)) as Hk'.
  { apply (st_kept _ _ _ _ _ _ _ Htree); [done|].
    by eapply unplanned_not_held. }
  intros a [rest ->]. destruct rest as [|n rest].
  { rewrite app_nil_r in *. congruence. }
  rewrite (wf_prefix _ a (n :: rest)); [|by destruct Htree|by eexists|done].
  by rewrite (wf_prefix _ a (n :: rest)); [|done|eexists|].
Qed.

(** The loop over the registry lines returns when the lines are all
    there. *)
Lemma remove_items_returns items :
  ∀ lines s,
    NoDup items → (∀ x, x ∈ items → x ∈ lines) →
    ∃ lines' s', remove_items items lines s = (Ok lines', s').
Proof.
  induction items as [|x items IH]; intros lines s Hnd Hin.
  { by eexists _, _. }
  apply NoDup_cons in Hnd as [Hx Hnd].
  cbn [remove_items]. erewrite bind_run; [|reflexivity]. unfold list_remove.
  destruct (list_find (λ y, y = x) lines) as [[i y]|] eqn:Hf.
  - apply list_find_Some in Hf as (Hi & -> & _).
    apply IH; [done|]. intros y Hy.
    assert (y ∈ x :: delete i lines) as [->|?]%elem_of_cons; [|done..].
    rewrite <-delete_Permutation by done. apply Hin. by right.
  - apply list_find_None in Hf.
    assert (x ∈ lines) as Hxl by (apply Hin; left).
    by destruct (proj1 (Forall_forall _ _) Hf x Hxl).
Qed.

(** X21.  The registry edit succeeds exactly when the lines are there.
    For a registry file that can be read: [_remove_pth] returns if and
    only if every registry line of the plan is a line of the file. *)
Theorem remove_pth_returns_iff s saved :
  FS.read (fs (w s)) (_pth_file (self s)) = Ok saved →
  (∃ s', _remove_pth iter s = (Ok tt, s')) ↔
  (∀ item, item ∈ _pth_entries (self s) → item ∈ Str.splitlines saved).
Proof.
  intros Hread. split.
  - intros [s' Hrun] item Hitem.
    destruct (remove_pth_ok iter iter_perm s s') as
      (saved' & lines' & fs' & Hread' & _ & _ & Hperm & _); [set_solver|done|].
    rewrite Hread in Hread'. injection Hread' as <-.
    rewrite Hperm. apply elem_of_app. left. by apply elem_of_elements.
  - intros Hall. unfold _remove_pth.
    erewrite bind_run; [|apply field_run].
    destruct (bool_decide _); [by eexists|].
    erewrite bind_run; [|apply field_run].
    erewrite bind_run.
    2:{ apply sys_run. unfold Os.read, Os.query. by rewrite Hread. }
    erewrite bind_run; [|apply update_run].
    set (s1 := {| w := _; self := _ |}).
    destruct (remove_items_returns (iter (_pth_entries (self s)))
                (Str.splitlines saved) s1) as (lines' & s2 & Hitems).
    { rewrite iter_perm. apply NoDup_elements. }
    { intros x Hx. rewrite iter_perm in Hx. by apply Hall, elem_of_elements. }
    erewrite bind_run; [|exact Hitems].
    pose proof (remove_items_quiet _ _ _ _ _ Hitems) as [Hfs Hself].
    unfold sys, in_world, os, zoom, Os.write, Os.syscall, FS.write.
    rewrite Hself, Hfs. cbn.
    unfold FS.read, FS.stat in Hread.
    destruct (FS.resolve _ _) as [p|]; [|done]. cbn in Hread.
    destruct (FS.nodes (fs (w s)) !! p) as [[d|]|]; [|done..].
    by eexists.
Qed.

(** X25.  The stash step and then commit uninstall the plan, and nothing
    else.  For a remover that has stashed nothing, with the plan, the
    prefix, the directory of the temporary files and the random names as
    above, and at least as many random names as the compressed plan has
    entries: [_stash_files] and then [commit] return; every planned path
    that was a regular file names nothing; every regular file that is
    not in the plan has its bytes; and the file system holds no node
    that it did not hold before, so the temporary directories are gone
    with all they held. *)
Theorem stash_then_commit_uninstalls s e t :
  FS.wf (FS.nodes (fs (w s))) →
  normal e → ¬ e `prefix_of` t →
  envrionment (self s) !! "prefix" = Some (render e) →
  tmpdir (w s) = render t →
  FS.nodes (fs (w s)) !! t = Some FS.Dir →
  _tempdirs (self s) = [] → _stashed (self s) = [] →
  NoDup (rand (w s)) →
  (∀ r, r ∈ rand (w s) →
        FS.valid_name (tmpname r) = true ∧
        FS.nodes (fs (w s)) !! (t ++ [tmpname r]) = None) →
  (∀ p, p ∈ _paths (self s) →
     ∃ c r, r ≠ [] ∧ normal (e ++ c :: r) ∧ p = render (e ++ c :: r) ∧
            ∀ i, FS.nodes (fs (w s)) !! (e ++ c :: r) = Some i →
                 (∃ d, i = FS.File d) ∧ Str.endswith p ".pyc" = false) →
  size (compress_for_rename iter (fs (w s)) (_paths (self s)))
  ≤ length (rand (w s)) →
  ∃ s1 s2,
    _stash_files iter s = (Ok tt, s1) ∧ commit s1 = (Ok tt, s2) ∧
    (∀ q d, render q ∈ _paths (self s) →
            FS.nodes (fs (w s)) !! q = Some (FS.File d) →
            FS.nodes (fs (w s2)) !! q = None) ∧
    (∀ k d, FS.nodes (fs (w s)) !! k = Some (FS.File d) →
            render k ∉ _paths (self s) →
            FS.nodes (fs (w s2)) !! k = Some (FS.File d)) ∧
    (∀ k i, FS.nodes (fs (w s2)) !! k = Some i →
            FS.nodes (fs (w s)) !! k = Some i).
Proof.
  intros Hwf He Het Hprefix Htmp Ht Htd Hst Hnd Hfresh HP Hnames.
  destruct (stash_files_run s e t Hwf He Het Hprefix Htmp Ht Htd Hst Hnd Hfresh
              HP) as (res & s1 & Hrun & _ & Hres).
  destruct res as [[]|err]; [|destruct Hres as (_ & ? & _); lia].
  destruct Hres as (ents & temps & inv & _ & Hcov).
  pose proof (sg_tree _ _ _ _ _ _ _ inv) as Htree.
  pose proof (restore_tree_of_stash e t _ _ _ ents temps Htree) as Hrt.
  pose proof (stash_tree_only e t Het _ _ _ ents temps Hwf Ht Htree) as Honly.
  destruct (commit_run s1 temps.*2) as (s2 & Hrun2 & Hlook & _).
  { by destruct Htree. }
  { rewrite (sg_tempdirs _ _ _ _ _ _ _ inv). by rewrite <-!list_fmap_compose. }
  { intros T ([kd T'] & -> & Hin)%list_elem_of_fmap. cbn.
    destruct (st_temps _ _ _ _ _ _ _ Htree _ _ Hin) as (HT & _ & [name ->] & _).
    split_and!.
    - apply (wf_normal (FS.nodes (fs (w s1)))); [by destruct Htree|by eexists].
    - by destruct t.
    - intros a d Ha. by apply (rt_temps _ _ _ _ _ _ Hrt kd (t ++ [name]) a d). }
  exists s1, s2. split_and!; [done..| | |].
  - intros q d Hq Hd. rewrite Hlook. destruct (decide _); [done|].
    destruct (Hcov q d Hq Hd) as (y & Hy & [rest ->]).
    by destruct (st_moved _ _ _ _ _ _ _ Htree y rest Hy) as [_ ?].
  - intros k d Hk HkP. rewrite Hlook. rewrite decide_False.
    + apply (st_kept _ _ _ _ _ _ _ Htree); [done|].
      by eapply unplanned_not_held.
    + intros (T & ([kd T'] & -> & Hin)%list_elem_of_fmap & [rest ->])
               %Exists_exists.
      cbn in Hk. by rewrite (rt_temp_free e t Hrt kd T' rest) in Hk.
  - intros k i. rewrite Hlook. destruct (decide _) as [|Hex]; [done|].
    intros Hi. destruct (Honly k i Hi) as [?|(kd & T & Hin & Hp)]; [done|].
    destruct Hex. apply Exists_exists. exists T. split; [|done].
    apply list_elem_of_fmap. by exists (kd, T).
Qed.

End RoundTrip.

(** The remover of the example, whose plan holds the module
    [/env/lib/a.py] and the registry line [/src/foo]. *)
Lemma remove_then_rollback_witness :
  let s0 := Examples.planned {["/env/lib/a.py"]} {["/src/foo"]} in
  let s1 := (Uninstallers.remove elements s0).2 in
  ∃ s2,
    Uninstallers.rollback s1 = (Ok tt, s2) ∧
    (∀ k, ¬ k `prefix_of` ["tmp"] →
          FS.nodes (fs (Uninstallers.w s2)) !! k
          = FS.nodes (fs (Uninstallers.w s0)) !! k) ∧
    (∀ k i, FS.nodes (fs (Uninstallers.w s2)) !! k = Some i →
            FS.nodes (fs (Uninstallers.w s0)) !! k = Some i) ∧
    Uninstallers._stashed (Uninstallers.self s2) = [] ∧
    Uninstallers._tempdirs (Uninstallers.self s2) = [] ∧
    Uninstallers._saved_pth (Uninstallers.self s2) = None.
Proof.
  intros s0 s1.
  apply (remove_then_rollback elements (λ X, reflexivity _) s0 s1
           ["env"] ["tmp"] ["env"; "lib"; "easy-install.pth"]).
  - apply wfb_wf. vm_compute. reflexivity.
  - by repeat constructor.
  - apply (bool_decide_unpack _). vm_compute. reflexivity.
  - reflexivity.
  - reflexivity.
  - vm_compute. reflexivity.
  - reflexivity.
  - reflexivity.
  - reflexivity.
  - apply (bool_decide_unpack _). vm_compute. reflexivity.
  - intros r1 Hr1.
    repeat (apply elem_of_cons in Hr1 as [->|Hr1]);
      [split; vm_compute; reflexivity..|by apply elem_of_nil in Hr1].
  - intros p Hp. change (p ∈ ({["/env/lib/a.py"]} : gset string)) in Hp.
    apply elem_of_singleton in Hp as ->. exists "lib", ["a.py"].
    split_and!; [done|by repeat constructor|vm_compute; reflexivity|].
    intros i Hi.
    assert (FS.nodes (fs (Uninstallers.w s0)) !! (["env"] ++ "lib" :: ["a.py"])
            = Some (FS.File "A")) as Ha by (vm_compute; reflexivity).
    pose proof (eq_trans (eq_sym Ha) Hi) as Heq. injection Heq as <-.
    split; [by eexists|vm_compute; reflexivity].
  - vm_compute. reflexivity.
  - by repeat constructor.
  - apply (bool_decide_unpack _). vm_compute. reflexivity.
  - vm_compute. reflexivity.
  - vm_compute. discriminate.
Defined.

(** The remover of the example, whose plan holds the module
    [/env/lib/a.py]. *)
Lemma stash_files_moves_planned_witness :
  let s := Examples.planned {["/env/lib/a.py"]} ∅ in
  ∃ s1,
    Uninstallers._stash_files elements s = (Ok tt, s1) ∧
    ∀ q d,
      render q ∈ Uninstallers._paths (Uninstallers.self s) →
      FS.nodes (fs (Uninstallers.w s)) !! q = Some (FS.File d) →
      FS.nodes (fs (Uninstallers.w s1)) !! q = None ∧
      ∃ name h,
        FS.nodes (fs (Uninstallers.w s1)) !! (["tmp"] ++ name :: h)
        = Some (FS.File d).
Proof.
  intros s.
  apply (stash_files_moves_planned elements (λ X, reflexivity _) s ["env"]
           ["tmp"]).
  - apply wfb_wf. vm_compute. reflexivity.
  - by repeat constructor.
  - apply (bool_decide_unpack _). vm_compute. reflexivity.
  - reflexivity.
  - reflexivity.
  - vm_compute. reflexivity.
  - reflexivity.
  - reflexivity.
  - apply (bool_decide_unpack _). vm_compute. reflexivity.
  - intros r1 Hr1.
    repeat (apply elem_of_cons in Hr1 as [->|Hr1]);
      [split; vm_compute; reflexivity..|by apply elem_of_nil in Hr1].
  - intros p Hp. change (p ∈ ({["/env/lib/a.py"]} : gset string)) in Hp.
    apply elem_of_singleton in Hp as ->. exists "lib", ["a.py"].
    split_and!; [done|by repeat constructor|vm_compute; reflexivity|].
    intros i Hi.
    assert (FS.nodes (fs (Uninstallers.w s)) !! (["env"] ++ "lib" :: ["a.py"])
            = Some (FS.File "A")) as Ha by (vm_compute; reflexivity).
    pose proof (eq_trans (eq_sym Ha) Hi) as Heq. injection Heq as <-.
    split; [by eexists|vm_compute; reflexivity].
  - apply (bool_decide_unpack _). vm_compute. reflexivity.
Defined.

(** The same remover; the file [/env/lib/keep.txt] is not in its plan. *)
Lemma stash_files_keeps_unplanned_witness :
  let s := Examples.planned {["/env/lib/a.py"]} ∅ in
  let out := Uninstallers._stash_files elements s in
  FS.nodes (fs (Uninstallers.w out.2)) !! ["env"; "lib"; "keep.txt"]
  = FS.nodes (fs (Uninstallers.w s)) !! ["env"; "lib"; "keep.txt"].
Proof.
  intros s out.
  apply (stash_files_keeps_unplanned elements (λ X, reflexivity _) s ["env"]
           ["tmp"] out.1 out.2) with (k := ["env"; "lib"; "keep.txt"])
                                      (d := "K").
  - apply wfb_wf. vm_compute. reflexivity.
  - by repeat constructor.
  - apply (bool_decide_unpack _). vm_compute. reflexivity.
  - reflexivity.
  - reflexivity.
  - vm_compute. reflexivity.
  - reflexivity.
  - reflexivity.
  - apply (bool_decide_unpack _). vm_compute. reflexivity.
  - intros r1 Hr1.
    repeat (apply elem_of_cons in Hr1 as [->|Hr1]);
      [split; vm_compute; reflexivity..|by apply elem_of_nil in Hr1].
  - intros p Hp. change (p ∈ ({["/env/lib/a.py"]} : gset string)) in Hp.
    apply elem_of_singleton in Hp as ->. exists "lib", ["a.py"].
    split_and!; [done|by repeat constructor|vm_compute; reflexivity|].
    intros i Hi.
    assert (FS.nodes (fs (Uninstallers.w s)) !! (["env"] ++ "lib" :: ["a.py"])
            = Some (FS.File "A")) as Ha by (vm_compute; reflexivity).
    pose proof (eq_trans (eq_sym Ha) Hi) as Heq. injection Heq as <-.
    split; [by eexists|vm_compute; reflexivity].
  - apply surjective_pairing.
  - vm_compute. reflexivity.
  - apply (bool_decide_unpack _). vm_compute. reflexivity.
  - done.
Defined.

(** The registry of the example holds the line [/src/foo]. *)
Lemma remove_pth_returns_iff_witness :
  let s := Examples.planned ∅ {["/src/foo"]} in
  (∃ s', Uninstallers._remove_pth elements s = (Ok tt, s')) ↔
  (∀ item,
     item ∈ Uninstallers._pth_entries (Uninstallers.self s) →
     item ∈ Str.splitlines
              (default EmptyString
                 (FS.stat (fs (Uninstallers.w s))
                    (Uninstallers._pth_file (Uninstallers.self s))
                  ≫= λ i, match i with FS.File d => Some d | _ => None end))).
Proof.
  intros s.
  apply (remove_pth_returns_iff elements (λ X, reflexivity _) s).
  vm_compute. reflexivity.
Defined.

(** The same remover: the stash step and then commit. *)
Lemma stash_then_commit_uninstalls_witness :
  let s := Examples.planned {["/env/lib/a.py"]} ∅ in
  ∃ s1 s2,
    Uninstallers._stash_files elements s = (Ok tt, s1) ∧
    Uninstallers.commit s1 = (Ok tt, s2) ∧
    (∀ q d, render q ∈ Uninstallers._paths (Uninstallers.self s) →
            FS.nodes (fs (Uninstallers.w s)) !! q = Some (FS.File d) →
            FS.nodes (fs (Uninstallers.w s2)) !! q = None) ∧
    (∀ k d, FS.nodes (fs (Uninstallers.w s)) !! k = Some (FS.File d) →
            render k ∉ Uninstallers._paths (Uninstallers.self s) →
            FS.nodes (fs (Uninstallers.w s2)) !! k = Some (FS.File d)) ∧
    (∀ k i, FS.nodes (fs (Uninstallers.w s2)) !! k = Some i →
            FS.nodes (fs (Uninstallers.w s)) !! k = Some i).
Proof.
  intros s.
  apply (stash_then_commit_uninstalls elements (λ X, reflexivity _) s ["env"]
           ["tmp"]).
  - apply wfb_wf. vm_compute. reflexivity.
  - by repeat constructor.
  - apply (bool_decide_unpack _). vm_compute. reflexivity.
  - reflexivity.
  - reflexivity.
  - vm_compute. reflexivity.
  - reflexivity.
  - reflexivity.
  - apply (bool_decide_unpack _). vm_compute. reflexivity.
  - intros r1 Hr1.
    repeat (apply elem_of_cons in Hr1 as [->|Hr1]);
      [split; vm_compute; reflexivity..|by apply elem_of_nil in Hr1].
  - intros p Hp. change (p ∈ ({["/env/lib/a.py"]} : gset string)) in Hp.
    apply elem_of_singleton in Hp as ->. exists "lib", ["a.py"].
    split_and!; [done|by repeat constructor|vm_compute; reflexivity|].
    intros i Hi.
    assert (FS.nodes (fs (Uninstallers.w s)) !! (["env"] ++ "lib" :: ["a.py"])
            = Some (FS.File "A")) as Ha by (vm_compute; reflexivity).
    pose proof (eq_trans (eq_sym Ha) Hi) as Heq. injection Heq as <-.
    split; [by eexists|vm_compute; reflexivity].
  - apply (bool_decide_unpack _). vm_compute. reflexivity.
Defined.

(** * A cache entry whose first install has failed *)

Section CacheFill.

Import Installers.

Variable hash_of : string → string.
Variable build_script :
  string → string → string → string → string → string → string * string.
Variable fix_shebang : string → string → string.
Variable parse_entrypoints : string → list (string * string * string * string).
Variable _determine_scheme : string → string → string → res (string * string).
Variable construct_record_file : list RecordEntry → string.
Variable normalize_name : string → string.
Variable __version__ : string.

Abbreviation install_wheel :=
  (install_wheel hash_of build_script fix_shebang parse_entrypoints
     _determine_scheme construct_record_file __version__).
Abbreviation _install_from_cache :=
  (_install_from_cache hash_of build_script fix_shebang parse_entrypoints
     _determine_scheme construct_record_file normalize_name __version__).
Abbreviation install_wheel_with_cache :=
  (install_wheel_with_cache hash_of build_script fix_shebang parse_entrypoints
     _determine_scheme construct_record_file normalize_name __version__).
Abbreviation materialize :=
  (materialize hash_of build_script fix_shebang parse_entrypoints
     _determine_scheme construct_record_file __version__).

(** [mkdir(exist_ok=True)] that raises has made nothing. *)
Lemma mkdir_exist_ok_raises path w0 e w1 :
  mkdir_exist_ok path w0 = (Raise e, w1) → fs w1 = fs w0.
Proof.
  unfold mkdir_exist_ok, try_except, os, zoom, Os.mkdir, Os.syscall.
  destruct (FS.mkdir (fs w0) path) as [fs'|e']; [done|].
  destruct (is_OSError e').
  - change (fs (set_fs w0 (fs w0))) with (fs w0).
    destruct (FS.isdir (fs w0) path); [done|]. by intros [= _ <-].
  - by intros [= _ <-].
Qed.

(** The first install into a cache entry, whether it returns or raises:
    the directory of the entry is there, or nothing was written. *)
Lemma materialize_made c w0 r w1 :
  materialize c w0 = (r, w1) →
  FS.isdir (fs w1) (cache_path c) = true ∨ (fs w1 = fs w0 ∧ ∃ e, r = Raise e).
Proof.
  unfold Installers.materialize. intros Hrun.
  unfold bind at 1 in Hrun. cbn [logger modify] in Hrun.
  set (wa := add_log _ _ w0) in Hrun.
  unfold bind at 1 in Hrun.
  destruct (mkdir_exist_ok (cache_path c) wa) as [[[]|e] wb] eqn:Hmk.
  - left. apply mkdir_exist_ok_isdir in Hmk.
    eapply isdir_keeps; [|exact Hmk]. by eapply Keeps_install_wheel.
  - injection Hrun as <- <-. right. split; [|by eexists].
    by apply mkdir_exist_ok_raises in Hmk.
Qed.

(** X22.  A cache entry is filled at most once, even when filling it
    fails.  After a call of [install_wheel_with_cache], whether it has
    returned or raised, either nothing was written (it raised before the
    directory of the cache entry could be made), or the directory of the
    entry exists; and then every later call for the same archive, from
    any environment, is the link install alone: [install_wheel] is not
    run for the entry again, although the first install into it may have
    raised half-way. *)
Theorem cache_fill_not_retried c scheme w0 r w1 :
  install_wheel_with_cache c scheme w0 = (r, w1) →
  (fs w1 = fs w0 ∧ ∃ e, r = Raise e) ∨
  (FS.isdir (fs w1) (cache_path c) = true ∧
   ∀ c' scheme',
     same_archive c c' →
     install_wheel_with_cache c' scheme' w1
     = _install_from_cache c' (cache_path c) w1).
Proof.
  intros Hrun.
  assert (FS.isdir (fs w1) (cache_path c) = true →
          ∀ c' scheme',
            same_archive c c' →
            install_wheel_with_cache c' scheme' w1
            = _install_from_cache c' (cache_path c) w1) as Hlater.
  { intros Hd c' scheme' Hsame.
    rewrite <-(same_archive_cache_path c c' Hsame) in *.
    by apply install_wheel_with_cache_cached. }
  destruct (FS.isdir (fs w0) (cache_path c)) eqn:Hd.
  - rewrite install_wheel_with_cache_cached in Hrun by done.
    right. split; [|apply Hlater];
      (eapply isdir_keeps; [|exact Hd]; by eapply Keeps_install_from_cache).
  - rewrite install_wheel_with_cache_fresh in Hrun by done.
    unfold bind at 1 in Hrun.
    destruct (materialize c w0) as [[[]|e] wm] eqn:Hmat.
    + apply materialize_isdir in Hmat. right. split; [|apply Hlater];
        (eapply isdir_keeps; [|exact Hmat];
         by eapply Keeps_install_from_cache).
    + injection Hrun as <- <-.
      destruct (materialize_made _ _ _ _ Hmat) as [Hmade|[Hfs _]].
      * right. split; [done|by apply Hlater].
      * left. split; [done|by eexists].
Qed.

End CacheFill.

(** * A directory in the place of a file *)

Section DirectoryTarget.

Import Installers.

Variable hash_of : string → string.

(** X23.  The destination does not replace a directory.  The scheme
    root is an absolute directory [/r1/.../rk] and the relative path is
    [c1/.../cn]; when the target [/r1/.../rk/c1/.../cn] is a directory,
    [write_to_fs] raises [IsADirectoryError] from the removal of the
    target, and the file system is as before: the directory and what it
    holds stay, and nothing is written. *)
Theorem write_to_fs_directory self scheme r comps d w0 :
  scheme_dict self !! scheme = Some (render r) →
  normal r → normal comps → comps ≠ [] →
  reachable (FS.nodes (fs w0)) (r ++ comps) →
  FS.nodes (fs w0) !! (r ++ comps) = Some FS.Dir →
  ∃ w1,
    write_to_fs hash_of self scheme (Str.join "/" comps) d w0
    = (Raise IsADirectoryError, w1) ∧
    fs w1 = fs w0.
Proof.
  intros Hroot Hr Hc Hne Hreach Hdir.
  assert (normal (r ++ comps)) as Hq by by apply normal_app.
  unfold write_to_fs.
  erewrite bind_run;
    [|unfold Uninstallers.getitem; rewrite Hroot; reflexivity].
  rewrite join_render_rel, to_str_render by done.
  erewrite bind_run.
  2:{ unfold gets. rewrite exists_reachable, Hdir by done.
      rewrite bool_decide_true by by eexists. reflexivity. }
  eexists. split.
  - apply bind_raise.
    unfold when, os, zoom, Os.unlink, Os.syscall, FS.unlink.
    rewrite reachable_resolve, Hdir by done. reflexivity.
  - done.
Qed.

End DirectoryTarget.

(** An archive without a metadata directory: the install into the cache
    entry raises after the directory of the entry is made. *)
Lemma cache_fill_not_retried_witness :
  let c :=
    {| Installers.name := "foo";
       Installers.wheel := "/tmp/build/foo-1.0-py3-none-any.whl";
       Installers.wheel_source :=
         {| Installers.namelist := ["foo/__init__.py"];
            Installers.canonical_dist_info_dir := "foo-1.0.dist-info";
            Installers.data_dir := "foo-1.0.data";
            Installers.get_contents := [("foo/__init__.py", "print(1)")];
            Installers.root_scheme := "purelib" |};
       Installers.environment := Examples.paths;
       Installers.executable := "/usr/bin/python3";
       Installers.packages_cache := "/tmp/packages" |} in
  let out := Examples.install_wheel_with_cache c None Examples.earth' in
  out.1
  = Raise (InvalidWheelSource
             "The wheel doesn't contain metadata 'foo-1.0.dist-info'") ∧
  FS.isdir (fs Examples.earth') (Installers.cache_path c) = false ∧
  ((fs out.2 = fs Examples.earth' ∧ ∃ e, out.1 = Raise e) ∨
   (FS.isdir (fs out.2) (Installers.cache_path c) = true ∧
    ∀ c' scheme',
      Installers.same_archive c c' →
      Examples.install_wheel_with_cache c' scheme' out.2
      = Examples._install_from_cache c' (Installers.cache_path c) out.2)).
Proof.
  intros c out. split_and!; [vm_compute; reflexivity..|].
  apply (cache_fill_not_retried Examples.hash_of Examples.build_script
           Examples.fix_shebang Examples.parse_entrypoints
           Examples._determine_scheme Examples.construct_record_file
           Examples.normalize_name Examples.__version__ c None Examples.earth').
  apply surjective_pairing.
Defined.

(** The package directory [/env/lib/sub] of the example. *)
Lemma write_to_fs_directory_witness :
  let self :=
    {| Installers.scheme_dict := Examples.paths;
       Installers.interpreter := "/usr/bin/python3";
       Installers.script_kind := "posix" |} in
  ∃ w1,
    Installers.write_to_fs Examples.hash_of self "purelib"
      (Str.join "/" ["sub"]) "data" Examples.earth
    = (Raise IsADirectoryError, w1) ∧
    fs w1 = fs Examples.earth.
Proof.
  intros self.
  apply (write_to_fs_directory Examples.hash_of self "purelib" ["env"; "lib"]
           ["sub"] "data" Examples.earth).
  - reflexivity.
  - by repeat constructor.
  - by repeat constructor.
  - done.
  - apply wf_reachable; [apply wfb_wf; vm_compute; reflexivity|].
    apply (bool_decide_unpack _). vm_compute. reflexivity.
  - vm_compute. reflexivity.
Defined.

(** * Rollback onto a place that is taken *)

Section Replace.

Import Uninstallers.

Implicit Types s : state.

(** X24.  Rollback puts a stashed file back over whatever has taken its
    place.  The file with the bytes [d] is held at [/pa1/.../pak/m]; its
    old place [/pb1/.../pbj/n] holds something again, a regular file or
    a directory, and the holding place is not below it.  Then the body
    of the loop of [rollback] returns; the old place holds the bytes [d]
    and nothing is below it: the newcomer is deleted, a directory with
    all it held.  The holding place is free.  Every other node that is
    not at or below the old place stays, except for directories on the
    way to the holding place, which are pruned when they are left
    empty. *)
Theorem restore_one_replaces s pa m pb n d i' :
  FS.wf (FS.nodes (fs (w s))) →
  normal (pa ++ [m]) → normal (pb ++ [n]) →
  FS.nodes (fs (w s)) !! (pa ++ [m]) = Some (FS.File d) →
  FS.nodes (fs (w s)) !! (pb ++ [n]) = Some i' →
  ¬ pb ++ [n] `prefix_of` pa ++ [m] →
  ∃ s',
    restore_one (render (pb ++ [n]), render (pa ++ [m])) s = (Ok tt, s') ∧
    FS.nodes (fs (w s')) !! (pb ++ [n]) = Some (FS.File d) ∧
    (∀ rest, rest ≠ [] → FS.nodes (fs (w s')) !! ((pb ++ [n]) ++ rest) = None) ∧
    FS.nodes (fs (w s')) !! (pa ++ [m]) = None ∧
    (∀ k i, FS.nodes (fs (w s)) !! k = Some i →
            ¬ pb ++ [n] `prefix_of` k → k ≠ pa ++ [m] → ¬ k `prefix_of` pa →
            FS.nodes (fs (w s')) !! k = Some i).
Proof.
  intros Hwf Hna Hnb Hheld Hnew Hnp.
  set (tr := FS.nodes (fs (w s))) in *.
  set (a := pa ++ [m]) in *. set (b := pb ++ [n]) in *.
  pose proof Hna as [Hnpa Hvm]%normal_snoc.
  pose proof Hnb as [Hnpb Hvn]%normal_snoc.
  assert (b ≠ []) as Hbne by (unfold b; by destruct pb).
  assert (a ≠ []) as Hane by (unfold a; by destruct pa).
  assert (tr !! pb = Some FS.Dir) as Hpb
    by (apply (wf_prefix tr pb [n]); [done|by eexists|done]).
  assert (¬ a `prefix_of` pb) as Hapb.
  { intros [rest ->].
    pose proof (wf_file_leaf tr a rest d Hwf Hheld (mk_is_Some _ _ Hpb)) as ->.
    rewrite app_nil_r in Hpb. congruence. }
  assert (¬ a `prefix_of` b) as Hab.
  { intros [rest Hrest].
    assert (is_Some (tr !! (a ++ rest))) as Hsome
      by (rewrite <-Hrest; by eexists).
    pose proof (wf_file_leaf tr a rest d Hwf Hheld Hsome) as ->.
    rewrite app_nil_r in Hrest. apply Hnp. by rewrite Hrest. }
  (* the newcomer is deleted *)
  set (tr1 := FS.remove_tree tr b).
  set (msg := "Rollback " +:+ render b +:+ String "010" " from " +:+ render a).
  set (s0 := {| w := add_log "debug" msg (w s); self := self s |}).
  assert ((if FS.isfile (fs (w s0)) (render b) then sys (Os.unlink (render b))
           else if FS.isdir (fs (w s0)) (render b)
                then sys (Os.rmtree (render b)) else ret tt) s0
          = (Ok tt, on_fs s0 (FS.with_nodes (fs (w s0)) tr1))) as Hdel.
  { change (fs (w s0)) with (fs (w s)).
    rewrite isfile_render, isdir_render by done. fold tr. rewrite Hnew.
    destruct i' as [d'|]; cbn [FS.is_file FS.is_dir].
    - apply sys_run. rewrite (unlink_render _ b d') by done.
      do 2 f_equal. fold tr. apply map_eq. intros k. unfold tr1.
      rewrite lookup_remove_tree.
      destruct (decide (b `prefix_of` k)) as [[rest ->]|Hp].
      + destruct (decide (rest = [])) as [->|Hrest].
        * by rewrite app_nil_r, lookup_delete_eq.
        * rewrite lookup_delete_ne.
          2:{ intros Heq. apply Hrest. apply (inj (app b)).
              by rewrite app_nil_r. }
          destruct (tr !! (b ++ rest)) as [i|] eqn:Hi; [|done].
          by pose proof (wf_file_leaf tr b rest d' Hwf Hnew
                           (mk_is_Some _ _ Hi)).
      + rewrite lookup_delete_ne; [done|]. intros <-. by apply Hp.
    - apply sys_run. by rewrite rmtree_render. }
  assert (FS.wf tr1) as Hwf1 by by apply wf_remove_tree.
  assert (tr1 !! a = Some (FS.File d)) as Hheld1.
  { unfold tr1. rewrite lookup_remove_tree. by rewrite decide_False. }
  assert (tr1 !! pb = Some FS.Dir) as Hpb1.
  { unfold tr1. rewrite lookup_remove_tree. rewrite decide_False; [done|].
    intros Hp%prefix_length. unfold b in Hp. rewrite length_app in Hp.
    cbn in Hp. lia. }
  assert (∀ rest, tr1 !! (b ++ rest) = None) as Hfree1.
  { intros rest. unfold tr1. rewrite lookup_remove_tree.
    rewrite decide_True; [done|by apply prefix_app_r]. }
  (* the move *)
  set (fs1 := FS.with_nodes (fs (w s0)) tr1).
  destruct (renames_file fs1 pa m pb n d) as (tr2 & _ & _ & Hsame & Hren);
    [done..| |].
  { intros k d' [rest ->] Hk. cbn in Hk.
    pose proof (wf_file_leaf tr1 k rest d' Hwf1 Hk (mk_is_Some _ _ Hpb1)) as ->.
    rewrite app_nil_r in Hpb1. congruence. }
  rewrite (Hsame Hpb1) in Hren. cbn [FS.nodes FS.with_nodes fs1] in Hren.
  fold a b in Hren.
  set (M := <[b := FS.File d]> (delete a tr1)) in *.
  assert (FS.wf M) as HwfM.
  { unfold M, b. apply wf_move_file; try done.
    - intros rest. rewrite (assoc_L (++)). apply Hfree1.
    - intros Heq. rewrite Heq in Hpb1. fold a in Hpb1. congruence. }
  destruct (removedirs_render (FS.with_nodes fs1 M) pa HwfM Hnpa)
    as (tr' & Hrm & Hwf' & Hsub & Hpr).
  assert (∀ k, M !! k
               = if decide (b `prefix_of` k)
                 then tr1 !! (a ++ drop (length b) k)
                 else if decide (a `prefix_of` k) then None else tr1 !! k)
    as HM by (intros k; by apply lookup_move_file).
  assert (M !! b = Some (FS.File d)) as HMb.
  { rewrite HM, decide_True by done. by rewrite drop_all, app_nil_r. }
  eexists. split_and!.
  - unfold restore_one.
    erewrite bind_run; [|apply log_run]. fold msg s0.
    erewrite bind_run; [|apply probe_run].
    erewrite bind_run; [|apply probe_run].
    erewrite bind_run; [|exact Hdel].
    apply sys_run. cbn [fs w on_fs set_fs]. fold fs1. rewrite Hren.
    exact Hrm.
  - cbn. destruct (Hpr b _ HMb) as [?|[? _]]; done.
  - intros rest Hrest. cbn.
    destruct (tr' !! (b ++ rest)) as [i|] eqn:Hi; [|done].
    eapply lookup_weaken in Hi; [|exact Hsub]. cbn in Hi.
    rewrite HM, decide_True, drop_app_length in Hi by by apply prefix_app_r.
    by pose proof (wf_file_leaf tr1 a rest d Hwf1 Hheld1 (mk_is_Some _ _ Hi)).
  - cbn. destruct (tr' !! a) as [i|] eqn:Hi; [|done].
    eapply lookup_weaken in Hi; [|exact Hsub]. cbn in Hi.
    rewrite HM, decide_False, decide_True in Hi by done. done.
  - intros k i Hk Hbk Hka Hkpa. cbn.
    assert (M !! k = Some i) as HMk.
    { rewrite HM, decide_False by done. rewrite decide_False.
      - unfold tr1. rewrite lookup_remove_tree. by rewrite decide_False.
      - intros [rest ->].
        pose proof (wf_file_leaf tr a rest d Hwf Hheld (mk_is_Some _ _ Hk))
          as ->.
        by rewrite app_nil_r in Hka. }
    destruct (Hpr k i HMk) as [?|[_ ?]]; done.
Qed.

End Replace.

(** The remover of the example has stashed the module [/env/lib/a.py];
    a new file is then written in its place. *)
Lemma restore_one_replaces_witness :
  let s1 :=
    (Uninstallers.stash_one "/env/lib/a.py"
       (Examples.planned {["/env/lib/a.py"]} ∅)).2 in
  let s :=
    (Uninstallers.sys (Os.write "/env/lib/a.py" "NEW") s1).2 in
  let a := ["tmp"; tmpname "aaa"; "a.py"] in
  let b := ["env"; "lib"; "a.py"] in
  FS.nodes (fs (Uninstallers.w s)) !! b = Some (FS.File "NEW") ∧
  ∃ s',
    Uninstallers.restore_one (render b, render a) s = (Ok tt, s') ∧
    FS.nodes (fs (Uninstallers.w s')) !! b = Some (FS.File "A") ∧
    (∀ rest, rest ≠ [] →
             FS.nodes (fs (Uninstallers.w s')) !! (b ++ rest) = None) ∧
    FS.nodes (fs (Uninstallers.w s')) !! a = None ∧
    (∀ k i, FS.nodes (fs (Uninstallers.w s)) !! k = Some i →
            ¬ b `prefix_of` k → k ≠ a → ¬ k `prefix_of` ["tmp"; tmpname "aaa"] →
            FS.nodes (fs (Uninstallers.w s')) !! k = Some i).
Proof.
  intros s1 s a b. split; [vm_compute; reflexivity|].
  apply (restore_one_replaces s ["tmp"; tmpname "aaa"] "a.py" ["env"; "lib"]
           "a.py" "A" (FS.File "NEW")).
  - apply wfb_wf. vm_compute. reflexivity.
  - by repeat constructor.
  - by repeat constructor.
  - vm_compute. reflexivity.
  - vm_compute. reflexivity.
  - apply (bool_decide_unpack _). vm_compute. reflexivity.
Defined.

(** * Nodes that a computation may change *)

Section Touches.

Implicit Types Q : list string → Prop.
Implicit Types f : FS.t.
Implicit Types p q r t : list string.

Lemma touches_refl Q f : touches Q f f.
Proof. split; [done|]. intros k. by left. Qed.

Lemma touches_trans Q f1 f2 f3 :
  touches Q f1 f2 → touches Q f2 f3 → touches Q f1 f3.
Proof.
  intros [Hc1 H1] [Hc2 H2]. split; [congruence|]. intros k.
  destruct (H2 k) as [Hs2|[?|(Hn2 & Hd2 & Ht2)]]; [|by right; left|].
  - rewrite Hs2. apply H1.
  - destruct (H1 k) as [Hs1|[?|(Hn1 & Hd1 & Ht1)]]; [|by right; left|].
    + right; right. by rewrite <-Hs1.
    + congruence.
Qed.

Lemma touches_mono Q Q' f f' :
  (∀ k, Q k → Q' k) → touches Q f f' → touches Q' f f'.
Proof.
  intros HQ [Hc H]. split; [done|]. intros k.
  destruct (H k) as [?|[?|(? & ? & t & ? & ?)]]; [by left|right; left; auto|].
  right; right. split_and!; [done..|]. exists t. auto.
Qed.

Lemma touches_insert Q f p i :
  Q p → touches Q f (FS.with_nodes f (<[p := i]> (FS.nodes f))).
Proof.
  intros Hp. split; [done|]. intros k. destruct (decide (k = p)) as [->|Hne].
  - by right; left.
  - left. cbn. by rewrite lookup_insert_ne.
Qed.

Lemma touches_delete Q f p :
  Q p → touches Q f (FS.with_nodes f (delete p (FS.nodes f))).
Proof.
  intros Hp. split; [done|]. intros k. destruct (decide (k = p)) as [->|Hne].
  - by right; left.
  - left. cbn. by rewrite lookup_delete_ne.
Qed.

Lemma touches_new_dir Q f p t :
  FS.nodes f !! p = None → Q t → p `prefix_of` t →
  touches Q f (FS.with_nodes f (<[p := FS.Dir]> (FS.nodes f))).
Proof.
  intros Hp Ht Hpt. split; [done|]. intros k.
  destruct (decide (k = p)) as [->|Hne].
  - right; right. cbn. rewrite lookup_insert_eq. split_and!; [done..|].
    by exists t.
  - left. cbn. by rewrite lookup_insert_ne.
Qed.

Section Closure.

Context {S : Type} (proj : S → FS.t) (Q : list string → Prop).

Lemma Touches_ret {A} (a : A) : Touches proj Q (ret a).
Proof. intros s r s' [= <- <-]. apply touches_refl. Qed.

Lemma Touches_raise {A} e : Touches proj Q (raise e : M S A).
Proof. intros s r s' [= <- <-]. apply touches_refl. Qed.

Lemma Touches_gets {A} (g : S → A) : Touches proj Q (gets g).
Proof. intros s r s' [= <- <-]. apply touches_refl. Qed.

Lemma Touches_modify (g : S → S) :
  (∀ s, proj (g s) = proj s) → Touches proj Q (modify g).
Proof. intros Hg s r s' [= <- <-]. rewrite Hg. apply touches_refl. Qed.

Lemma Touches_bind {A B} (m : M S A) (k : A → M S B) :
  Touches proj Q m → (∀ a, Touches proj Q (k a)) → Touches proj Q (bind m k).
Proof.
  intros Hm Hk s r s'. unfold bind.
  destruct (m s) as [[a|e] s1] eqn:Hms.
  - intros Hks. eapply touches_trans; [by eapply Hm|by eapply Hk].
  - intros [= <- <-]. by eapply Hm.
Qed.

Lemma Touches_bind_ret {A B} (a : A) (k : A → M S B) :
  Touches proj Q (k a) → Touches proj Q (bind (ret a) k).
Proof. intros Hk s r s'. apply Hk. Qed.

Lemma Touches_bind_raise {A B} e (k : A → M S B) :
  Touches proj Q (bind (raise e) k).
Proof. intros s r s' [= <- <-]. apply touches_refl. Qed.

Lemma Touches_try_except {A} (m h : M S A) handled :
  Touches proj Q m → Touches proj Q h → Touches proj Q (try_except m handled h).
Proof.
  intros Hm Hh s r s'. unfold try_except.
  destruct (m s) as [[a|e] s1] eqn:Hms.
  - intros [= <- <-]. by eapply Hm.
  - destruct (handled e).
    + intros Hhs. eapply touches_trans; [by eapply Hm|by eapply Hh].
    + intros [= <- <-]. by eapply Hm.
Qed.

Lemma Touches_when (b : bool) (m : M S unit) :
  Touches proj Q m → Touches proj Q (when b m).
Proof. intros Hm. destruct b; [done|apply Touches_ret]. Qed.

Lemma Touches_for_each {A} (l : list A) (body : A → M S unit) :
  (∀ x, x ∈ l → Touches proj Q (body x)) → Touches proj Q (for_each l body).
Proof.
  induction l as [|x l IH]; intros Hb; [apply Touches_ret|].
  apply Touches_bind; [apply Hb; left|].
  intros _. apply IH. intros y Hy. apply Hb. by right.
Qed.

End Closure.

Lemma Touches_mono {S A} (proj : S → FS.t) Q Q' (m : M S A) :
  (∀ k, Q k → Q' k) → Touches proj Q m → Touches proj Q' m.
Proof. intros HQ Hm s r s' Hrun. eapply touches_mono; [exact HQ|by eapply Hm]. Qed.

Lemma Touches_os {A} Q (m : M FS.t A) : Touches id Q m → Touches fs Q (os m).
Proof.
  intros Hm s r s'. unfold os, zoom.
  destruct (m (fs s)) as [r1 t'] eqn:Hms. intros [= <- <-]. cbn.
  by eapply Hm.
Qed.

(** A system call that fails changes nothing. *)
Lemma Touches_syscall Q (g : FS.t → res FS.t) :
  (∀ f f', g f = Ok f' → touches Q f f') → Touches id Q (Os.syscall g).
Proof.
  intros Hg s r s'. unfold Os.syscall.
  destruct (g s) as [f'|e] eqn:Hgs; intros [= <- <-].
  - by apply Hg.
  - apply touches_refl.
Qed.

(** ** System calls on normalised paths *)

Lemma resolve_new_render f q :
  normal q → FS.resolve_new f (render q) = FS.resolve f (render q).
Proof.
  intros Hq. unfold FS.resolve_new. destruct q as [|n q]; [done|].
  rewrite rstrip_render by done.
  pose proof (render_nonempty (n :: q)). by destruct (render (n :: q)).
Qed.

Lemma Touches_mkdir_at Q q t :
  normal q → Q t → q `prefix_of` t → Touches id Q (Os.mkdir (render q)).
Proof.
  intros Hq Ht Hqt. apply Touches_syscall. intros f f'. unfold FS.mkdir.
  rewrite resolve_new_render by done.
  destruct (FS.resolve f (render q)) as [p|] eqn:Hres; [|done].
  apply resolve_reachable in Hres as [-> _]; [|done].
  destruct (FS.nodes f !! q) eqn:Hl; [done|]. intros [= <-].
  by eapply touches_new_dir.
Qed.

Lemma Touches_unlink_at Q t :
  normal t → Q t → Touches id Q (Os.unlink (render t)).
Proof.
  intros Hn Ht. apply Touches_syscall. intros f f'. unfold FS.unlink.
  destruct (FS.resolve f (render t)) as [p|] eqn:Hres; [|done].
  apply resolve_reachable in Hres as [-> _]; [|done].
  destruct (FS.nodes f !! t) as [[d|]|]; [|done..]. intros [= <-].
  by apply touches_delete.
Qed.

Lemma Touches_write_at Q t d :
  normal t → Q t → Touches id Q (Os.write (render t) d).
Proof.
  intros Hn Ht. apply Touches_syscall. intros f f'. unfold FS.write.
  destruct (FS.resolve f (render t)) as [p|] eqn:Hres; [|done].
  apply resolve_reachable in Hres as [-> _]; [|done].
  destruct (FS.nodes f !! t) as [[d'|]|]; [|done|]; intros [= <-];
    by apply touches_insert.
Qed.

Lemma Touches_makedirs_go Q fuel p t :
  normal p → Q t → p `prefix_of` t →
  Touches id Q (Os.makedirs_go fuel (render p)).
Proof.
  intros Hp Ht. revert p Hp.
  induction fuel as [|fuel IH]; intros p Hp Hpt; [apply Touches_raise|].
  destruct p as [|n p0 _] using rev_ind.
  { change (render []) with "/". cbn.
    apply Touches_bind; [apply Touches_gets|]. intros pe.
    by apply (Touches_mkdir_at Q [] t). }
  apply normal_snoc in Hp as [Hp0 Hn].
  assert (normal (p0 ++ [n])) as Hpn by by apply normal_snoc.
  cbn [Os.makedirs_go]. rewrite split_skip_render_snoc by done.
  apply Touches_bind; [apply Touches_gets|]. intros pe.
  destruct (_ && _).
  - apply Touches_bind.
    + apply Touches_try_except; [|apply Touches_ret].
      apply IH; [done|]. etrans; [|exact Hpt]. by apply prefix_app_r.
    + intros _. destruct (bool_decide _); [apply Touches_ret|].
      by apply (Touches_mkdir_at Q (p0 ++ [n]) t).
  - by apply (Touches_mkdir_at Q (p0 ++ [n]) t).
Qed.

End Touches.

(** * The cached installer on the disk *)

Section CacheOnDisk.

Import Installers.

Variable hash_of : string → string.
Variable build_script :
  string → string → string → string → string → string → string * string.
Variable fix_shebang : string → string → string.
Variable parse_entrypoints : string → list (string * string * string * string).
Variable _determine_scheme : string → string → string → res (string * string).
Variable construct_record_file : list RecordEntry → string.
Variable normalize_name : string → string.
Variable __version__ : string.

Abbreviation install :=
  (install hash_of build_script fix_shebang parse_entrypoints
     _determine_scheme construct_record_file).
Abbreviation install_wheel :=
  (install_wheel hash_of build_script fix_shebang parse_entrypoints
     _determine_scheme construct_record_file __version__).
Abbreviation _install_from_cache :=
  (_install_from_cache hash_of build_script fix_shebang parse_entrypoints
     _determine_scheme construct_record_file normalize_name __version__).
Abbreviation install_wheel_with_cache :=
  (install_wheel_with_cache hash_of build_script fix_shebang parse_entrypoints
     _determine_scheme construct_record_file normalize_name __version__).
Abbreviation materialize :=
  (materialize hash_of build_script fix_shebang parse_entrypoints
     _determine_scheme construct_record_file __version__).
Abbreviation entry_point_scripts :=
  (entry_point_scripts build_script parse_entrypoints).
Abbreviation footprint :=
  (footprint build_script parse_entrypoints normalize_name).
Abbreviation in_footprint :=
  (in_footprint build_script parse_entrypoints normalize_name).

Implicit Types Q : list string → Prop.
Implicit Types p q r t : list string.

Lemma Touches_getitem Q (d : gmap string string) key :
  Touches fs Q (Uninstallers.getitem d key).
Proof.
  unfold Uninstallers.getitem.
  destruct (d !! key); [apply Touches_ret|apply Touches_raise].
Qed.

Lemma Touches_of_res {A} Q (x : res A) : Touches fs Q (of_res x).
Proof. destruct x; [apply Touches_ret|apply Touches_raise]. Qed.

(** A write through the destination changes the target, and makes the
    directories on the way to it. *)
Lemma Touches_write_to_fs Q self scheme comps d :
  normal comps → comps ≠ [] →
  (∀ dir, scheme_dict self !! scheme = Some dir →
          ∃ r, dir = render r ∧ normal r ∧ Q (r ++ comps)) →
  Touches fs Q (write_to_fs hash_of self scheme (Str.join "/" comps) d).
Proof.
  intros Hc Hne Hdir.
  unfold write_to_fs, super_write_to_fs, Uninstallers.getitem.
  destruct (scheme_dict self !! scheme) as [dir|] eqn:Hl;
    [|apply Touches_bind_raise].
  destruct (Hdir dir eq_refl) as (r & -> & Hr & HQ).
  assert (normal (r ++ comps)) as Hn by by apply normal_app.
  apply Touches_bind_ret.
  rewrite join_render_rel, to_str_render by done.
  apply Touches_bind; [apply Touches_gets|]. intros present.
  apply Touches_bind.
  { by apply Touches_when, Touches_os, Touches_unlink_at. }
  intros _.
  apply Touches_bind_ret. rewrite join_render_rel by done.
  apply Touches_bind; [apply Touches_gets|]. intros taken.
  destruct taken; [apply Touches_raise|].
  apply Touches_bind; [apply Touches_gets|]. intros pe.
  apply Touches_bind.
  { apply Touches_when, Touches_os.
    destruct (exists_last Hne) as (cs & c & ->).
    apply normal_snoc in Hc as [Hcs Hcn].
    rewrite (assoc_L (++)) in *.
    rewrite dirname_render_snoc by (done || by apply normal_app).
    apply Touches_makedirs_go with (t := (r ++ cs) ++ [c]);
      [by apply normal_app|done|by apply prefix_app_r]. }
  intros _.
  apply Touches_bind; [|intros _; apply Touches_ret].
  by apply Touches_os, Touches_write_at.
Qed.

Lemma Touches_write_file Q self scheme comps d :
  normal comps → comps ≠ [] →
  (∀ dir, scheme_dict self !! scheme = Some dir →
          ∃ r, dir = render r ∧ normal r ∧ Q (r ++ comps)) →
  Touches fs Q
    (write_file hash_of fix_shebang self scheme (Str.join "/" comps) d).
Proof.
  intros. unfold write_file. case_bool_decide; by apply Touches_write_to_fs.
Qed.

Lemma Touches_collect {A} Q (l : list A) body :
  (∀ x, x ∈ l → Touches fs Q (body x)) → Touches fs Q (collect l body).
Proof.
  induction l as [|x l IH]; intros Hb; cbn; [apply Touches_ret|].
  apply Touches_bind; [apply Hb; left|]. intros rx.
  apply Touches_bind; [|intros ?; apply Touches_ret].
  apply IH. intros y Hy. apply Hb. by right.
Qed.

Section Archive.

Variables (source : WheelFile) (base : string).
Hypothesis base_ok : dist_info_dir source = Ok base.
Hypothesis plain : ∀ path data,
  (path, data) ∈ get_contents source →
  _determine_scheme path (data_dir source) (root_scheme source)
  = Ok (root_scheme source, path) ∧
  ∃ comps, path = Str.join "/" comps ∧ normal comps ∧ comps ≠ [].

Lemma Touches_entry_points Q destination :
  (∀ n dir,
     n ∈ entry_point_scripts source base (interpreter destination)
           (script_kind destination) →
     scheme_dict destination !! "scripts" = Some dir →
     ∃ r, dir = render r ∧ normal r ∧ Q (r ++ [n])) →
  Forall (λ n, FS.valid_name n = true)
    (entry_point_scripts source base (interpreter destination)
       (script_kind destination)) →
  Touches fs Q
    (write_entry_points hash_of build_script parse_entrypoints source base
       destination).
Proof.
  unfold write_entry_points, Installers.entry_point_scripts.
  intros HQ Hvalid. case_bool_decide; [|apply Touches_ret].
  destruct (read_dist_info source base "entry_points.txt") as [text|e];
    [|apply Touches_bind_raise].
  apply Touches_bind_ret. apply Touches_collect.
  intros [[[n m] a] s] Hin. unfold write_script.
  destruct (build_script n m a s _ _) as [sn data] eqn:Hb.
  assert (sn ∈ (λ '(name, module, attr, section),
                  (build_script name module attr section
                     (interpreter destination) (script_kind destination)).1)
               <$> parse_entrypoints text) as Hsn.
  { apply list_elem_of_fmap. exists (n, m, a, s). by rewrite Hb. }
  apply Touches_bind; [|intros ?; apply Touches_ret].
  change sn with (Str.join "/" [sn]).
  apply Touches_write_to_fs; [|done|intros dir Hd; by apply HQ].
  apply Forall_singleton. by eapply Forall_forall in Hvalid.
Qed.

(** The full install into a scheme whose directories are children of
    [/q1/.../qn] changes nodes at or below that directory only. *)
Lemma Touches_install_under q destination metadata :
  normal q →
  (∀ scheme dir,
     scheme_dict destination !! scheme = Some dir →
     ∃ n, FS.valid_name n = true ∧ dir = render (q ++ [n])) →
  Forall (λ n, FS.valid_name n = true)
    (entry_point_scripts source base (interpreter destination)
       (script_kind destination)) →
  Forall (λ fc : string * string, FS.valid_name fc.1 = true) metadata →
  Touches fs (λ k, q `prefix_of` k) (install source destination metadata).
Proof.
  intros Hq Hdirs Hscripts Hmeta.
  pose proof (dist_info_dir_valid _ _ base_ok) as Hvalid.
  assert (∀ scheme comps dir,
            scheme_dict destination !! scheme = Some dir →
            ∃ r, dir = render r ∧ normal r ∧ q `prefix_of` r ++ comps)
    as Hunder.
  { intros scheme comps dir Hl.
    destruct (Hdirs scheme dir Hl) as (n & Hn & ->).
    exists (q ++ [n]). split_and!; [done|by apply normal_snoc|].
    rewrite <-(assoc_L (++)). by apply prefix_app_r. }
  unfold Installers.install. rewrite base_ok. cbn [of_res].
  apply Touches_bind_ret.
  apply Touches_bind.
  { apply Touches_entry_points; [|done]. intros n dir _. apply Hunder. }
  intros scripts. apply Touches_bind.
  { apply Touches_collect. intros [path stream] Hin.
    case_bool_decide; [apply Touches_ret|].
    destruct (plain path stream Hin) as (-> & comps & -> & Hc & Hne).
    cbn [of_res]. apply Touches_bind_ret.
    apply Touches_bind; [|intros ?; apply Touches_ret].
    apply Touches_write_file; [done..|]. apply Hunder. }
  intros files. apply Touches_bind.
  { unfold write_metadata. apply Touches_collect. intros [filename contents] Hin.
    apply Touches_bind; [|intros ?; apply Touches_ret].
    eapply Forall_forall in Hmeta; [|exact Hin].
    rewrite join_valid_names by done.
    apply Touches_write_file; [by repeat constructor|done|]. apply Hunder. }
  intros metadata'. unfold finalize_installation.
  apply Touches_bind; [|intros ?; apply Touches_ret].
  rewrite join_valid_names by done.
  apply Touches_write_to_fs; [by repeat constructor|done|]. apply Hunder.
Qed.

(** ** The link install *)

Lemma in_footprint_intro c' scheme comps r :
  (scheme, Str.join "/" comps) ∈ footprint c' base →
  environment c' !! scheme = Some (render r) →
  normal r → normal comps → comps ≠ [] →
  in_footprint c' base (r ++ comps).
Proof.
  intros. exists scheme, (Str.join "/" comps), (render r).
  split_and!; [done..|by apply normal_app|]. by rewrite join_render_rel.
Qed.

Lemma footprint_script c' n :
  wheel_source c' = source →
  n ∈ entry_point_scripts source base (executable c')
        (_get_kind (environment c')) →
  ("scripts", n) ∈ footprint c' base.
Proof.
  intros Hsrc Hn. unfold Installers.footprint. rewrite Hsrc.
  apply elem_of_app. left. apply list_elem_of_fmap. by exists n.
Qed.

Lemma footprint_entry c' path data :
  wheel_source c' = source →
  (path, data) ∈ get_contents source →
  Str.endswith path ".pth" || Str.startswith path base = true →
  (root_scheme source, path) ∈ footprint c' base.
Proof.
  intros Hsrc Hin Hcond. unfold Installers.footprint. rewrite Hsrc.
  apply elem_of_app. right. apply elem_of_app. left.
  apply list_elem_of_fmap. exists (path, data). split; [done|].
  apply list_elem_of_filter. split; [|done]. cbn.
  by apply orb_true_iff in Hcond.
Qed.

Lemma footprint_own c' x :
  wheel_source c' = source →
  x ∈ [normalize_name (name c') +:+ ".pth"; PosixPath.join base "INSTALLER";
       PosixPath.join base "REFER_TO"; PosixPath.join base "RECORD"] →
  (root_scheme source, x) ∈ footprint c' base.
Proof.
  intros Hsrc Hx. unfold Installers.footprint. rewrite Hsrc.
  apply elem_of_app. right. apply elem_of_app. right.
  set_unfold. naive_solver.
Qed.

(** The link install changes the files of the footprint, and makes the
    directories on the way to them. *)
Lemma Touches_link_install c' package_cache :
  wheel_source c' = source →
  (∀ scheme dir,
     environment c' !! scheme = Some dir → ∃ r, dir = render r ∧ normal r) →
  FS.valid_name (normalize_name (name c') +:+ ".pth") = true →
  Forall (λ n, FS.valid_name n = true)
    (entry_point_scripts source base (executable c')
       (_get_kind (environment c'))) →
  Touches fs (in_footprint c' base) (_install_from_cache c' package_cache).
Proof.
  intros Hsrc Henv Hptr Hscripts.
  pose proof (dist_info_dir_valid _ _ base_ok) as Hvalid.
  assert (∀ scheme comps dir,
            (scheme, Str.join "/" comps) ∈ footprint c' base →
            normal comps → comps ≠ [] →
            environment c' !! scheme = Some dir →
            ∃ r, dir = render r ∧ normal r ∧ in_footprint c' base (r ++ comps))
    as Hfp.
  { intros scheme comps dir Hin Hc Hne Hl.
    destruct (Henv _ _ Hl) as (r & -> & Hr). exists r.
    split_and!; [done..|]. by apply in_footprint_intro with scheme. }
  assert (∀ filename dir,
            FS.valid_name filename = true →
            PosixPath.join base filename
            ∈ [normalize_name (name c') +:+ ".pth";
               PosixPath.join base "INSTALLER";
               PosixPath.join base "REFER_TO"; PosixPath.join base "RECORD"] →
            environment c' !! root_scheme source = Some dir →
            ∃ r, dir = render r ∧ normal r
                 ∧ in_footprint c' base (r ++ [base; filename])) as Hmeta.
  { intros filename dir Hf Hin Hl. apply Hfp with (root_scheme source);
      [|by repeat constructor|done|done].
    rewrite <-join_valid_names by done. by apply footprint_own. }
  unfold Installers._install_from_cache. rewrite Hsrc, base_ok. cbn [of_res].
  apply Touches_bind_ret.
  apply Touches_bind.
  { apply Touches_entry_points; [|done].
    cbn [scheme_dict interpreter script_kind]. intros n dir Hn Hl.
    apply Hfp with "scripts"; [|  |done|done].
    - by apply footprint_script.
    - apply Forall_singleton. by eapply Forall_forall in Hscripts. }
  intros scripts. apply Touches_bind.
  { apply Touches_collect. intros [path stream] Hin.
    destruct (_ || _) eqn:Hcond; [apply Touches_ret|].
    apply orb_false_iff in Hcond as [_ Hcond].
    apply negb_false_iff in Hcond.
    destruct (plain path stream Hin) as (-> & comps & -> & Hc & Hne).
    cbn [of_res]. apply Touches_bind_ret.
    apply Touches_bind; [|intros ?; apply Touches_ret].
    apply Touches_write_file; [done..|]. intros dir Hl.
    apply Hfp with (root_scheme source); [|done..].
    by eapply footprint_entry. }
  intros files.
  apply Touches_bind; [apply Touches_getitem|]. intros lib_path.
  apply Touches_bind.
  { change (normalize_name (name c') +:+ ".pth")
      with (Str.join "/" [normalize_name (name c') +:+ ".pth"]).
    apply Touches_write_file; [by repeat constructor|done|]. intros dir Hl.
    apply Hfp with (root_scheme source); [|by repeat constructor|done|done].
    apply footprint_own; [done|]. set_unfold. by left. }
  intros pointer. apply Touches_bind.
  { unfold write_metadata. cbn [collect].
    apply Touches_bind.
    { apply Touches_bind; [|intros ?; apply Touches_ret].
      rewrite join_valid_names by done.
      apply Touches_write_file; [by repeat constructor|done|]. intros dir Hl.
      apply Hmeta; [done| |done]. set_unfold. auto. }
    intros r1. apply Touches_bind; [|intros ?; apply Touches_ret].
    apply Touches_bind; [|intros ?; apply Touches_ret].
    apply Touches_bind; [|intros ?; apply Touches_ret].
    rewrite join_valid_names by done.
    apply Touches_write_file; [by repeat constructor|done|]. intros dir Hl.
    apply Hmeta; [done| |done]. set_unfold. auto. }
  intros metadata. apply Touches_bind.
  { unfold finalize_installation.
    apply Touches_bind; [|intros ?; apply Touches_ret].
    rewrite join_valid_names by done.
    apply Touches_write_to_fs; [by repeat constructor|done|]. intros dir Hl.
    apply Hmeta; [done| |done]. set_unfold. auto. }
  intros _. unfold CachedPackage.add_referrer. apply Touches_modify. by intros [].
Qed.

Lemma footprint_rel_normal c' scheme rel :
  wheel_source c' = source →
  FS.valid_name (normalize_name (name c') +:+ ".pth") = true →
  Forall (λ n, FS.valid_name n = true)
    (entry_point_scripts source base (executable c')
       (_get_kind (environment c'))) →
  (scheme, rel) ∈ footprint c' base →
  ∃ comps, rel = Str.join "/" comps ∧ normal comps ∧ comps ≠ [].
Proof.
  intros Hsrc Hptr Hscripts Hin.
  pose proof (dist_info_dir_valid _ _ base_ok) as Hvalid.
  unfold Installers.footprint in Hin. rewrite Hsrc in Hin.
  apply elem_of_app in Hin as [Hin|Hin]; [|apply elem_of_app in Hin as [Hin|Hin]].
  - apply list_elem_of_fmap in Hin as (n & [= -> ->] & Hn).
    exists [n]. split_and!; [done| |done].
    apply Forall_singleton. by eapply Forall_forall in Hscripts.
  - apply list_elem_of_fmap in Hin as ([path data] & [= -> ->] & Hin).
    apply list_elem_of_filter in Hin as [_ Hin].
    by destruct (plain path data Hin) as (_ & comps & -> & Hc & Hne); exists comps.
  - assert (∀ filename, FS.valid_name filename = true →
              ∃ comps, PosixPath.join base filename = Str.join "/" comps
                       ∧ normal comps ∧ comps ≠ []) as Hmeta.
    { intros filename Hf. exists [base; filename].
      rewrite join_valid_names by done. split_and!; [done| |done].
      by repeat constructor. }
    apply elem_of_cons in Hin as [[= -> ->]|Hin];
      [|apply elem_of_cons in Hin as [[= -> ->]|Hin];
        [|apply elem_of_cons in Hin as [[= -> ->]|Hin];
          [|apply elem_of_cons in Hin as [[= -> ->]|Hin];
            [|by apply elem_of_nil in Hin]]]].
    + exists [normalize_name (name c') +:+ ".pth"].
      split_and!; [done| |done]. by apply Forall_singleton.
    + by apply Hmeta.
    + by apply Hmeta.
    + by apply Hmeta.
Qed.

(** A file of the footprint is not in a directory that is apart from the
    directories of the environment. *)
Lemma footprint_apart q c' k :
  wheel_source c' = source →
  (∀ scheme dir, environment c' !! scheme = Some dir → apart q dir) →
  FS.valid_name (normalize_name (name c') +:+ ".pth") = true →
  Forall (λ n, FS.valid_name n = true)
    (entry_point_scripts source base (executable c')
       (_get_kind (environment c'))) →
  in_footprint c' base k → ¬ q `prefix_of` k.
Proof.
  intros Hsrc Henv Hptr Hscripts (scheme & rel & dir & Hin & Hl & Hk & Heq) Hqk.
  destruct (Henv _ _ Hl) as (r & -> & Hr & Hqr & Hrq).
  destruct (footprint_rel_normal _ _ _ Hsrc Hptr Hscripts Hin)
    as (comps & -> & Hc & Hne).
  rewrite join_render_rel in Heq by done.
  apply render_inj in Heq; [|done|by apply normal_app]. subst k.
  assert (r `prefix_of` r ++ comps) as Hr' by by apply prefix_app_r.
  destruct (prefix_weak_total _ _ _ Hqk Hr'); done.
Qed.

(** ** The install into the cache entry *)

Lemma top_level_join comps :
  normal comps → comps ≠ [] →
  top_level (Str.join "/" comps) = default EmptyString (head comps).
Proof.
  intros Hc Hne. unfold top_level.
  rewrite split_on_join; [by destruct comps|by apply normal_sep_free|done].
Qed.

Lemma write_to_fs_scheme self scheme path d w0 e w1 :
  write_to_fs hash_of self scheme path d w0 = (Ok e, w1) →
  is_Some (scheme_dict self !! scheme).
Proof.
  unfold write_to_fs, Uninstallers.getitem.
  destruct (scheme_dict self !! scheme); [by eexists|done].
Qed.

(** When the full install has returned, every entry of the archive
    outside the metadata directory is a file of the directory of the
    root scheme, with the bytes of the archive. *)
Lemma install_files_written destination metadata w0 w1 :
  root_scheme source ≠ "scripts" →
  NoDup (get_contents source).*1 →
  Forall (λ fc : string * string, FS.valid_name fc.1 = true) metadata →
  install source destination metadata w0 = (Ok tt, w1) →
  ∃ dir,
    scheme_dict destination !! root_scheme source = Some dir ∧
    ∀ r path data comps,
      dir = render r → normal r →
      (path, data) ∈ get_contents source → top_level path ≠ base →
      path = Str.join "/" comps → normal comps → comps ≠ [] →
      reachable (FS.nodes (fs w1)) (r ++ comps) ∧
      FS.nodes (fs w1) !! (r ++ comps) = Some (FS.File data).
Proof.
  intros Hscr Hnd Hmeta Hrun.
  pose proof (dist_info_dir_valid _ _ base_ok) as Hvalid.
  unfold Installers.install in Hrun. rewrite base_ok in Hrun.
  cbn [of_res] in Hrun.
  apply bind_ok in Hrun as (? & ? & [= <- <-] & Hrun).
  apply bind_ok in Hrun as (scripts & ws & _ & Hrun).
  apply bind_ok in Hrun as (files & wf & Hfiles & Hrun).
  apply bind_ok in Hrun as (meta' & wm & Hmd & Hfin).
  assert (is_Some (scheme_dict destination !! root_scheme source)) as [dir Hdir].
  { unfold finalize_installation in Hfin.
    apply bind_ok in Hfin as (e & ? & Hfin & _).
    by eapply write_to_fs_scheme. }
  exists dir. split; [done|].
  intros r path data comps -> Hr Hin Htop -> Hc Hne.
  assert (Str.join "/" comps ≠ PosixPath.join base "RECORD") as Hrec.
  { intros Heq. apply Htop. rewrite Heq, join_valid_names by done.
    by rewrite top_level_join by by repeat constructor. }
  match type of Hfiles with
  | collect _ ?b _ = _ => set (body := b) in *
  end.
  assert (∀ x, Keeps fs only_dirs (body x)) as HbodyK.
  { intros [p' stream]. unfold body. case_match; [apply Keeps_ret|].
    apply Keeps_bind; [apply Keeps_of_res|]. intros [sch dest].
    apply Keeps_bind; [apply Keeps_write_file|]. intros ?. apply Keeps_ret. }
  assert (∀ l : list (string * string),
            l ⊆ get_contents source →
            Touches fs
              (λ k, ∃ path' data' comps',
                      (path', data') ∈ l ∧ path' = Str.join "/" comps' ∧
                      normal comps' ∧ k = r ++ comps')
              (collect l body)) as HbodyT.
  { intros l Hl. apply Touches_collect. intros [p' stream] Hx. unfold body.
    case_bool_decide; [apply Touches_ret|].
    destruct (plain p' stream (Hl _ Hx)) as (-> & comps' & -> & Hc' & Hne').
    cbn [of_res]. apply Touches_bind_ret.
    apply Touches_bind; [|intros ?; apply Touches_ret].
    apply Touches_write_file; [done..|]. intros dir'. rewrite Hdir.
    intros [= <-]. exists r. split_and!; [done..|].
    by exists (Str.join "/" comps'), stream, comps'. }
  assert (∀ l : list (string * string),
            l ⊆ get_contents source → NoDup l.*1 →
            ∀ wa fs' wb,
              collect l body wa = (Ok fs', wb) →
              (Str.join "/" comps, data) ∈ l →
              reachable (FS.nodes (fs wb)) (r ++ comps) ∧
              FS.nodes (fs wb) !! (r ++ comps) = Some (FS.File data))
    as Hloop.
  { induction l as [|x l IH]; intros Hsub Hnd' wa fs' wb Hcol Hin';
      [by apply elem_of_nil in Hin'|].
    cbn [collect] in Hcol.
    apply bind_ok in Hcol as (rx & wx & Hx & Hcol).
    apply bind_ok in Hcol as (rs & wy & Hcol & [= _ <-]).
    cbn [fmap list_fmap] in Hnd'. apply NoDup_cons in Hnd' as [Hnew Hnd'].
    assert (l ⊆ get_contents source) as Hsub'.
    { intros y Hy. apply Hsub. by right. }
    apply elem_of_cons in Hin' as [<-|Hin']; [|by eapply IH].
    unfold body in Hx. rewrite bool_decide_false in Hx by done.
    destruct (plain (Str.join "/" comps) data Hin) as (Hd & _).
    rewrite Hd in Hx. cbn [of_res] in Hx.
    apply bind_ok in Hx as (? & ? & [= <- <-] & Hx).
    apply bind_ok in Hx as (record & ? & Hx & [= _ <-]).
    unfold write_file in Hx. rewrite bool_decide_false in Hx by done.
    apply write_to_fs_ok with (r := r) in Hx as [Hreach Hfile]; [|done..].
    split.
    - eapply reachable_keeps; [|exact Hreach].
      eapply Keeps_collect; [exact HbodyK|exact Hcol].
    - destruct (HbodyT l Hsub' _ _ _ Hcol) as [_ Ht].
      destruct (Ht (r ++ comps))
        as [->|[(path' & data' & comps' & Hin' & -> & Hc' & Heq)
               |(Hnone & _)]]; [done| |congruence].
      apply app_inv_head in Heq as <-. destruct Hnew.
      apply list_elem_of_fmap. by exists (Str.join "/" comps, data'). }
  destruct (Hloop _ (reflexivity _) Hnd _ _ _ Hfiles Hin) as [Hreach Hfile].
  set (Qm := λ k : list string,
                ∃ f, FS.valid_name f = true ∧ k = r ++ [base; f]).
  assert (∀ dir',
            scheme_dict destination !! root_scheme source = Some dir' →
            ∀ f, FS.valid_name f = true →
                 ∃ r', dir' = render r' ∧ normal r' ∧ Qm (r' ++ [base; f]))
    as HQm.
  { intros dir'. rewrite Hdir. intros [= <-] f Hf. exists r.
    split_and!; [done..|]. by exists f. }
  assert (touches Qm (fs wf) (fs w1)) as [_ Ht].
  { eapply touches_trans.
    - assert (Touches fs Qm
                (write_metadata hash_of fix_shebang base (root_scheme source)
                   destination metadata)) as HT; [|exact (HT _ _ _ Hmd)].
      unfold write_metadata. apply Touches_collect.
      intros [filename contents] Hx.
      eapply Forall_forall in Hmeta; [|exact Hx].
      apply Touches_bind; [|intros ?; apply Touches_ret].
      rewrite join_valid_names by done.
      apply Touches_write_file; [by repeat constructor|done|].
      intros dir' Hl. by apply HQm.
    - match type of Hfin with
      | ?m _ = _ => assert (Touches fs Qm m) as HT; [|exact (HT _ _ _ Hfin)]
      end.
      unfold finalize_installation.
      apply Touches_bind; [|intros ?; apply Touches_ret].
      rewrite join_valid_names by done.
      apply Touches_write_to_fs; [by repeat constructor|done|].
      intros dir' Hl. by apply HQm. }
  assert (keeps only_dirs (fs wf) (fs w1)) as Hk.
  { eapply keeps_trans.
    - eapply Keeps_write_metadata, Hmd.
    - eapply Keeps_finalize, Hfin. }
  split; [by eapply reachable_keeps|].
  destruct (Ht (r ++ comps)) as [->|[(f & Hf & Heq)|(Hnone & _)]];
    [done| |congruence].
  apply app_inv_head in Heq as ->. destruct Htop.
  by rewrite top_level_join by by repeat constructor.
Qed.

End Archive.

(** The directories of the scheme of a cache entry are children of the
    directory of the entry. *)
Lemma cache_scheme_lookup q scheme dir :
  normal q → CachedPackage.scheme (render q) !! scheme = Some dir →
  FS.valid_name scheme = true ∧ dir = render (q ++ [scheme]).
Proof.
  intros Hq Hl. unfold CachedPackage.scheme in Hl.
  apply elem_of_list_to_map_2 in Hl.
  apply list_elem_of_fmap in Hl as (n & [= -> ->] & Hn).
  assert (FS.valid_name n = true) as Hvalid.
  { repeat (apply elem_of_cons in Hn as [->|Hn]; [done|]).
    by apply elem_of_nil in Hn. }
  split; [done|]. by apply join_render.
Qed.

Lemma Touches_mkdir_exist_ok q :
  normal q → Touches fs (λ k, q `prefix_of` k) (mkdir_exist_ok (render q)).
Proof.
  intros Hq. unfold mkdir_exist_ok. apply Touches_try_except.
  - apply Touches_os. by apply (Touches_mkdir_at _ q q).
  - intros s r s'. destruct (FS.isdir _ _); intros [= <- <-];
      apply touches_refl.
Qed.

(** The first consumption of a cache entry changes nodes at or below the
    directory of the entry only. *)
Lemma Touches_materialize c base q :
  dist_info_dir (wheel_source c) = Ok base →
  (∀ path data,
     (path, data) ∈ get_contents (wheel_source c) →
     _determine_scheme path (data_dir (wheel_source c))
       (root_scheme (wheel_source c))
     = Ok (root_scheme (wheel_source c), path) ∧
     ∃ comps, path = Str.join "/" comps ∧ normal comps ∧ comps ≠ []) →
  cache_path c = render q → normal q →
  Forall (λ n, FS.valid_name n = true)
    (entry_point_scripts (wheel_source c) base (executable c)
       (_get_kind (environment c))) →
  Touches fs (λ k, q `prefix_of` k) (materialize c).
Proof.
  intros Hbase Hplain Hcp Hq Hscripts. unfold Installers.materialize.
  rewrite Hcp.
  apply Touches_bind; [apply Touches_modify; by intros []|]. intros _.
  apply Touches_bind; [by apply Touches_mkdir_exist_ok|]. intros _.
  unfold Installers.install_wheel.
  apply (Touches_install_under (wheel_source c) base Hbase Hplain);
    [done| |done|by repeat constructor].
  cbn [scheme_dict default]. intros scheme dir Hl.
  apply cache_scheme_lookup in Hl as [Hn ->]; [|done]. by exists scheme.
Qed.


End CacheOnDisk.



(** A directory of the cache entry that is there at the start, and
    empty, is taken for a filled entry: the cached install returns, the
    environment gets its pointer file, and no file of the payload is on
    the disk. *)
Lemma install_wheel_with_cache_empty_entry :
  let c := Examples.net_candidate Examples.paths in
  let '(r, w1) := Examples.install_wheel_with_cache c None Examples.stale in
  r = Ok tt ∧
  FS.isdir (fs Examples.stale) (Installers.cache_path c) = true ∧
  FS.children (FS.nodes (fs w1)) ["tmp"; "packages"; "net-1.0-py3-none-any"]
  = [] ∧
  FS.read (fs w1) "/env/lib/net.pth"
  = Ok ("/tmp/packages/net-1.0-py3-none-any/purelib" +:+ Examples.LF) ∧
  FS.exists_ (fs w1)
    "/tmp/packages/net-1.0-py3-none-any/purelib/net/__init__.py" = false.
Proof. vm_compute. done. Qed.
